(* ===== verification/_CoqProject ===== *)
-Q . S2P
Prelude.v
GoNum.v
GoStr.v
Lines.v
GoTime.v
Quantity.v
Helm.v
Rules.v
CostDetectors.v
SecurityDetectors.v
AllRules.v
Analyze.v
Cli.v
Diff.v
Utf8.v
Regex.v
Sanitizer.v
PrComment.v
Render.v
Environment.v
Confidence.v
Strategy.v
Cost.v
Observed.v
Operators.v
GateDiff.v
Gate.v
RateLimit.v
Tenancy.v
Sha256.v
Base64.v
Json.v
Cluster.v
Rfc3339.v
Csv.v
Token.v
Ingest.v
Receipts.v
Attribution.v
PrLabels.v
Coalesce.v
PromCache.v
Graph.v
Rollback.v
Onboarding.v
Composer.v
LlmValidator.v
Validator.v
Dispatcher.v
ApplyFix.v
Dynamic.v
PromClient.v
AgentLoop.v
JsonOut.v
Share.v
Sandbox.v
Session.v
Preflight.v
Registry.v
Duration.v
Dashboard.v
Config.v
Http.v
Api.v
Telemetry.v
JsonTree.v
Anthropic.v
Template.v
Html.v
Preview.v
Notify.v
Worker.v
AgentMain.v
Command.v
AttributionPg.v
ApiMain.v
Gitops.v
DryRun.v
Platform.v
Canary.v
