(* ===== verification/Prelude.v ===== *)
(** * Optiqor: a verification development

    Optiqor reads Helm values, finds wasteful or unsafe Kubernetes settings and
    reports them; a back end turns findings into reviewed changes, an agent
    observes clusters for it.  This library models the three programs and proves
    what makes them correct.  A file's own comment names the source it models.

    ** The command line ([src/cmd], [src/internal], [src/pkg])

    A values file is decoded to a YAML tree, [ParseValues] finds workloads in it,
    every detector runs on every workload, the findings are sorted, filtered,
    scored, printed, written as HTML or shared, and the exit status follows from a
    severity threshold.

    - [Quantity], [Helm]: pkg/parser.
    - [Rules], [CostDetectors], [SecurityDetectors], [AllRules]: pkg/rules, the
      engine [Run] and one definition per detector.
    - [Analyze], [Diff]: internal/analyze.
    - [Cli], [Command]: internal/config, internal/roast and cmd/optiqor: the
      decisions of each command, then [main] as a whole, from parsed arguments to
      effects in order and a status.
    - [Render], [Template], [Html]: internal/render; pkg/htmlrender over a model of
      html/template (actions, contexts, escaping), with the pages of shares and
      receipts.
    - [JsonOut], [Share]: JSON output, and the upload behind --share.

    ** The service ([src/backend/cmd/api], [src/backend/internal])

    A request passes the middleware, the multiplexer and the guard of its route,
    then a handler; handlers are functions from a request and the world to actions
    on the response and a new world.

    - [Http], [Api], [ApiMain]: middleware and error envelope; routes, guards,
      webhook, OAuth; boot and end of the process.
    - [Sandbox], [Session], [Dashboard], [Preflight], [Preview], [Ingest],
      [Receipts], [Attribution], [AttributionPg]: the endpoints and their stores;
      the last is the store and resolver on Postgres under row policies.
    - [Tenancy], [Config], [RateLimit], [Registry], [Telemetry], [Platform]: scope,
      configuration, limiter, registries, metrics and redaction, log context.
    - [Token], with [Sha256], [Base64], [Json], [Rfc3339]: signed tokens.
    - [Gitops], [Csv], [Coalesce], [Onboarding], [Notify], [DryRun].

    ** Changes and the worker ([src/backend/cmd/worker])

    [ApplyFix] composes the stages of a change, each the definition of its own
    file: [Operators], [Environment], [Strategy], [Confidence], [Composer] (with
    [Sanitizer] over [Regex], [LlmValidator], [Anthropic]; its canary over time is
    [Canary]), [GateDiff] and [Gate],
    [Validator], [PrComment], [PrLabels].  [Cost] and [Observed] price and detect;
    [Rollback] watches; [Dispatcher] runs workflows concurrently; [Worker] wires
    them, with the Temporal adapter.

    ** The agent ([src/backend/cmd/agent], [src/backend/internal/agent])

    [Cluster] and [Dynamic] read the caches, [Graph] joins them, [PromClient] and
    [PromCache] query metrics, [AgentLoop] builds and sends a snapshot per tick up
    to the row the service keeps, [AgentMain] starts the process.

    ** The language

    This file (results, sorting and map iteration as documented contracts),
    [GoNum] (wrapping int64, float64), [GoStr], [Lines], [Utf8], [GoTime],
    [Duration]; [JsonTree] shows that what JsonOut writes Json reads back.

    ** How the code is represented

    Structs are records, enumerations inductive types or the strings the code
    uses, a nil pointer [None], an [(T, error)] result the type [result], a panic
    an explicit value.  int and int64 are [Z] with every operation wrapped to 64
    bits; a float64 is an exact dyadic number, each operation the exact one
    followed by one rounding to nearest even; the conversion of an out-of-range
    float is a parameter ([GoPlatform]).  What Go leaves open is a class with the
    documented contract: [GoSort] (any sorted permutation, for [sort.Slice]),
    [GoMapOrder] (any order of a map's keys).  Third-party code is an argument: the
    YAML decoder, terminal styles, client-go, the model, the HTTP transport, SQL
    servers beyond what the statements say.  The dispatcher, the query cache and
    the api's process are transition systems whose steps are the critical sections
    of the code; components behind one mutex are sequences of calls.

    ** What is proved

    - Parsing, engine, analysis: [parse_values_spec], [run_order_independent],
      [ratio_detectors_exact], [savings_exact_and_bounded], [score_spec],
      [diff_antisymmetric].
    - Command line and output: [main_contract], [share_private], [report_page].
    - Changes: [apply_fix_publishes], [published_diff_applies],
      [unified_diff_roundtrip], [post_validator_spec], [default_dispatchable_iff],
      [generate_fix_spend], [sanitize_contract], [dry_run_stage].
    - Service: [api_guards], [middleware_contract], [webhook_authentic],
      [merge_recorded_once], [share_link_lives], [session_lifecycle],
      [snapshot_gate], [ingest_isolated], [preview_answers], [transition_answers],
      [receipt_roundtrip], [issued_token_verifies], [histogram_exact],
      [onboarding_invariant], [api_boots], [api_ends].
    - Concurrency: [dispatcher_invariant], [drain_safety], [drain_terminates],
      [prom_cache_safe], [limiter_refines_counter], [coalesce_refines],
      [canary_reports].
    - Processes: [worker_contract], [agent_run_delivers], [agent_starts].
    - Lemmas named [.._divergences], or after what goes wrong ([drain_race],
      [failure_lost], [wired_never_marks], [limit_evaded], [app_resolves_nothing]),
      show on concrete inputs where code and comments part.

    ** Bounds and fuel

    Recursion is structural on lists, trees or bytes wherever the code's loop is
    over one.  Where it is not, the fuel is a length of the input and each round
    consumes at least one element (bytes for trimming, decoding runes, splitting;
    the lines of the text for a hunk's block; owners have the code's own limit);
    the JSON decoder's is twice the length of the text plus two, enough because a
    value and a list of members each read a byte; templates run with the depth 16,
    above the nesting of every template there is, which the type check of the
    templates establishes for all data.
    Numeric hypotheses are the ranges in which machine arithmetic is exact (2^53
    for float64 integers, int64 for sums); what happens beyond them is shown where
    the code can get there.

    ** Not modelled

    The decoders and SDKs named above, the colours of the terminal theme, sockets,
    goroutine scheduling inside net/http, connection pools, log encoding, the fakes
    and harnesses the tests use, Terraform, Helm charts and the TypeScript front
    end: none of them has logic of the program's own that a definition could state
    without inventing it.

    This file holds the shared prelude: results, tactics, string order, strict
    weak orders, stable sorting, the contracts of Go's library, sums. *)

From Stdlib Require Export ZArith Lia Bool Sorted.
From Stdlib Require Import Ascii.
From stdpp Require Export gmap strings list sorting pretty.

Declare Scope go_scope.
Delimit Scope go_scope with go.

(** ** Errors: Go's [(T, error)] results *)

Inductive result (E A : Type) :=
| Ok (a : A)
| Err (e : E).
Arguments Ok {E A} _.
Arguments Err {E A} _.

Definition rbind {E A B} (r : result E A) (k : A → result E B) : result E B :=
  match r with Ok a => k a | Err e => Err e end.

Notation "'let*' x ':=' r 'in' k" := (rbind r (fun x => k))
  (at level 10, x name, r at level 100, k at level 200) : go_scope.
Open Scope go_scope.

Definition is_ok {E A} (r : result E A) : bool :=
  match r with Ok _ => true | Err _ => false end.

Lemma rbind_Ok_inv {E A B} (r : result E A) (k : A → result E B) b :
  rbind r k = Ok b → ∃ a, r = Ok a ∧ k a = Ok b.
Proof. destruct r; simpl; [eauto | done]. Qed.

(** ** Tactics *)

(** Splits every [match]/[if] whose scrutinee is visible in the goal. *)
Ltac split_matches :=
  repeat (case_match; simplify_eq/=; try done).

(** Turns boolean tests on [Z] and on booleans into propositions. *)
Ltac bool_to_prop :=
  repeat match goal with
  | H : _ && _ = true |- _ => apply andb_prop in H; destruct H
  | H : negb _ = true |- _ => apply negb_true_iff in H
  | H : negb _ = false |- _ => apply negb_false_iff in H
  | H : _ || _ = false |- _ => apply orb_false_elim in H; destruct H
  | H : (_ <=? _)%Z = true |- _ => apply Z.leb_le in H
  | H : (_ <=? _)%Z = false |- _ => apply Z.leb_gt in H
  | H : (_ <? _)%Z = true |- _ => apply Z.ltb_lt in H
  | H : (_ <? _)%Z = false |- _ => apply Z.ltb_ge in H
  | H : (_ =? _)%Z = true |- _ => apply Z.eqb_eq in H
  | H : (_ =? _)%Z = false |- _ => apply Z.eqb_neq in H
  end.

(** Linear arithmetic with division by constants. *)
Ltac div_lia := Z.to_euclidean_division_equations; lia.

Create HintDb go.

(** ** Byte-wise string order (Go's [<] on strings) *)

Lemma ltb_leb (s t : string) : String.ltb s t = negb (String.leb t s).
Proof.
  unfold String.ltb, String.leb. rewrite (String.compare_antisym s t).
  by destruct (String.compare t s).
Qed.

Lemma ltb_irrefl (s : string) : String.ltb s s = false.
Proof.
  rewrite ltb_leb. apply negb_false_iff.
  destruct (String.leb_total s s) as [H|H]; done.
Qed.

Lemma leb_trans (s t u : string) :
  String.leb s t = true → String.leb t u = true → String.leb s u = true.
Proof.
  intros H1 H2. apply Is_true_true. trans t; by apply Is_true_true.
Qed.

Lemma ltb_false_eq (s t : string) :
  String.ltb s t = false → String.ltb t s = false → s = t.
Proof.
  rewrite !ltb_leb, !negb_false_iff. intros. by apply String.leb_antisym.
Qed.

(** ** Strict weak orders, as [sort.Slice] and [sort.SliceStable] require *)

Class StrictWeak {A} (less : A → A → bool) : Prop := {
  sw_irrefl x : less x x = false;
  (** "not less" is transitive; with irreflexivity and asymmetry this is the
      documented contract of a less function *)
  sw_asym x y : less x y = true → less y x = false;
  sw_ntrans x y z : less x y = false → less y z = false → less x z = false;
}.

#[export] Instance string_less_sw {A} (f : A → string) :
  StrictWeak (λ x y, String.ltb (f x) (f y)).
Proof.
  split.
  - intros. apply ltb_irrefl.
  - intros x y. rewrite !ltb_leb, negb_true_iff, negb_false_iff.
    destruct (String.leb_total (f x) (f y)); congruence.
  - intros x y z. rewrite !ltb_leb, !negb_false_iff. intros. by eapply leb_trans.
Qed.

#[export] Instance Z_less_sw {A} (f : A → Z) : StrictWeak (λ x y, (f x <? f y)%Z).
Proof. split; intros *; rewrite ?Z.ltb_lt, ?Z.ltb_ge; lia. Qed.

(** Lexicographic combination: compare with [l1], and with [l2] on a tie. *)
Definition lex_less {A} (l1 l2 : A → A → bool) (x y : A) : bool :=
  l1 x y || (negb (l1 y x) && l2 x y).

#[export] Instance lex_less_sw {A} (l1 l2 : A → A → bool) :
  StrictWeak l1 → StrictWeak l2 → StrictWeak (lex_less l1 l2).
Proof.
  intros H1 H2. split.
  - intros x. unfold lex_less. by rewrite !sw_irrefl.
  - intros x y. unfold lex_less.
    destruct (l1 x y) eqn:E1; simpl.
    + intros _. by rewrite (sw_asym _ _ E1).
    + destruct (l1 y x); simpl; [done|]. apply sw_asym.
  - intros x y z. unfold lex_less.
    destruct (l1 x y) eqn:Exy, (l1 y z) eqn:Eyz; simpl; try done.
    pose proof (sw_ntrans x y z Exy Eyz) as ->; simpl.
    intros Hx Hy. destruct (l1 z x) eqn:Ezx; simpl; [done|].
    pose proof (sw_ntrans y z x Eyz Ezx) as Eyx.
    pose proof (sw_ntrans z x y Ezx Exy) as Ezy.
    rewrite Eyx in Hx. rewrite Ezy in Hy. simpl in *. by eapply sw_ntrans.
Qed.

Lemma StrictWeak_ext {A} (l1 l2 : A → A → bool) :
  (∀ x y, l1 x y = l2 x y) → StrictWeak l1 → StrictWeak l2.
Proof.
  intros E Hl. split; intros *; rewrite <-!E; [apply sw_irrefl|apply sw_asym|apply sw_ntrans].
Qed.

(** A key compared by Go's "if differ then compare" idiom, lexicographically. *)
Lemma lex_Z (a b : Z) (rest : bool) :
  ((if negb (a =? b) then b <? a else rest) =
  (- a <? - b) || (negb (- b <? - a) && rest))%Z.
Proof.
  destruct (Z.eqb_spec a b) as [->|Hne]; cbn [negb].
  - by rewrite Z.ltb_irrefl.
  - destruct (Z.ltb_spec b a).
    + by rewrite (proj2 (Z.ltb_lt (- a) (- b)%Z)) by lia.
    + rewrite (proj2 (Z.ltb_ge (- a) (- b))) by lia.
      by rewrite (proj2 (Z.ltb_lt (- b) (- a))) by lia.
Qed.

Lemma lex_string (a b : string) (rest : bool) :
  (if negb (String.eqb a b) then String.ltb a b else rest) =
  String.ltb a b || (negb (String.ltb b a) && rest).
Proof.
  destruct (String.eqb_spec a b) as [->|Hne]; cbn [negb].
  - by rewrite ltb_irrefl.
  - destruct (String.ltb a b) eqn:E1; [done|]. destruct (String.ltb b a) eqn:E2; [done|].
    by destruct Hne; apply ltb_false_eq.
Qed.

(** ** Sorting *)

Section StableSort.
Context {A : Type} (less : A → A → bool).

Fixpoint insert_stable (x : A) (l : list A) : list A :=
  match l with
  | [] => [x]
  | y :: l' => if less y x then y :: insert_stable x l' else x :: l
  end.

(** The stable sort of a list: [sort.SliceStable] has only one possible
    result, and this computes it. *)
Definition sort_stable (l : list A) : list A := foldr insert_stable [] l.

Definition sorted_by : list A → Prop := StronglySorted (λ x y, less y x = false).

Definition equiv_key (x y : A) : bool := negb (less x y) && negb (less y x).

Lemma insert_stable_perm x l : insert_stable x l ≡ₚ x :: l.
Proof.
  induction l as [|y l IH]; simpl; [done|].
  case_match; [|done]. rewrite IH. constructor.
Qed.

Lemma sort_stable_perm l : sort_stable l ≡ₚ l.
Proof.
  induction l as [|x l IH]; simpl; [done|]. by rewrite insert_stable_perm, IH.
Qed.

Context `{!StrictWeak less}.

Lemma insert_stable_sorted x l : sorted_by l → sorted_by (insert_stable x l).
Proof.
  unfold sorted_by. induction 1 as [|y l Hl IH Hy]; simpl.
  { repeat constructor. }
  destruct (less y x) eqn:E.
  - constructor; [done|]. rewrite insert_stable_perm.
    constructor; [by apply sw_asym|done].
  - constructor; [by constructor|]. constructor; [done|].
    eapply Forall_impl; [done|]. intros z Hz; simpl in *. by eapply sw_ntrans.
Qed.

Lemma sort_stable_sorted l : sorted_by (sort_stable l).
Proof.
  induction l; simpl; [constructor|]. by apply insert_stable_sorted.
Qed.

Lemma equiv_key_less_l x y z : equiv_key x y = true → less z x = less z y.
Proof.
  unfold equiv_key. intros H. bool_to_prop.
  destruct (less z x) eqn:E1, (less z y) eqn:E2; try done.
  - rewrite (sw_ntrans z y x) in E1; done.
  - rewrite (sw_ntrans z x y) in E2; done.
Qed.

Lemma insert_stable_filter k x l :
  List.filter (equiv_key k) (insert_stable x l) = List.filter (equiv_key k) (x :: l).
Proof.
  induction l as [|y l IH]; [done|]. simpl in *.
  destruct (less y x) eqn:E; [|done]. simpl. rewrite IH.
  destruct (equiv_key k y) eqn:Ey, (equiv_key k x) eqn:Ex; try done.
  exfalso. pose proof (equiv_key_less_l _ _ y Ex) as H1.
  unfold equiv_key in Ey. bool_to_prop. congruence.
Qed.

(** Elements with equal keys keep their input order. *)
Lemma sort_stable_filter k l :
  List.filter (equiv_key k) (sort_stable l) = List.filter (equiv_key k) l.
Proof.
  induction l as [|x l IH]; [done|]. cbn [sort_stable foldr].
  change (foldr insert_stable [] l) with (sort_stable l).
  rewrite insert_stable_filter. simpl. by rewrite IH.
Qed.

(** A sorted permutation is unique when no two elements tie. *)
Lemma sorted_by_unique l1 l2 :
  (∀ x y, x ∈ l1 → y ∈ l1 → equiv_key x y = true → x = y) →
  sorted_by l1 → sorted_by l2 → l1 ≡ₚ l2 → l1 = l2.
Proof.
  intros Hinj Hs1 Hs2 Hp. eapply StronglySorted_unique_strong; [|done..].
  intros x y Hx Hy Hxy Hyx. apply Hinj; [done|by rewrite Hp|].
  unfold equiv_key. by rewrite Hxy, Hyx.
Qed.
End StableSort.

(** The result depends on the order only through the listed elements. *)
Lemma sort_stable_ext {A} (less1 less2 : A → A → bool) l :
  (∀ x y, x ∈ l → y ∈ l → less1 x y = less2 x y) → sort_stable less1 l = sort_stable less2 l.
Proof.
  intros Hext. unfold sort_stable. induction l as [|x l IH]; [done|]. simpl.
  rewrite IH by (intros; apply Hext; by right).
  assert (∀ y, y ∈ foldr (insert_stable less2) [] l → y ∈ l) as Hin.
  { intros y. change (foldr _ _ l) with (sort_stable less2 l). by rewrite sort_stable_perm. }
  revert Hin. generalize (foldr (insert_stable less2) [] l). intros l' Hin.
  induction l' as [|y l' IH']; [done|]. simpl.
  rewrite (Hext y x) by (by left || right; apply Hin; by left).
  destruct (less2 y x); [|done]. f_equal. apply IH'. intros z Hz. apply Hin. by right.
Qed.

(** Go's [sort.Slice]: some sorted permutation, not necessarily the stable
    one. Clients are verified against the documented contract only. *)
Class GoSort := {
  sort_slice : ∀ {A : Type}, (A → A → bool) → list A → list A;
  sort_slice_perm : ∀ {A : Type} (less : A → A → bool) l, sort_slice less l ≡ₚ l;
  sort_slice_sorted : ∀ {A : Type} (less : A → A → bool) l,
    StrictWeak less → sorted_by less (sort_slice less l);
}.

Definition stable_GoSort : GoSort := {|
  sort_slice := @sort_stable;
  sort_slice_perm := @sort_stable_perm;
  sort_slice_sorted := λ A less l H, @sort_stable_sorted A less H l;
|}.

(** Iteration over a Go map visits every key once, in an unspecified order. *)
Class GoMapOrder := {
  map_iter : ∀ {A : Type}, gmap string A → list (string * A);
  map_iter_perm : ∀ {A : Type} (m : gmap string A), map_iter m ≡ₚ map_to_list m;
}.
Definition canonical_order : GoMapOrder :=
  {| map_iter := λ A, map_to_list; map_iter_perm := λ A m, Permutation_refl _ |}.

(** ** Lists *)

Definition string_eqb : string → string → bool := String.eqb.

(** Membership test used for Go's closed string sets. *)
Definition str_mem (s : string) (l : list string) : bool := existsb (String.eqb s) l.

Lemma str_mem_spec s l : str_mem s l = true ↔ s ∈ l.
Proof.
  unfold str_mem. rewrite existsb_exists. setoid_rewrite String.eqb_eq.
  setoid_rewrite <-list_elem_of_In. naive_solver.
Qed.

Lemma sum_list_with_perm {A} (f : A → Z) l1 l2 :
  l1 ≡ₚ l2 → foldr (λ x acc, f x + acc)%Z 0%Z l1 = foldr (λ x acc, f x + acc)%Z 0%Z l2.
Proof. induction 1; simpl; lia. Qed.

Lemma filter_bool_perm {A} (P : A → bool) l1 l2 :
  l1 ≡ₚ l2 → List.filter P l1 ≡ₚ List.filter P l2.
Proof.
  induction 1 as [|x l1 l2 H IH|x y l|l1 l2 l3 H1 IH1 H2 IH2]; simpl; [done|..].
  - destruct (P x); by rewrite ?IH.
  - destruct (P x), (P y); try done. constructor.
  - by rewrite IH1.
Qed.

#[export] Instance filter_bool_proper {A} (P : A → bool) :
  Proper (Permutation ==> Permutation) (List.filter P).
Proof. intros l1 l2. apply filter_bool_perm. Qed.

Definition Zsum (l : list Z) : Z := foldr Z.add 0%Z l.

Lemma Zsum_app l1 l2 : Zsum (l1 ++ l2) = (Zsum l1 + Zsum l2)%Z.
Proof. induction l1; simpl; lia. Qed.

Lemma Zsum_perm l1 l2 : l1 ≡ₚ l2 → Zsum l1 = Zsum l2.
Proof. induction 1; simpl; lia. Qed.

Lemma Zsum_nonneg l : Forall (λ z, 0 <= z)%Z l → (0 <= Zsum l)%Z.
Proof. induction 1; simpl; lia. Qed.
#[export] Hint Resolve Zsum_nonneg sort_stable_perm sort_stable_sorted : go.
