(* ===== verification/GoNum.v ===== *)
(** Go's machine numbers: [int64]/[int] (64-bit, wrapping), and [float64] as
    IEEE-754 binary64 with round-to-nearest-even.  A finite float is an exact
    dyadic number; an operation is the exact operation on [Q] followed by one
    rounding.  Conversions from a float outside the int64 range are
    implementation-defined in Go, hence a parameter (class [GoPlatform]). *)

From Stdlib Require Import QArith Qpower Qround Lqa.
From S2P Require Import Prelude.
Local Open Scope Z_scope.

(** ** 64-bit signed integers *)

Definition wrap64 (z : Z) : Z := (z + 2^63) mod 2^64 - 2^63.
Definition in_i64 (z : Z) : Prop := - 2^63 <= z < 2^63.
Definition in_i64b (z : Z) : bool := (- 2^63 <=? z) && (z <? 2^63).

Definition i64_add (a b : Z) : Z := wrap64 (a + b).
Definition i64_sub (a b : Z) : Z := wrap64 (a - b).
Definition i64_mul (a b : Z) : Z := wrap64 (a * b).
Definition i64_quot (a b : Z) : Z := wrap64 (Z.quot a b).
Definition i64_neg (a : Z) : Z := wrap64 (- a).

Lemma wrap64_id z : in_i64 z → wrap64 z = z.
Proof. unfold in_i64, wrap64. intros. rewrite Z.mod_small; lia. Qed.

Lemma wrap64_range z : in_i64 (wrap64 z).
Proof.
  unfold in_i64, wrap64. pose proof (Z.mod_pos_bound (z + 2^63) (2^64) eq_refl). lia.
Qed.

Lemma in_i64b_spec z : in_i64b z = true ↔ in_i64 z.
Proof. unfold in_i64b, in_i64. rewrite andb_true_iff, Z.leb_le, Z.ltb_lt. done. Qed.

Lemma wrap64_mod z : wrap64 z mod 2^64 = z mod 2^64.
Proof.
  unfold wrap64. rewrite Zminus_mod_idemp_l. f_equal. lia.
Qed.

#[export] Hint Resolve wrap64_range : go.

(** ** Powers of two in [Q] *)

Definition pow2 (e : Z) : Q := Qpower 2 e.

Lemma pow2_pos e : (0 < pow2 e)%Q.
Proof. by apply Qpower_0_lt. Qed.

Lemma pow2_add a b : (pow2 (a + b) == pow2 a * pow2 b)%Q.
Proof. apply Qpower_plus. discriminate. Qed.

Lemma pow2_opp a : (pow2 a * pow2 (- a) == 1)%Q.
Proof. rewrite <-pow2_add. by rewrite Z.add_opp_diag_r. Qed.

Lemma pow2_le a b : a <= b → (pow2 a <= pow2 b)%Q.
Proof. intros. by apply Qpower_le_compat_l. Qed.

Lemma pow2_lt_inv a b : (pow2 a < pow2 b)%Q → a < b.
Proof. intros. by apply (Qpower_lt_compat_l_inv 2). Qed.

Lemma pow2_Z n : 0 <= n → (pow2 n == inject_Z (2 ^ n))%Q.
Proof. intros. unfold pow2. by rewrite Zpower_Qpower. Qed.

(** ** Rounding to an integer, ties to even *)

Definition rneQ (q : Q) : Z :=
  let f := Qfloor q in
  match (q - inject_Z f ?= 1 # 2)%Q with
  | Lt => f
  | Gt => f + 1
  | Eq => if Z.even f then f else f + 1
  end.

Lemma rneQ_range q : Qfloor q <= rneQ q <= Qfloor q + 1.
Proof. unfold rneQ. repeat case_match; lia. Qed.

Lemma Qfloor_comp_eq q1 q2 : (q1 == q2)%Q → Qfloor q1 = Qfloor q2.
Proof. intros H. by rewrite H. Qed.

Lemma rneQ_Z z q : (q == inject_Z z)%Q → rneQ q = z.
Proof.
  intros H. unfold rneQ. rewrite (Qfloor_comp_eq _ _ H), Qfloor_Z.
  assert (q - inject_Z z < 1#2)%Q as Hlt by (rewrite H; lra).
  by apply Qlt_alt in Hlt as ->.
Qed.

Lemma rneQ_mono p q : (p <= q)%Q → rneQ p <= rneQ q.
Proof.
  intros H. pose proof (Qfloor_resp_le _ _ H) as Hf.
  pose proof (rneQ_range p). pose proof (rneQ_range q).
  destruct (decide (Qfloor p = Qfloor q)) as [E|?]; [|lia].
  unfold rneQ. rewrite E.
  destruct (p - inject_Z (Qfloor q) ?= 1#2)%Q eqn:Cp,
    (q - inject_Z (Qfloor q) ?= 1#2)%Q eqn:Cq;
    rewrite <-?Qeq_alt, <-?Qlt_alt, <-?Qgt_alt in *; repeat case_match; try lia; lra.
Qed.

(** ** The binade of a positive rational *)

Definition flog2 (q : Q) : Z :=
  let k := Z.log2 (Qnum q) - Z.log2 (Zpos (Qden q)) in
  if Qle_bool (pow2 k) q then k else k - 1.

Lemma flog2_spec q : (0 < q)%Q → (pow2 (flog2 q) <= q < pow2 (flog2 q + 1))%Q.
Proof.
  intros Hq. destruct q as [n d].
  assert (0 < n) as Hn by (unfold Qlt in Hq; simpl in Hq; lia).
  pose proof (Z.log2_spec n Hn) as [Hn1 Hn2].
  pose proof (Z.log2_spec (Zpos d) eq_refl) as [Hd1 Hd2].
  set (a := Z.log2 n) in *. set (b := Z.log2 (Zpos d)) in *.
  assert (0 <= a) by apply Z.log2_nonneg. assert (0 <= b) by apply Z.log2_nonneg.
  rewrite Zle_Qle, <-pow2_Z in Hn1 by lia. rewrite Zle_Qle, <-pow2_Z in Hd1 by lia.
  rewrite Zlt_Qlt, <-pow2_Z in Hn2 by lia. rewrite Zlt_Qlt, <-pow2_Z in Hd2 by lia.
  rewrite <-Z.add_1_r, pow2_add in Hn2, Hd2.
  assert (n # d == inject_Z n / inject_Z (Zpos d))%Q as Hnd by apply Qmake_Qdiv.
  assert (0 < inject_Z (Zpos d))%Q as Hd0 by done.
  assert (inject_Z n == (n # d) * inject_Z (Zpos d))%Q as Hmul.
  { rewrite Hnd. field. apply Qnot_eq_sym, Qlt_not_eq. done. }
  unfold flog2. cbn [Qnum Qden]. fold a b.
  pose proof (pow2_pos (a - b)) as Hp.
  pose proof (pow2_pos b) as Hpb.
  assert (pow2 a == pow2 (a - b) * pow2 b)%Q as Ha
    by (rewrite <-pow2_add; by replace (a - b + b) with a by lia).
  assert (pow2 1 == 2)%Q as H2 by done.
  destruct (Qle_bool (pow2 (a - b)) (n # d)) eqn:E.
  - apply Qle_bool_iff in E. split; [done|]. rewrite pow2_add.
    destruct (Qlt_le_dec (n # d) (pow2 (a - b) * pow2 1)) as [?|Hge]; [done|].
    exfalso. rewrite Hmul, Ha, H2 in Hn2. rewrite H2 in Hge. nra.
  - assert (n # d < pow2 (a - b))%Q as Hlt.
    { destruct (Qlt_le_dec (n # d) (pow2 (a - b))) as [?|Hge]; [done|].
      apply Qle_bool_iff in Hge. congruence. }
    replace (a - b - 1 + 1) with (a - b) by lia. split; [|done].
    assert (pow2 (a - b) == pow2 (a - b - 1) * 2)%Q as Hh
      by (rewrite <-H2, <-pow2_add; by replace (a - b - 1 + 1) with (a - b) by lia).
    destruct (Qlt_le_dec (n # d) (pow2 (a - b - 1))) as [Hl|?]; [|done].
    exfalso. pose proof (pow2_pos (a - b - 1)).
    rewrite Hmul, Ha, Hh in Hn1. rewrite H2 in Hd2. nra.
Qed.

(** ** Rounding to binary64 *)

(** Exponent of the last place of the float nearest to [q]. *)
Definition fexp (q : Q) : Z := Z.max (flog2 q - 52) (-1074).
Definition fmant (q : Q) : Z := rneQ (q * pow2 (- fexp q)).
(** The rounded value, before the overflow check. *)
Definition rnd (q : Q) : Q := inject_Z (fmant q) * pow2 (fexp q).

Lemma scale_unscale q e : (q * pow2 (- e) * pow2 e == q)%Q.
Proof. rewrite <-Qmult_assoc, (Qmult_comm (pow2 (- e))), pow2_opp. ring. Qed.

Lemma fexp_le q e : (0 < q)%Q → (q < pow2 (53 + e))%Q → -1074 <= e → fexp q <= e.
Proof.
  intros Hq Hlt He. unfold fexp. destruct (flog2_spec q Hq) as [Hl _].
  assert (flog2 q < 53 + e) by (apply pow2_lt_inv; lra). lia.
Qed.

Lemma fexp_mono p q : (0 < p)%Q → (p <= q)%Q → fexp p <= fexp q.
Proof.
  intros Hp Hpq. destruct (flog2_spec p Hp) as [Hl _].
  destruct (flog2_spec q) as [_ Hu]; [lra|]. unfold fexp.
  assert (flog2 p < flog2 q + 1) by (apply pow2_lt_inv; lra). lia.
Qed.

Lemma Qmul_pow2_le q1 q2 e : (q1 <= q2)%Q → (q1 * pow2 e <= q2 * pow2 e)%Q.
Proof. intros. apply Qmult_le_compat_r; [done|]. apply Qlt_le_weak, pow2_pos. Qed.

(** A dyadic number that fits is not changed by rounding. *)
Lemma rnd_exact_lt q m e :
  (q == inject_Z m * pow2 e)%Q → 0 < m < 2^53 → -1074 <= e → (rnd q == q)%Q.
Proof.
  intros Hq Hm He. pose proof (pow2_pos e) as Hpe.
  assert (0 < inject_Z m)%Q as Hm0 by (rewrite <-(Zlt_Qlt 0); lia).
  assert (0 < q)%Q as Hq0 by (rewrite Hq; nra).
  assert (fexp q <= e) as Hf.
  { apply fexp_le; [done| |done]. rewrite Hq, pow2_add. apply Qmult_lt_r; [done|].
    rewrite pow2_Z by lia. rewrite <-Zlt_Qlt. lia. }
  unfold rnd, fmant. rewrite (rneQ_Z (m * 2 ^ (e - fexp q))).
  - rewrite inject_Z_mult, <-pow2_Z, <-Qmult_assoc, <-pow2_add by lia.
    replace (e - fexp q + fexp q) with e by lia. by rewrite Hq.
  - rewrite inject_Z_mult, <-pow2_Z by lia.
    setoid_rewrite Hq at 1. rewrite <-Qmult_assoc, <-pow2_add.
    by replace (e + - fexp q) with (e - fexp q) by lia.
Qed.

Lemma rnd_exact q m e :
  (q == inject_Z m * pow2 e)%Q → 0 < m <= 2^53 → -1074 <= e → (rnd q == q)%Q.
Proof.
  intros Hq Hm He. destruct (decide (m = 2^53)) as [->|].
  - apply (rnd_exact_lt q (2^52) (e + 1)); [|lia..].
    rewrite Hq, pow2_add, <-!pow2_Z by lia. change 53 with (52 + 1).
    rewrite pow2_add. ring.
  - eapply rnd_exact_lt; [done|lia..].
Qed.

Lemma rnd_nonneg q : (0 <= q)%Q → (0 <= rnd q)%Q.
Proof.
  intros Hq. unfold rnd, fmant.
  assert (0 <= rneQ (q * pow2 (- fexp q))).
  { rewrite <-(rneQ_Z 0 0) by done. apply rneQ_mono.
    pose proof (pow2_pos (- fexp q)). nra. }
  pose proof (pow2_pos (fexp q)).
  apply Qmult_le_0_compat; [|lra]. by rewrite <-(Zle_Qle 0).
Qed.

(** Rounding never inverts an order. *)
Lemma rnd_mono p q : (0 < p)%Q → (p <= q)%Q → (rnd p <= rnd q)%Q.
Proof.
  intros Hp Hpq. pose proof (fexp_mono p q Hp Hpq) as He.
  destruct (decide (fexp p = fexp q)) as [E|Hne].
  { unfold rnd, fmant. rewrite E. apply Qmul_pow2_le. rewrite <-Zle_Qle.
    by apply rneQ_mono, Qmul_pow2_le. }
  assert (fexp p <= fexp q - 1) as Hle by lia. clear He Hne.
  assert (0 < q)%Q as Hq by lra.
  destruct (flog2_spec p Hp) as [_ Hpu]. destruct (flog2_spec q Hq) as [Hql _].
  assert (fexp q = flog2 q - 52) as Eq by (unfold fexp in *; lia).
  apply Qle_trans with (pow2 (53 + fexp p)); [|apply Qle_trans with (pow2 (52 + fexp q))].
  - unfold rnd. rewrite pow2_add. apply Qmul_pow2_le.
    rewrite (pow2_Z 53) by lia. rewrite <-Zle_Qle. unfold fmant.
    rewrite <-(rneQ_Z (2^53) (inject_Z (2^53))) by done. apply rneQ_mono.
    rewrite <-pow2_Z by lia.
    rewrite <-(scale_unscale (pow2 53) (- fexp p)), Z.opp_involutive.
    apply Qmul_pow2_le. rewrite <-pow2_add. apply Qlt_le_weak.
    eapply Qlt_le_trans; [done|]. apply pow2_le. unfold fexp. lia.
  - apply pow2_le. lia.
  - unfold rnd. rewrite pow2_add. apply Qmul_pow2_le.
    rewrite (pow2_Z 52) by lia. rewrite <-Zle_Qle. unfold fmant.
    rewrite <-(rneQ_Z (2^52) (inject_Z (2^52))) by done. apply rneQ_mono.
    rewrite <-pow2_Z by lia.
    rewrite <-(scale_unscale (pow2 52) (- fexp q)), Z.opp_involutive.
    apply Qmul_pow2_le. rewrite <-pow2_add. by rewrite Eq, Z.add_sub_assoc, Z.add_simpl_l.
Qed.

Lemma rnd_comp p q : (0 < p)%Q → (p == q)%Q → (rnd p == rnd q)%Q.
Proof. intros Hp E. apply Qle_antisym; apply rnd_mono; lra. Qed.

(** ** float64 *)

Inductive float64 :=
| F_nan
| F_inf (neg : bool)
| F_fin (neg : bool) (m e : Z).   (** (-1)^neg * m * 2^e *)

#[export] Instance float64_eq_dec : EqDecision float64.
Proof. solve_decision. Defined.

Definition fval (x : float64) : Q :=
  match x with
  | F_fin neg m e => let v := (inject_Z m * pow2 e)%Q in if neg then (- v)%Q else v
  | _ => 0%Q
  end.

Definition f_finite (x : float64) : bool :=
  match x with F_fin _ _ _ => true | _ => false end.

Definition f_sign (x : float64) : bool :=
  match x with F_nan => false | F_inf neg | F_fin neg _ _ => neg end.

Definition f_is0 (x : float64) : bool :=
  match x with F_fin _ m _ => m =? 0 | _ => false end.

Definition f_zero (neg : bool) : float64 := F_fin neg 0 (-1074).

(** The float nearest to [(-1)^neg * q], for [0 <= q]. *)
Definition round64 (neg : bool) (q : Q) : float64 :=
  if Qnum q =? 0 then f_zero neg else
  let m := fmant q in let e := fexp q in
  let '(m, e) := if m =? 2^53 then (2^52, e + 1) else (m, e) in
  if 971 <? e then F_inf neg else if m =? 0 then f_zero neg else F_fin neg m e.

Definition f_of_Z (z : Z) : float64 := round64 (z <? 0) (inject_Z (Z.abs z)).
(** The float nearest to a rational, e.g. an untyped constant. *)
Definition f_const (q : Q) : float64 :=
  round64 (Qnum q <? 0) (Qmake (Z.abs (Qnum q)) (Qden q)).

Definition f_neg (x : float64) : float64 :=
  match x with F_nan => F_nan | F_inf s => F_inf (negb s) | F_fin s m e => F_fin (negb s) m e end.

Definition f_add (x y : float64) : float64 :=
  match x, y with
  | F_nan, _ | _, F_nan => F_nan
  | F_inf a, F_inf b => if eqb a b then F_inf a else F_nan
  | F_inf a, _ => F_inf a
  | _, F_inf b => F_inf b
  | F_fin a _ _, F_fin b _ _ =>
      let s := (fval x + fval y)%Q in
      if Qnum s =? 0 then f_zero (a && b) else f_const s
  end.

Definition f_sub (x y : float64) : float64 := f_add x (f_neg y).

Definition f_mul (x y : float64) : float64 :=
  match x, y with
  | F_nan, _ | _, F_nan => F_nan
  | F_inf a, _ => if f_is0 y then F_nan else F_inf (xorb a (f_sign y))
  | _, F_inf b => if f_is0 x then F_nan else F_inf (xorb (f_sign x) b)
  | F_fin a m1 e1, F_fin b m2 e2 =>
      round64 (xorb a b) (inject_Z (m1 * m2) * pow2 (e1 + e2))
  end.

Definition f_div (x y : float64) : float64 :=
  match x, y with
  | F_nan, _ | _, F_nan => F_nan
  | F_inf a, F_inf b => F_nan
  | F_inf a, _ => F_inf (xorb a (f_sign y))
  | _, F_inf b => f_zero (xorb (f_sign x) b)
  | F_fin a m1 e1, F_fin b m2 e2 =>
      if m2 =? 0 then (if m1 =? 0 then F_nan else F_inf (xorb a b))
      else round64 (xorb a b) ((inject_Z m1 * pow2 e1) / (inject_Z m2 * pow2 e2))
  end.

Definition f_le (x y : float64) : bool :=
  match x, y with
  | F_nan, _ | _, F_nan => false
  | F_inf a, F_inf b => a || negb b
  | F_inf a, _ => a
  | _, F_inf b => negb b
  | _, _ => Qle_bool (fval x) (fval y)
  end.

Definition f_lt (x y : float64) : bool :=
  match x, y with
  | F_nan, _ | _, F_nan => false
  | F_inf a, F_inf b => a && negb b
  | F_inf a, _ => a
  | _, F_inf b => negb b
  | _, _ => negb (Qle_bool (fval y) (fval x))
  end.

(** Conversion of an out-of-range float (or NaN, infinities) to int64 is
    implementation-defined. *)
Class GoPlatform := {
  f2i_oob : float64 → Z;
  f2i_oob_range x : in_i64 (f2i_oob x);
}.

Definition f_trunc (x : float64) : Z :=
  match x with
  | F_fin neg m e => let t := Qfloor (inject_Z m * pow2 e) in if neg then - t else t
  | _ => 0
  end.

Definition f_to_i64 `{GoPlatform} (x : float64) : Z :=
  if f_finite x && in_i64b (f_trunc x) then f_trunc x else f2i_oob x.

(** amd64 ([CVTTSD2SQ]) yields the "integer indefinite" value. *)
#[program] Definition amd64 : GoPlatform := {| f2i_oob := λ _, - 2^63 |}.
Next Obligation. unfold in_i64. lia. Qed.

(** arm64 ([FCVTZS]) saturates; NaN gives 0. *)
#[program] Definition arm64 : GoPlatform :=
  {| f2i_oob := λ x, match x with
       | F_nan => 0
       | F_inf neg | F_fin neg _ _ => if neg then - 2^63 else 2^63 - 1
       end |}.
Next Obligation. intros []; unfold in_i64; repeat case_match; lia. Qed.

Example f_add_example :
  f_add (f_const (1#10)) (f_const (2#10)) = F_fin false 5404319552844596 (-54).
Proof. reflexivity. Qed.
Example f_mul_example :
  f_mul (f_const (1001#1000)) (f_of_Z 1000) = F_fin false 8804889115230207 (-43).
Proof. reflexivity. Qed.
Example f_div_example : f_div (f_of_Z 1) (f_of_Z 3) = F_fin false 6004799503160661 (-54).
Proof. reflexivity. Qed.

(** ** Facts about float operations *)

Lemma Qle_pow2_1000 q : (q <= pow2 1000)%Q → (0 < q)%Q → fexp q <= 948.
Proof.
  intros H Hq. destruct (flog2_spec q Hq) as [Hl _]. unfold fexp.
  assert (flog2 q < 1001); [|lia]. apply pow2_lt_inv.
  eapply Qle_lt_trans; [done|]. eapply Qle_lt_trans; [done|]. done.
Qed.

Lemma rnd_0 q : (q == 0)%Q → (rnd q == 0)%Q.
Proof.
  intros H. unfold rnd, fmant. rewrite (rneQ_Z 0); [ring|].
  generalize (pow2 (- fexp q)). intros c. rewrite H. ring.
Qed.

Definition signed (neg : bool) (q : Q) : Q := if neg then (- q)%Q else q.

Lemma signed_0 neg : (signed neg 0 == 0)%Q.
Proof. by destruct neg. Qed.

Lemma round64_spec neg q : (0 <= q)%Q → (q <= pow2 1000)%Q →
  f_finite (round64 neg q) = true ∧ (fval (round64 neg q) == signed neg (rnd q))%Q ∧
  f_sign (round64 neg q) = neg.
Proof.
  intros Hq Hb. unfold round64. destruct (Qnum q =? 0) eqn:E0.
  { apply Z.eqb_eq in E0. simpl. split_and!; [done| |done].
    assert (q == 0)%Q as Hz by (destruct q; cbn in E0; subst; reflexivity).
    pose proof (rnd_0 q Hz) as Hr. destruct neg; cbn [signed]; rewrite Hr; done. }
  assert (0 < q)%Q as Hpos.
  { apply Z.eqb_neq in E0. destruct q. unfold Qlt, Qle in *. simpl in *. lia. }
  pose proof (Qle_pow2_1000 q Hb Hpos) as He.
  destruct (fmant q =? 2^53) eqn:Em; [apply Z.eqb_eq in Em|].
  - rewrite (proj2 (Z.ltb_ge 971 _)) by lia. split_and!; [done| |done].
    assert (inject_Z (2^52) * pow2 (fexp q + 1) == rnd q)%Q as Hv.
    { unfold rnd. rewrite Em, pow2_add. change (2^53) with (2^52 * 2).
      rewrite inject_Z_mult. unfold pow2 at 2. simpl Qpower. ring. }
    unfold fval, signed. destruct neg; [apply Qopp_comp|]; exact Hv.
  - rewrite (proj2 (Z.ltb_ge 971 _)) by lia. destruct (fmant q =? 0) eqn:Em0.
    + apply Z.eqb_eq in Em0. split_and!; [done| |done]. unfold rnd. rewrite Em0.
      assert (inject_Z 0 * pow2 (fexp q) == 0)%Q as Hz by ring.
      unfold signed. destruct neg; rewrite Hz; done.
    + split_and!; [done| |done]. by destruct neg.
Qed.

(** [x] is a finite float without sign bit, of value [v]. *)
Definition f_rep (x : float64) (v : Q) : Prop :=
  f_finite x = true ∧ f_sign x = false ∧ (fval x == v)%Q.

#[export] Instance f_rep_proper x : Proper (Qeq ==> iff) (f_rep x).
Proof. intros a b E. unfold f_rep. by rewrite E. Qed.

Lemma rep_round q : (0 <= q)%Q → (q <= pow2 1000)%Q → f_rep (round64 false q) (rnd q).
Proof. intros H1 H2. destruct (round64_spec false q H1 H2) as (?&?&?). done. Qed.

Lemma inject_Z_pow2_0 z : (inject_Z z == inject_Z z * pow2 0)%Q.
Proof. unfold pow2. simpl. ring. Qed.

Lemma rnd_Z z : 0 <= z <= 2^53 → (rnd (inject_Z z) == inject_Z z)%Q.
Proof.
  intros H. destruct (decide (z = 0)) as [->|]; [by apply rnd_0|].
  apply (rnd_exact _ z 0); [apply inject_Z_pow2_0|lia..].
Qed.

Lemma Z_le_pow2_1000 z : z <= 2^64 → (inject_Z z <= pow2 1000)%Q.
Proof.
  intros. apply Qle_trans with (pow2 64); [|done].
  rewrite pow2_Z by lia. by rewrite <-Zle_Qle.
Qed.

Lemma rep_of_Z z : 0 <= z <= 2^53 → f_rep (f_of_Z z) (inject_Z z).
Proof.
  intros H. unfold f_of_Z. rewrite (proj2 (Z.ltb_ge z 0)), Z.abs_eq by lia.
  rewrite <-rnd_Z at 2 by done. apply rep_round.
  - change 0%Q with (inject_Z 0). rewrite <-Zle_Qle. lia.
  - apply Z_le_pow2_1000. lia.
Qed.

Lemma f_rep_inv x v : f_rep x v →
  ∃ m e, x = F_fin false m e ∧ (inject_Z m * pow2 e == v)%Q.
Proof. intros (Hf&Hs&Hv). destruct x; try done. simpl in *. subst. eauto. Qed.

Lemma rep_div x y a b : f_rep x a → f_rep y b → (0 <= a)%Q → (0 < b)%Q →
  (a / b <= pow2 1000)%Q → ∃ q, (q == a / b)%Q ∧ f_rep (f_div x y) (rnd q).
Proof.
  intros (m1&e1&->&H1)%f_rep_inv (m2&e2&->&H2)%f_rep_inv Ha Hb Hle. simpl.
  destruct (m2 =? 0) eqn:E.
  { apply Z.eqb_eq in E as ->. rewrite <-H2 in Hb. exfalso. revert Hb.
    assert (inject_Z 0 * pow2 e2 == 0)%Q as -> by ring. done. }
  exists (inject_Z m1 * pow2 e1 / (inject_Z m2 * pow2 e2))%Q.
  assert (inject_Z m1 * pow2 e1 / (inject_Z m2 * pow2 e2) == a / b)%Q as Hq
    by (by rewrite H1, H2).
  split; [done|]. apply rep_round; rewrite Hq; [|done].
  apply Qle_shift_div_l; [done|lra].
Qed.

Lemma rep_mul x y a b : f_rep x a → f_rep y b → (0 <= a)%Q → (0 <= b)%Q →
  (a * b <= pow2 1000)%Q → ∃ q, (q == a * b)%Q ∧ f_rep (f_mul x y) (rnd q).
Proof.
  intros (m1&e1&->&H1)%f_rep_inv (m2&e2&->&H2)%f_rep_inv Ha Hb Hle. simpl.
  exists (inject_Z (m1 * m2) * pow2 (e1 + e2))%Q.
  assert (inject_Z (m1 * m2) * pow2 (e1 + e2) == a * b)%Q as Hq
    by (rewrite inject_Z_mult, pow2_add, <-H1, <-H2; ring).
  split; [done|]. apply rep_round; rewrite Hq; [|done]. by apply Qmult_le_0_compat.
Qed.

Lemma rep_add x y a b : f_rep x a → f_rep y b → (0 <= a)%Q → (0 <= b)%Q →
  (a + b <= pow2 1000)%Q → ∃ q, (q == a + b)%Q ∧ f_rep (f_add x y) (rnd q).
Proof.
  intros (m1&e1&->&H1)%f_rep_inv (m2&e2&->&H2)%f_rep_inv Ha Hb Hle.
  exists (fval (F_fin false m1 e1) + fval (F_fin false m2 e2))%Q.
  cbn [f_add]. cbn [fval].
  assert (inject_Z m1 * pow2 e1 + inject_Z m2 * pow2 e2 == a + b)%Q as Hq by (by rewrite H1, H2).
  split; [done|]. revert Hq.
  generalize (inject_Z m1 * pow2 e1 + inject_Z m2 * pow2 e2)%Q. intros s Hq.
  destruct (Z.eqb_spec (Qnum s) 0) as [E|E].
  - assert (s == 0)%Q as Hz by (destruct s; cbn in E; subst; reflexivity).
    split; [done|]. split; [done|]. pose proof (rnd_0 s Hz) as Hr. by rewrite Hr.
  - assert (0 <= s)%Q as Hs by lra.
    assert (0 < Qnum s) as Hn by (destruct s; unfold Qle in Hs; cbn in *; lia).
    unfold f_const. rewrite (proj2 (Z.ltb_ge (Qnum s) 0)), Z.abs_eq by lia.
    destruct s as [n d]. cbn [Qnum Qden] in *. apply rep_round; [done|]. by rewrite Hq.
Qed.

Lemma Qle_bool_comp a b c d : (a == c)%Q → (b == d)%Q → Qle_bool a b = Qle_bool c d.
Proof. intros E1 E2. apply eq_true_iff_eq. rewrite !Qle_bool_iff. by rewrite E1, E2. Qed.

Lemma rep_le x y a b : f_rep x a → f_rep y b → f_le x y = Qle_bool a b.
Proof.
  intros (Hf1&_&H1) (Hf2&_&H2). destruct x, y; try done. by apply Qle_bool_comp.
Qed.

Lemma rep_lt x y a b : f_rep x a → f_rep y b → f_lt x y = negb (Qle_bool b a).
Proof.
  intros (Hf1&_&H1) (Hf2&_&H2). destruct x, y; try done. simpl.
  f_equal. by apply Qle_bool_comp.
Qed.

Lemma rep_trunc x v : f_rep x v → f_trunc x = Qfloor v.
Proof. intros (m&e&->&H)%f_rep_inv. by apply (Qfloor_comp_eq _ _ H). Qed.

Lemma rep_to_i64 `{GoPlatform} x v : f_rep x v → in_i64 (Qfloor v) → f_to_i64 x = Qfloor v.
Proof.
  intros Hx Hi. unfold f_to_i64. rewrite (rep_trunc _ _ Hx).
  by rewrite (proj1 Hx), (proj2 (in_i64b_spec _)).
Qed.

(** Comparing a correctly rounded value with a representable threshold. *)
Lemma rnd_le_rep q t m e : (t == inject_Z m * pow2 e)%Q → 0 < m <= 2^53 → -1074 <= e →
  (0 < q)%Q → (q <= t)%Q → (rnd q <= t)%Q.
Proof. intros Ht Hm He Hq Hqt. rewrite <-(rnd_exact t m e) by done. by apply rnd_mono. Qed.

Lemma rnd_ge_rep q t m e : (t == inject_Z m * pow2 e)%Q → 0 < m <= 2^53 → -1074 <= e →
  (0 < t)%Q → (t <= q)%Q → (t <= rnd q)%Q.
Proof.
  intros Ht Hm He Hq Hqt. rewrite <-(rnd_exact t m e) at 1 by done. by apply rnd_mono.
Qed.

(** ** Congruence of wrap-around *)

Lemma wrap64_cong a b : a mod 2^64 = b mod 2^64 → wrap64 a = wrap64 b.
Proof.
  intros E. unfold wrap64. f_equal.
  by rewrite (Zplus_mod a), (Zplus_mod b), E.
Qed.

Lemma wrap64_add_l a b : wrap64 (wrap64 a + b) = wrap64 (a + b).
Proof. apply wrap64_cong. by rewrite Zplus_mod, wrap64_mod, <-Zplus_mod. Qed.

Lemma wrap64_mul_l a b : wrap64 (wrap64 a * b) = wrap64 (a * b).
Proof. apply wrap64_cong. by rewrite Zmult_mod, wrap64_mod, <-Zmult_mod. Qed.

Lemma wrap64_opp a : wrap64 (- wrap64 a) = wrap64 (- a).
Proof.
  replace (- wrap64 a) with (wrap64 a * -1) by lia. rewrite wrap64_mul_l. f_equal. lia.
Qed.

(** ** Sign symmetry of the float operations *)

Lemma round64_negb s q : round64 (negb s) q = f_neg (round64 s q).
Proof.
  unfold round64. destruct (Qnum q =? 0); [done|].
  destruct (fmant q =? 2^53); repeat case_match; done.
Qed.

Lemma f_of_Z_opp z : z ≠ 0 → f_of_Z (- z) = f_neg (f_of_Z z).
Proof.
  intros Hz. unfold f_of_Z. rewrite Z.abs_opp, <-round64_negb. f_equal.
  destruct (Z.ltb_spec (- z) 0), (Z.ltb_spec z 0); (done || lia).
Qed.

Lemma f_div_neg x y : f_div (f_neg x) y = f_neg (f_div x y).
Proof.
  destruct x as [|[]|[] m1 e1], y as [|[]|[] m2 e2]; cbn [f_div f_neg f_sign xorb negb];
    try done; repeat case_match; try done; by rewrite <-round64_negb.
Qed.

Lemma f_mul_neg x y : f_mul (f_neg x) y = f_neg (f_mul x y).
Proof.
  destruct x as [|[]|[] m1 e1], y as [|[]|[] m2 e2]; cbn [f_mul f_neg f_sign f_is0 xorb negb];
    try done; repeat case_match; try done; by rewrite <-round64_negb.
Qed.

Lemma f_to_i64_neg `{GoPlatform} x : f_finite x = true → - 2^63 < f_trunc x < 2^63 →
  f_to_i64 (f_neg x) = - f_to_i64 x.
Proof.
  intros Hf Ht. destruct x as [| |s m e]; try done. unfold f_to_i64. cbn [f_neg f_finite].
  assert (f_trunc (F_fin (negb s) m e) = - f_trunc (F_fin s m e)) as E
    by (cbn [f_trunc]; destruct s; cbn [negb]; lia).
  rewrite E. cbn [andb].
  rewrite !(proj2 (in_i64b_spec _)) by (unfold in_i64; lia). done.
Qed.
