(* ===== verification/GoStr.v ===== *)
(** The part of Go's [strings], [strconv] and [fmt] packages the program uses,
    on byte strings.  Parsers return [None] for a non-nil error. *)

From Stdlib Require Import Ascii QArith Qround.
From S2P Require Import Prelude GoNum.
Local Open Scope Z_scope.

(** ** strings *)

Definition byte_val (c : ascii) : Z := Z.of_N (N_of_ascii c).

Lemma byte_val_inj a b : byte_val a = byte_val b → a = b.
Proof.
  unfold byte_val. intros E%N2Z.inj. by rewrite <-(ascii_N_embedding a), E, ascii_N_embedding.
Qed.

Fixpoint strip_prefix (p s : string) : option string :=
  match p, s with
  | EmptyString, _ => Some s
  | String a p', String b s' => if Ascii.eqb a b then strip_prefix p' s' else None
  | String _ _, EmptyString => None
  end.

Definition strip_suffix (suf s : string) : option string :=
  String.rev <$> strip_prefix (String.rev suf) (String.rev s).

Definition has_prefix (s p : string) : bool :=
  match strip_prefix p s with Some _ => true | None => false end.
Definition has_suffix (s suf : string) : bool :=
  match strip_suffix suf s with Some _ => true | None => false end.
Definition trim_prefix (s p : string) : string := default s (strip_prefix p s).
Definition trim_suffix (s suf : string) : string := default s (strip_suffix suf s).

(** [strings.IndexByte] as a split: the text before and after the first [c]. *)
Fixpoint cut_byte (c : ascii) (s : string) : option (string * string) :=
  match s with
  | EmptyString => None
  | String a s' =>
      if Ascii.eqb a c then Some (EmptyString, s')
      else match cut_byte c s' with
           | Some (l, r) => Some (String a l, r)
           | None => None
           end
  end.

(** [strings.Split(s, c)] for a one-byte separator: never empty. *)
Fixpoint split_byte (c : ascii) (s : string) : list string :=
  match s with
  | EmptyString => [EmptyString]
  | String a s' =>
      if Ascii.eqb a c then EmptyString :: split_byte c s'
      else match split_byte c s' with
           | [] => [String a EmptyString]
           | w :: ws => String a w :: ws
           end
  end.

Fixpoint join (sep : string) (l : list string) : string :=
  match l with
  | [] => ""
  | [w] => w
  | w :: ws => w +:+ sep +:+ join sep ws
  end.

(** UTF-8 encodings of the runes for which [unicode.IsSpace] holds. *)
Definition b1 (n : nat) : string := String (ascii_of_nat n) EmptyString.
Definition bytes (l : list nat) : string := foldr (λ n s, String (ascii_of_nat n) s) "" l.
Definition space_runes : list string :=
  bytes <$> [[9];[10];[11];[12];[13];[32];[194;133];[194;160];[225;154;128];
     [226;128;128];[226;128;129];[226;128;130];[226;128;131];[226;128;132];
     [226;128;133];[226;128;134];[226;128;135];[226;128;136];[226;128;137];
     [226;128;138];[226;128;168];[226;128;169];[226;128;175];[226;129;159];
     [227;128;128]]%nat.

Fixpoint strip_any (ps : list string) (s : string) : option string :=
  match ps with
  | [] => None
  | p :: ps' => match strip_prefix p s with Some r => Some r | None => strip_any ps' s end
  end.

(** Each round removes at least one byte, so [length s] rounds suffice. *)
Fixpoint trim_left_fuel (fuel : nat) (ps : list string) (s : string) : string :=
  match fuel with
  | O => s
  | S f => match strip_any ps s with Some r => trim_left_fuel f ps r | None => s end
  end.

Definition trim_space (s : string) : string :=
  let l := trim_left_fuel (String.length s) space_runes s in
  String.rev (trim_left_fuel (String.length l) (String.rev <$> space_runes) (String.rev l)).

(** ASCII case mapping. *)
Definition ascii_lower (c : ascii) : ascii :=
  let n := nat_of_ascii c in
  if (Nat.leb 65 n && Nat.leb n 90)%nat then ascii_of_nat (n + 32) else c.
Definition ascii_upper (c : ascii) : ascii :=
  let n := nat_of_ascii c in
  if (Nat.leb 97 n && Nat.leb n 122)%nat then ascii_of_nat (n - 32) else c.
Fixpoint str_map (f : ascii → ascii) (s : string) : string :=
  match s with EmptyString => EmptyString | String a s' => String (f a) (str_map f s') end.

(** [strings.ToUpper] / [strings.ToLower], as far as a comparison with ASCII
    text can tell: U+0131 and U+017F are the only non-ASCII runes with an ASCII
    upper case, U+0130 and U+212A the only ones with an ASCII lower case; every
    other non-ASCII rune is left as it is. *)
Fixpoint to_upper (s : string) : string :=
  match s with
  | EmptyString => EmptyString
  | String a s' =>
      match s' with
      | String b s'' =>
          if (nat_of_ascii a =? 196)%nat && (nat_of_ascii b =? 177)%nat then String "I"%char (to_upper s'')
          else if (nat_of_ascii a =? 197)%nat && (nat_of_ascii b =? 191)%nat then String "S"%char (to_upper s'')
          else String (ascii_upper a) (to_upper s')
      | EmptyString => String (ascii_upper a) EmptyString
      end
  end.
Fixpoint to_lower (s : string) : string :=
  match s with
  | EmptyString => EmptyString
  | String a s' =>
      match s' with
      | String b (String c s3 as s'') =>
          if (nat_of_ascii a =? 196)%nat && (nat_of_ascii b =? 176)%nat then String "i"%char (to_lower s'')
          else if (nat_of_ascii a =? 226)%nat && (nat_of_ascii b =? 132)%nat
                  && (nat_of_ascii c =? 170)%nat then String "k"%char (to_lower s3)
          else String (ascii_lower a) (to_lower s')
      | String b EmptyString =>
          if (nat_of_ascii a =? 196)%nat && (nat_of_ascii b =? 176)%nat then String "i"%char ""
          else String (ascii_lower a) (to_lower s')
      | EmptyString => String (ascii_lower a) EmptyString
      end
  end.

(** ** strconv: integers *)

Definition digit_val (c : ascii) : option Z :=
  let n := byte_val c in if (48 <=? n) && (n <=? 57) then Some (n - 48) else None.

Fixpoint digits_val (acc : Z) (s : string) : option Z :=
  match s with
  | EmptyString => Some acc
  | String c s' => match digit_val c with
                   | Some d => digits_val (acc * 10 + d) s'
                   | None => None
                   end
  end.

Definition parse_uint (s : string) : option Z :=
  match s with EmptyString => None | _ => digits_val 0 s end.

(** [strconv.ParseInt(s, 10, 64)] and [strconv.Atoi]. *)
Definition parse_int (s : string) : option Z :=
  let chk (neg : bool) s :=
    match parse_uint s with
    | Some v => let z := if neg then - v else v in if in_i64b z then Some z else None
    | None => None
    end in
  match s with
  | String "-"%char s' => chk true s'
  | String "+"%char s' => chk false s'
  | _ => chk false s
  end.

(** [%d] *)
Definition itoa (z : Z) : string := pretty z.

(** ** strconv: floats *)

Definition lower_byte (c : ascii) : Z := Z.lor (byte_val c) 32.

Definition hex_val (c : ascii) : option Z :=
  match digit_val c with
  | Some d => Some d
  | None => let n := lower_byte c in if (97 <=? n) && (n <=? 102) then Some (n - 87) else None
  end.

Record mant := { m_val : Z; m_frac : Z; m_dot : bool; m_digits : bool; m_under : bool }.

(** The digit loop of [readFloat]: accumulates the mantissa and stops at the
    first byte that does not belong to it. *)
Fixpoint read_mant (hex : bool) (st : mant) (s : string) : mant * string :=
  match s with
  | EmptyString => (st, s)
  | String c s' =>
      if Ascii.eqb c "_"%char then
        read_mant hex {| m_val := m_val st; m_frac := m_frac st; m_dot := m_dot st;
                         m_digits := m_digits st; m_under := true |} s'
      else if Ascii.eqb c "."%char then
        if m_dot st then (st, s)
        else read_mant hex {| m_val := m_val st; m_frac := m_frac st; m_dot := true;
                              m_digits := m_digits st; m_under := m_under st |} s'
      else match (if hex then hex_val c else digit_val c) with
           | Some d =>
               read_mant hex
                 {| m_val := m_val st * (if hex then 16 else 10) + d;
                    m_frac := m_frac st + (if m_dot st then 1 else 0);
                    m_dot := m_dot st; m_digits := true; m_under := m_under st |} s'
           | None => (st, s)
           end
  end.

(** Exponent digits; the accumulated exponent is capped as in [readFloat]. *)
Fixpoint read_exp (e : Z) (under : bool) (s : string) : Z * bool * string :=
  match s with
  | EmptyString => (e, under, s)
  | String c s' =>
      if Ascii.eqb c "_"%char then read_exp e true s'
      else match digit_val c with
           | Some d => read_exp (if e <? 10000 then e * 10 + d else e) under s'
           | None => (e, under, s)
           end
  end.

(** Underscores only between digits, or between the base prefix and a digit. *)
Inductive saw := SawStart | SawDigit | SawUnder | SawOther.
Fixpoint underscore_go (hex : bool) (st : saw) (s : string) : bool :=
  match s with
  | EmptyString => match st with SawUnder => false | _ => true end
  | String c s' =>
      match (if hex then hex_val c else digit_val c) with
      | Some _ => underscore_go hex SawDigit s'
      | None =>
          if Ascii.eqb c "_"%char then
            match st with SawDigit => underscore_go hex SawUnder s' | _ => false end
          else match st with SawUnder => false | _ => underscore_go hex SawOther s' end
      end
  end.
Definition underscore_ok (unsigned : string) : bool :=
  match unsigned with
  | String "0"%char (String c r) =>
      let l := lower_byte c in
      if (l =? 98) || (l =? 111) || (l =? 120) then underscore_go (l =? 120) SawDigit r
      else underscore_go false SawStart unsigned
  | _ => underscore_go false SawStart unsigned
  end.

Definition scale10 (m k : Z) : Q :=
  if 0 <=? k then inject_Z (m * 10 ^ k) else Qmake m (Z.to_pos (10 ^ (- k))).

Definition read_float (neg : bool) (s : string) : option float64 :=
  let '(hex, body) :=
    match s with
    | String "0"%char (String x (String _ _ as r)) =>
        if lower_byte x =? 120 then (true, r) else (false, s)
    | _ => (false, s)
    end in
  let '(mt, rest) := read_mant hex {| m_val := 0; m_frac := 0; m_dot := false;
                                      m_digits := false; m_under := false |} body in
  if negb (m_digits mt) then None else
  let finish (e : Z) (under : bool) :=
    if (under : bool) && negb (underscore_ok s) then None else
    let q := if hex then (inject_Z (m_val mt) * pow2 (e - 4 * m_frac mt))%Q
             else scale10 (m_val mt) (e - m_frac mt) in
    match round64 neg q with F_inf _ => None | x => Some x end in
  match rest with
  | EmptyString => if hex then None else finish 0 (m_under mt)
  | String c r =>
      if lower_byte c =? (if hex then 112 else 101) then
        let '(esign, r) := match r with
          | String "+"%char r' => (1, r') | String "-"%char r' => (-1, r') | _ => (1, r) end in
        match r with
        | String d _ =>
            match digit_val d with
            | Some _ =>
                let '(e, under, tail) := read_exp 0 (m_under mt) r in
                match tail with EmptyString => finish (esign * e) under | _ => None end
            | None => None
            end
        | EmptyString => None
        end
      else None
  end.

(** [strconv.ParseFloat(s, 64)]: correctly rounded; [None] on a syntax or range
    error. *)
Definition parse_float (s : string) : option float64 :=
  let l := str_map ascii_lower s in
  if str_mem l ["inf"; "+inf"; "infinity"; "+infinity"] then Some (F_inf false)
  else if str_mem l ["-inf"; "-infinity"] then Some (F_inf true)
  else if String.eqb l "nan" then Some F_nan
  else match s with
       | String "+"%char s' => read_float false s'
       | String "-"%char s' => read_float true s'
       | _ => read_float false s
       end.

(** ** fmt: [%.<prec>f] *)

Fixpoint zeros (n : nat) : string := match n with O => "" | S n => String "0"%char (zeros n) end.
Definition pad_left (n : nat) (s : string) : string := zeros (n - String.length s) +:+ s.

Definition fmt_fixed (prec : nat) (x : float64) : string :=
  match x with
  | F_nan => "NaN"
  | F_inf neg => if neg then "-Inf" else "+Inf"
  | F_fin neg m e =>
      let p := 10 ^ Z.of_nat prec in
      let n := rneQ (inject_Z m * pow2 e * inject_Z p) in
      (if neg then "-" else "") +:+ itoa (n / p) +:+
      (if (prec =? 0)%nat then "" else "." +:+ pad_left prec (itoa (n mod p)))
  end.

(** ** Facts about strings *)

Fixpoint str_all (P : ascii → bool) (s : string) : bool :=
  match s with EmptyString => true | String c s' => P c && str_all P s' end.

Lemma sapp_cons c s t : String c s +:+ t = String c (s +:+ t).
Proof. done. Qed.

Lemma sapp_nil_r s : s +:+ "" = s.
Proof. induction s as [|c s IH]; [done|]. by rewrite sapp_cons, IH. Qed.

Lemma sapp_assoc s t u : s +:+ (t +:+ u) = (s +:+ t) +:+ u.
Proof. induction s as [|c s IH]; [done|]. by rewrite !sapp_cons, IH. Qed.

Lemma rev_app_spec s t : String.rev_app s t = String.rev s +:+ t.
Proof.
  unfold String.rev. revert t. induction s as [|c s IH]; intros t; [done|].
  simpl. rewrite IH, (IH (String c "")), <-sapp_assoc. done.
Qed.

Lemma rev_cons c s : String.rev (String c s) = String.rev s +:+ String c "".
Proof. unfold String.rev at 1. simpl. apply rev_app_spec. Qed.

Lemma rev_sapp s t : String.rev (s +:+ t) = String.rev t +:+ String.rev s.
Proof.
  induction s as [|c s IH].
  - by rewrite sapp_nil_r.
  - by rewrite sapp_cons, !rev_cons, IH, sapp_assoc.
Qed.

Lemma rev_involutive s : String.rev (String.rev s) = s.
Proof. induction s as [|c s IH]; [done|]. by rewrite rev_cons, rev_sapp, IH. Qed.

Lemma str_all_app P s t : str_all P (s +:+ t) = str_all P s && str_all P t.
Proof. induction s as [|c s IH]; [done|]. rewrite sapp_cons. cbn. by rewrite IH, andb_assoc. Qed.

Lemma str_all_rev P s : str_all P (String.rev s) = str_all P s.
Proof.
  induction s as [|c s IH]; [done|]. rewrite rev_cons, str_all_app, IH. cbn.
  by rewrite andb_true_r, andb_comm.
Qed.

Lemma str_all_impl (P Q : ascii → bool) s :
  (∀ c, P c = true → Q c = true) → str_all P s = true → str_all Q s = true.
Proof.
  intros HPQ. induction s as [|c s IH]; [done|]. cbn. rewrite !andb_true_iff.
  intros [??]; auto.
Qed.

Lemma strip_prefix_app p s : strip_prefix p (p +:+ s) = Some s.
Proof. induction p; [done|]. rewrite sapp_cons. cbn. by rewrite Ascii.eqb_refl. Qed.

Lemma strip_prefix_Some p s r : strip_prefix p s = Some r → s = p +:+ r.
Proof.
  revert s. induction p as [|a p IH]; intros [|b s]; cbn; intros; simplify_eq; [done..|].
  case_match eqn:E; [|done]. apply Ascii.eqb_eq in E as ->. by rewrite (IH s).
Qed.

Lemma strip_suffix_app s suf : strip_suffix suf (s +:+ suf) = Some s.
Proof.
  unfold strip_suffix. rewrite rev_sapp, strip_prefix_app. cbn. by rewrite rev_involutive.
Qed.

Definition is_digit (c : ascii) : bool := (48 <=? byte_val c) && (byte_val c <=? 57).
(** A printable, non-space ASCII byte. *)
Definition is_graph (c : ascii) : bool := (33 <=? byte_val c) && (byte_val c <=? 126).

Lemma is_digit_graph c : is_digit c = true → is_graph c = true.
Proof. unfold is_digit, is_graph. rewrite !andb_true_iff, !Z.leb_le. lia. Qed.

Ltac all_bytes c := destruct c as [[] [] [] [] [] [] [] []].

Lemma strip_space_graph c s : is_graph c = true → strip_any space_runes (String c s) = None.
Proof. all_bytes c; intros H; first [discriminate H | done]. Qed.

Lemma strip_rev_space_graph c s :
  is_graph c = true → strip_any (String.rev <$> space_runes) (String c s) = None.
Proof. all_bytes c; intros H; first [discriminate H | done]. Qed.

Lemma trim_left_stop fuel ps s :
  strip_any ps s = None → trim_left_fuel fuel ps s = s.
Proof. intros H. destruct fuel; [done|]. simpl. by rewrite H. Qed.

(** Text without spaces is its own trimming. *)
Lemma trim_space_graph s : str_all is_graph s = true → trim_space s = s.
Proof.
  intros H. unfold trim_space. rewrite (trim_left_stop _ space_runes).
  - pose proof H as H'. rewrite <-str_all_rev in H'.
    destruct (String.rev s) as [|c r] eqn:E.
    + destruct s as [|a s]; [done|]. rewrite rev_cons in E. by destruct (String.rev s).
    + cbn [str_all] in H'. apply andb_prop in H' as [Hc _].
      rewrite trim_left_stop, <-E, rev_involutive; [done|].
      by apply strip_rev_space_graph.
  - destruct s as [|c s]; [done|]. cbn in H. apply andb_prop in H as [Hc _].
    by apply strip_space_graph.
Qed.

(** ** Decimal digits *)

Lemma digit_val_spec c : is_digit c = true → digit_val c = Some (byte_val c - 48).
Proof. unfold is_digit, digit_val. by intros ->. Qed.

Lemma pretty_char_digit n : (n < 10)%N →
  is_digit (pretty_N_char n) = true ∧ byte_val (pretty_N_char n) = Z.of_N n + 48.
Proof.
  intros H.
  assert (n = 0 ∨ n = 1 ∨ n = 2 ∨ n = 3 ∨ n = 4 ∨ n = 5 ∨ n = 6 ∨ n = 7 ∨ n = 8 ∨ n = 9)%N
    as Hn by lia.
  destruct_or! Hn; subst; done.
Qed.

Lemma pretty_go_digits x s :
  str_all is_digit s = true → str_all is_digit (pretty_N_go x s) = true.
Proof.
  revert s. induction (N.lt_wf_0 x) as [x _ IH]; intros s Hs.
  destruct (decide (x = 0)%N) as [->|]; [done|].
  rewrite pretty_N_go_step by lia. apply IH; [apply N.div_lt; lia|].
  cbn. rewrite Hs, andb_true_r. apply pretty_char_digit. by apply N.mod_lt.
Qed.

Lemma pretty_go_val x s :
  digits_val 0 (pretty_N_go x s) = digits_val (Z.of_N x) s.
Proof.
  revert s. induction (N.lt_wf_0 x) as [x _ IH]; intros s.
  destruct (decide (x = 0)%N) as [->|]; [done|].
  rewrite pretty_N_go_step by lia. rewrite IH by (apply N.div_lt; lia).
  destruct (pretty_char_digit (x `mod` 10)) as [Hd Hv]; [by apply N.mod_lt|].
  cbn [digits_val]. rewrite digit_val_spec by done. f_equal. rewrite Hv.
  rewrite N2Z.inj_div, N2Z.inj_mod by done.
  pose proof (Z.div_mod (Z.of_N x) 10 ltac:(done)). lia.
Qed.

Lemma pretty_go_nonempty x s : s ≠ "" → pretty_N_go x s ≠ "".
Proof.
  revert s. induction (N.lt_wf_0 x) as [x _ IH]; intros s Hs.
  destruct (decide (x = 0)%N) as [->|]; [done|].
  rewrite pretty_N_go_step by lia. by apply IH; [apply N.div_lt; lia|].
Qed.

(** The decimal rendering of a non-negative integer. *)
Lemma itoa_nonneg z : 0 <= z →
  str_all is_digit (itoa z) = true ∧ itoa z ≠ "" ∧ digits_val 0 (itoa z) = Some z.
Proof.
  intros Hz. unfold itoa, pretty, pretty_Z. destruct z as [|p|p]; [done| |lia].
  unfold pretty, pretty_positive, pretty, pretty_N. rewrite decide_False by done.
  split_and!.
  - by apply pretty_go_digits.
  - rewrite pretty_N_go_step by done. by apply pretty_go_nonempty.
  - by rewrite pretty_go_val.
Qed.

Lemma itoa_neg z : z < 0 → itoa z = String "-"%char (itoa (- z)).
Proof. by destruct z. Qed.

Lemma parse_uint_digits s v : s ≠ "" → digits_val 0 s = Some v → parse_uint s = Some v.
Proof. by destruct s. Qed.

(** [Atoi] reads back what [%d] prints. *)
Lemma parse_int_itoa z : in_i64 z → parse_int (itoa z) = Some z.
Proof.
  intros Hz. destruct (Z.lt_ge_cases z 0).
  - rewrite itoa_neg by done. destruct (itoa_nonneg (- z)) as (_&Hne&Hv); [lia|].
    cbn [parse_int]. rewrite (parse_uint_digits _ (- z)) by done.
    rewrite Z.opp_involutive. by rewrite (proj2 (in_i64b_spec z)).
  - destruct (itoa_nonneg z) as (Hd&Hne&Hv); [lia|].
    assert (parse_int (itoa z) =
      match parse_uint (itoa z) with
      | Some v => if in_i64b v then Some v else None | None => None end) as ->.
    { destruct (itoa z) as [|c s]; [done|]. cbn in Hd. apply andb_prop in Hd as [Hc _].
      all_bytes c; first [discriminate Hc | done]. }
    rewrite (parse_uint_digits _ z) by done. by rewrite (proj2 (in_i64b_spec z)).
Qed.

(** ** [ParseFloat] on plain decimal integers *)

Lemma str_map_lower_digits s : str_all is_digit s = true → str_map ascii_lower s = s.
Proof.
  induction s as [|c s IH]; [done|]. cbn. intros [Hc Hs]%andb_prop.
  rewrite IH by done. f_equal. all_bytes c; first [discriminate Hc | done].
Qed.

Lemma read_mant_digits s v st :
  str_all is_digit s = true → m_dot st = false → digits_val (m_val st) s = Some v →
  ∃ dg, read_mant false st s =
    ({| m_val := v; m_frac := m_frac st; m_dot := false;
        m_digits := dg; m_under := m_under st |}, "") ∧ (s ≠ "" → dg = true)
    ∧ (m_digits st = true → dg = true).
Proof.
  revert st. induction s as [|c s IH]; intros st Hs Hd Hv.
  - cbn in Hv. simplify_eq. destruct st; simpl in *; subst.
    eexists. split_and!; [reflexivity|done|done].
  - cbn in Hs. apply andb_prop in Hs as [Hc Hs].
    cbn [digits_val] in Hv. rewrite (digit_val_spec _ Hc) in Hv.
    assert (Ascii.eqb c "_"%char = false) as Hu
      by (all_bytes c; first [discriminate Hc | done]).
    assert (Ascii.eqb c "."%char = false) as Hp
      by (all_bytes c; first [discriminate Hc | done]).
    cbn [read_mant]. rewrite Hu, Hp, (digit_val_spec _ Hc), Hd.
    edestruct (IH {| m_val := m_val st * 10 + (byte_val c - 48); m_frac := m_frac st + 0;
      m_dot := false; m_digits := true; m_under := m_under st |}) as (dg&->&_&Hdg); [done..|].
    simpl. rewrite Z.add_0_r. exists dg. split_and!; [done| |]; intros; by apply Hdg.
Qed.

Lemma parse_float_head s :
  s ≠ "" → str_all is_digit s = true → parse_float s = read_float false s.
Proof.
  intros Hne Hs. unfold parse_float. rewrite str_map_lower_digits by done.
  destruct s as [|c s]; [done|]. cbn in Hs. apply andb_prop in Hs as [Hc _].
  all_bytes c; first [discriminate Hc | done].
Qed.

Lemma read_float_head s v :
  s ≠ "" → str_all is_digit s = true → digits_val 0 s = Some v →
  read_float false s =
    match round64 false (scale10 v 0) with F_inf _ => None | x => Some x end.
Proof.
  intros Hne Hs Hv. unfold read_float.
  assert (match s with
    | String "0"%char (String x (String _ _ as r)) =>
        if lower_byte x =? 120 then (true, r) else (false, s)
    | _ => (false, s) end = (false, s)) as ->.
  { destruct s as [|c [|x [|y s]]]; [done|by all_bytes c|by all_bytes c|].
    cbn in Hs. apply andb_prop in Hs as [_ Hs]. apply andb_prop in Hs as [Hx _].
    all_bytes c; try done. all_bytes x; done. }
  edestruct (read_mant_digits s v) as (dg&->&Hdg&_); [done| |done|]; [done|].
  rewrite Hdg by done. done.
Qed.

Lemma parse_float_int s v :
  s ≠ "" → str_all is_digit s = true → digits_val 0 s = Some v → 0 <= v <= 2^53 →
  ∃ x, parse_float s = Some x ∧ f_rep x (inject_Z v).
Proof.
  intros Hne Hs Hv Hb. rewrite parse_float_head, (read_float_head _ v) by done.
  assert (0 <= inject_Z v)%Q by (change 0%Q with (inject_Z 0); rewrite <-Zle_Qle; lia).
  assert (inject_Z v <= pow2 1000)%Q by (apply Z_le_pow2_1000; lia).
  unfold scale10. simpl Z.pow. rewrite (proj2 (Z.leb_le 0 0)), Z.mul_1_r by done.
  pose proof (rep_round (inject_Z v)) as Hr. rewrite (rnd_Z v) in Hr by done.
  specialize (Hr ltac:(done) ltac:(done)).
  exists (round64 false (inject_Z v)). split; [|done].
  destruct Hr as [Hf _]. by destruct (round64 false (inject_Z v)).
Qed.
