(* ===== verification/Lines.v ===== *)
(** Lines and substrings: splitting and joining at a byte, [strings.Index],
    trimming, shared by the components that scan text. *)

From Stdlib Require Import Ascii.
From S2P Require Import Prelude GoNum GoStr.

Definition newline : ascii := ascii_of_nat 10.

(** ** Splitting and joining at a byte *)

Definition no_byte (c : ascii) (s : string) : bool := str_all (λ a, negb (Ascii.eqb a c)) s.

Lemma cut_byte_app c s rest : no_byte c s = true →
  cut_byte c (s +:+ String c rest) = Some (s, rest).
Proof.
  induction s as [|a s IH]; intros H; cbn [no_byte str_all] in H.
  - change ("" +:+ String c rest) with (String c rest). simpl. by rewrite Ascii.eqb_refl.
  - apply andb_prop in H as [Ha Hs]. apply negb_true_iff in Ha.
    rewrite sapp_cons. cbn [cut_byte]. by rewrite Ha, IH.
Qed.

Lemma split_byte_none c s : no_byte c s = true → split_byte c s = [s].
Proof.
  induction s as [|a s IH]; [done|]. cbn [no_byte str_all]. intros [Ha Hs]%andb_prop.
  apply negb_true_iff in Ha. cbn [split_byte]. rewrite Ha, IH by done. done.
Qed.

Lemma split_byte_app c s rest : no_byte c s = true →
  split_byte c (s +:+ String c rest) = s :: split_byte c rest.
Proof.
  induction s as [|a s IH]; intros H; cbn [no_byte str_all] in H.
  - change ("" +:+ String c rest) with (String c rest). cbn [split_byte]. by rewrite Ascii.eqb_refl.
  - apply andb_prop in H as [Ha Hs]. apply negb_true_iff in Ha.
    rewrite sapp_cons. cbn [split_byte]. by rewrite Ha, IH.
Qed.

(** Splitting at newlines inverts joining with newlines. *)
Lemma split_join c (ls : list string) : ls ≠ [] → Forall (λ l, no_byte c l = true) ls →
  split_byte c (join (String c "") ls) = ls.
Proof.
  intros Hne Hls. induction Hls as [|l ls Hl Hls IH]; [done|].
  destruct ls as [|l' ls]; [by apply split_byte_none|].
  change (join (String c "") (l :: l' :: ls)) with
    (l +:+ String c "" +:+ join (String c "") (l' :: ls)).
  change (String c "" +:+ join (String c "") (l' :: ls)) with
    (String c (join (String c "") (l' :: ls))).
  rewrite split_byte_app by done. f_equal. by apply IH.
Qed.

Lemma digits_no_byte c s : is_digit c = false → str_all is_digit s = true → no_byte c s = true.
Proof.
  intros Hc. apply str_all_impl. intros a Ha. apply negb_true_iff, Ascii.eqb_neq. congruence.
Qed.

Lemma no_byte_app c s t : no_byte c (s +:+ t) = no_byte c s && no_byte c t.
Proof. apply str_all_app. Qed.

(** The pieces are free of the separator, never empty as a list, and join to
    the input. *)
Lemma split_byte_forall c s : split_byte c s ≠ [] ∧ Forall (λ l, no_byte c l = true) (split_byte c s).
Proof.
  induction s as [|a s [IH1 IH2]]; cbn [split_byte]; [split; [done|by repeat constructor]|].
  destruct (Ascii.eqb a c) eqn:E; [split; [done|by constructor]|].
  destruct (split_byte c s) as [|w ws]; [done|]. apply Forall_cons in IH2 as [Hw Hws].
  split; [done|]. constructor; [|done]. unfold no_byte in *. cbn [str_all]. by rewrite E, Hw.
Qed.

Lemma join_split c s : join (String c "") (split_byte c s) = s.
Proof.
  induction s as [|a s IH]; [done|]. cbn [split_byte].
  destruct (split_byte_forall c s) as [Hne _].
  destruct (split_byte c s) as [|w ws] eqn:Es; [done|].
  destruct (Ascii.eqb a c) eqn:E.
  - apply Ascii.eqb_eq in E as ->.
    change (join (String c "") ("" :: w :: ws)) with ("" +:+ String c (join (String c "") (w :: ws))).
    by rewrite IH.
  - rewrite <-IH. destruct ws as [|v ws]; [done|].
    change (join (String c "") (String a w :: v :: ws)) with
      (String a w +:+ (String c "" +:+ join (String c "") (v :: ws))).
    by rewrite sapp_cons.
Qed.

(** ** [strings.Index] as a cut: the text before and after the first occurrence *)

Fixpoint cut_str (sep s : string) : option (string * string) :=
  match strip_prefix sep s with
  | Some rest => Some (EmptyString, rest)
  | None =>
      match s with
      | EmptyString => None
      | String c s => match cut_str sep s with
                      | Some (l, r) => Some (String c l, r)
                      | None => None
                      end
      end
  end.

Lemma cut_str_Some sep s l r : cut_str sep s = Some (l, r) → s = l +:+ sep +:+ r.
Proof.
  revert l. induction s as [|c s IH]; intros l; cbn [cut_str];
    (destruct (strip_prefix sep _) as [rest|] eqn:E;
     [apply strip_prefix_Some in E; intros [= <- <-]; done|]); [done|].
  destruct (cut_str sep s) as [[l' r']|]; [|done]. intros [= <- <-].
  rewrite sapp_cons. f_equal. by apply IH.
Qed.

Lemma strip_prefix_extend p s t r : strip_prefix p s = Some r → strip_prefix p (s +:+ t) = Some (r +:+ t).
Proof. intros ->%strip_prefix_Some. by rewrite <-sapp_assoc, strip_prefix_app. Qed.

Lemma cut_str_app sep s : cut_str sep (sep +:+ s) = Some ("", s).
Proof.
  pose proof (strip_prefix_app sep s) as E.
  destruct (sep +:+ s); cbn [cut_str]; by rewrite E.
Qed.

(** A separator whose bytes are all different from [c] is found at the first
    place: it cannot straddle a [c]. *)
Lemma strip_prefix_straddle c sep l s : no_byte c sep = true → sep ≠ "" →
  strip_prefix sep l = None → strip_prefix sep (l +:+ String c s) = None.
Proof.
  revert l. induction sep as [|a sep IH]; intros l Hsep Hne Hl; [done|].
  unfold no_byte in Hsep. cbn [str_all] in Hsep. apply andb_prop in Hsep as [Ha Hsep].
  apply negb_true_iff in Ha. destruct l as [|b l].
  - change ("" +:+ String c s) with (String c s). cbn [strip_prefix]. by rewrite Ha.
  - rewrite sapp_cons. cbn [strip_prefix] in *. destruct (Ascii.eqb a b); [|done].
    destruct sep as [|d sep]; [by destruct l|]. by apply IH.
Qed.

Lemma cut_str_straddle c sep l s : no_byte c sep = true → sep ≠ "" → cut_str sep l = None →
  cut_str sep (l +:+ String c (sep +:+ s)) = Some (l +:+ String c "", s).
Proof.
  intros Hsep Hne. induction l as [|a l IH]; intros Hl.
  - change ("" +:+ String c (sep +:+ s)) with (String c (sep +:+ s)).
    assert (strip_prefix sep (String c (sep +:+ s)) = None) as E.
    { destruct sep as [|d sep]; [done|]. unfold no_byte in Hsep. cbn [str_all] in Hsep.
      apply andb_prop in Hsep as [Hd _]. apply negb_true_iff in Hd. cbn [strip_prefix]. by rewrite Hd. }
    cbn [cut_str]. rewrite E.
    by rewrite cut_str_app.
  - cbn [cut_str] in Hl. rewrite sapp_cons. cbn [cut_str].
    destruct (strip_prefix sep (String a l)) eqn:E; [done|].
    rewrite <-sapp_cons, strip_prefix_straddle by done.
    destruct (cut_str sep l) as [[??]|] eqn:E2; [done|]. by rewrite IH by done.
Qed.

(** ** [strings.TrimRight] with a set of bytes *)

Fixpoint drop_while (P : ascii → bool) (s : string) : string :=
  match s with
  | String c s' => if P c then drop_while P s' else s
  | EmptyString => EmptyString
  end.
Definition trim_right (P : ascii → bool) (s : string) : string := String.rev (drop_while P (String.rev s)).

Lemma drop_while_suffix P s : ∃ t, str_all P t = true ∧ s = t +:+ drop_while P s.
Proof.
  induction s as [|c s (t&Ht&E)]; [by exists ""|]. cbn [drop_while]. destruct (P c) eqn:Ep; [|by exists ""].
  exists (String c t). cbn [str_all]. rewrite Ep, Ht. split; [done|]. by rewrite sapp_cons, <-E.
Qed.

Lemma trim_right_prefix P s : ∃ t, str_all P t = true ∧ s = trim_right P s +:+ t.
Proof.
  destruct (drop_while_suffix P (String.rev s)) as (t&Ht&E).
  exists (String.rev t). rewrite str_all_rev. split; [done|].
  unfold trim_right. by rewrite <-rev_sapp, <-E, rev_involutive.
Qed.

(** The first [n] bytes of a text, [s[:n]]. *)
Fixpoint str_take (n : nat) (s : string) : string :=
  match n, s with S n, String c s => String c (str_take n s) | _, _ => "" end.
Fixpoint str_drop (n : nat) (s : string) : string :=
  match n, s with S n, String _ s => str_drop n s | _, _ => s end.

Lemma str_take_drop n s : str_take n s +:+ str_drop n s = s.
Proof.
  revert s. induction n as [|n IH]; intros [|c s]; try done. cbn [str_take str_drop].
  by rewrite sapp_cons, IH.
Qed.
Lemma str_take_length n s : String.length (str_take n s) = Nat.min n (String.length s).
Proof. revert s. induction n as [|n IH]; intros [|c s]; try done. cbn. by rewrite IH. Qed.

Lemma slength_app s t : String.length (s +:+ t) = (String.length s + String.length t)%nat.
Proof. induction s as [|c s IH]; [done|]. rewrite sapp_cons. cbn. by rewrite IH. Qed.

(** Induction for scanners that consume more than one byte at a step. *)
Lemma str_len_ind (P : string → Prop) :
  (∀ s, (∀ t, (String.length t < String.length s)%nat → P t) → P s) → ∀ s, P s.
Proof.
  intros H s. remember (String.length s) as n eqn:Hn. revert s Hn.
  induction n as [n IH] using lt_wf_ind. intros s ->. apply H. intros t Ht. by apply (IH _ Ht).
Qed.

Lemma no_byte_trim_right c P s : no_byte c s = true → no_byte c (trim_right P s) = true.
Proof.
  destruct (trim_right_prefix P s) as (t&_&E). rewrite E, no_byte_app at 1. by intros [? _]%andb_prop.
Qed.
Lemma no_byte_str_take c n s : no_byte c s = true → no_byte c (str_take n s) = true.
Proof. rewrite <-(str_take_drop n s) at 1. rewrite no_byte_app. by intros [? _]%andb_prop. Qed.

Lemma join_cons sep l ls : ls ≠ [] → join sep (l :: ls) = l +:+ sep +:+ join sep ls.
Proof. by destruct ls. Qed.

Lemma join_snoc_empty sep ls : ls ≠ [] → join sep (ls ++ [""]) = join sep ls +:+ sep.
Proof.
  induction ls as [|l ls IH]; [done|]. intros _. destruct ls as [|l' ls].
  { cbn [app join]. by rewrite sapp_nil_r. }
  rewrite <-app_comm_cons, !join_cons by done. by rewrite IH, !sapp_assoc by done.
Qed.

Lemma trim_right_stop P s c : P c = false → trim_right P (s +:+ String c "") = s +:+ String c "".
Proof.
  intros Hc. unfold trim_right. rewrite rev_sapp. change (String.rev (String c "")) with (String c "").
  rewrite sapp_cons. cbn [drop_while]. rewrite Hc, <-sapp_cons. 
  change (String c "" +:+ String.rev s) with (String.rev (String c "") +:+ String.rev s).
  by rewrite <-rev_sapp, rev_involutive.
Qed.
Lemma trim_right_drop P s c : P c = true → trim_right P (s +:+ String c "") = trim_right P s.
Proof.
  intros Hc. unfold trim_right. rewrite rev_sapp. change (String.rev (String c "")) with (String c "").
  rewrite sapp_cons. cbn [drop_while]. by rewrite Hc.
Qed.

(** ** A text occurs in another *)

Definition occurs (sub s : string) : Prop := ∃ h t, s = h +:+ sub +:+ t.

Lemma occurs_refl s : occurs s s.
Proof. exists "", "". by rewrite sapp_nil_r. Qed.
Lemma occurs_app_l s t sub : occurs sub s → occurs sub (s +:+ t).
Proof. intros (h&u&->). exists h, (u +:+ t). by rewrite <-!sapp_assoc. Qed.
Lemma occurs_app_r s t sub : occurs sub t → occurs sub (s +:+ t).
Proof. intros (h&u&->). exists (s +:+ h), u. by rewrite <-!sapp_assoc. Qed.
#[export] Instance occurs_trans : Transitive occurs.
Proof.
  intros r s t (h&u&->) (h'&u'&->). exists (h' +:+ h), (u +:+ u'). by rewrite <-!sapp_assoc.
Qed.
#[export] Hint Resolve occurs_refl : go.

(** Find [sub] in a right-nested concatenation. *)
Ltac occurs_in_app sub :=
  repeat lazymatch goal with
  | |- occurs ?r (sub +:+ ?t) => exact (occurs_app_l sub t r (occurs_refl sub))
  | |- occurs ?r (?s +:+ ?t) => apply (occurs_app_r s t r)
  end.
