(* ===== verification/GoTime.v ===== *)
(** Go's [time] package as the program uses it: a [time.Time] is a number of
    nanoseconds since the zero time, a [time.Duration] an int64 number of
    nanoseconds.  [Time.Sub] saturates at the range of a duration; [Time.Add] is
    taken without overflow (the zero time and the present are 2^61 ns apart, and
    the seconds of a [time.Time] are an int64 of their own). *)

From S2P Require Import Prelude GoNum GoStr.
Local Open Scope Z_scope.

Definition maxDuration : Z := 2^63 - 1.
Definition Nanosecond : Z := 1.
Definition Second : Z := 1000000000.
Definition Minute : Z := 60 * Second.
Definition Hour : Z := 60 * Minute.
Definition Day : Z := 24 * Hour.

Definition time_after (t u : Z) : bool := u <? t.
Definition time_before (t u : Z) : bool := t <? u.
Definition time_sub (t u : Z) : Z := Z.max (- 2^63) (Z.min (t - u) maxDuration).
Definition time_add (t d : Z) : Z := t + d.
Definition time_IsZero (t : Z) : bool := t =? 0.

(** [Time.Unix]: whole seconds since 1970 of a time counted from year 1. *)
Definition unix_seconds (t : Z) : Z := t / Second - 62135596800.

(** [Duration.Seconds]: whole seconds plus the fraction, in float64. *)
Definition duration_seconds (d : Z) : float64 :=
  f_add (f_of_Z (Z.quot d Second)) (f_div (f_of_Z (Z.rem d Second)) (f_of_Z Second)).

Lemma time_sub_exact t u : in_i64 (t - u) → time_sub t u = t - u.
Proof. unfold time_sub, maxDuration, in_i64. lia. Qed.

(** Saturation does not change a comparison with a duration, except at the very
    end of the range. *)
Lemma time_sub_lt t u d : - 2^63 < d <= maxDuration → (time_sub t u < d ↔ t - u < d).
Proof. unfold time_sub, maxDuration. lia. Qed.

Lemma time_sub_le t u d : - 2^63 <= d < maxDuration → (time_sub t u <= d ↔ t - u <= d).
Proof. unfold time_sub, maxDuration. lia. Qed.

(** [Time.Truncate]: down to a multiple of a positive duration since the zero
    time. *)
Definition time_truncate (t d : Z) : Z := if d <=? 0 then t else t - t mod d.

(** ** Civil dates, UTC *)

(** Year, day of the year from 0 and whether the year is a leap year, of a number
    of days since 1 January of year 1 (cycles of 400, 100, 4 and 1 years). *)
Definition civil_year (days : Z) : Z * Z * bool :=
  let n400 := days / 146097 in let r := days mod 146097 in
  let n100 := Z.min 3 (r / 36524) in let r := r - n100 * 36524 in
  let n4 := r / 1461 in let r := r - n4 * 1461 in
  let n1 := Z.min 3 (r / 365) in let r := r - n1 * 365 in
  (400 * n400 + 100 * n100 + 4 * n4 + n1 + 1, r,
   (n1 =? 3) && (negb (n4 =? 24) || (n100 =? 3))).

Definition month_lengths (leap : bool) : list Z :=
  [31; if leap then 29 else 28; 31; 30; 31; 30; 31; 31; 30; 31; 30; 31].

(** Month and day, both from 1, of a day of the year. *)
Fixpoint civil_month (month : Z) (lengths : list Z) (yday : Z) : Z * Z :=
  match lengths with
  | [] => (month, yday + 1)
  | n :: ls => if yday <? n then (month, yday + 1) else civil_month (month + 1) ls (yday - n)
  end.

(** [appendInt(x, width)]: at least [width] digits after the sign. *)
Definition append_int (width : nat) (x : Z) : string :=
  (if x <? 0 then "-" else "") +:+ pad_left width (itoa (Z.abs x)).

(** [t.UTC().Format(time.RFC3339)]. *)
Definition format_rfc3339 (t : Z) : string :=
  let secs := t / Second in
  let '(year, yday, leap) := civil_year (secs / 86400) in
  let '(month, day) := civil_month 1 (month_lengths leap) yday in
  let sod := secs mod 86400 in
  append_int 4 year +:+ "-" +:+ append_int 2 month +:+ "-" +:+ append_int 2 day +:+ "T" +:+
  append_int 2 (sod / 3600) +:+ ":" +:+ append_int 2 (sod / 60 mod 60) +:+ ":" +:+ append_int 2 (sod mod 60) +:+ "Z".

Example rfc3339_examples :
  format_rfc3339 (62135596800 * Second) = "1970-01-01T00:00:00Z" ∧
  format_rfc3339 ((62135596800 + 951782399) * Second) = "2000-02-28T23:59:59Z" ∧
  format_rfc3339 ((62135596800 + 951868799 + 1) * Second) = "2000-03-01T00:00:00Z" ∧
  format_rfc3339 ((62135596800 + 1767225599) * Second) = "2025-12-31T23:59:59Z".
Proof. vm_compute. auto. Qed.
