(* ===== verification/Quantity.v ===== *)
(** [pkg/parser/quantity.go]: Kubernetes CPU and memory quantities. *)

From Stdlib Require Import Ascii QArith Qround Lqa.
From S2P Require Import Prelude GoNum GoStr.
Local Open Scope Z_scope.

(** CPU in millicores, memory in bytes. *)
Record Quantity := { Value : Z; IsSet : bool; Original : string }.

Definition unset_quantity : Quantity := {| Value := 0; IsSet := false; Original := "" |}.

Inductive qty_error :=
| ErrNumber (s : string)     (** wraps the strconv error *)
| ErrNegative (s : string)
| ErrMemOverflow.

#[export] Instance quantity_eq_dec : EqDecision Quantity.
Proof. solve_decision. Defined.

Definition Quantity_String (q : Quantity) : string :=
  if negb (IsSet q) then "(unset)" else Original q.

(** (suffix, multiplier) in the order the code tries them. *)
Definition memory_suffixes : list (string * Z) :=
  [ ("Ki", 1024); ("Mi", 1024 * 1024); ("Gi", 1024 * 1024 * 1024);
    ("Ti", 1024 * 1024 * 1024 * 1024); ("Pi", 1024 * 1024 * 1024 * 1024 * 1024);
    ("k", 1000); ("M", 1000000); ("G", 1000000000); ("T", 1000000000000);
    ("P", 1000000000000000) ].

Fixpoint split_suffix (table : list (string * Z)) (s : string) : Z * string :=
  match table with
  | [] => (1, s)
  | (suf, mult) :: rest =>
      if has_suffix s suf then (mult, trim_suffix s suf) else split_suffix rest s
  end.
Definition splitMemorySuffix (s : string) : Z * string := split_suffix memory_suffixes s.

Definition FormatCPU (q : Quantity) : string :=
  if negb (IsSet q) then "(unset)"
  else if Z.rem (Value q) 1000 =? 0 then itoa (Z.quot (Value q) 1000)
  else itoa (Value q) +:+ "m".

Definition FormatMemory (q : Quantity) : string :=
  let v := Value q in
  let scaled (unit : Z) := fmt_fixed 1 (f_div (f_of_Z v) (f_of_Z unit)) in
  if negb (IsSet q) then "(unset)"
  else if 1024 * 1024 * 1024 * 1024 <=? v then scaled (1024 * 1024 * 1024 * 1024) +:+ "Ti"
  else if 1024 * 1024 * 1024 <=? v then scaled (1024 * 1024 * 1024) +:+ "Gi"
  else if 1024 * 1024 <=? v then scaled (1024 * 1024) +:+ "Mi"
  else if 1024 <=? v then scaled 1024 +:+ "Ki"
  else itoa v +:+ "B".

Section Parse.
Context `{GoPlatform}.

Definition ParseCPU (s : string) : result qty_error Quantity :=
  let s := trim_space s in
  if String.eqb s "" then Ok unset_quantity
  else if has_suffix s "m" then
    match parse_int (trim_suffix s "m") with
    | None => Err (ErrNumber s)
    | Some n =>
        if n <? 0 then Err (ErrNegative s)
        else Ok {| Value := n; IsSet := true; Original := s |}
    end
  else
    match parse_float s with
    | None => Err (ErrNumber s)
    | Some f =>
        if f_lt f (f_of_Z 0) then Err (ErrNegative s)
        else Ok {| Value := f_to_i64 (f_mul f (f_of_Z 1000)); IsSet := true; Original := s |}
    end.

Definition ParseMemory (s : string) : result qty_error Quantity :=
  let s := trim_space s in
  if String.eqb s "" then Ok unset_quantity
  else
    let '(mult, raw) := splitMemorySuffix s in
    match parse_float raw with
    | None => Err (ErrNumber s)
    | Some f =>
        if f_lt f (f_of_Z 0) then Err (ErrNegative s)
        else
          let v := f_to_i64 (f_mul f (f_of_Z mult)) in
          if v <? 0 then Err ErrMemOverflow
          else Ok {| Value := v; IsSet := true; Original := s |}
    end.

(** ** Helper lemmas *)

Lemma nonneg_not_lt0 x v : f_rep x v → (0 <= v)%Q → f_lt x (f_of_Z 0) = false.
Proof.
  intros Hx Hv. rewrite (rep_lt x (f_of_Z 0) v (inject_Z 0)).
  - apply negb_false_iff. by apply Qle_bool_iff.
  - done.
  - apply rep_of_Z. lia.
Qed.

(** Scaling an exactly parsed integer stays exact below 2^53. *)
Lemma scale_exact x v mult :
  f_rep x (inject_Z v) → 0 <= v → 0 < mult <= 2^53 → v * mult <= 2^53 →
  f_to_i64 (f_mul x (f_of_Z mult)) = v * mult.
Proof.
  intros Hx Hv Hm Hb.
  assert (0 <= inject_Z v)%Q by (change 0%Q with (inject_Z 0); rewrite <-Zle_Qle; lia).
  assert (0 <= inject_Z mult)%Q by (change 0%Q with (inject_Z 0); rewrite <-Zle_Qle; lia).
  edestruct (rep_mul x (f_of_Z mult)) as (q&Hq&Hr);
    [done|by apply rep_of_Z; lia|done|done| |].
  { rewrite <-inject_Z_mult. apply Z_le_pow2_1000. lia. }
  rewrite <-inject_Z_mult in Hq.
  assert (rnd q == inject_Z (v * mult))%Q as Hq'.
  { destruct (decide (v = 0)) as [->|]; [by rewrite rnd_0|].
    rewrite (rnd_comp q (inject_Z (v * mult))), rnd_Z; [done|lia| |done].
    rewrite Hq. change 0%Q with (inject_Z 0). rewrite <-Zlt_Qlt. nia. }
  rewrite Hq' in Hr. rewrite (rep_to_i64 _ _ Hr); rewrite Qfloor_Z; [done|].
  unfold in_i64. nia.
Qed.
End Parse.

Lemma itoa_graph n : 0 <= n → str_all is_graph (itoa n) = true.
Proof.
  intros Hn. destruct (itoa_nonneg n Hn) as (Hd&_&_).
  eapply str_all_impl; [|done]. apply is_digit_graph.
Qed.

(** No memory or CPU suffix ends a digit string. *)
Lemma digits_no_suffix s a suf :
  s ≠ "" → str_all is_digit s = true → is_digit a = false →
  strip_suffix (suf +:+ String a "") s = None.
Proof.
  intros Hne Hs Ha. unfold strip_suffix. rewrite <-str_all_rev in Hs.
  rewrite rev_sapp. change (String.rev (String a "")) with (String a "").
  destruct (String.rev s) as [|c r] eqn:E.
  - done.
  - cbn in Hs. apply andb_prop in Hs as [Hc _]. rewrite sapp_cons. cbn.
    destruct (Ascii.eqb a c) eqn:Eac; [|done].
    apply Ascii.eqb_eq in Eac as ->. congruence.
Qed.

Lemma has_suffix_digits s a suf :
  s ≠ "" → str_all is_digit s = true → is_digit a = false →
  has_suffix s (suf +:+ String a "") = false.
Proof. intros. unfold has_suffix. by rewrite digits_no_suffix. Qed.

(** [split_suffix] undoes appending one of the listed suffixes. *)
Lemma split_memory_suffix s suf mult :
  s ≠ "" → str_all is_digit s = true → (suf, mult) ∈ ("", 1) :: memory_suffixes →
  splitMemorySuffix (s +:+ suf) = (mult, s).
Proof.
  intros Hne Hs Hin. unfold splitMemorySuffix.
  assert (∀ a, is_digit a = false → strip_suffix (String a "") s = None) as Hno
    by (intros a Ha; by apply (digits_no_suffix s a "")).
  assert (∀ a, is_digit a = false → strip_suffix (String a "i") s = None) as Hnoi
    by (intros a Ha; by apply (digits_no_suffix s "i"%char (String a ""))).
  unfold memory_suffixes in Hin.
  repeat (apply elem_of_cons in Hin as [Hin|Hin]; [simplify_eq|]); [..|by apply elem_of_nil in Hin].
  1: { rewrite sapp_nil_r. unfold memory_suffixes, split_suffix, has_suffix.
       by rewrite !Hno, !Hnoi by done. }
  all: unfold memory_suffixes, split_suffix, has_suffix, trim_suffix, strip_suffix;
    rewrite rev_sapp; cbn; rewrite !sapp_cons;
    change ("" +:+ String.rev s) with (String.rev s); cbn; by rewrite ?rev_involutive.
Qed.

(** Printing a CPU quantity with [FormatCPU] and parsing it back with
    [ParseCPU] gives the same number of millicores, for every value up to 2^53
    (whole cores and millicore strings alike). *)
Theorem parse_format_cpu `{GoPlatform} (v : Z) (o : string) :
  0 <= v <= 2^53 →
  let q := {| Value := v; IsSet := true; Original := o |} in
  ParseCPU (FormatCPU q) =
    Ok {| Value := v; IsSet := true; Original := FormatCPU q |}.
Proof.
  intros Hv q. unfold FormatCPU, ParseCPU. cbn [q IsSet Value negb].
  destruct (Z.rem v 1000 =? 0) eqn:E.
  - apply Z.eqb_eq in E.
    assert (v = 1000 * Z.quot v 1000) as Hq by (pose proof (Z.quot_rem' v 1000); lia).
    set (k := Z.quot v 1000) in *. assert (0 <= k <= 2^53) as Hk by lia.
    destruct (itoa_nonneg k) as (Hd&Hne&Hval); [lia|].
    rewrite (trim_space_graph (itoa k)) by (apply itoa_graph; lia).
    apply String.eqb_neq in Hne as Hne'. rewrite Hne'.
    pose proof (has_suffix_digits (itoa k) "m" "" Hne Hd eq_refl) as Hm.
    change ("" +:+ "m") with "m" in Hm. rewrite Hm.
    destruct (parse_float_int (itoa k) k) as (x&->&Hx); [done..|].
    rewrite (nonneg_not_lt0 _ _ Hx) by (change 0%Q with (inject_Z 0); rewrite <-Zle_Qle; lia).
    rewrite (scale_exact x k 1000) by (done || lia). repeat f_equal. lia.
  - destruct (itoa_nonneg v) as (Hd&Hne&Hval); [lia|].
    rewrite trim_space_graph by (rewrite str_all_app, itoa_graph by lia; done).
    assert (String.eqb (itoa v +:+ "m") "" = false) as ->
      by (apply String.eqb_neq; by destruct (itoa v)).
    unfold has_suffix, trim_suffix. rewrite strip_suffix_app. cbn [default from_option id].
    rewrite parse_int_itoa by (unfold in_i64; lia).
    by rewrite (proj2 (Z.ltb_ge v 0)) by lia.
Qed.

Lemma parse_format_cpu_witness :
  0 <= 1500 <= 2^53 ∧
  @ParseCPU amd64 (FormatCPU {| Value := 1500; IsSet := true; Original := "1.5" |}) =
    Ok {| Value := 1500; IsSet := true; Original := "1500m" |}.
Proof. split; [lia|]. apply (@parse_format_cpu amd64 1500 "1.5"). lia. Defined.

Lemma parse_memory_units `{GoPlatform} (n : Z) (suf : string) (mult : Z) :
  (suf, mult) ∈ ("", 1) :: memory_suffixes → 0 <= n → n * mult <= 2^53 →
  ParseMemory (itoa n +:+ suf) =
    Ok {| Value := n * mult; IsSet := true; Original := itoa n +:+ suf |}.
Proof.
  intros Hin Hn Hb. destruct (itoa_nonneg n Hn) as (Hd&Hne&Hval).
  assert (str_all is_graph suf = true ∧ 0 < mult <= 2^53) as [Hg Hm].
  { revert Hin. unfold memory_suffixes. rewrite !elem_of_cons, elem_of_nil.
    intros Hin. destruct_or! Hin; simplify_eq; done. }
  unfold ParseMemory.
  rewrite trim_space_graph by (by rewrite str_all_app, itoa_graph, Hg).
  assert (String.eqb (itoa n +:+ suf) "" = false) as ->
    by (apply String.eqb_neq; by destruct (itoa n)).
  rewrite (split_memory_suffix _ _ mult) by done.
  destruct (parse_float_int (itoa n) n) as (x&->&Hx); [done..|nia|].
  rewrite (nonneg_not_lt0 _ _ Hx) by (change 0%Q with (inject_Z 0); rewrite <-Zle_Qle; lia).
  rewrite (scale_exact x n mult) by done.
  by rewrite (proj2 (Z.ltb_ge (n * mult) 0)) by nia.
Qed.

(** [ParseMemory] of a decimal integer followed by any of the ten unit
    suffixes (or none) is exactly the integer times the unit, as long as the
    product does not exceed 2^53. *)
Theorem parse_memory_exact `{GoPlatform} (n : Z) (suf : string) (mult : Z) :
  (suf, mult) ∈ ("", 1) :: memory_suffixes → 0 <= n → n * mult <= 2^53 →
  ParseMemory (itoa n +:+ suf) =
    Ok {| Value := n * mult; IsSet := true; Original := itoa n +:+ suf |}.
Proof. apply parse_memory_units. Qed.

Lemma parse_memory_exact_witness :
  @ParseMemory amd64 "512Mi" =
    Ok {| Value := 512 * (1024 * 1024); IsSet := true; Original := "512Mi" |}.
Proof.
  apply (@parse_memory_exact amd64 512 "Mi" (1024 * 1024)); [|lia|lia].
  by apply list_elem_of_In; vm_compute; auto.
Defined.

(** Whatever the text and the platform, a quantity accepted by
    [ParseMemory] is unset exactly when the trimmed text is empty, keeps the
    trimmed text, and its byte count is a non-negative int64 (floats that
    overflow are rejected or clamped, never negative). *)
Theorem parse_memory_range `{GoPlatform} (s : string) (q : Quantity) :
  ParseMemory s = Ok q →
  0 <= Value q < 2^63 ∧ Original q = trim_space s ∧
  (IsSet q = false ↔ trim_space s = "").
Proof.
  unfold ParseMemory. set (t := trim_space s).
  destruct (String.eqb t "") eqn:E.
  { apply String.eqb_eq in E. intros. simplify_eq/=. rewrite E. done. }
  apply String.eqb_neq in E.
  destruct (splitMemorySuffix t) as [mult raw].
  destruct (parse_float raw) as [f|]; [|done]. destruct (f_lt f (f_of_Z 0)); [done|].
  destruct (f_to_i64 (f_mul f (f_of_Z mult)) <? 0) eqn:El; [done|].
  intros. simplify_eq/=. apply Z.ltb_ge in El.
  assert (in_i64 (f_to_i64 (f_mul f (f_of_Z mult)))) as [_ Hlt].
  { unfold f_to_i64. destruct (f_finite _ && _) eqn:Ef; [|apply f2i_oob_range].
    apply andb_prop in Ef as [_ Ef]. by apply in_i64b_spec. }
  done.
Qed.

Lemma parse_memory_range_witness :
  ∃ q, @ParseMemory arm64 "1e30" = Ok q ∧ 0 <= Value q < 2^63.
Proof.
  exists {| Value := 2^63 - 1; IsSet := true; Original := "1e30" |}.
  split; [vm_compute; reflexivity|].
  refine (proj1 (@parse_memory_range arm64 "1e30" _ _)). vm_compute; reflexivity.
Defined.

(** [ParseCPU] has no such protection.  A fraction of a core whose product
    with 1000 rounds just below an integer loses a millicore, and on amd64 a
    number too large for int64 (or "nan") is accepted as a huge negative
    request. *)
Theorem parse_cpu_truncation_and_overflow :
  (∀ P : GoPlatform, ParseCPU "1.001" =
     Ok {| Value := 1000; IsSet := true; Original := "1.001" |}) ∧
  @ParseCPU amd64 "1e30" = Ok {| Value := - 2^63; IsSet := true; Original := "1e30" |} ∧
  @ParseCPU amd64 "nan" = Ok {| Value := - 2^63; IsSet := true; Original := "nan" |}.
Proof. split_and!; [intros P|..]; vm_compute; reflexivity. Qed.
