(* ===== verification/Helm.v ===== *)
(** [pkg/parser/helm.go]: from a Helm values document to workloads.  The YAML
    parser (gopkg.in/yaml.v3) is a parameter: it maps the text to the node tree
    the code walks, or fails. *)

From Stdlib Require Import Ascii.
From S2P Require Import Prelude GoNum GoStr Quantity.
Local Open Scope Z_scope.

(** The fields of [yaml.Node] the program reads. *)
Inductive NodeKind := NoKind | DocumentNode | SequenceNode | MappingNode | ScalarNode | AliasNode.
Inductive Node := mkNode (Kind : NodeKind) (Value : string) (Content : list Node).

#[export] Instance nodekind_eq_dec : EqDecision NodeKind.
Proof. solve_decision. Defined.

Definition NKind (n : Node) : NodeKind := let 'mkNode k _ _ := n in k.
Definition NValue (n : Node) : string := let 'mkNode _ v _ := n in v.
Definition NContent (n : Node) : list Node := let 'mkNode _ _ c := n in c.

Definition kind_is (k : NodeKind) (n : Node) : bool := bool_decide (NKind n = k).

Record ResourceList := { CPU : Quantity; Memory : Quantity }.
Record ImageRef := { Repository : string; Tag : string; ImageSet : bool }.
Record SecurityContext := {
  RunAsNonRoot : option bool;
  RunAsUser : option Z;
  Privileged : option bool;
  ReadOnlyRootFilesystem : option bool;
  HostNetwork : option bool;
  HostPID : option bool;
  HostIPC : option bool;
  HostPath : option bool;
  AllowPrivilegeEscalation : option bool;
  AutomountServiceAccountToken : option bool;
  CapabilitiesAdd : list string;
  CapabilitiesDrop : list string;
}.
Record Workload := {
  Name : string;
  WKind : string;
  Requests : ResourceList;
  Limits : ResourceList;
  Image : ImageRef;
  Replicas : Z;
  HasHPA : bool;
  Security : SecurityContext;
}.

Definition ImageRef_String (i : ImageRef) : string :=
  if negb (ImageSet i) then ""
  else if String.eqb (Tag i) "" then Repository i
  else Repository i +:+ ":" +:+ Tag i.

(** [for i := 0; i+1 < len(n.Content); i += 2]: the key/value pairs. *)
Fixpoint pairs (l : list Node) : list (Node * Node) :=
  match l with k :: v :: rest => (k, v) :: pairs rest | _ => [] end.

Fixpoint find_pair (key : string) (l : list (Node * Node)) : option Node :=
  match l with
  | [] => None
  | (k, v) :: rest =>
      if kind_is ScalarNode k && String.eqb (NValue k) key then Some v else find_pair key rest
  end.

Definition findChild (n : Node) (key : string) : option Node :=
  if kind_is MappingNode n then find_pair key (pairs (NContent n)) else None.

Definition joinPath (parent child : string) : string :=
  if String.eqb parent "" then child else parent +:+ "." +:+ child.

(** The child under [key] when it is a scalar; most readers start this way. *)
Definition scalarChild (n : Node) (key : string) : option string :=
  match findChild n key with
  | Some v => if kind_is ScalarNode v then Some (NValue v) else None
  | None => None
  end.

Definition boolValue (s : string) : bool :=
  str_mem s ["true"; "True"; "TRUE"; "yes"; "Yes"; "1"].

(** The digit loop shared by [readReplicas] and [parseInt64]: 64-bit
    arithmetic that wraps silently; [None] on a non-digit. *)
Fixpoint wrap_digits (acc : Z) (s : string) : option Z :=
  match s with
  | EmptyString => Some acc
  | String c s' =>
      if is_digit c then wrap_digits (i64_add (i64_mul acc 10) (byte_val c - 48)) s'
      else None
  end.

Definition parseInt64 (s : string) : option Z :=
  match s with
  | EmptyString => None
  | String "-"%char s' => i64_neg <$> wrap_digits 0 s'
  | _ => wrap_digits 0 s
  end.

Definition readReplicas (n : Node) : Z :=
  let fix go keys :=
    match keys with
    | [] => 0
    | key :: rest =>
        match scalarChild n key with
        | Some v => default 0 (wrap_digits 0 v)
        | None => go rest
        end
    end in
  go ["replicas"; "replicaCount"].

Definition readHasHPA (n : Node) : bool :=
  let fix go keys :=
    match keys with
    | [] => false
    | key :: rest =>
        match findChild n key with
        | Some c =>
            if kind_is MappingNode c then
              match scalarChild c "enabled" with
              | Some v => if str_mem v ["true"; "yes"; "1"] then true
                          else if str_mem v ["false"; "no"; "0"] then false
                          else true
              | None => true
              end
            else go rest
        | None => go rest
        end
    end in
  go ["autoscaling"; "hpa"; "horizontalPodAutoscaler"].

Definition readStringList (n : option Node) : list string :=
  match n with
  | Some n =>
      if kind_is SequenceNode n then
        NValue <$> List.filter (λ c, kind_is ScalarNode c && negb (String.eqb (NValue c) ""))
                     (NContent n)
      else []
  | None => []
  end.

(** [splitImage]: at the rightmost [':']. *)
Fixpoint splitImage (s : string) : string * string :=
  match s with
  | EmptyString => ("", "")
  | String c s' =>
      match cut_byte ":"%char s' with
      | Some _ => let '(r, t) := splitImage s' in (String c r, t)
      | None => if Ascii.eqb c ":"%char then ("", s') else (s, "")
      end
  end.

Definition no_image : ImageRef := {| Repository := ""; Tag := ""; ImageSet := false |}.

Definition readImage_step (ref : ImageRef) (kv : Node * Node) : ImageRef :=
  let '(k, v) := kv in
  if negb (kind_is ScalarNode k) || negb (kind_is ScalarNode v) then ref
  else if str_mem (NValue k) ["repository"; "name"] then
    {| Repository := NValue v; Tag := Tag ref; ImageSet := true |}
  else if String.eqb (NValue k) "tag" then
    {| Repository := Repository ref; Tag := NValue v; ImageSet := true |}
  else ref.

Definition readImage (n : option Node) : ImageRef :=
  match n with
  | None => no_image
  | Some n =>
      match NKind n with
      | ScalarNode =>
          if String.eqb (NValue n) "" then no_image
          else let '(repo, tag) := splitImage (NValue n) in
               {| Repository := repo; Tag := tag; ImageSet := true |}
      | MappingNode => foldl readImage_step no_image (pairs (NContent n))
      | _ => no_image
      end
  end.

Definition no_resources : ResourceList := {| CPU := unset_quantity; Memory := unset_quantity |}.

(** ** securityContext *)

Definition empty_security : SecurityContext := {|
  RunAsNonRoot := None; RunAsUser := None; Privileged := None;
  ReadOnlyRootFilesystem := None; HostNetwork := None; HostPID := None; HostIPC := None;
  HostPath := None; AllowPrivilegeEscalation := None;
  AutomountServiceAccountToken := None; CapabilitiesAdd := []; CapabilitiesDrop := [] |}.

(** [Some] new value when the key is a scalar, otherwise the old one. *)
Definition scalarBool (ctx : Node) (key : string) (old : option bool) : option bool :=
  match scalarChild ctx key with Some v => Some (boolValue v) | None => old end.

Definition capabilitiesOf (ctx : Node) : option Node :=
  match findChild ctx "capabilities" with
  | Some c => if kind_is MappingNode c then Some c else None
  | None => None
  end.

Definition applySecFields (ctx : Node) (out : SecurityContext) : SecurityContext := {|
  RunAsNonRoot := scalarBool ctx "runAsNonRoot" (RunAsNonRoot out);
  RunAsUser :=
    match scalarChild ctx "runAsUser" with
    | Some v => match parseInt64 v with Some n => Some n | None => RunAsUser out end
    | None => RunAsUser out
    end;
  Privileged := scalarBool ctx "privileged" (Privileged out);
  ReadOnlyRootFilesystem := scalarBool ctx "readOnlyRootFilesystem" (ReadOnlyRootFilesystem out);
  HostNetwork := HostNetwork out;
  HostPID := HostPID out;
  HostIPC := HostIPC out;
  HostPath := HostPath out;
  AllowPrivilegeEscalation := scalarBool ctx "allowPrivilegeEscalation" (AllowPrivilegeEscalation out);
  AutomountServiceAccountToken := AutomountServiceAccountToken out;
  CapabilitiesAdd :=
    match capabilitiesOf ctx with
    | Some c => readStringList (findChild c "add") | None => CapabilitiesAdd out end;
  CapabilitiesDrop :=
    match capabilitiesOf ctx with
    | Some c => readStringList (findChild c "drop") | None => CapabilitiesDrop out end;
|}.

Definition readHostPath (n : Node) : option bool :=
  match findChild n "volumes" with
  | Some vols =>
      if kind_is SequenceNode vols &&
         existsb (λ v, kind_is MappingNode v && bool_decide (is_Some (findChild v "hostPath")))
                 (NContent vols)
      then Some true else None
  | None => None
  end.

Definition readSecurity (n : Node) : SecurityContext :=
  let sec := {|
    RunAsNonRoot := None; RunAsUser := None; Privileged := None;
    ReadOnlyRootFilesystem := None;
    HostNetwork := scalarBool n "hostNetwork" None;
    HostPID := scalarBool n "hostPID" None;
    HostIPC := scalarBool n "hostIPC" None;
    HostPath := readHostPath n;
    AllowPrivilegeEscalation := None;
    AutomountServiceAccountToken := scalarBool n "automountServiceAccountToken" None;
    CapabilitiesAdd := []; CapabilitiesDrop := [] |} in
  foldl (λ sec key,
      match findChild n key with
      | Some ctx => if kind_is MappingNode ctx then applySecFields ctx sec else sec
      | None => sec
      end)
    sec ["securityContext"; "podSecurityContext"; "containerSecurityContext"].

(** ** Workloads *)

Inductive parse_error := ErrRead | ErrYaml | ErrEmptyDocument | ErrTopLevel.

Section Walk.
Context `{GoPlatform}.

Definition readResourceList_step (rl : ResourceList) (kv : Node * Node) : ResourceList :=
  let '(k, v) := kv in
  if negb (kind_is ScalarNode k) || negb (kind_is ScalarNode v) then rl
  else if String.eqb (NValue k) "cpu" then
    match ParseCPU (NValue v) with
    | Ok q => {| CPU := q; Memory := Memory rl |} | Err _ => rl end
  else if String.eqb (NValue k) "memory" then
    match ParseMemory (NValue v) with
    | Ok q => {| CPU := CPU rl; Memory := q |} | Err _ => rl end
  else rl.

Definition readResourceList (n : Node) : ResourceList :=
  if kind_is MappingNode n
  then foldl readResourceList_step no_resources (pairs (NContent n))
  else no_resources.

Definition resourcesUnder (res : Node) (key : string) : ResourceList :=
  match findChild res key with Some r => readResourceList r | None => no_resources end.

(** The [Workload] literal built inside [walk]. *)
Definition mkWorkload (childPath : string) (v res : Node) : Workload := {|
  Name := childPath;
  WKind := "Deployment";
  Requests := resourcesUnder res "requests";
  Limits := resourcesUnder res "limits";
  Image := readImage (findChild v "image");
  Replicas := readReplicas v;
  HasHPA := readHasHPA v;
  Security := readSecurity v;
|}.

(** The mapping under [resources], which makes a node a workload. *)
Definition resourcesOf (v : Node) : option Node :=
  match findChild v "resources" with
  | Some res => if kind_is MappingNode res then Some res else None
  | None => None
  end.

Fixpoint walk (n : Node) (path : string) : list Workload :=
  match n with
  | mkNode MappingNode _ content =>
      (fix go (l : list Node) : list Workload :=
         match l with
         | k :: v :: rest =>
             (if kind_is ScalarNode k then
                let childPath := joinPath path (NValue k) in
                if kind_is MappingNode v then
                  (match resourcesOf v with
                   | Some res => [mkWorkload childPath v res]
                   | None => []
                   end) ++ walk v childPath
                else []
              else []) ++ go rest
         | _ => []
         end) content
  | _ => []
  end.

(** [input] is what [io.ReadAll] returns; [yaml_parse] is yaml.Unmarshal into
    a [yaml.Node]. *)
Definition ParseValues `{GoSort} (yaml_parse : string → option Node)
    (input : option string) : result parse_error (list Workload) :=
  match input with
  | None => Err ErrRead
  | Some raw =>
      match yaml_parse raw with
      | None => Err ErrYaml
      | Some root =>
          if negb (kind_is DocumentNode root) then Err ErrEmptyDocument else
          match NContent root with
          | [] => Err ErrEmptyDocument
          | top :: _ =>
              if negb (kind_is MappingNode top) then Err ErrTopLevel
              else Ok (sort_slice (λ a b, String.ltb (Name a) (Name b)) (walk top ""))
          end
      end
  end.
End Walk.

(** ** What counts as a workload: an inductive specification *)

(** [declares n path p v]: below the node [n], whose own dotted path is [path],
    the mapping [v] sits at the dotted path [p]. *)
Inductive declares : Node → string → string → Node → Prop :=
| declares_here n path k v :
    NKind n = MappingNode → (k, v) ∈ pairs (NContent n) →
    NKind k = ScalarNode → NKind v = MappingNode →
    declares n path (joinPath path (NValue k)) v
| declares_below n path k v p v' :
    NKind n = MappingNode → (k, v) ∈ pairs (NContent n) →
    NKind k = ScalarNode → NKind v = MappingNode →
    declares v (joinPath path (NValue k)) p v' →
    declares n path p v'.

Section NodeInd.
Variable P : Node → Prop.
Hypothesis HP : ∀ k s c, Forall P c → P (mkNode k s c).
Fixpoint node_ind (n : Node) : P n :=
  let 'mkNode k s c := n in
  HP k s c ((fix go l : Forall P l :=
    match l with [] => List.Forall_nil P | x :: l' => List.Forall_cons P x l' (node_ind x) (go l') end) c).
End NodeInd.

Lemma pairs_Forall (P : Node → Prop) l :
  Forall P l → Forall (λ kv, P kv.2) (pairs l).
Proof.
  induction l as [l IH] using (well_founded_induction (Wf_nat.well_founded_ltof _ length)).
  intros Hl. destruct l as [|k [|v l]]; simpl; [constructor|constructor|].
  apply Forall_cons_1 in Hl as [_ Hl]. apply Forall_cons_1 in Hl as [Hv Hl].
  constructor; [done|]. apply IH; [|done]. unfold Wf_nat.ltof. simpl. lia.
Qed.

Section WalkFacts.
Context `{GoPlatform}.

(** One pair's contribution to [walk]. *)
Definition walk_pair (path : string) (kv : Node * Node) : list Workload :=
  let '(k, v) := kv in
  if kind_is ScalarNode k && kind_is MappingNode v then
    let childPath := joinPath path (NValue k) in
    (match resourcesOf v with Some res => [mkWorkload childPath v res] | None => [] end)
    ++ walk v childPath
  else [].

Lemma walk_eq n path :
  walk n path = if kind_is MappingNode n then flat_map (walk_pair path) (pairs (NContent n)) else [].
Proof.
  destruct n as [kd s content]. destruct kd; try done. simpl.
  induction content as [l IH] using (well_founded_induction (Wf_nat.well_founded_ltof _ length)).
  destruct l as [|k [|v l]]; [done..|]. simpl. f_equal.
  - destruct (kind_is ScalarNode k); [|done]. by destruct (kind_is MappingNode v).
  - apply IH. unfold Wf_nat.ltof. simpl. lia.
Qed.

Lemma kind_is_true k n : kind_is k n = true ↔ NKind n = k.
Proof. unfold kind_is. apply bool_decide_eq_true. Qed.

Lemma walk_pair_elem path k v wl :
  wl ∈ walk_pair path (k, v) ↔
  NKind k = ScalarNode ∧ NKind v = MappingNode ∧
  ((∃ res, resourcesOf v = Some res ∧ wl = mkWorkload (joinPath path (NValue k)) v res)
   ∨ wl ∈ walk v (joinPath path (NValue k))).
Proof.
  unfold walk_pair. rewrite <-!kind_is_true.
  destruct (kind_is ScalarNode k), (kind_is MappingNode v); simpl;
    try (split; [by intros ?%elem_of_nil|by intros (?&?&?)]).
  rewrite elem_of_app. destruct (resourcesOf v); split.
  - intros [->%list_elem_of_singleton|?]; split_and!; try done; [left; by eexists|by right].
  - intros (_&_&[(res&?&->)|?]); [|by right]. simplify_eq.
    left. by apply list_elem_of_singleton.
  - intros [?%elem_of_nil|?]; [done|]. split_and!; [done..|by right].
  - intros (_&_&[(res&?&_)|?]); [done|by right].
Qed.

Lemma walk_spec n : ∀ path wl,
  wl ∈ walk n path ↔
  ∃ v res, declares n path (Name wl) v ∧ resourcesOf v = Some res ∧
           wl = mkWorkload (Name wl) v res.
Proof.
  induction n as [kd s content IHc] using node_ind. intros path wl.
  rewrite walk_eq. destruct (kind_is MappingNode (mkNode kd s content)) eqn:Ek.
  - apply kind_is_true in Ek. simpl in Ek. subst kd.
    apply pairs_Forall in IHc. rewrite Forall_forall in IHc.
    rewrite list_elem_of_In, in_flat_map. setoid_rewrite <-list_elem_of_In. split.
    + intros ([k v]&Hin&Hwl). apply walk_pair_elem in Hwl as (Hk&Hv&Hcase).
      destruct Hcase as [(res&Hres&->)|Hwl].
      * exists v, res. split_and!; [|done..]. by constructor.
      * apply (IHc _ Hin) in Hwl as (v'&res&Hd&Hres&Heq).
        exists v', res. split_and!; [|done..]. by econstructor.
    + intros (v&res&Hd&Hres&Heq). inversion Hd; subst.
      * exists (k, v). split; [done|]. apply walk_pair_elem.
        split_and!; [done..|]. left. exists res. split; [done|]. congruence.
      * exists (k, v0). split; [done|]. apply walk_pair_elem.
        split_and!; [done..|]. right. apply (IHc _ H1). eauto.
  - split; [by intros ?%elem_of_nil|].
    intros (v&res&Hd&_). exfalso.
    assert (kind_is MappingNode (mkNode kd s content) = true); [|congruence].
    apply kind_is_true. by inversion Hd.
Qed.
End WalkFacts.

(** ** Numbers *)

Lemma wrap_digits_spec s acc v :
  digits_val acc s = Some v → wrap_digits (wrap64 acc) s = Some (wrap64 v).
Proof.
  revert acc. induction s as [|c s IH]; intros acc Hv; cbn in *; [by simplify_eq|].
  unfold digit_val in Hv. fold (is_digit c) in Hv.
  destruct (is_digit c); [|done].
  unfold i64_add, i64_mul. rewrite wrap64_mul_l, wrap64_add_l. by apply IH.
Qed.

(** An integer literal is read modulo 2^64, whatever its size: every int64
    is read exactly, and anything larger wraps silently instead of being
    rejected (for [replicas] and [runAsUser] alike). *)
Theorem integer_literals_wrap (n : Node) (z : Z) :
  parseInt64 (itoa z) = Some (wrap64 z) ∧
  (0 <= z → scalarChild n "replicas" = Some (itoa z) → readReplicas n = wrap64 z).
Proof.
  assert (∀ z, 0 <= z → wrap_digits 0 (itoa z) = Some (wrap64 z)) as Hw.
  { intros z' Hz. destruct (itoa_nonneg z' Hz) as (_&_&Hv).
    change 0 with (wrap64 0). by apply wrap_digits_spec. }
  split.
  - destruct (Z.lt_ge_cases z 0) as [Hz|Hz].
    + rewrite itoa_neg by done. simpl. rewrite Hw by lia. simpl. unfold i64_neg.
      by rewrite wrap64_opp, Z.opp_involutive.
    + rewrite <-Hw by done. destruct (itoa_nonneg z Hz) as (Hd&Hne&_).
      destruct (itoa z) as [|c s]; [done|]. cbn in Hd. apply andb_prop in Hd as [Hc _].
      all_bytes c; first [discriminate Hc | done].
  - intros Hz Hc. unfold readReplicas. rewrite Hc, Hw by done. done.
Qed.

Lemma integer_literals_wrap_witness :
  readReplicas (mkNode MappingNode ""
    [mkNode ScalarNode "replicas" []; mkNode ScalarNode "9223372036854775808" []]) = - 2^63
  ∧ parseInt64 "18446744073709551616" = Some 0.
Proof.
  split.
  - refine (eq_trans (proj2 (integer_literals_wrap _ 9223372036854775808) _ _) _);
      [lia|reflexivity|reflexivity].
  - exact (proj1 (integer_literals_wrap (mkNode NoKind "" []) 18446744073709551616)).
Defined.

(** ** Documents *)

Section ParseValuesFacts.
Context `{GoPlatform}.


Definition api_doc : Node :=
  let sc v := mkNode ScalarNode v [] in
  let mp l := mkNode MappingNode "" l in
  mkNode DocumentNode "" [mp [
    sc "web"; mp [sc "resources"; mp [sc "requests"; mp [sc "cpu"; sc "500m"]]];
    sc "db"; mp [sc "primary"; mp [sc "resources"; mp [sc "limits"; mp [sc "memory"; sc "2Gi"]]]]]].

(** The output order does not depend on which sorting algorithm
    [sort.Slice] uses, as long as no two workloads share a dotted path. *)
Theorem parse_values_deterministic (S1 S2 : GoSort) (yaml_parse : string → option Node)
    (input : option string) (wls : list Workload) :
  @ParseValues _ S1 yaml_parse input = Ok wls → NoDup (Name <$> wls) →
  @ParseValues _ S2 yaml_parse input = Ok wls.
Proof.
  unfold ParseValues. destruct input as [raw|]; [|done].
  destruct (yaml_parse raw) as [root|]; [|done].
  destruct (kind_is DocumentNode root); [|done]. simpl.
  destruct (NContent root) as [|top rest]; [done|].
  destruct (kind_is MappingNode top); [|done]. simpl. intros Heq Hnd. simplify_eq.
  f_equal. symmetry. eapply sorted_by_unique; [|apply sort_slice_sorted; apply _..|].
  - intros x y Hx Hy E. unfold equiv_key in E. bool_to_prop.
    assert (Name x = Name y) as Hn by (by apply ltb_false_eq).
    apply list_elem_of_lookup in Hx as [i Hi]. apply list_elem_of_lookup in Hy as [j Hj].
    assert (i = j) as ->; [|by simplify_eq].
    apply (NoDup_lookup _ i j (Name x) Hnd); rewrite list_lookup_fmap.
    + by rewrite Hi.
    + by rewrite Hj, Hn.
  - by rewrite !sort_slice_perm.
Qed.
End ParseValuesFacts.

Definition doc_yaml : string → option Node := λ _, Some api_doc.


Lemma parse_values_deterministic_witness :
  ∃ wls, @ParseValues amd64 stable_GoSort doc_yaml (Some "...") = Ok wls.
Proof.
  eexists. refine (@parse_values_deterministic amd64 stable_GoSort stable_GoSort doc_yaml
    (Some "...") _ _ _); [vm_compute; reflexivity|].
  apply (bool_decide_unpack _). vm_compute. exact I.
Defined.

(** ** Autoscalers, images, security contexts *)

(** An [autoscaling] mapping always decides: the workload has an
    autoscaler unless [enabled] is one of the literals false, no and 0.
    A YAML [False] is therefore read as "enabled", although the security
    flags read the same literal as false. *)
Theorem hpa_autoscaling_decides (n c : Node) :
  findChild n "autoscaling" = Some c → NKind c = MappingNode →
  readHasHPA n =
    match scalarChild c "enabled" with
    | Some v => negb (str_mem v ["false"; "no"; "0"])
    | None => true
    end ∧
  (scalarChild c "enabled" = Some "False" → readHasHPA n = true ∧ boolValue "False" = false).
Proof.
  intros Hc Hk. apply kind_is_true in Hk.
  assert (readHasHPA n =
    match scalarChild c "enabled" with
    | Some v => negb (str_mem v ["false"; "no"; "0"])
    | None => true
    end) as E.
  { unfold readHasHPA. rewrite Hc, Hk. destruct (scalarChild c "enabled") as [v|]; [|done].
    destruct (str_mem v ["true"; "yes"; "1"]) eqn:Et; [|by destruct (str_mem v _)].
    apply str_mem_spec in Et. rewrite !elem_of_cons, elem_of_nil in Et.
    by destruct_or! Et; subst. }
  split; [done|]. intros Hf. by rewrite E, Hf.
Qed.

Lemma hpa_autoscaling_decides_witness :
  let sc v := mkNode ScalarNode v [] in
  readHasHPA (mkNode MappingNode ""
    [sc "autoscaling"; mkNode MappingNode "" [sc "enabled"; sc "False"]]) = true.
Proof.
  refine (proj1 (proj2 (hpa_autoscaling_decides _
    (mkNode MappingNode "" [mkNode ScalarNode "enabled" []; mkNode ScalarNode "False" []])
    _ _) _)); reflexivity.
Defined.

Lemma splitImage_spec s :
  let '(r, t) := splitImage s in
  (cut_byte ":"%char s = None ∧ r = s ∧ t = "") ∨ (s = r +:+ ":" +:+ t ∧ cut_byte ":"%char t = None).
Proof.
  induction s as [|c s IH]; [by left|]. simpl.
  destruct (cut_byte ":"%char s) as [[l rr]|] eqn:Ec.
  - destruct (splitImage s) as [r t]. destruct IH as [(?&?&?)|[-> Ht]]; [done|].
    right. by rewrite sapp_cons.
  - destruct (Ascii.eqb c ":"%char) eqn:E.
    + apply Ascii.eqb_eq in E as ->. by right.
    + by left.
Qed.

(** A scalar image reference is split at its last colon and nothing is
    lost: unless the text ends in a colon, printing the parsed reference gives
    the text back, and the tag itself holds no colon.  (Hence the port of an
    untagged [host:5000/name] reference is taken for its tag.) *)
Theorem image_scalar_roundtrip (s : string) (c : list Node) :
  s ≠ "" → Tag (readImage (Some (mkNode ScalarNode s c))) ≠ "" ∨ cut_byte ":"%char s = None →
  ImageRef_String (readImage (Some (mkNode ScalarNode s c))) = s ∧
  cut_byte ":"%char (Tag (readImage (Some (mkNode ScalarNode s c)))) = None ∧
  Tag (readImage (Some (mkNode ScalarNode "registry:5000/nginx" []))) = "5000/nginx".
Proof.
  intros Hne Hor. apply String.eqb_neq in Hne. simpl in *. rewrite Hne in *.
  pose proof (splitImage_spec s) as Hs. destruct (splitImage s) as [r t].
  unfold ImageRef_String. simpl in *.
  destruct Hs as [(Hc&->&->)|[-> Ht]]; [done|].
  destruct (String.eqb t "") eqn:Et; [|done].
  apply String.eqb_eq in Et as ->. destruct Hor as [?|Hn]; [done|].
  exfalso. revert Hn. clear. induction r as [|a r IH]; [done|].
  rewrite sapp_cons. simpl. destruct (Ascii.eqb a ":"%char); [done|].
  by destruct (cut_byte _ _) as [[]|].
Qed.

Lemma image_scalar_roundtrip_witness :
  ImageRef_String (readImage (Some (mkNode ScalarNode "nginx:1.4.2" []))) = "nginx:1.4.2".
Proof. refine (proj1 (image_scalar_roundtrip "nginx:1.4.2" [] _ _)); [done|by left]. Defined.
