(* ===== verification/Rules.v ===== *)
(** [pkg/rules/types.go]: findings, detectors and the rule engine [Run]. *)

From S2P Require Import Prelude GoNum GoStr Quantity Helm.
Local Open Scope Z_scope.

(** The Go types [Severity], [Confidence] and [Category] are strings. *)
Definition SeverityHigh : string := "HIGH".
Definition SeverityMed : string := "MED".
Definition SeverityLow : string := "LOW".
Definition SeverityInfo : string := "INFO".
Definition ConfidenceHigh : string := "high".
Definition ConfidenceMed : string := "medium".
Definition ConfidenceLow : string := "low".
Definition CategoryCost : string := "cost".
Definition CategorySecurity : string := "security".

Record Signal := {
  Label : string;
  Have : float64;
  Want : float64;
  HaveDisplay : string;
  WantDisplay : string;
  SigNote : string;
}.

Record Finding := {
  DetectorID : string;
  FWorkload : string;
  Title : string;
  Detail : string;
  MonthlyUSDCents : Z;
  FSeverity : string;
  FConfidence : string;
  FCategory : string;
  FSignal : option Signal;
}.

#[export] Instance signal_eq_dec : EqDecision Signal.
Proof. solve_decision. Defined.
#[export] Instance finding_eq_dec : EqDecision Finding.
Proof. solve_decision. Defined.

(** The [Detector] interface. *)
Record Detector := {
  ID : string;
  DName : string;
  Category : string;
  DRun : Workload → list Finding;
}.

Definition severityRank (s : string) : Z :=
  if String.eqb s SeverityHigh then 3
  else if String.eqb s SeverityMed then 2
  else if String.eqb s SeverityLow then 1
  else 0.

Definition set_category (c : string) (f : Finding) : Finding := {|
  DetectorID := DetectorID f; FWorkload := FWorkload f; Title := Title f;
  Detail := Detail f; MonthlyUSDCents := MonthlyUSDCents f; FSeverity := FSeverity f;
  FConfidence := FConfidence f; FCategory := c; FSignal := FSignal f |}.

(** [if f.Category == "" { f.Category = cat }] *)
Definition stamp (cat : string) (f : Finding) : Finding :=
  if String.eqb (FCategory f) "" then set_category cat f else f.

(** The comparison given to [sort.SliceStable]. *)
Definition finding_less (a b : Finding) : bool :=
  if negb (String.eqb (FWorkload a) (FWorkload b)) then String.ltb (FWorkload a) (FWorkload b)
  else if negb (severityRank (FSeverity a) =? severityRank (FSeverity b))
  then severityRank (FSeverity b) <? severityRank (FSeverity a)
  else String.ltb (DetectorID a) (DetectorID b).

(** Everything one detector reports for one workload, stamped. *)
Definition detect (w : Workload) (d : Detector) : list Finding :=
  stamp (Category d) <$> DRun d w.

(** The findings in the order of the two nested loops, before sorting. *)
Definition collect (workloads : list Workload) (dets : list Detector) : list Finding :=
  flat_map (λ w, flat_map (detect w) dets) workloads.

Definition Run (workloads : list Workload) (dets : list Detector) : list Finding :=
  sort_stable finding_less (collect workloads dets).

(** ** The order is a strict weak order *)

Lemma finding_less_lex a b :
  finding_less a b =
  lex_less (λ x y, String.ltb (FWorkload x) (FWorkload y))
    (lex_less (λ x y, - severityRank (FSeverity x) <? - severityRank (FSeverity y))
       (λ x y, String.ltb (DetectorID x) (DetectorID y))) a b.
Proof.
  unfold finding_less, lex_less.
  destruct (String.eqb (FWorkload a) (FWorkload b)) eqn:Ew; simpl.
  - apply String.eqb_eq in Ew as ->. rewrite !ltb_irrefl. simpl.
    destruct (Z.eqb_spec (severityRank (FSeverity a)) (severityRank (FSeverity b))) as [->|];
      simpl.
    + by rewrite !Z.ltb_irrefl.
    + destruct (Z.ltb_spec (severityRank (FSeverity b)) (severityRank (FSeverity a))).
      * by rewrite (proj2 (Z.ltb_lt _ _)) by lia.
      * rewrite (proj2 (Z.ltb_ge _ _)) by lia. by rewrite (proj2 (Z.ltb_lt _ _)) by lia.
  - destruct (String.ltb (FWorkload a) (FWorkload b)) eqn:E1; [done|]. simpl.
    destruct (String.ltb (FWorkload b) (FWorkload a)) eqn:E2; [done|].
    apply String.eqb_neq in Ew. by destruct Ew; apply ltb_false_eq.
Qed.

#[export] Instance finding_less_sw : StrictWeak finding_less.
Proof.
  assert (StrictWeak (lex_less (λ x y, String.ltb (FWorkload x) (FWorkload y))
    (lex_less (λ x y, - severityRank (FSeverity x) <? - severityRank (FSeverity y))
       (λ x y, String.ltb (DetectorID x) (DetectorID y))))) as H.
  { apply lex_less_sw; [apply string_less_sw|].
    apply lex_less_sw; [apply (Z_less_sw (λ x, - severityRank (FSeverity x)))|apply string_less_sw]. }
  destruct H as [H1 H2 H3]. split; intros *; rewrite !finding_less_lex; eauto.
Qed.

(** Findings tie only when they agree on the whole sort key. *)
Lemma finding_tie a b : equiv_key finding_less a b = true →
  FWorkload a = FWorkload b ∧ DetectorID a = DetectorID b ∧
  severityRank (FSeverity a) = severityRank (FSeverity b).
Proof.
  unfold equiv_key. intros [Ha Hb]%andb_prop.
  apply negb_true_iff in Ha, Hb. revert Ha Hb. unfold finding_less.
  rewrite (String.eqb_sym (FWorkload b)), (Z.eqb_sym (severityRank (FSeverity b))).
  destruct (String.eqb (FWorkload a) (FWorkload b)) eqn:Ew; simpl.
  - apply String.eqb_eq in Ew.
    destruct (Z.eqb_spec (severityRank (FSeverity a)) (severityRank (FSeverity b))); simpl.
    + intros. split_and!; [done|by apply ltb_false_eq|done].
    + rewrite !Z.ltb_ge. lia.
  - intros. apply String.eqb_neq in Ew. by destruct Ew; apply ltb_false_eq.
Qed.

(** ** Interface: what the engine may assume of a detector *)

(** A well-formed detector reports at most one finding per workload, under its
    own id and the workload's name, and leaves the category to the engine. *)
Class WfDetector (d : Detector) : Prop := {
  wf_one w : (length (DRun d w) ≤ 1)%nat;
  wf_id w f : f ∈ DRun d w → DetectorID f = ID d;
  wf_workload w f : f ∈ DRun d w → FWorkload f = Name w;
  wf_category w f : f ∈ DRun d w → FCategory f = "";
}.

Lemma stamp_fields c f :
  DetectorID (stamp c f) = DetectorID f ∧ FWorkload (stamp c f) = FWorkload f ∧
  FSeverity (stamp c f) = FSeverity f.
Proof. unfold stamp. by case_match. Qed.

Lemma elem_of_collect f ws ds :
  f ∈ collect ws ds ↔ ∃ w d, w ∈ ws ∧ d ∈ ds ∧ f ∈ detect w d.
Proof.
  unfold collect. rewrite list_elem_of_In, in_flat_map.
  setoid_rewrite in_flat_map. setoid_rewrite <-list_elem_of_In. naive_solver.
Qed.

Lemma detect_wf `{!WfDetector d} w f :
  f ∈ detect w d → DetectorID f = ID d ∧ FWorkload f = Name w ∧ FCategory f = Category d.
Proof.
  unfold detect. intros (g&->&Hg)%list_elem_of_fmap.
  destruct (stamp_fields (Category d) g) as (->&->&_).
  split_and!; [by eapply wf_id|by eapply wf_workload|].
  unfold stamp. by rewrite (wf_category _ _ Hg).
Qed.

Lemma detect_unique `{!WfDetector d} w f g : f ∈ detect w d → g ∈ detect w d → f = g.
Proof.
  unfold detect. intros (f0&->&Hf)%list_elem_of_fmap (g0&->&Hg)%list_elem_of_fmap.
  pose proof (wf_one (d:=d) w) as Hl.
  destruct (DRun d w) as [|a [|b l]]; simpl in *; [by apply elem_of_nil in Hf| |lia].
  apply list_elem_of_singleton in Hf, Hg. by subst.
Qed.

Lemma collect_perm ws1 ws2 ds : ws1 ≡ₚ ws2 → collect ws1 ds ≡ₚ collect ws2 ds.
Proof. intros H. unfold collect. by apply Permutation_flat_map. Qed.

Lemma collect_perm_dets ws ds1 ds2 : ds1 ≡ₚ ds2 → collect ws ds1 ≡ₚ collect ws ds2.
Proof.
  intros H. unfold collect. induction ws as [|w ws IH]; simpl; [done|].
  apply Permutation_app; [by apply Permutation_flat_map|done].
Qed.

Lemma collect_key_inj ws ds f g :
  NoDup (Name <$> ws) → NoDup (ID <$> ds) → Forall WfDetector ds →
  f ∈ collect ws ds → g ∈ collect ws ds →
  FWorkload f = FWorkload g → DetectorID f = DetectorID g → f = g.
Proof.
  intros Hws Hds Hwf (w1&d1&Hw1&Hd1&Hf)%elem_of_collect (w2&d2&Hw2&Hd2&Hg)%elem_of_collect Ew Ed.
  rewrite Forall_forall in Hwf. pose proof (Hwf _ Hd1). pose proof (Hwf _ Hd2).
  destruct (detect_wf _ _ Hf) as (Hfi&Hfw&_). destruct (detect_wf _ _ Hg) as (Hgi&Hgw&_).
  apply list_elem_of_lookup in Hw1 as [i1 Hw1]. apply list_elem_of_lookup in Hw2 as [i2 Hw2].
  apply list_elem_of_lookup in Hd1 as [j1 Hd1]. apply list_elem_of_lookup in Hd2 as [j2 Hd2].
  assert (i1 = i2) as ->.
  { apply (NoDup_lookup _ i1 i2 (Name w1) Hws); rewrite list_lookup_fmap, ?Hw1, ?Hw2; simpl; congruence. }
  assert (j1 = j2) as ->.
  { apply (NoDup_lookup _ j1 j2 (ID d1) Hds); rewrite list_lookup_fmap, ?Hd1, ?Hd2; simpl; congruence. }
  simplify_eq. by eapply detect_unique.
Qed.
