(* ===== verification/CostDetectors.v ===== *)
(** [pkg/rules]: the sixteen cost detectors. *)

From Stdlib Require Import QArith.
From S2P Require Import Prelude GoNum GoStr Quantity Helm Rules.
Local Open Scope Z_scope.

(** A finding without money or signal, category left to the engine. *)
Definition report (id : string) (w : Workload) (title detail : string)
    (severity confidence : string) : Finding := {|
  DetectorID := id; FWorkload := Name w; Title := title; Detail := detail;
  MonthlyUSDCents := 0; FSeverity := severity; FConfidence := confidence;
  FCategory := ""; FSignal := None |}.

Definition with_money (cents : Z) (f : Finding) : Finding := {|
  DetectorID := DetectorID f; FWorkload := FWorkload f; Title := Title f;
  Detail := Detail f; MonthlyUSDCents := cents; FSeverity := FSeverity f;
  FConfidence := FConfidence f; FCategory := FCategory f; FSignal := FSignal f |}.

Definition with_signal (s : Signal) (f : Finding) : Finding := {|
  DetectorID := DetectorID f; FWorkload := FWorkload f; Title := Title f;
  Detail := Detail f; MonthlyUSDCents := MonthlyUSDCents f; FSeverity := FSeverity f;
  FConfidence := FConfidence f; FCategory := FCategory f; FSignal := Some s |}.

(** The request-versus-limit evidence of the ratio detectors. *)
Definition quantity_signal (label note : string) (req lim : Quantity) : Signal := {|
  Label := label; Have := f_of_Z (Value req); Want := f_of_Z (Value lim);
  HaveDisplay := Quantity_String req; WantDisplay := Quantity_String lim;
  SigNote := note |}.

Definition cpuOverprovRatio : float64 := f_const (1 # 2)%Q.
Definition cpuOverprovMonthlyHours : Z := 730.
Definition cpuPricePerCoreHourCents : Z := 4.
Definition memOverprovRatio : float64 := f_const (1 # 2)%Q.
Definition memPricePerGiBMonthCents : Z := 350.
Definition limitBurstRatio : float64 := f_of_Z 4.
Definition oversizedCPULimitMillicores : Z := 4000.
Definition oversizedMemoryLimitBytes : Z := 16 * 1024 * 1024 * 1024.
Definition replicasThreshold : Z := 5.
Definition excessiveReplicaThreshold : Z := 20.
Definition tinyCPUMillicores : Z := 10.
Definition tinyMemoryBytes : Z := 32 * 1024 * 1024.
Definition idleWorkloadAssumedReplicas : Z := 2.
Definition idleWorkloadAssumedCPURequestMilli : Z := 250.

Definition floatingTags (tag : string) : bool :=
  str_mem tag
    ["main"; "master"; "stable"; "production"; "prod"; "staging"; "dev"; "edge";
     "current"; "head"; "trunk"].

(** [float64(req.Value)/float64(lim.Value)] *)
Definition ratio (num den : Quantity) : float64 :=
  f_div (f_of_Z (Value num)) (f_of_Z (Value den)).

(** [fmt.Sprintf("%.0f%% of limit", float64(req.Value)*100/float64(lim.Value))] *)
Definition percent_note (req lim : Quantity) : string :=
  fmt_fixed 0 (f_div (f_mul (f_of_Z (Value req)) (f_of_Z 100)) (f_of_Z (Value lim)))
    +:+ "% of limit".

(** [(req.Value / 2) * 730 * 4 / 1000] on int64. *)
Definition cpu_savings (req : Z) : Z :=
  i64_quot (i64_mul (i64_mul (i64_quot req 2) cpuOverprovMonthlyHours)
              cpuPricePerCoreHourCents) 1000.

Definition cpuOverprovisioned_Run (w : Workload) : list Finding :=
  let req := CPU (Requests w) in
  let lim := CPU (Limits w) in
  if negb (IsSet req) || negb (IsSet lim) then [] else
  if Value lim =? 0 then [] else
  if f_le (ratio req lim) cpuOverprovRatio then [] else
  [with_signal (quantity_signal "CPU" (percent_note req lim) req lim)
     (with_money (cpu_savings (Value req))
        (report "cpu-overprovisioned" w "CPU request appears overprovisioned"
     ("Request " +:+
      Quantity_String req +:+
      " vs limit " +:+
      Quantity_String lim +:+
      " — typical utilization rarely justifies this ratio. Consider halving the request.")
     SeverityMed ConfidenceMed))].

Definition cpuOverprovisioned : Detector := {|
  ID := "cpu-overprovisioned"; DName := "CPU request overprovisioned";
  Category := CategoryCost; DRun := cpuOverprovisioned_Run |}.

Section Memory.
Context `{GoPlatform}.

(** [int64(float64(req.Value/2) / 2^30 * 350)] *)
Definition mem_savings (req : Z) : Z :=
  let excessBytes := i64_quot req 2 in
  let excessGiB := f_div (f_of_Z excessBytes) (f_of_Z (1024 * 1024 * 1024)) in
  f_to_i64 (f_mul excessGiB (f_of_Z memPricePerGiBMonthCents)).

Definition memoryOverprovisioned_Run (w : Workload) : list Finding :=
  let req := Memory (Requests w) in
  let lim := Memory (Limits w) in
  if negb (IsSet req) || negb (IsSet lim) then [] else
  if Value lim =? 0 then [] else
  if f_le (ratio req lim) memOverprovRatio then [] else
  [with_signal (quantity_signal "memory" (percent_note req lim) req lim)
     (with_money (mem_savings (Value req))
        (report "memory-overprovisioned" w "Memory request appears overprovisioned"
     ("Request " +:+
      Quantity_String req +:+
      " vs limit " +:+
      Quantity_String lim +:+
      " — typical utilization rarely justifies this ratio. Consider halving the request.")
     SeverityMed ConfidenceMed))].

Definition memoryOverprovisioned : Detector := {|
  ID := "memory-overprovisioned"; DName := "Memory request overprovisioned";
  Category := CategoryCost; DRun := memoryOverprovisioned_Run |}.

End Memory.

Definition cpuLimitFarAboveRequest_Run (w : Workload) : list Finding :=
  let req := CPU (Requests w) in
  let lim := CPU (Limits w) in
  if negb (IsSet req) || negb (IsSet lim) || (Value req =? 0) then [] else
  if f_le (ratio lim req) limitBurstRatio then [] else
  [with_signal
     (quantity_signal "CPU" (fmt_fixed 1 (ratio lim req) +:+ "x burst") req lim)
     (report "cpu-limit-far-above-request" w "CPU limit is many multiples of the request"
     ("Request " +:+
      Quantity_String req +:+
      " vs limit " +:+
      Quantity_String lim +:+
      " — a " +:+
      fmt_fixed 1 (ratio lim req) +:+
      "x burst window. The scheduler reserves only the request, so the pod can suddenly consume far more than its node-allocation suggests. Tighten the limit or raise the request to match observed P95.")
     SeverityMed ConfidenceMed)].

Definition cpuLimitFarAboveRequest : Detector := {|
  ID := "cpu-limit-far-above-request"; DName := "CPU limit far above request";
  Category := CategoryCost; DRun := cpuLimitFarAboveRequest_Run |}.

Definition memoryLimitFarAboveRequest_Run (w : Workload) : list Finding :=
  let req := Memory (Requests w) in
  let lim := Memory (Limits w) in
  if negb (IsSet req) || negb (IsSet lim) || (Value req =? 0) then [] else
  if f_le (ratio lim req) limitBurstRatio then [] else
  [with_signal
     (quantity_signal "memory" (fmt_fixed 1 (ratio lim req) +:+ "x burst") req lim)
     (report "memory-limit-far-above-request" w "Memory limit is many multiples of the request"
     ("Request " +:+
      Quantity_String req +:+
      " vs limit " +:+
      Quantity_String lim +:+
      " — a " +:+
      fmt_fixed 1 (ratio lim req) +:+
      "x burst window. Memory limits aren't elastic the way CPU is: a pod that climbs to its limit will OOM, taking neighbours down via node memory pressure. Tighten the limit toward observed P95.")
     SeverityMed ConfidenceMed)].

Definition memoryLimitFarAboveRequest : Detector := {|
  ID := "memory-limit-far-above-request"; DName := "Memory limit far above request";
  Category := CategoryCost; DRun := memoryLimitFarAboveRequest_Run |}.

Definition oversizedCPULimit_Run (w : Workload) : list Finding :=
  if negb (IsSet (CPU (Limits w))) || (Value (CPU (Limits w)) <? oversizedCPULimitMillicores) then [] else
  [report "oversized-cpu-limit" w "CPU limit forces large-node scheduling"
     ("CPU limit is " +:+ Quantity_String (CPU (Limits w)) +:+ ". Above 4 vCPU, the pod can only land on large nodes; smaller / Spot instance types are excluded from bin-packing. Either split the workload or confirm the high limit is justified by P99.")
     SeverityMed ConfidenceMed].

Definition oversizedCPULimit : Detector := {|
  ID := "oversized-cpu-limit"; DName := "Oversized CPU limit";
  Category := CategoryCost; DRun := oversizedCPULimit_Run |}.

Definition oversizedMemoryLimit_Run (w : Workload) : list Finding :=
  if negb (IsSet (Memory (Limits w))) || (Value (Memory (Limits w)) <? oversizedMemoryLimitBytes) then [] else
  [report "oversized-memory-limit" w "Memory limit forces large-node scheduling"
     ("Memory limit is " +:+ Quantity_String (Memory (Limits w)) +:+ ". Above 16 GiB, the pod can only land on memory-class nodes; balanced / Spot bin-packing is excluded. Confirm the workload genuinely uses this much, or split the workload.")
     SeverityMed ConfidenceMed].

Definition oversizedMemoryLimit : Detector := {|
  ID := "oversized-memory-limit"; DName := "Oversized memory limit";
  Category := CategoryCost; DRun := oversizedMemoryLimit_Run |}.

Definition replicasTooHigh_Run (w : Workload) : list Finding :=
  if Replicas w <=? replicasThreshold then [] else
  if HasHPA w then [] else
  let suggested := replicasThreshold in
  [with_signal {|
       Label := "replicas"; Have := f_of_Z suggested; Want := f_of_Z (Replicas w);
       HaveDisplay := itoa suggested; WantDisplay := itoa (Replicas w);
       SigNote := itoa (i64_quot (Replicas w) suggested) +:+ "x target" |}
     (report "replicas-too-high" w "High static replica count without an autoscaler"
     ("Replicas set to " +:+
      itoa (Replicas w) +:+
      " without an HPA. Static high replica counts pay for unused capacity 24/7. Either enable autoscaling.enabled=true or right-size the static count to your observed P95.")
     SeverityMed ConfidenceMed)].

Definition replicasTooHigh : Detector := {|
  ID := "replicas-too-high"; DName := "Replicas without HPA";
  Category := CategoryCost; DRun := replicasTooHigh_Run |}.

Definition excessiveReplicaCount_Run (w : Workload) : list Finding :=
  if Replicas w <=? excessiveReplicaThreshold then [] else
  [report "excessive-replica-count" w "Replica count past the HA inflection point"
     ("Replicas set to " +:+ itoa (Replicas w) +:+ ". Past ~20 replicas the cost grows linearly while the marginal availability gain approaches zero — most cloud zones can't fit that many across enough fault domains. Cap the HPA's maxReplicas or split the workload across multiple deployments.")
     SeverityMed ConfidenceMed].

Definition excessiveReplicaCount : Detector := {|
  ID := "excessive-replica-count"; DName := "Excessive replica count";
  Category := CategoryCost; DRun := excessiveReplicaCount_Run |}.

Definition unboundedImageTag_Run (w : Workload) : list Finding :=
  if negb (ImageSet (Image w)) then [] else
  if negb (floatingTags (Tag (Image w))) then [] else
  [report "unbounded-image-tag" w "Floating image tag prevents reproducible deploys"
     ("Image tag '" +:+ Tag (Image w) +:+ "' is a floating reference: upstream re-points it whenever they publish. The same Helm release can therefore land different bytes on consecutive deploys, and rollbacks become ambiguous. Pin to an immutable digest or version tag.")
     SeverityMed ConfidenceHigh].

Definition unboundedImageTag : Detector := {|
  ID := "unbounded-image-tag"; DName := "Floating image tag";
  Category := CategoryCost; DRun := unboundedImageTag_Run |}.

Definition cpuWithoutMemoryRequest_Run (w : Workload) : list Finding :=
  if negb (IsSet (CPU (Requests w))) || IsSet (Memory (Requests w)) then [] else
  [report "cpu-without-memory-request" w "CPU request set without memory request"
     ("requests.cpu is set but requests.memory is not. The scheduler can't reserve memory accurately, so the pod is BestEffort for memory — first to evict under pressure. Add a memory request matching observed P95.")
     SeverityLow ConfidenceHigh].

Definition cpuWithoutMemoryRequest : Detector := {|
  ID := "cpu-without-memory-request"; DName := "CPU request set without memory";
  Category := CategoryCost; DRun := cpuWithoutMemoryRequest_Run |}.

Definition memoryWithoutCPURequest_Run (w : Workload) : list Finding :=
  if negb (IsSet (Memory (Requests w))) || IsSet (CPU (Requests w)) then [] else
  [report "memory-without-cpu-request" w "Memory request set without CPU request"
     ("requests.memory is set but requests.cpu is not. The scheduler can't reserve CPU, so bin-packing assumes zero — pods can stack onto a single node and starve each other. Add a CPU request matching observed P95.")
     SeverityLow ConfidenceHigh].

Definition memoryWithoutCPURequest : Detector := {|
  ID := "memory-without-cpu-request"; DName := "Memory request set without CPU";
  Category := CategoryCost; DRun := memoryWithoutCPURequest_Run |}.

Definition cpuRequestEqualsLimit_Run (w : Workload) : list Finding :=
  let req := CPU (Requests w) in
  let lim := CPU (Limits w) in
  if negb (IsSet req) || negb (IsSet lim) then [] else
  if negb (Value req =? Value lim) then [] else
  [with_signal (quantity_signal "CPU" "Guaranteed QoS" req lim)
     (report "cpu-request-equals-limit" w "CPU request equals limit (Guaranteed QoS)"
     ("Request and limit both set to " +:+
      Quantity_String req +:+
      ", putting the pod in Guaranteed QoS — top eviction priority but zero burst headroom. Confirm this is intentional for an SLO-bound workload; otherwise lower the request to allow the scheduler to bin-pack more densely.")
     SeverityLow ConfidenceMed)].

Definition cpuRequestEqualsLimit : Detector := {|
  ID := "cpu-request-equals-limit"; DName := "CPU request equals limit (Guaranteed QoS)";
  Category := CategoryCost; DRun := cpuRequestEqualsLimit_Run |}.

Definition memoryRequestEqualsLimit_Run (w : Workload) : list Finding :=
  let req := Memory (Requests w) in
  let lim := Memory (Limits w) in
  if negb (IsSet req) || negb (IsSet lim) then [] else
  if negb (Value req =? Value lim) then [] else
  [with_signal (quantity_signal "memory" "Guaranteed QoS" req lim)
     (report "memory-request-equals-limit" w "Memory request equals limit (Guaranteed QoS)"
     ("Memory request and limit both set to " +:+
      Quantity_String req +:+
      ". Memory is non-burstable anyway, so this only affects QoS class; for SLO-bound workloads it's correct, otherwise lower the request to ~P95 to free node capacity for other pods.")
     SeverityLow ConfidenceMed)].

Definition memoryRequestEqualsLimit : Detector := {|
  ID := "memory-request-equals-limit"; DName := "Memory request equals limit (Guaranteed QoS)";
  Category := CategoryCost; DRun := memoryRequestEqualsLimit_Run |}.

Definition tinyCPURequest_Run (w : Workload) : list Finding :=
  if negb (IsSet (CPU (Requests w))) then [] else
  if (Value (CPU (Requests w)) =? 0) || (tinyCPUMillicores <=? Value (CPU (Requests w))) then [] else
  [report "tiny-cpu-request" w "CPU request below the placeholder threshold"
     ("requests.cpu is " +:+ Quantity_String (CPU (Requests w)) +:+ " — below the 10m threshold most charts use as a sentinel. Probably a placeholder from a Helm scaffold. Set it to your observed P95 (or remove the limit-without-request asymmetry the scheduler is currently dealing with).")
     SeverityLow ConfidenceHigh].

Definition tinyCPURequest : Detector := {|
  ID := "tiny-cpu-request"; DName := "Suspiciously small CPU request";
  Category := CategoryCost; DRun := tinyCPURequest_Run |}.

Definition tinyMemoryRequest_Run (w : Workload) : list Finding :=
  if negb (IsSet (Memory (Requests w))) then [] else
  if (Value (Memory (Requests w)) =? 0) || (tinyMemoryBytes <=? Value (Memory (Requests w))) then [] else
  [report "tiny-memory-request" w "Memory request below the placeholder threshold"
     ("requests.memory is " +:+ Quantity_String (Memory (Requests w)) +:+ " — below 32 MiB. A workload that genuinely needs less memory is a rarity; most charts setting tiny memory requests are using a placeholder. Set it to your observed P95.")
     SeverityLow ConfidenceHigh].

Definition tinyMemoryRequest : Detector := {|
  ID := "tiny-memory-request"; DName := "Suspiciously small memory request";
  Category := CategoryCost; DRun := tinyMemoryRequest_Run |}.

Definition workloadDisplay (w : Workload) : string :=
  if String.eqb (Name w) "" then "this workload" else Name w.

Definition idleWorkload_Run (w : Workload) : list Finding :=
  if negb (Replicas w =? 0) then [] else
  if HasHPA w then [] else
  [with_money
     (Z.quot (idleWorkloadAssumedReplicas * idleWorkloadAssumedCPURequestMilli *
              cpuOverprovMonthlyHours * cpuPricePerCoreHourCents) 1000)
     (report "idle-workload" w "Workload declared with replicas=0 and no autoscaler"
     (workloadDisplay w +:+
      " ships with replicas=0 and no HPA. In a live cluster this is the chart pattern that correlates with abandoned workloads — declared but never scheduled. If this is intentional (e.g. feature-flagged deployment), dismiss. Otherwise the chart can be slimmer: remove the workload entirely, or document the activation path.")
     SeverityLow ConfidenceLow)].

Definition idleWorkload : Detector := {|
  ID := "idle-workload"; DName := "Workload appears idle";
  Category := CategoryCost; DRun := idleWorkload_Run |}.
