(* ===== verification/SecurityDetectors.v ===== *)
(** [pkg/rules]: the fifteen security detectors. *)

From S2P Require Import Prelude GoNum GoStr Quantity Helm Rules CostDetectors.
Local Open Scope Z_scope.

(** [p != nil && *p], [p != nil && !*p], [p != nil && *p == z] for the optional
    fields (Go pointers) of the security context. *)
Definition ptr_true (p : option bool) : bool := match p with Some b => b | None => false end.
Definition ptr_false (p : option bool) : bool := match p with Some b => negb b | None => false end.
Definition ptr_eq (p : option Z) (z : Z) : bool := match p with Some v => v =? z | None => false end.
Definition ptr_nil (p : option bool) : bool := match p with Some _ => false | None => true end.

Definition normaliseCap (c : string) : string := trim_prefix (to_upper (trim_space c)) "CAP_".

(** The map literal; its keys are distinct. *)
Definition dangerousCaps : list (string * string) :=
  [ ("SYS_ADMIN", "near-root: lets the container mount filesystems, change kernel parameters, etc.");
    ("NET_ADMIN", "configure network interfaces, manipulate routing tables, intercept traffic");
    ("NET_RAW", "craft raw packets — useful for ARP spoofing and other L2 attacks");
    ("SYS_PTRACE", "attach to other processes' memory; can read secrets out of co-tenant pods");
    ("SYS_MODULE", "load kernel modules; effectively root on the node");
    ("DAC_READ_SEARCH", "bypass DAC permission checks on file reads");
    ("DAC_OVERRIDE", "bypass DAC permission checks on file writes");
    ("SYS_BOOT", "reboot the node");
    ("SYS_TIME", "change system time; breaks timing-based security guarantees");
    ("BPF", "load BPF programs; can read kernel memory");
    ("PERFMON", "perf_events syscall; can leak kernel address layouts") ].

Fixpoint assoc_find {A} (k : string) (l : list (string * A)) : option A :=
  match l with
  | [] => None
  | (k', v) :: l => if String.eqb k k' then Some v else assoc_find k l
  end.

Definition missingCPULimit_Run (w : Workload) : list Finding :=
  if negb (IsSet (CPU (Requests w))) || IsSet (CPU (Limits w)) then [] else
  [report "missing-cpu-limit" w "CPU limit not set"
     ("This workload declares a CPU request but no limit. Some teams omit CPU limits intentionally to avoid throttling; others expect predictable scheduling. Confirm this is the intended posture.")
     SeverityLow ConfidenceMed].

Definition missingCPULimit : Detector := {|
  ID := "missing-cpu-limit"; DName := "Missing CPU limit";
  Category := CategorySecurity; DRun := missingCPULimit_Run |}.

Definition missingMemoryLimit_Run (w : Workload) : list Finding :=
  if negb (IsSet (Memory (Requests w))) then [] else
  if IsSet (Memory (Limits w)) then [] else
  [report "missing-memory-limit" w "Memory limit not set"
     ("This workload declares a memory request but no limit. Without a limit it can consume node memory unbounded and evict neighbours under pressure. Set a limit at or above your observed P95.")
     SeverityHigh ConfidenceHigh].

Definition missingMemoryLimit : Detector := {|
  ID := "missing-memory-limit"; DName := "Missing memory limit";
  Category := CategorySecurity; DRun := missingMemoryLimit_Run |}.

Definition imagePinnedLatest_Run (w : Workload) : list Finding :=
  if negb (ImageSet (Image w)) then [] else
  if negb (String.eqb (Tag (Image w)) "") && negb (String.eqb (Tag (Image w)) "latest") then [] else
  let displayed := ImageRef_String (Image w) in
  let displayed := if String.eqb displayed "" then "(no image tag)" else displayed in
  let tagSuffix := if String.eqb (Tag (Image w)) "latest" then ":latest" else "(no tag)" in
  [report "image-pinned-latest" w "Image not pinned to a stable tag"
     ("Image " +:+
      displayed +:+
      " uses " +:+
      tagSuffix +:+
      ". The same tag can resolve to different bytes across deploys; rollback becomes ambiguous. Pin to an immutable digest or version tag.")
     SeverityMed ConfidenceHigh].

Definition imagePinnedLatest : Detector := {|
  ID := "image-pinned-latest"; DName := "Image pinned to :latest";
  Category := CategorySecurity; DRun := imagePinnedLatest_Run |}.

Definition runAsRoot_Run (w : Workload) : list Finding :=
  if ptr_false (RunAsNonRoot (Security w)) then
    [report "run-as-root" w "Container runs as root"
     ("securityContext.runAsNonRoot is set to false. Running as UID 0 expands the blast radius of any container escape. Set runAsNonRoot=true and runAsUser to a non-zero UID.")
     SeverityHigh ConfidenceHigh]
  else if ptr_nil (RunAsNonRoot (Security w)) then
    [report "run-as-root" w "runAsNonRoot not declared"
     ("securityContext.runAsNonRoot is not declared. Without it, Kubernetes defers to the image's USER directive — which is UID 0 for most public images. Set runAsNonRoot=true to make the intent explicit.")
     SeverityMed ConfidenceMed]
  else [].

Definition runAsRoot : Detector := {|
  ID := "run-as-root"; DName := "Container runs as root";
  Category := CategorySecurity; DRun := runAsRoot_Run |}.

Definition runsAsUIDZero_Run (w : Workload) : list Finding :=
  if negb (ptr_eq (RunAsUser (Security w)) 0) then [] else
  [report "runs-as-uid-zero" w "runAsUser explicitly set to 0"
     ("securityContext.runAsUser is set to 0. This forces the container to run as UID 0 (root) regardless of the image's USER directive — a hard override that's almost always wrong for application workloads. Set runAsUser to a non-zero UID (1000+) and runAsNonRoot=true.")
     SeverityHigh ConfidenceHigh].

Definition runsAsUIDZero : Detector := {|
  ID := "runs-as-uid-zero"; DName := "runAsUser is 0 (root)";
  Category := CategorySecurity; DRun := runsAsUIDZero_Run |}.

Definition privilegedContainer_Run (w : Workload) : list Finding :=
  if negb (ptr_true (Privileged (Security w))) then [] else
  [report "privileged-container" w "Container declared privileged"
     ("securityContext.privileged=true bypasses every Linux capability check. Privileged is correct only for node-level agents (CSI drivers, node exporters); application workloads should set privileged=false and request the specific capabilities they actually need.")
     SeverityHigh ConfidenceHigh].

Definition privilegedContainer : Detector := {|
  ID := "privileged-container"; DName := "Privileged container";
  Category := CategorySecurity; DRun := privilegedContainer_Run |}.

Definition hostNetwork_Run (w : Workload) : list Finding :=
  if negb (ptr_true (HostNetwork (Security w))) then [] else
  [report "host-network" w "Pod uses host network"
     ("hostNetwork=true puts the pod in the node's network namespace, bypassing NetworkPolicy and exposing localhost services on the host. Required for some CNI plugins and ingress controllers; otherwise leave it unset.")
     SeverityHigh ConfidenceHigh].

Definition hostNetwork : Detector := {|
  ID := "host-network"; DName := "hostNetwork enabled";
  Category := CategorySecurity; DRun := hostNetwork_Run |}.

Definition hostPID_Run (w : Workload) : list Finding :=
  if negb (ptr_true (HostPID (Security w))) then [] else
  [report "host-pid" w "Pod shares the host PID namespace"
     ("hostPID=true gives the pod's processes visibility into every other process on the node — including kubelet, the container runtime, and every co-tenant pod. Required for a tiny set of node-level agents (debuggers, profilers); never appropriate for application workloads.")
     SeverityHigh ConfidenceHigh].

Definition hostPID : Detector := {|
  ID := "host-pid"; DName := "hostPID enabled";
  Category := CategorySecurity; DRun := hostPID_Run |}.

Definition hostIPC_Run (w : Workload) : list Finding :=
  if negb (ptr_true (HostIPC (Security w))) then [] else
  [report "host-ipc" w "Pod shares the host IPC namespace"
     ("hostIPC=true puts the pod in the node's IPC namespace, so it can read and write SysV shared memory and POSIX message queues used by other pods on the same node. Almost never required; turn it off unless the workload's documented dependency demands it.")
     SeverityHigh ConfidenceHigh].

Definition hostIPC : Detector := {|
  ID := "host-ipc"; DName := "hostIPC enabled";
  Category := CategorySecurity; DRun := hostIPC_Run |}.

Definition readOnlyRootFSMissing_Run (w : Workload) : list Finding :=
  if ptr_false (ReadOnlyRootFilesystem (Security w)) then
    [report "read-only-root-fs-missing" w "Container root filesystem is writable"
     ("securityContext.readOnlyRootFilesystem is set to false. A writable rootfs lets an attacker persist files after a container escape. Set readOnlyRootFilesystem=true and mount tmpfs volumes for any directories the app legitimately writes to.")
     SeverityMed ConfidenceHigh]
  else if ptr_nil (ReadOnlyRootFilesystem (Security w)) then
    [report "read-only-root-fs-missing" w "readOnlyRootFilesystem not declared"
     ("securityContext.readOnlyRootFilesystem is not declared. Declare readOnlyRootFilesystem=true to make hardening explicit; mount tmpfs volumes for legitimate write paths.")
     SeverityLow ConfidenceMed]
  else [].

Definition readOnlyRootFSMissing : Detector := {|
  ID := "read-only-root-fs-missing"; DName := "Root filesystem not read-only";
  Category := CategorySecurity; DRun := readOnlyRootFSMissing_Run |}.

Definition allowPrivilegeEscalation_Run (w : Workload) : list Finding :=
  if ptr_true (AllowPrivilegeEscalation (Security w)) then
    [report "allow-privilege-escalation" w "allowPrivilegeEscalation explicitly enabled"
     ("securityContext.allowPrivilegeEscalation=true lets a process gain capabilities its parent didn't have (setuid, file capabilities). Set allowPrivilegeEscalation=false unless you're running an init system or known-good legacy binary that requires it.")
     SeverityHigh ConfidenceHigh]
  else if ptr_nil (AllowPrivilegeEscalation (Security w)) then
    [report "allow-privilege-escalation" w "allowPrivilegeEscalation not declared"
     ("securityContext.allowPrivilegeEscalation is undeclared; Kubernetes defaults it to true. Set allowPrivilegeEscalation=false to make the no_new_privs bit explicit.")
     SeverityMed ConfidenceMed]
  else [].

Definition allowPrivilegeEscalation : Detector := {|
  ID := "allow-privilege-escalation"; DName := "Privilege escalation allowed";
  Category := CategorySecurity; DRun := allowPrivilegeEscalation_Run |}.

Definition hostPathVolume_Run (w : Workload) : list Finding :=
  if negb (ptr_true (HostPath (Security w))) then [] else
  [report "host-path-volume" w "Pod mounts a hostPath volume"
     ("A volume of type hostPath exposes the node's filesystem to the pod. Required for some node-level agents (log collectors, CNI helpers) but a sharp edge for application workloads — a path-traversal bug suddenly becomes a node compromise. Replace with PVC, configMap, or downward API where possible.")
     SeverityHigh ConfidenceHigh].

Definition hostPathVolume : Detector := {|
  ID := "host-path-volume"; DName := "hostPath volume mounted";
  Category := CategorySecurity; DRun := hostPathVolume_Run |}.

(** The entries of [capabilities.add] that are escalation-class, with reasons. *)
Definition capability_hits (caps : list string) : list string :=
  omap (λ c, (λ reason, c +:+ " (" +:+ reason +:+ ")") <$>
               assoc_find (normaliseCap c) dangerousCaps) caps.

Definition dangerousCapabilityAdded_Run (w : Workload) : list Finding :=
  let hits := capability_hits (CapabilitiesAdd (Security w)) in
  if Nat.eqb (length hits) 0 then [] else
  [report "dangerous-capability-added" w "Dangerous Linux capability added"
     ("securityContext.capabilities.add includes " +:+
      itoa (Z.of_nat (length hits)) +:+
      " escalation-class capability(s): " +:+
      join "; " hits +:+
      ". Each grants abilities far beyond what an application workload should need. Drop them and reach for a sidecar / DaemonSet that runs in a more privileged ServiceAccount if the underlying need is legitimate.")
     SeverityHigh ConfidenceHigh].

Definition dangerousCapabilityAdded : Detector := {|
  ID := "dangerous-capability-added"; DName := "Dangerous Linux capability added";
  Category := CategorySecurity; DRun := dangerousCapabilityAdded_Run |}.

Definition capabilitiesNotDroppedAll_Run (w : Workload) : list Finding :=
  if existsb (λ c, String.eqb (normaliseCap c) "ALL") (CapabilitiesDrop (Security w)) then [] else
  [report "capabilities-not-dropped-all" w "capabilities.drop does not include ALL"
     ("Best-practice baseline (CIS 5.2.8) is securityContext.capabilities.drop: [ALL] with add: [...] re-granting only the specific capabilities required. The current chart does not drop ALL, so the container inherits the default capability set including CHOWN, SETUID, SETGID, NET_BIND_SERVICE, etc.")
     SeverityMed ConfidenceHigh].

Definition capabilitiesNotDroppedAll : Detector := {|
  ID := "capabilities-not-dropped-all"; DName := "capabilities.drop does not include ALL";
  Category := CategorySecurity; DRun := capabilitiesNotDroppedAll_Run |}.

Definition serviceAccountTokenAutomount_Run (w : Workload) : list Finding :=
  let p := AutomountServiceAccountToken (Security w) in
  if ptr_false p then [] else
  let severity := if ptr_true p then SeverityHigh else SeverityMed in
  let confidence := if ptr_true p then ConfidenceHigh else ConfidenceMed in
  let detail :=
    if ptr_true p
    then "automountServiceAccountToken is explicitly true. The pod gets a service-account credential at /var/run/secrets/kubernetes.io/serviceaccount/; an attacker who lands on the pod gets a free pivot to the K8s API. Confirm the workload genuinely needs the API; otherwise set automountServiceAccountToken=false."
    else "automountServiceAccountToken is undeclared, so Kubernetes auto-mounts a service-account credential at /var/run/secrets/kubernetes.io/serviceaccount/. Most application workloads never read it; an attacker on the pod gets a free pivot to the K8s API. Set automountServiceAccountToken=false unless the workload genuinely calls the API." in
  [report "service-account-token-automount" w "ServiceAccount token automatically mounted"
     detail severity confidence].

Definition serviceAccountTokenAutomount : Detector := {|
  ID := "service-account-token-automount"; DName := "ServiceAccount token auto-mount not disabled";
  Category := CategorySecurity; DRun := serviceAccountTokenAutomount_Run |}.
