(* ===== verification/AllRules.v ===== *)
(** [rules.All] and what holds of the whole detector set: every detector is
    well formed, the float thresholds agree with integer arithmetic, the order
    of workloads and detectors does not matter. *)

From Stdlib Require Import QArith Qround Lqa.
From S2P Require Import Prelude GoNum GoStr Quantity Helm Rules CostDetectors SecurityDetectors.
Local Open Scope Z_scope.

Definition cost_detectors `{GoPlatform} : list Detector :=
  [ cpuOverprovisioned; memoryOverprovisioned; cpuLimitFarAboveRequest;
    memoryLimitFarAboveRequest; oversizedCPULimit; oversizedMemoryLimit;
    replicasTooHigh; excessiveReplicaCount; unboundedImageTag;
    cpuWithoutMemoryRequest; memoryWithoutCPURequest; cpuRequestEqualsLimit;
    memoryRequestEqualsLimit; tinyCPURequest; tinyMemoryRequest; idleWorkload ].

Definition security_detectors : list Detector :=
  [ missingCPULimit; missingMemoryLimit; imagePinnedLatest; runAsRoot; runsAsUIDZero;
    privilegedContainer; hostNetwork; hostPID; hostIPC; readOnlyRootFSMissing;
    allowPrivilegeEscalation; hostPathVolume; dangerousCapabilityAdded;
    capabilitiesNotDroppedAll; serviceAccountTokenAutomount ].

Definition All `{GoPlatform} : list Detector := cost_detectors ++ security_detectors.

(** ** Every detector keeps the engine's interface *)

(** A detector's body is a chain of tests ending in at most one finding. *)
Ltac detector_cases :=
  repeat match goal with
  | |- context [if ?b then _ else _] => destruct b
  end.

(** Unfolds [DRun d w] for a concrete detector [d] and splits its tests. *)
Ltac open_detector w :=
  match goal with
  | |- context [DRun (?d _) _] => unfold DRun, d
  | |- context [DRun ?d _] => unfold DRun, d
  end;
  match goal with
  | |- context [?r _ w] => unfold r
  | |- context [?r w] => unfold r
  end; cbv zeta; detector_cases;
  repeat (rewrite ?elem_of_nil, ?list_elem_of_singleton).

Ltac solve_wf :=
  split; intros w; try intros f; open_detector w;
  simpl; intros; subst; simpl; try done; try lia.

#[export] Instance wf_cpuOverprovisioned : WfDetector cpuOverprovisioned.
Proof. solve_wf. Qed.
#[export] Instance wf_memoryOverprovisioned `{GoPlatform} : WfDetector memoryOverprovisioned.
Proof. solve_wf. Qed.
#[export] Instance wf_cpuLimitFarAboveRequest : WfDetector cpuLimitFarAboveRequest.
Proof. solve_wf. Qed.
#[export] Instance wf_memoryLimitFarAboveRequest : WfDetector memoryLimitFarAboveRequest.
Proof. solve_wf. Qed.
#[export] Instance wf_oversizedCPULimit : WfDetector oversizedCPULimit.
Proof. solve_wf. Qed.
#[export] Instance wf_oversizedMemoryLimit : WfDetector oversizedMemoryLimit.
Proof. solve_wf. Qed.
#[export] Instance wf_replicasTooHigh : WfDetector replicasTooHigh.
Proof. solve_wf. Qed.
#[export] Instance wf_excessiveReplicaCount : WfDetector excessiveReplicaCount.
Proof. solve_wf. Qed.
#[export] Instance wf_unboundedImageTag : WfDetector unboundedImageTag.
Proof. solve_wf. Qed.
#[export] Instance wf_cpuWithoutMemoryRequest : WfDetector cpuWithoutMemoryRequest.
Proof. solve_wf. Qed.
#[export] Instance wf_memoryWithoutCPURequest : WfDetector memoryWithoutCPURequest.
Proof. solve_wf. Qed.
#[export] Instance wf_cpuRequestEqualsLimit : WfDetector cpuRequestEqualsLimit.
Proof. solve_wf. Qed.
#[export] Instance wf_memoryRequestEqualsLimit : WfDetector memoryRequestEqualsLimit.
Proof. solve_wf. Qed.
#[export] Instance wf_tinyCPURequest : WfDetector tinyCPURequest.
Proof. solve_wf. Qed.
#[export] Instance wf_tinyMemoryRequest : WfDetector tinyMemoryRequest.
Proof. solve_wf. Qed.
#[export] Instance wf_idleWorkload : WfDetector idleWorkload.
Proof. solve_wf. Qed.
#[export] Instance wf_missingCPULimit : WfDetector missingCPULimit.
Proof. solve_wf. Qed.
#[export] Instance wf_missingMemoryLimit : WfDetector missingMemoryLimit.
Proof. solve_wf. Qed.
#[export] Instance wf_imagePinnedLatest : WfDetector imagePinnedLatest.
Proof. solve_wf. Qed.
#[export] Instance wf_runAsRoot : WfDetector runAsRoot.
Proof. solve_wf. Qed.
#[export] Instance wf_runsAsUIDZero : WfDetector runsAsUIDZero.
Proof. solve_wf. Qed.
#[export] Instance wf_privilegedContainer : WfDetector privilegedContainer.
Proof. solve_wf. Qed.
#[export] Instance wf_hostNetwork : WfDetector hostNetwork.
Proof. solve_wf. Qed.
#[export] Instance wf_hostPID : WfDetector hostPID.
Proof. solve_wf. Qed.
#[export] Instance wf_hostIPC : WfDetector hostIPC.
Proof. solve_wf. Qed.
#[export] Instance wf_readOnlyRootFSMissing : WfDetector readOnlyRootFSMissing.
Proof. solve_wf. Qed.
#[export] Instance wf_allowPrivilegeEscalation : WfDetector allowPrivilegeEscalation.
Proof. solve_wf. Qed.
#[export] Instance wf_hostPathVolume : WfDetector hostPathVolume.
Proof. solve_wf. Qed.
#[export] Instance wf_dangerousCapabilityAdded : WfDetector dangerousCapabilityAdded.
Proof. solve_wf. Qed.
#[export] Instance wf_capabilitiesNotDroppedAll : WfDetector capabilitiesNotDroppedAll.
Proof. solve_wf. Qed.
#[export] Instance wf_serviceAccountTokenAutomount : WfDetector serviceAccountTokenAutomount.
Proof. solve_wf. Qed.

Lemma all_wf `{GoPlatform} : Forall WfDetector All.
Proof. unfold All, cost_detectors, security_detectors. simpl. repeat (apply Forall_cons_2; [apply _|]). apply Forall_nil_2. Qed.

Lemma all_ids_nodup `{GoPlatform} : NoDup (ID <$> All).
Proof. apply (bool_decide_unpack _). vm_compute. exact I. Qed.

Lemma all_perm_wf `{GoPlatform} ds : ds ≡ₚ All → Forall WfDetector ds ∧ NoDup (ID <$> ds).
Proof.
  intros E. split; [by rewrite E; apply all_wf|].
  rewrite (fmap_Permutation ID _ _ E). apply all_ids_nodup.
Qed.

(** ** Float thresholds *)

Lemma Qdiv_le_num a d : (0 <= a)%Q → (1 <= d)%Q → (a / d <= a)%Q.
Proof.
  intros Ha Hd. apply Qle_shift_div_r; [lra|].
  nra.
Qed.

Lemma inject_Z_le a b : a <= b → (inject_Z a <= inject_Z b)%Q.
Proof. by rewrite Zle_Qle. Qed.

(** Comparing [n/d], computed in float64, with the representable threshold
    [2^52 * 2^e]: rounding cannot cross it when the exact quotient is at most
    the threshold, or at least the next representable number. *)
Lemma ratio_threshold (n d e : Z) (t : float64) :
  0 <= n <= 2^53 → 0 < d <= 2^53 → -1074 <= e →
  f_rep t (inject_Z (2^52) * pow2 e) →
  ((inject_Z n <= inject_Z (2^52) * pow2 e * inject_Z d)%Q →
     f_le (f_div (f_of_Z n) (f_of_Z d)) t = true) ∧
  ((inject_Z (2^52 + 1) * pow2 e * inject_Z d <= inject_Z n)%Q →
     f_le (f_div (f_of_Z n) (f_of_Z d)) t = false).
Proof.
  intros Hn Hd He Ht.
  pose proof (inject_Z_le 1 d ltac:(lia)) as Hd1.
  pose proof (inject_Z_le 0 n ltac:(lia)) as Hn0.
  change (inject_Z 1) with 1%Q in Hd1. change (inject_Z 0) with 0%Q in Hn0.
  pose proof (pow2_pos e) as Hpe.
  destruct (rep_div _ _ _ _ (rep_of_Z n ltac:(lia)) (rep_of_Z d ltac:(lia)) Hn0 ltac:(lra))
    as (q&Hq&Hrep).
  { eapply Qle_trans; [by apply Qdiv_le_num|]. apply Z_le_pow2_1000; lia. }
  rewrite (rep_le _ _ _ _ Hrep Ht). split; intros Hcmp.
  - apply Qle_bool_iff.
    destruct (Qlt_le_dec 0 q) as [Hq0|Hq0].
    + apply (rnd_le_rep _ _ (2^52) e); [done|lia|done..|].
      rewrite Hq. apply Qle_shift_div_r; [lra|done].
    + rewrite rnd_0; [|apply Qle_antisym; [done|rewrite Hq; apply Qle_shift_div_l; lra]].
      apply Qmult_le_0_compat; [done|lra].
  - apply not_true_iff_false. rewrite Qle_bool_iff. apply Qlt_not_le.
    apply Qlt_le_trans with (inject_Z (2^52 + 1) * pow2 e)%Q.
    + apply Qmult_lt_compat_r; [done|]. by rewrite <-Zlt_Qlt.
    + apply (rnd_ge_rep _ _ (2^52 + 1) e); [done|lia|done|by apply Qmult_lt_0_compat|].
      rewrite Hq. apply Qle_shift_div_l; [lra|done].
Qed.

Lemma half_ratio (r l : Z) : 0 <= r <= 2^52 → 0 < l <= 2^52 →
  f_le (f_div (f_of_Z r) (f_of_Z l)) (f_const (1 # 2)) = (2 * r <=? l).
Proof.
  intros Hr Hl.
  destruct (ratio_threshold r l (-53) (f_const (1 # 2))) as [H1 H2]; [lia..|done|].
  assert (inject_Z (2^52) * pow2 (-53) == 1 # 2)%Q as E1 by reflexivity.
  assert (inject_Z (2^52 + 1) * pow2 (-53) == (2^52 + 1) # (2^53))%Q as E2 by reflexivity.
  destruct (Z.leb_spec (2 * r) l).
  - apply H1. rewrite E1. unfold Qle. simpl. lia.
  - apply H2. rewrite E2. unfold Qle. simpl. lia.
Qed.

Lemma four_ratio (l r : Z) : 0 <= l <= 2^52 → 0 < r <= 2^50 →
  f_le (f_div (f_of_Z l) (f_of_Z r)) (f_of_Z 4) = (l <=? 4 * r).
Proof.
  intros Hl Hr.
  destruct (ratio_threshold l r (-50) (f_of_Z 4)) as [H1 H2]; [lia..|done|].
  assert (inject_Z (2^52) * pow2 (-50) == 4)%Q as E1 by reflexivity.
  assert (inject_Z (2^52 + 1) * pow2 (-50) == (2^52 + 1) # (2^50))%Q as E2 by reflexivity.
  destruct (Z.leb_spec l (4 * r)).
  - apply H1. rewrite E1. unfold Qle. simpl. lia.
  - apply H2. rewrite E2. unfold Qle. simpl. lia.
Qed.

(** ** The engine *)

(** [rules.Run] returns its findings sorted by workload, then severity
    (most urgent first), then detector id; it loses and invents nothing (the
    result is a permutation of what the detectors reported), findings that tie
    on the whole key keep the order of the two loops, and every finding of a
    detector that leaves the category empty carries that detector's category. *)
Theorem run_sorted_stable (ws : list Workload) (ds : list Detector) :
  sorted_by finding_less (Run ws ds) ∧
  Run ws ds ≡ₚ collect ws ds ∧
  (∀ k, List.filter (equiv_key finding_less k) (Run ws ds) =
        List.filter (equiv_key finding_less k) (collect ws ds)) ∧
  (∀ f, f ∈ Run ws ds ↔
     ∃ w d g, w ∈ ws ∧ d ∈ ds ∧ g ∈ DRun d w ∧
       f = set_category (if String.eqb (FCategory g) "" then Category d else FCategory g) g).
Proof.
  unfold Run. split_and!.
  - apply sort_stable_sorted, _.
  - apply sort_stable_perm.
  - intros k. apply sort_stable_filter, _.
  - intros f. rewrite sort_stable_perm, elem_of_collect. unfold detect.
    setoid_rewrite list_elem_of_fmap. unfold stamp, set_category.
    split.
    + intros (w&d&Hw&Hd&g&->&Hg). exists w, d, g. split_and!; [done..|].
      by destruct (String.eqb (FCategory g) ""), g.
    + intros (w&d&g&Hw&Hd&Hg&->). exists w, d. split_and!; [done..|]. exists g.
      split; [|done]. by destruct (String.eqb (FCategory g) ""), g.
Qed.

(** C2: the report of the whole detector set does not depend on the order in
    which a chart's workloads are listed, nor on the order in which the
    detectors are registered, as long as the workloads have distinct names. *)
Theorem run_order_independent `{GoPlatform} (ws ws' : list Workload) (ds : list Detector)
    (Hnames : NoDup (Name <$> ws)) (Hws : ws' ≡ₚ ws) (Hds : ds ≡ₚ All) :
  Run ws' ds = Run ws All.
Proof.
  destruct (all_perm_wf ds Hds) as [Hwf Hid].
  apply (sorted_by_unique finding_less).
  - intros f g Hf Hg Htie.
    apply finding_tie in Htie as (Hw&Hd&_).
    unfold Run in Hf, Hg. rewrite sort_stable_perm in Hf, Hg.
    eapply (collect_key_inj ws' ds); try done.
    by rewrite (fmap_Permutation Name _ _ Hws).
  - apply sort_stable_sorted, _.
  - apply sort_stable_sorted, _.
  - unfold Run. rewrite !sort_stable_perm. rewrite (collect_perm _ _ _ Hws).
    by apply collect_perm_dets.
Qed.

(** ** A concrete chart for the witnesses *)

Definition qty (v : Z) (o : string) : Quantity := {| Value := v; IsSet := true; Original := o |}.

Definition sample_workload (name : string) (rc rm lc lm : Quantity) (replicas : Z) : Workload := {|
  Name := name; WKind := "Deployment";
  Requests := {| CPU := rc; Memory := rm |}; Limits := {| CPU := lc; Memory := lm |};
  Image := {| Repository := "nginx"; Tag := "1.27"; ImageSet := true |};
  Replicas := replicas; HasHPA := false; Security := empty_security |}.

Definition sample_api : Workload :=
  sample_workload "api" (qty 900 "900m") (qty (2^30) "1Gi") (qty 1000 "1") (qty (2^31) "2Gi") 3.
Definition sample_web : Workload :=
  sample_workload "web" (qty 100 "100m") (qty (2^20) "1Mi") (qty 2000 "2") unset_quantity 8.

Lemma run_order_independent_witness :
  let platform := amd64 in
  NoDup (Name <$> [sample_api; sample_web]) ∧
  Run [sample_web; sample_api] (rev All) = Run [sample_api; sample_web] All.
Proof.
  assert (NoDup (Name <$> [sample_api; sample_web])) as H
    by (apply (bool_decide_unpack _); vm_compute; exact I).
  split; [exact H|].
  apply (@run_order_independent amd64 _ _ _ H);
    [apply perm_swap|symmetry; apply Permutation_rev].
Defined.

(** ** The ratio detectors decide integer inequalities *)

Definition reports (d : Detector) (w : Workload) : bool :=
  match DRun d w with [] => false | _ => true end.

(** Both ends of a request/limit pair are set and within the range where a
    float64 comparison is exact. *)
Definition pair_in_range (bound : Z) (req lim : Quantity) : Prop :=
  IsSet req = true ∧ IsSet lim = true ∧ 0 <= Value req <= bound ∧ 0 <= Value lim <= bound.

Lemma half_test (bound : Z) req lim :
  pair_in_range bound req lim → bound <= 2^52 → Value lim ≠ 0 →
  f_le (ratio req lim) (f_const (1 # 2)) = (2 * Value req <=? Value lim).
Proof. intros (_&_&?&?) ??. unfold ratio. apply half_ratio; lia. Qed.

Lemma four_test (bound : Z) req lim :
  pair_in_range bound req lim → bound <= 2^50 → Value req ≠ 0 →
  f_le (ratio lim req) (f_of_Z 4) = (Value lim <=? 4 * Value req).
Proof. intros (_&_&?&?) ??. unfold ratio. apply four_ratio; lia. Qed.

(** Unfolds a ratio detector on a pair in range down to its comparison. *)
Ltac ratio_detector Hp thr test den :=
  let Hr := fresh in let Hl := fresh in let Hnz := fresh in
  pose proof Hp as (Hr&Hl&_);
  cbn [DRun]; cbv zeta;
  rewrite Hr, Hl; cbn [negb orb];
  destruct (Z.eqb_spec den 0) as [|Hnz]; [done|];
  unfold thr; rewrite (test _ _ _ Hp (Z.le_refl _) Hnz), Z.leb_antisym;
  by destruct (_ <? _).

Lemma reports_over_cpu w (Hp : pair_in_range (2^52) (CPU (Requests w)) (CPU (Limits w))) :
  reports cpuOverprovisioned w =
    negb (Value (CPU (Limits w)) =? 0) &&
    (Value (CPU (Limits w)) <? 2 * Value (CPU (Requests w))).
Proof. unfold reports, cpuOverprovisioned, cpuOverprovisioned_Run. ratio_detector Hp cpuOverprovRatio half_test (Value (CPU (Limits w))). Qed.

Lemma reports_over_mem `{GoPlatform} w (Hp : pair_in_range (2^52) (Memory (Requests w)) (Memory (Limits w))) :
  reports memoryOverprovisioned w =
    negb (Value (Memory (Limits w)) =? 0) &&
    (Value (Memory (Limits w)) <? 2 * Value (Memory (Requests w))).
Proof. unfold reports, memoryOverprovisioned, memoryOverprovisioned_Run. ratio_detector Hp memOverprovRatio half_test (Value (Memory (Limits w))). Qed.

Lemma reports_far_cpu w (Hp : pair_in_range (2^50) (CPU (Requests w)) (CPU (Limits w))) :
  reports cpuLimitFarAboveRequest w =
    negb (Value (CPU (Requests w)) =? 0) &&
    (4 * Value (CPU (Requests w)) <? Value (CPU (Limits w))).
Proof. unfold reports, cpuLimitFarAboveRequest, cpuLimitFarAboveRequest_Run. ratio_detector Hp limitBurstRatio four_test (Value (CPU (Requests w))). Qed.

Lemma reports_far_mem w (Hp : pair_in_range (2^50) (Memory (Requests w)) (Memory (Limits w))) :
  reports memoryLimitFarAboveRequest w =
    negb (Value (Memory (Requests w)) =? 0) &&
    (4 * Value (Memory (Requests w)) <? Value (Memory (Limits w))).
Proof. unfold reports, memoryLimitFarAboveRequest, memoryLimitFarAboveRequest_Run. ratio_detector Hp limitBurstRatio four_test (Value (Memory (Requests w))). Qed.

Lemma pair_in_range_mono b b' req lim : b <= b' → pair_in_range b req lim → pair_in_range b' req lim.
Proof. unfold pair_in_range. intros. split_and!; (tauto || lia). Qed.

(** C32: although they divide in float64, the overprovisioning detectors fire
    exactly when the request is more than half a non-zero limit, and the burst
    detectors exactly when the limit is more than four times a non-zero
    request, for all quantities up to 2^50 (a pebibyte); so on one resource the
    two can never both fire. *)
Theorem ratio_detectors_exact `{GoPlatform} (w : Workload)
    (Hc : pair_in_range (2^50) (CPU (Requests w)) (CPU (Limits w)))
    (Hm : pair_in_range (2^50) (Memory (Requests w)) (Memory (Limits w))) :
  let over r l := negb (l =? 0) && (l <? 2 * r) in
  let far r l := negb (r =? 0) && (4 * r <? l) in
  reports cpuOverprovisioned w = over (Value (CPU (Requests w))) (Value (CPU (Limits w))) ∧
  reports memoryOverprovisioned w =
    over (Value (Memory (Requests w))) (Value (Memory (Limits w))) ∧
  reports cpuLimitFarAboveRequest w = far (Value (CPU (Requests w))) (Value (CPU (Limits w))) ∧
  reports memoryLimitFarAboveRequest w =
    far (Value (Memory (Requests w))) (Value (Memory (Limits w))) ∧
  reports cpuOverprovisioned w && reports cpuLimitFarAboveRequest w = false ∧
  reports memoryOverprovisioned w && reports memoryLimitFarAboveRequest w = false.
Proof.
  intros over far.
  rewrite reports_over_cpu, reports_over_mem, reports_far_cpu, reports_far_mem
    by (done || (eapply pair_in_range_mono; [|done]; lia)).
  assert (∀ r l, 0 <= r → over r l && far r l = false) as Hex.
  { intros r l Hr. apply not_true_iff_false. unfold over, far.
    rewrite !andb_true_iff, !Z.ltb_lt. lia. }
  destruct Hc as (_&_&?&_), Hm as (_&_&?&_).
  split_and!; try done; apply Hex; lia.
Qed.

Lemma ratio_detectors_exact_witness :
  let platform := amd64 in
  reports cpuOverprovisioned sample_api = true ∧
  reports cpuOverprovisioned sample_api && reports cpuLimitFarAboveRequest sample_api = false.
Proof.
  assert (pair_in_range (2^50) (CPU (Requests sample_api)) (CPU (Limits sample_api)))
    as Hc by (repeat split; vm_compute; congruence).
  assert (pair_in_range (2^50) (Memory (Requests sample_api)) (Memory (Limits sample_api)))
    as Hm by (repeat split; vm_compute; congruence).
  destruct (@ratio_detectors_exact amd64 sample_api Hc Hm) as (H1&_&_&_&H5&_).
  split; [rewrite H1; reflexivity|exact H5].
Defined.

(** ** Savings *)

Lemma rep_exact x q m e : f_rep x (rnd q) → (q == inject_Z m * pow2 e)%Q →
  0 <= m <= 2^53 → -1074 <= e → f_rep x (inject_Z m * pow2 e).
Proof.
  intros Hx Hq Hm He. rewrite <-Hq. destruct (decide (m = 0)) as [->|].
  - assert (q == 0)%Q as Hz by (rewrite Hq; apply Qmult_0_l).
    rewrite (rnd_0 _ Hz) in Hx. by rewrite Hz.
  - by rewrite (rnd_exact q m e) in Hx by (done || lia).
Qed.

Lemma pow2_le_1000 m e : 0 <= m <= 2^53 → e <= 0 → (inject_Z m * pow2 e <= pow2 1000)%Q.
Proof.
  intros Hm He. apply Qle_trans with (inject_Z m * 1)%Q.
  - rewrite !(Qmult_comm (inject_Z m)). apply Qmult_le_compat_r.
    + apply (pow2_le e 0 He).
    + apply (inject_Z_le 0). lia.
  - rewrite Qmult_1_r. apply Z_le_pow2_1000. lia.
Qed.

Lemma pow2_nonneg m e : 0 <= m → (0 <= inject_Z m * pow2 e)%Q.
Proof.
  intros Hm. apply Qmult_le_0_compat; [by apply (inject_Z_le 0)|].
  apply Qlt_le_weak, pow2_pos.
Qed.

(** Below 2^45 bytes no step of the memory formula rounds. *)
Lemma mem_savings_exact `{GoPlatform} r : 0 <= r <= 2^45 →
  mem_savings r = Z.quot r 2 * 350 / 2^30.
Proof.
  intros Hr. unfold mem_savings. cbv zeta.
  assert (0 <= Z.quot r 2 <= 2^44) as Hh
    by (rewrite Z.quot_div_nonneg by lia; div_lia).
  unfold i64_quot. rewrite wrap64_id by (unfold in_i64; lia).
  set (h := Z.quot r 2) in *.
  change (1024 * 1024 * 1024) with (2^30). change memPricePerGiBMonthCents with 350.
  assert (inject_Z h / inject_Z (2^30) == inject_Z h * pow2 (-30))%Q as Hq1 by reflexivity.
  edestruct (rep_div (f_of_Z h) (f_of_Z (2^30))) as (q1&Hq&Hrep1);
    [apply rep_of_Z; lia|apply rep_of_Z; lia|apply (inject_Z_le 0); lia|done| |].
  { rewrite Hq1. apply pow2_le_1000; lia. }
  rewrite Hq1 in Hq. apply rep_exact with (m := h) (e := -30) in Hrep1; [|done|lia..].
  assert (inject_Z h * pow2 (-30) * inject_Z 350 == inject_Z (h * 350) * pow2 (-30))%Q as Hq2
    by (rewrite inject_Z_mult; ring).
  destruct (rep_mul _ (f_of_Z 350) _ (inject_Z 350) Hrep1) as (q2&Hq'&Hrep2);
    [apply rep_of_Z; lia|apply pow2_nonneg; lia|apply (inject_Z_le 0); lia| |].
  { rewrite Hq2. apply pow2_le_1000; lia. }
  rewrite Hq2 in Hq'. apply rep_exact with (m := h * 350) (e := -30) in Hrep2; [|done|lia..].
  assert (Qfloor (inject_Z (h * 350) * pow2 (-30)) = h * 350 / 2^30) as Hf.
  { change (inject_Z (h * 350) * pow2 (-30))%Q with (inject_Z (h * 350) / inject_Z (2^30))%Q.
    symmetry. rewrite Zdiv_Qdiv. done. }
  rewrite (rep_to_i64 _ _ Hrep2), Hf; [done|].
  rewrite Hf. unfold in_i64. pose proof (Z.div_le_upper_bound (h * 350) (2^30) (2^53)).
  pose proof (Z.div_pos (h * 350) (2^30)). lia.
Qed.

Definition sample_huge : Workload :=
  sample_workload "huge" (qty (2^53) "9007199254740992m") unset_quantity (qty 1000 "1") unset_quantity 1.

(** C40: the money of the two overprovisioning findings is the exact integer
    formula (half the request at 4 cents per core-hour for 730 hours; half the
    request at 350 cents per GiB), non-negative and at most half the price of
    the whole request, for requests up to 2^52 millicores and 2^45 bytes; past
    that the int64 product of the CPU formula wraps, and a request of
    9007199254740992m is reported with negative savings. *)
Theorem savings_exact_and_bounded `{GoPlatform} (w : Workload) (f : Finding) :
  (f ∈ DRun cpuOverprovisioned w → 0 <= Value (CPU (Requests w)) <= 2^52 →
     MonthlyUSDCents f = Value (CPU (Requests w)) / 2 * 2920 / 1000 ∧
     0 <= 2 * MonthlyUSDCents f * 1000 <= Value (CPU (Requests w)) * 2920) ∧
  (f ∈ DRun memoryOverprovisioned w → 0 <= Value (Memory (Requests w)) <= 2^45 →
     MonthlyUSDCents f = Value (Memory (Requests w)) / 2 * 350 / 2^30 ∧
     0 <= 2 * MonthlyUSDCents f * 2^30 <= Value (Memory (Requests w)) * 350) ∧
  (∃ q, ParseCPU "9007199254740992m" = Ok q ∧ CPU (Requests sample_huge) = q ∧
     MonthlyUSDCents <$> DRun cpuOverprovisioned sample_huge = [-5296233161787703]).
Proof.
  split_and!.
  - unfold cpuOverprovisioned, cpuOverprovisioned_Run. cbn [DRun]. cbv zeta.
    detector_cases; rewrite ?elem_of_nil, ?list_elem_of_singleton; try done.
    intros -> Hr. cbn [MonthlyUSDCents with_signal with_money].
    generalize dependent (Value (CPU (Requests w))). intros r Hr.
    assert (cpu_savings r = r / 2 * 2920 / 1000) as ->.
    { unfold cpu_savings, i64_quot, i64_mul, cpuOverprovMonthlyHours, cpuPricePerCoreHourCents.
      rewrite (Z.quot_div_nonneg r 2) by lia.
      rewrite !(wrap64_id (r / 2)) by (unfold in_i64; div_lia).
      rewrite wrap64_mul_l, (wrap64_id (r / 2 * 730 * 4)) by (unfold in_i64; div_lia).
      rewrite Z.quot_div_nonneg by div_lia.
      replace (r / 2 * 730 * 4) with (r / 2 * 2920) by lia. apply wrap64_id.
      unfold in_i64. div_lia. }
    split; [done|]. div_lia.
  - unfold memoryOverprovisioned, memoryOverprovisioned_Run. cbn [DRun]. cbv zeta.
    detector_cases; rewrite ?elem_of_nil, ?list_elem_of_singleton; try done.
    intros -> Hr. cbn [MonthlyUSDCents with_signal with_money].
    generalize dependent (Value (Memory (Requests w))). intros r Hr.
    rewrite mem_savings_exact, Z.quot_div_nonneg by lia.
    split; [done|]. div_lia.
  - eexists. split; [vm_compute; reflexivity|]. split; reflexivity.
Qed.

Lemma savings_exact_and_bounded_witness :
  let platform := amd64 in
  MonthlyUSDCents <$> DRun cpuOverprovisioned sample_api = [1314] ∧
  ∀ f, f ∈ DRun cpuOverprovisioned sample_api → MonthlyUSDCents f = 450 * 2920 / 1000.
Proof.
  split; [vm_compute; reflexivity|].
  intros f Hf. destruct (@savings_exact_and_bounded amd64 sample_api f) as (H&_&_).
  apply H; [exact Hf|vm_compute; split; congruence].
Defined.

(** ** Hardened workloads *)

(** The posture the security detectors ask for. *)
Definition hardened (w : Workload) : Prop :=
  let s := Security w in
  (IsSet (CPU (Requests w)) = true → IsSet (CPU (Limits w)) = true) ∧
  (IsSet (Memory (Requests w)) = true → IsSet (Memory (Limits w)) = true) ∧
  (ImageSet (Image w) = true → Tag (Image w) ≠ "" ∧ Tag (Image w) ≠ "latest") ∧
  RunAsNonRoot s = Some true ∧ RunAsUser s ≠ Some 0 ∧ Privileged s ≠ Some true ∧
  HostNetwork s ≠ Some true ∧ HostPID s ≠ Some true ∧ HostIPC s ≠ Some true ∧
  ReadOnlyRootFilesystem s = Some true ∧ AllowPrivilegeEscalation s = Some false ∧
  HostPath s ≠ Some true ∧
  (∀ c, c ∈ CapabilitiesAdd s → normaliseCap c ∉ dangerousCaps.*1) ∧
  (∃ c, c ∈ CapabilitiesDrop s ∧ normaliseCap c = "ALL") ∧
  AutomountServiceAccountToken s = Some false.

Lemma run_nil ws ds : Run ws ds = [] ↔ ∀ w d, w ∈ ws → d ∈ ds → DRun d w = [].
Proof.
  unfold Run. split.
  - intros E w d Hw Hd. destruct (DRun d w) as [|g l] eqn:El; [done|].
    assert (stamp (Category d) g ∈ collect ws ds) as Hin.
    { rewrite elem_of_collect. exists w, d. split_and!; [done..|].
      unfold detect. rewrite El. left. }
    rewrite <-sort_stable_perm in Hin. rewrite E in Hin. by apply elem_of_nil in Hin.
  - intros Hn. assert (collect ws ds = []) as ->; [|done].
    apply elem_of_nil_inv. intros f (w&d&Hw&Hd&Hf)%elem_of_collect.
    unfold detect in Hf. rewrite Hn in Hf by done. by apply elem_of_nil in Hf.
Qed.

Lemma assoc_find_None {A} k (l : list (string * A)) : assoc_find k l = None ↔ k ∉ l.*1.
Proof.
  induction l as [|[k' v] l IH]; simpl; [rewrite elem_of_nil; naive_solver|].
  rewrite not_elem_of_cons, <-IH. destruct (String.eqb_spec k k'); naive_solver.
Qed.

Lemma capability_hits_nil caps :
  capability_hits caps = [] ↔ ∀ c, c ∈ caps → normaliseCap c ∉ dangerousCaps.*1.
Proof.
  unfold capability_hits. generalize dangerousCaps. intros table.
  induction caps as [|c caps IH]; simpl.
  { split; [|done]. intros _ c Hc. by apply elem_of_nil in Hc. }
  setoid_rewrite elem_of_cons.
  destruct (assoc_find (normaliseCap c) table) eqn:E; simpl.
  - split; [done|]. intros Hc. apply (assoc_find_None (normaliseCap c)) in Hc; [|by left].
    congruence.
  - apply assoc_find_None in E. rewrite IH. naive_solver.
Qed.

(** One security detector silent, as a condition on the workload. *)
Ltac silent := intros *; cbn [DRun]; cbv zeta; repeat case_match; naive_solver.

Lemma silent_posture w :
  (missingCPULimit_Run w = [] ↔
     (IsSet (CPU (Requests w)) = true → IsSet (CPU (Limits w)) = true)) ∧
  (missingMemoryLimit_Run w = [] ↔
     (IsSet (Memory (Requests w)) = true → IsSet (Memory (Limits w)) = true)) ∧
  (imagePinnedLatest_Run w = [] ↔
     (ImageSet (Image w) = true → Tag (Image w) ≠ "" ∧ Tag (Image w) ≠ "latest")).
Proof.
  unfold missingCPULimit_Run, missingMemoryLimit_Run, imagePinnedLatest_Run. split_and!.
  - destruct (IsSet _), (IsSet _); naive_solver.
  - destruct (IsSet _), (IsSet _); naive_solver.
  - destruct (ImageSet (Image w)); [|naive_solver]. cbv zeta.
    destruct (String.eqb_spec (Tag (Image w)) ""), (String.eqb_spec (Tag (Image w)) "latest");
      naive_solver.
Qed.

Lemma silent_flags w : let s := Security w in
  (runAsRoot_Run w = [] ↔ RunAsNonRoot s = Some true) ∧
  (runsAsUIDZero_Run w = [] ↔ RunAsUser s ≠ Some 0) ∧
  (privilegedContainer_Run w = [] ↔ Privileged s ≠ Some true) ∧
  (hostNetwork_Run w = [] ↔ HostNetwork s ≠ Some true) ∧
  (hostPID_Run w = [] ↔ HostPID s ≠ Some true) ∧
  (hostIPC_Run w = [] ↔ HostIPC s ≠ Some true) ∧
  (readOnlyRootFSMissing_Run w = [] ↔ ReadOnlyRootFilesystem s = Some true) ∧
  (allowPrivilegeEscalation_Run w = [] ↔ AllowPrivilegeEscalation s = Some false) ∧
  (hostPathVolume_Run w = [] ↔ HostPath s ≠ Some true) ∧
  (serviceAccountTokenAutomount_Run w = [] ↔ AutomountServiceAccountToken s = Some false).
Proof.
  intros s. subst s.
  unfold runAsRoot_Run, privilegedContainer_Run, hostNetwork_Run, hostPID_Run, hostIPC_Run,
    readOnlyRootFSMissing_Run, allowPrivilegeEscalation_Run, hostPathVolume_Run,
    serviceAccountTokenAutomount_Run, runsAsUIDZero_Run.
  split_and!; [| | | | | | | | |]; cbv zeta;
    unfold ptr_true, ptr_false, ptr_nil, ptr_eq.
  2: destruct (RunAsUser _) as [z|]; [destruct (Z.eqb_spec z 0)|]; naive_solver.
  all: match goal with |- context [match ?x with Some _ => _ | None => _ end] =>
         destruct x as [[]|] end; naive_solver.
Qed.

Lemma silent_caps w : let s := Security w in
  (dangerousCapabilityAdded_Run w = [] ↔
     ∀ c, c ∈ CapabilitiesAdd s → normaliseCap c ∉ dangerousCaps.*1) ∧
  (capabilitiesNotDroppedAll_Run w = [] ↔
     ∃ c, c ∈ CapabilitiesDrop s ∧ normaliseCap c = "ALL").
Proof.
  intros s. subst s. unfold dangerousCapabilityAdded_Run, capabilitiesNotDroppedAll_Run. split.
  - cbv zeta. rewrite <-capability_hits_nil.
    destruct (capability_hits _) eqn:E; simpl; naive_solver.
  - destruct (existsb _ _) eqn:E.
    + split; [|done]. intros _. apply existsb_exists in E as (c&Hc&He).
      exists c. rewrite list_elem_of_In. by apply String.eqb_eq in He.
    + split; [done|]. intros (c&Hc&He). exfalso. apply not_true_iff_false in E. apply E.
      apply existsb_exists. exists c. rewrite <-list_elem_of_In, He. done.
Qed.

Lemma security_silent w :
  Forall (λ d, DRun d w = []) security_detectors ↔ hardened w.
Proof.
  unfold security_detectors. rewrite !Forall_cons, Forall_nil.
  cbn [DRun missingCPULimit missingMemoryLimit imagePinnedLatest runAsRoot
    runsAsUIDZero privilegedContainer hostNetwork hostPID hostIPC readOnlyRootFSMissing
    allowPrivilegeEscalation hostPathVolume dangerousCapabilityAdded capabilitiesNotDroppedAll
    serviceAccountTokenAutomount].
  destruct (silent_posture w) as (->&->&->).
  destruct (silent_flags w) as (->&->&->&->&->&->&->&->&->&->).
  destruct (silent_caps w) as (->&->).
  unfold hardened. cbv zeta. split; intros; destruct_and?; split_and?; done.
Qed.

(** The security half of the report is empty exactly when every workload
    has the hardened posture: limits for every request, a pinned image, a
    non-root user, no host namespaces or hostPath, a read-only root file
    system, no privilege escalation, no escalation-class capability in any
    spelling, [drop] containing ALL, and no service-account token. *)
Theorem security_silent_iff_hardened (ws : list Workload) :
  Run ws security_detectors = [] ↔ Forall hardened ws.
Proof.
  rewrite run_nil, Forall_forall. setoid_rewrite <-security_silent.
  setoid_rewrite Forall_forall. naive_solver.
Qed.
