(* ===== verification/Analyze.v ===== *)
(** [internal/analyze] (filter.go, score.go, grade.go, analyze.go) and the
    [Report] of [internal/render]: filtering a report, folding it into a score,
    and ranking the score. *)

From S2P Require Import Prelude GoNum GoStr Quantity Helm Rules AllRules.
Local Open Scope Z_scope.

Record Report := { Source : string; Workloads : Z; Findings : list Finding }.

Definition with_findings (r : Report) (fs : list Finding) : Report :=
  {| Source := Source r; Workloads := Workloads r; Findings := fs |}.

(** Sum of int64 amounts, wrapping at every step. *)
Definition sum64 (l : list Z) : Z := foldl i64_add 0 l.

Definition MonthlySavingsUSDCents (r : Report) : Z := sum64 (MonthlyUSDCents <$> Findings r).

(** ** filter.go *)

Record FilterOptions := { MinSeverity : string; DetectorIDs : list string; SecurityOnly : bool }.

Definition filter_severityRank (s : string) : Z :=
  if String.eqb s SeverityHigh then 3 else if String.eqb s SeverityMed then 2
  else if String.eqb s SeverityLow then 1 else if String.eqb s SeverityInfo then 0 else 0.

(** The [continue]s of the loop: [false] when the finding is dropped. *)
Definition keeps (opts : FilterOptions) (f : Finding) : bool :=
  let allowed : gset string := list_to_set (trim_space <$> DetectorIDs opts) in
  if SecurityOnly opts && negb (String.eqb (FCategory f) CategorySecurity) then false
  else if (0 <? size allowed)%nat && negb (bool_decide (DetectorID f ∈ allowed)) then false
  else if negb (String.eqb (MinSeverity opts) "") &&
          (filter_severityRank (FSeverity f) <? filter_severityRank (MinSeverity opts)) then false
  else true.

Definition Filter (r : Report) (opts : FilterOptions) : Report :=
  if String.eqb (MinSeverity opts) "" && (length (DetectorIDs opts) =? 0)%nat &&
     negb (SecurityOnly opts) then r
  else with_findings r (List.filter (keeps opts) (Findings r)).

(** ** grade.go *)

Record Grade := { Letter : string; PercentileRank : Z; Sample : Z }.

Definition letterFor (score : Z) : string :=
  if 95 <=? score then "A+" else if 90 <=? score then "A" else if 85 <=? score then "A-"
  else if 80 <=? score then "B+" else if 75 <=? score then "B" else if 70 <=? score then "B-"
  else if 65 <=? score then "C+" else if 60 <=? score then "C" else if 55 <=? score then "C-"
  else if 50 <=? score then "D" else "F".

(** [sort.Search]: binary search for the smallest index satisfying [f]. *)
Fixpoint search_loop (fuel : nat) (f : nat → bool) (i j : nat) : nat :=
  match fuel with
  | O => i
  | S fuel =>
      if (i <? j)%nat then
        let h := ((i + j) / 2)%nat in
        if f h then search_loop fuel f i h else search_loop fuel f (S h) j
      else i
  end.
Definition sort_Search (n : nat) (f : nat → bool) : nat := search_loop n f 0 n.

Definition percentileRank (score : Z) (population : list Z) : Z :=
  if (length population =? 0)%nat then 0 else
  let below := sort_Search (length population)
                 (λ i, match population !! i with Some p => score <=? p | None => true end) in
  let rank := i64_quot (i64_mul (Z.of_nat below) 100) (Z.of_nat (length population)) in
  if 100 <? rank then 100 else rank.

Definition calibrationScores : list Z := [
  18; 22; 24; 26; 28; 30; 31; 33; 34; 35;
  37; 38; 39; 40; 41; 42; 43; 44; 45; 46;
  47; 48; 49; 50; 51; 52; 53; 54; 55; 56;
  57; 58; 59; 60; 61; 62; 63; 64; 65; 66;
  66; 67; 67; 68; 68; 69; 69; 70; 70; 70;
  71; 71; 72; 72; 73; 73; 74; 74; 75; 75;
  76; 76; 77; 77; 78; 78; 79; 79; 80; 80;
  81; 82; 83; 84; 85; 85; 86; 87; 88; 88;
  89; 90; 90; 91; 91; 92; 92; 93; 93; 94;
  94; 95; 95; 96; 96; 97; 97; 98; 99; 100 ].

Definition GradeFor (score : Z) : Grade := {|
  Letter := letterFor score;
  PercentileRank := percentileRank score calibrationScores;
  Sample := Z.of_nat (length calibrationScores) |}.

(** ** score.go *)

Record Score := {
  SWorkloads : Z;
  SSource : string;
  SValue : Z;
  Band : string;
  SGrade : Grade;
  Penalties : gmap string Z;
  SFindings : list Finding;
}.

Definition penaltyHigh : Z := 25.
Definition penaltyMed : Z := 10.
Definition penaltyLow : Z := 3.
Definition penaltyInfo : Z := 1.
Definition penaltyCap : Z := 100.

Definition penaltyFor (s : string) : Z :=
  if String.eqb s SeverityHigh then penaltyHigh
  else if String.eqb s SeverityMed then penaltyMed
  else if String.eqb s SeverityLow then penaltyLow
  else penaltyInfo.

Definition bandFor (score : Z) : string :=
  if 85 <=? score then ConfidenceHigh else if 60 <=? score then ConfidenceMed else ConfidenceLow.

(** One turn of the loop: [penalties[f.DetectorID] += p; total += p]. *)
Definition score_step (acc : gmap string Z * Z) (f : Finding) : gmap string Z * Z :=
  let p := penaltyFor (FSeverity f) in
  (<[DetectorID f := i64_add (default 0 (acc.1 !! DetectorID f)) p]> acc.1, i64_add acc.2 p).

Definition Score_Compute (source : string) (workloads : Z) (findings : list Finding) : Score :=
  let '(penalties, total) := foldl score_step (∅, 0) findings in
  let total := if penaltyCap <? total then penaltyCap else total in
  let value := i64_sub 100 total in
  let value := if value <? 0 then 0 else value in
  {| SWorkloads := workloads; SSource := source; SValue := value; Band := bandFor value;
     SGrade := GradeFor value; Penalties := penalties; SFindings := findings |}.

(** ** analyze.go *)

(** [analyze.Run] on the text of a values file. *)
Definition analyze_Run `{GoPlatform, GoSort} (yaml_parse : string → option Node)
    (source : string) (input : option string) (detectors : option (list Detector)) : result parse_error Report :=
  let* wls := ParseValues yaml_parse input in
  let dets := match detectors with None => All | Some ds => ds end in
  Ok {| Source := source; Workloads := Z.of_nat (length wls); Findings := Run wls dets |}.

(** ** Sums that cannot wrap *)

Lemma foldl_i64_add l acc :
  Forall (λ z, 0 <= z) l → 0 <= acc → acc + Zsum l < 2^63 → foldl i64_add acc l = acc + Zsum l.
Proof.
  intros Hl. revert acc. induction Hl as [|z l Hz Hl IH]; intros acc Ha Hb; simpl in *; [lia|].
  pose proof (Zsum_nonneg l Hl).
  unfold i64_add at 2. rewrite wrap64_id by (unfold in_i64; lia). rewrite IH; lia.
Qed.

Definition penalty (f : Finding) : Z := penaltyFor (FSeverity f).

Lemma penalty_bounds f : 1 <= penalty f <= 25.
Proof.
  unfold penalty, penaltyFor, penaltyHigh, penaltyMed, penaltyLow, penaltyInfo.
  repeat case_match; lia.
Qed.

Lemma penalty_sum_bounds fs :
  Z.of_nat (length fs) <= Zsum (penalty <$> fs) <= 25 * Z.of_nat (length fs).
Proof.
  induction fs as [|f fs IH]; [simpl; lia|].
  rewrite fmap_cons. cbn [Zsum foldr length]. fold (Zsum (penalty <$> fs)).
  pose proof (penalty_bounds f). lia.
Qed.

Lemma penalty_sum_sublist fs' fs :
  sublist fs' fs → Zsum (penalty <$> fs') <= Zsum (penalty <$> fs).
Proof.
  induction 1 as [|f l1 l2 Hs IH|f l1 l2 Hs IH]; [done|..];
    rewrite !fmap_cons; cbn [Zsum foldr];
    fold (Zsum (penalty <$> l1)) (Zsum (penalty <$> l2)); pose proof (penalty_bounds f); lia.
Qed.

(** The map half of the loop. *)
Definition charge (m : gmap string Z) (f : Finding) : gmap string Z :=
  <[DetectorID f := i64_add (default 0 (m !! DetectorID f)) (penalty f)]> m.

Lemma foldl_score_step fs pen tot :
  foldl score_step (pen, tot) fs =
    (foldl charge pen fs, foldl i64_add tot (penalty <$> fs)).
Proof. revert pen tot. induction fs as [|f fs IH]; intros; [done|]. cbn [foldl].
  apply (IH (score_step (pen, tot) f).1 (score_step (pen, tot) f).2).
Qed.

(** Points charged to one detector. *)
Definition charged (d : string) (fs : list Finding) : Z :=
  Zsum (penalty <$> List.filter (λ f, String.eqb (DetectorID f) d) fs).

Lemma charged_cons d f fs :
  charged d (f :: fs) = (if String.eqb (DetectorID f) d then penalty f else 0) + charged d fs.
Proof. unfold charged. simpl. by destruct (String.eqb _ _). Qed.

Lemma charged_bounds d fs : 0 <= charged d fs <= 25 * Z.of_nat (length fs).
Proof.
  induction fs as [|f fs IH]; [cbn; lia|]. rewrite charged_cons. cbn [length].
  pose proof (penalty_bounds f). case_match; lia.
Qed.

Lemma penalties_lookup d fs (m : gmap string Z) :
  0 <= default 0 (m !! d) → default 0 (m !! d) + charged d fs < 2^63 →
  default 0 (foldl charge m fs !! d) = default 0 (m !! d) + charged d fs.
Proof.
  revert m. induction fs as [|f fs IH]; intros m H0 Hb; [cbn; lia|].
  rewrite charged_cons in *. pose proof (charged_bounds d fs). pose proof (penalty_bounds f).
  cbn [foldl]. unfold charge at 2.
  destruct (String.eqb_spec (DetectorID f) d) as [->|Hne].
  - assert (i64_add (default 0 (m !! d)) (penalty f) = default 0 (m !! d) + penalty f) as E
      by (unfold i64_add; apply wrap64_id; unfold in_i64; lia).
    rewrite E. rewrite IH; rewrite lookup_insert_eq; cbn [default from_option id]; lia.
  - rewrite IH; rewrite lookup_insert_ne by done; lia.
Qed.

(** The score as a closed formula. *)
Lemma score_value src n fs : Z.of_nat (length fs) < 2^58 →
  SValue (Score_Compute src n fs) = Z.max 0 (100 - Zsum (penalty <$> fs)).
Proof.
  intros Hlen. unfold Score_Compute. rewrite foldl_score_step. cbn [SValue].
  pose proof (penalty_sum_bounds fs).
  rewrite foldl_i64_add; [|apply Forall_fmap, Forall_forall; intros; simpl;
    pose proof (penalty_bounds x); lia|lia..].
  rewrite Z.add_0_l. unfold penaltyCap, i64_sub.
  destruct (Z.ltb_spec 100 (Zsum (penalty <$> fs))).
  - rewrite wrap64_id by (unfold in_i64; lia). case_match; bool_to_prop; lia.
  - rewrite wrap64_id by (unfold in_i64; lia). case_match; bool_to_prop; lia.
Qed.

(** C29: the score is [max 0 (100 - total penalty)], hence between 0 and 100;
    each detector is charged exactly the sum over its own findings; reordering
    the findings changes neither, and adding findings never raises the score.
    (Fewer than 2^58 findings, so that int64 sums do not wrap.) *)
Theorem score_spec (source : string) (n : Z) (fs : list Finding)
    (Hlen : Z.of_nat (length fs) < 2^58) :
  let s := Score_Compute source n fs in
  SValue s = Z.max 0 (100 - Zsum (penalty <$> fs)) ∧
  0 <= SValue s <= 100 ∧
  (∀ d, default 0 (Penalties s !! d) = charged d fs) ∧
  (∀ fs', fs' ≡ₚ fs → SValue (Score_Compute source n fs') = SValue s) ∧
  (∀ fs', sublist fs' fs → SValue s <= SValue (Score_Compute source n fs')).
Proof.
  intros s. assert (SValue s = Z.max 0 (100 - Zsum (penalty <$> fs))) as Hv by by apply score_value.
  pose proof (penalty_sum_bounds fs).
  split_and!; [done|lia|lia| | |].
  - intros d. subst s. unfold Score_Compute. rewrite foldl_score_step. cbn [Penalties].
    pose proof (charged_bounds d fs).
    rewrite penalties_lookup; rewrite lookup_empty; cbn [default from_option id]; lia.
  - intros fs' Hp. rewrite Hv, score_value by (by rewrite (Permutation_length Hp)).
    by rewrite (Zsum_perm (penalty <$> fs') (penalty <$> fs)) by by apply fmap_Permutation.
  - intros fs' Hs. rewrite Hv. apply sublist_length in Hs as Hl.
    rewrite score_value by lia.
    assert (Zsum (penalty <$> fs') <= Zsum (penalty <$> fs)); [|lia].
    by apply penalty_sum_sublist.
Qed.

Definition sample_findings : list Finding :=
  Run [sample_api; sample_web] security_detectors.

Lemma score_spec_witness :
  Z.of_nat (length sample_findings) < 2^58 ∧
  SValue (Score_Compute "values.yaml" 2 (take 3 sample_findings)) = 70 ∧
  SValue (Score_Compute "values.yaml" 2 sample_findings) <=
    SValue (Score_Compute "values.yaml" 2 (take 3 sample_findings)).
Proof.
  assert (Z.of_nat (length sample_findings) < 2^58) as H by (vm_compute; reflexivity).
  split; [exact H|]. split; [vm_compute; reflexivity|].
  destruct (score_spec "values.yaml" 2 sample_findings H) as (_&_&_&_&Hs).
  apply Hs, sublist_take.
Defined.

(** ** Binary search *)

Lemma search_loop_spec f n fuel i j :
  (∀ a b, (a <= b < n)%nat → f a = true → f b = true) →
  (j - i <= fuel)%nat → (i <= j <= n)%nat →
  (∀ a, (a < i)%nat → f a = false) → (∀ a, (j <= a < n)%nat → f a = true) →
  let k := search_loop fuel f i j in
  (k <= n)%nat ∧ (∀ a, (a < k)%nat → f a = false) ∧ (∀ a, (k <= a < n)%nat → f a = true).
Proof.
  intros Hmono. revert i j. induction fuel as [|fuel IH]; intros i j Hf Hij Hlo Hhi; cbn [search_loop]; cbv zeta.
  { assert (i = j) as -> by lia. split_and!; [lia|done|done]. }
  destruct (Nat.ltb_spec i j) as [Hlt|]; [|assert (i = j) as -> by lia; split_and!; [lia|done..]].
  assert (i <= (i + j) / 2 < j)%nat as Hh.
  { pose proof (Nat.div_mod_eq (i + j) 2). pose proof (Nat.mod_upper_bound (i + j) 2 ltac:(lia)). lia. }
  destruct (f ((i + j) / 2)%nat) eqn:E.
  - apply IH; [lia|lia|done|]. intros a Ha. eapply (Hmono ((i + j) / 2)%nat); [lia|done].
  - apply IH; [lia|lia| |done]. intros a Ha. destruct (f a) eqn:Ea; [|done].
    rewrite (Hmono a ((i + j) / 2)%nat) in E by (done || lia). done.
Qed.

(** How many of the population scored strictly less: the definition
    [percentileRank] is meant to compute. *)
Definition count_below (score : Z) (population : list Z) : Z :=
  Z.of_nat (length (List.filter (λ p, p <? score) population)).

Lemma filter_split (P : Z → bool) l k :
  (k <= length l)%nat →
  (∀ i x, l !! i = Some x → (i < k)%nat → P x = true) →
  (∀ i x, l !! i = Some x → (k <= i)%nat → P x = false) →
  length (List.filter P l) = k.
Proof.
  revert k. induction l as [|x l IH]; intros k Hk Hlo Hhi; simpl in *; [lia|].
  destruct k as [|k].
  - rewrite (Hhi 0%nat x eq_refl) by lia. apply IH; [lia|intros; lia|].
    intros i y Hi _. apply (Hhi (S i) y Hi). lia.
  - rewrite (Hlo 0%nat x eq_refl) by lia. simpl. f_equal. apply IH; [lia|..].
    + intros i y Hi ?. apply (Hlo (S i) y Hi). lia.
    + intros i y Hi ?. apply (Hhi (S i) y Hi). lia.
Qed.

Lemma sorted_lookup_le l a b x y : StronglySorted Z.le l →
  l !! a = Some x → l !! b = Some y → (a < b)%nat → x <= y.
Proof.
  intros Hs. revert a b. induction Hs as [|z l Hs IH Hz]; intros a b Ha Hb Hab; [done|].
  destruct b as [|b]; [lia|]. simpl in Hb. destruct a as [|a]; simplify_eq/=.
  - rewrite Forall_forall in Hz. apply Hz. by eapply list_elem_of_lookup_2.
  - eapply IH; [done..|lia].
Qed.

Lemma search_counts score pop : StronglySorted Z.le pop →
  Z.of_nat (sort_Search (length pop)
     (λ i, match pop !! i with Some p => score <=? p | None => true end)) =
  count_below score pop.
Proof.
  intros Hs. unfold count_below, sort_Search. f_equal. symmetry.
  set (f := λ i, match pop !! i with Some p => score <=? p | None => true end).
  destruct (search_loop_spec f (length pop) (length pop) 0 (length pop)) as (Hk&Hlo&Hhi).
  - intros a b Hab. unfold f.
    destruct (lookup_lt_is_Some_2 pop a) as [pa Ha]; [lia|].
    destruct (lookup_lt_is_Some_2 pop b) as [pb Hb]; [lia|].
    rewrite Ha, Hb. rewrite !Z.leb_le. intros Hpa. destruct (decide (a = b)) as [->|].
    + simplify_eq. done.
    + assert (pa <= pb); [|lia]. eapply (sorted_lookup_le pop a b); [done..|lia].
  - lia.
  - lia.
  - intros; lia.
  - intros; lia.
  - apply filter_split; [done|..]; intros i x Hx Hi.
    + specialize (Hlo i Hi). unfold f in Hlo. rewrite Hx in Hlo. bool_to_prop. by apply Z.ltb_lt.
    + specialize (Hhi i). unfold f in Hhi. rewrite Hx in Hhi.
      apply lookup_lt_Some in Hx. specialize (Hhi (conj Hi Hx)). bool_to_prop. by apply Z.ltb_ge.
Qed.

(** On a population sorted in ascending order, the binary search of
    [percentileRank] computes the definition: the percentage, rounded down, of
    the population that scored strictly less. *)
Theorem percentile_rank_exact (score : Z) (pop : list Z)
    (Hsorted : StronglySorted Z.le pop) (Hlen : Z.of_nat (length pop) < 2^56) :
  percentileRank score pop =
    (if decide (pop = []) then 0
     else count_below score pop * 100 / Z.of_nat (length pop)).
Proof.
  unfold percentileRank. destruct pop as [|p pop]; [done|].
  rewrite search_counts by done. case_decide; [done|]. cbv zeta.
  set (l := p :: pop) in *. change (length l =? 0)%nat with false. cbv iota.
  assert (0 <= count_below score l <= Z.of_nat (length l)) as Hc.
  { unfold count_below. pose proof (filter_length_le (λ p, p <? score) l). lia. }
  assert (0 < Z.of_nat (length l)) by (unfold l; simpl; lia).
  unfold i64_mul, i64_quot. rewrite (wrap64_id (_ * 100)) by (unfold in_i64; lia).
  rewrite Z.quot_div_nonneg by lia.
  assert (0 <= count_below score l * 100 / Z.of_nat (length l) <= 100).
  { split; [apply Z.div_pos; lia|apply Z.div_le_upper_bound; lia]. }
  rewrite wrap64_id by (unfold in_i64; lia).
  case_match; bool_to_prop; lia.
Qed.

Lemma percentile_rank_exact_witness :
  StronglySorted Z.le calibrationScores ∧
  percentileRank 70 calibrationScores = count_below 70 calibrationScores * 100 / 100.
Proof.
  assert (StronglySorted Z.le calibrationScores) as Hs
    by (repeat (constructor; try (vm_compute; congruence))).
  split; [exact Hs|].
  apply (percentile_rank_exact 70 calibrationScores Hs). vm_compute; reflexivity.
Defined.

(** ** Grades *)

(** Letters from worst to best. *)
Definition letters : list string :=
  ["F"; "D"; "C-"; "C"; "C+"; "B-"; "B"; "B+"; "A-"; "A"; "A+"].
Fixpoint index_of (s : string) (l : list string) : Z :=
  match l with [] => 0 | x :: l => if String.eqb s x then 0 else 1 + index_of s l end.
Definition letter_rank (s : string) : Z := index_of s letters.

Lemma letter_rank_spec s : letter_rank (letterFor s) = Z.max 0 (Z.min 10 (s / 5 - 9)).
Proof.
  unfold letterFor. repeat case_match; bool_to_prop; cbn; div_lia.
Qed.

Lemma calibration_sorted : StronglySorted Z.le calibrationScores.
Proof. repeat (constructor; try (vm_compute; congruence)). Qed.

Lemma count_below_mono s s' pop : s <= s' → count_below s pop <= count_below s' pop.
Proof.
  intros H. unfold count_below. induction pop as [|p pop IH]; simpl; [lia|].
  destruct (Z.ltb_spec p s), (Z.ltb_spec p s'); simpl; lia.
Qed.

(** A better score never gets a worse grade: the letter, the percentile and
    the confidence band are all monotone in the score, and the percentile lies
    between 0 and 100. *)
Theorem grade_monotone (s s' : Z) (H : s <= s') :
  letter_rank (Letter (GradeFor s)) <= letter_rank (Letter (GradeFor s')) ∧
  PercentileRank (GradeFor s) <= PercentileRank (GradeFor s') ∧
  0 <= PercentileRank (GradeFor s) <= 100 ∧
  index_of (bandFor s) [ConfidenceLow; ConfidenceMed; ConfidenceHigh] <=
    index_of (bandFor s') [ConfidenceLow; ConfidenceMed; ConfidenceHigh].
Proof.
  assert (∀ x, PercentileRank (GradeFor x) = count_below x calibrationScores) as Hp.
  { intros x. cbn [GradeFor PercentileRank]. unfold percentileRank.
    rewrite search_counts by apply calibration_sorted.
    change (Z.of_nat (length calibrationScores)) with 100.
    change (length calibrationScores =? 0)%nat with false. cbv iota zeta.
    pose proof (filter_length_le (λ p, p <? x) calibrationScores) as Hl.
    change (length calibrationScores) with 100%nat in Hl.
    unfold i64_quot, i64_mul. unfold count_below.
    rewrite (wrap64_id (_ * 100)) by (unfold in_i64; lia).
    rewrite Z.quot_mul by lia. rewrite wrap64_id by (unfold in_i64; lia).
    case_match; bool_to_prop; lia. }
  rewrite !Hp. cbn [GradeFor Letter]. rewrite !letter_rank_spec.
  pose proof (count_below_mono s s' calibrationScores H).
  pose proof (filter_length_le (λ p, p <? s) calibrationScores) as Hl.
  change (length calibrationScores) with 100%nat in Hl.
  split_and!; [|lia|unfold count_below; lia..|].
  - pose proof (Z.div_le_mono s s' 5). lia.
  - unfold bandFor. repeat case_match; bool_to_prop; cbn; lia.
Qed.

Lemma grade_monotone_witness :
  Letter (GradeFor 65) = "C+" ∧ PercentileRank (GradeFor 65) = 38 ∧
  letter_rank (Letter (GradeFor 65)) <= letter_rank (Letter (GradeFor 92)).
Proof.
  split; [reflexivity|]. split; [vm_compute; reflexivity|].
  apply (grade_monotone 65 92). lia.
Defined.

(** ** Filtering *)

(** What the options ask of a finding. *)
Definition wanted (opts : FilterOptions) (f : Finding) : Prop :=
  (SecurityOnly opts = true → FCategory f = CategorySecurity) ∧
  (DetectorIDs opts ≠ [] → DetectorID f ∈ trim_space <$> DetectorIDs opts) ∧
  (MinSeverity opts ≠ "" →
     filter_severityRank (MinSeverity opts) <= filter_severityRank (FSeverity f)).

Lemma size_list_to_set (l : list string) :
  (0 <? size (list_to_set l : gset string))%nat = negb (length l =? 0)%nat.
Proof.
  destruct l as [|x l].
  - rewrite list_to_set_nil, size_empty. done.
  - simpl. apply Nat.ltb_lt. apply Nat.neq_0_lt_0. intros E.
    apply size_empty_inv in E. set_solver.
Qed.

Lemma keeps_conj opts f :
  keeps opts f =
    negb (SecurityOnly opts && negb (String.eqb (FCategory f) CategorySecurity)) &&
    negb (negb (length (DetectorIDs opts) =? 0)%nat &&
          negb (bool_decide (DetectorID f ∈ trim_space <$> DetectorIDs opts))) &&
    negb (negb (String.eqb (MinSeverity opts) "") &&
          (filter_severityRank (FSeverity f) <? filter_severityRank (MinSeverity opts))).
Proof.
  unfold keeps. cbv zeta. rewrite size_list_to_set, length_fmap.
  rewrite (bool_decide_ext _ _
    (elem_of_list_to_set (C:=gset string) (DetectorID f) (trim_space <$> DetectorIDs opts))).
  repeat match goal with |- context [if ?b then _ else _] => destruct b end; done.
Qed.

(** [!(a && !b)] is an implication. *)
Lemma guard_spec a b (P Q : Prop) : (a = true ↔ P) → (b = true ↔ Q) →
  negb (a && negb b) = true ↔ (P → Q).
Proof. intros <- <-. destruct a, b; naive_solver. Qed.

Lemma keeps_wanted opts f : keeps opts f = true ↔ wanted opts f.
Proof.
  rewrite keeps_conj, !andb_true_iff. rewrite <-(assoc and). unfold wanted. f_equiv; [|f_equiv].
  - apply guard_spec; [done|apply String.eqb_eq].
  - apply guard_spec; [|apply bool_decide_eq_true].
    rewrite negb_true_iff, Nat.eqb_neq, length_zero_iff_nil. done.
  - rewrite Z.ltb_antisym. apply guard_spec; [|apply Z.leb_le].
    rewrite negb_true_iff, String.eqb_neq. done.
Qed.

Lemma filter_findings r opts : Findings (Filter r opts) = List.filter (keeps opts) (Findings r).
Proof.
  unfold Filter. destruct (_ && _) eqn:E; [|done].
  apply andb_prop in E as [[E1 E2]%andb_prop E3]. apply String.eqb_eq in E1.
  apply Nat.eqb_eq, nil_length_inv in E2. apply negb_true_iff in E3.
  symmetry. apply List.forallb_filter_id, forallb_forall. intros f _.
  apply keeps_wanted. unfold wanted. rewrite E1, E2, E3. naive_solver.
Qed.

Lemma filter_with r opts : Filter r opts = with_findings r (List.filter (keeps opts) (Findings r)).
Proof.
  rewrite <-filter_findings. unfold Filter. by case_match; destruct r.
Qed.

Lemma filter_comm {A} (P Q : A → bool) l :
  List.filter P (List.filter Q l) = List.filter Q (List.filter P l).
Proof. induction l as [|x l IH]; [done|]. simpl. destruct (P x) eqn:EP, (Q x) eqn:EQ;
  simpl; rewrite ?EP, ?EQ, ?IH; done. Qed.

Lemma filter_idem {A} (P : A → bool) l : List.filter P (List.filter P l) = List.filter P l.
Proof. induction l as [|x l IH]; [done|]. simpl. destruct (P x) eqn:E; simpl; rewrite ?E, ?IH; done. Qed.

Lemma filter_sublist_bool {A} (P : A → bool) l : sublist (List.filter P l) l.
Proof. induction l as [|x l IH]; simpl; [constructor|]. destruct (P x); by constructor. Qed.

(** [Filter] keeps exactly the findings the options ask for (security only,
    one of the named detectors after trimming, at least the minimum severity),
    in their order and with the rest of the report untouched; it is idempotent
    and filters commute. *)
Theorem filter_spec (r : Report) (opts opts' : FilterOptions) :
  Source (Filter r opts) = Source r ∧ Workloads (Filter r opts) = Workloads r ∧
  sublist (Findings (Filter r opts)) (Findings r) ∧
  (∀ f, f ∈ Findings (Filter r opts) ↔ f ∈ Findings r ∧ wanted opts f) ∧
  Filter (Filter r opts) opts = Filter r opts ∧
  Filter (Filter r opts) opts' = Filter (Filter r opts') opts.
Proof.
  rewrite !filter_with. unfold with_findings. cbn [Source Workloads Findings].
  split_and!; [done|done|apply filter_sublist_bool| |by rewrite filter_idem|by rewrite filter_comm].
  intros f. rewrite !list_elem_of_In, filter_In, keeps_wanted. done.
Qed.
