(* ===== verification/Cli.v ===== *)
(** The command line: [internal/config] (validation), [internal/roast], and the
    [analyze], [audit] and [score] commands of [cmd/optiqor/main.go].  Reading
    the values file and writing the output are I/O and appear as their
    outcomes. *)

From Stdlib Require Import Ascii.
From S2P Require Import Prelude GoNum GoStr Quantity Helm Rules CostDetectors SecurityDetectors AllRules Analyze.
Local Open Scope Z_scope.

(** ** config.go *)

Record Config := {
  CfgMinSeverity : string;
  CfgDetectors : list string;
  CfgFailOn : string;
  CfgNoColor : bool;
}.

Inductive config_error := ErrConfigYaml | ErrConfigValue (name value : string).

(** [toLower] of config.go and [toUpper] of main.go map ASCII bytes only. *)
Definition toLower (s : string) : string := str_map ascii_lower s.
Definition toUpper (s : string) : string := str_map ascii_upper s.

Fixpoint validate_keys (keys : list (string * string)) : result config_error unit :=
  match keys with
  | [] => Ok tt
  | (name, value) :: keys =>
      if String.eqb value "" then validate_keys keys
      else if str_mem (toLower value) ["low"; "med"; "medium"; "high"] then validate_keys keys
      else Err (ErrConfigValue name value)
  end.

Definition Validate (c : Config) : result config_error unit :=
  validate_keys [("min_severity", CfgMinSeverity c); ("fail_on", CfgFailOn c)].

Definition zero_config : Config :=
  {| CfgMinSeverity := ""; CfgDetectors := []; CfgFailOn := ""; CfgNoColor := false |}.

(** [Decode] on the bytes of the file; [unmarshal] is yaml.v3. *)
Definition Decode (unmarshal : string → option Config) (raw : string) : result config_error Config :=
  if String.eqb raw "" then Ok zero_config else
  match unmarshal raw with
  | None => Err ErrConfigYaml
  | Some c => let* _ := Validate c in Ok c
  end.

(** ** roast.go *)

Definition titles : list (string * string) :=
  [ ("cpu-overprovisioned", "CPU on a buffet plan, eating air");
    ("memory-overprovisioned", "RAM hoarder spotted");
    ("cpu-limit-far-above-request", "CPU limit cosplaying as the request");
    ("memory-limit-far-above-request", "Memory limit set to ‘yes’");
    ("oversized-cpu-limit", "CPU limit thinks it’s a mainframe");
    ("oversized-memory-limit", "Memory limit measured in optimism");
    ("replicas-too-high", "Replicas: more is more, allegedly");
    ("excessive-replica-count", "Counting replicas like sheep, but billed");
    ("unbounded-image-tag", "Image tag :latest, the eternal mystery");
    ("cpu-without-memory-request", "CPU set, memory hopes for the best");
    ("memory-without-cpu-request", "Memory set, CPU left to vibes");
    ("cpu-request-equals-limit", "Guaranteed QoS, guaranteed bill");
    ("memory-request-equals-limit", "Memory request equals limit, equals waste");
    ("tiny-cpu-request", "CPU request smaller than a tweet");
    ("tiny-memory-request", "Memory request: ‘ehh, should be fine’");
    ("idle-workload", "replicas: 0, a Deployment in witness protection");
    ("missing-cpu-limit", "No CPU limit — let it cook");
    ("missing-memory-limit", "OOM is just a feature flag now");
    ("image-pinned-latest", "Pinned to :latest, prayed to gods");
    ("run-as-root", "runAsNonRoot=false, runAsBoldness=true");
    ("runs-as-uid-zero", "UID 0 because regulations are a suggestion");
    ("privileged-container", "privileged=true, consequences=later");
    ("host-network", "hostNetwork — sharing is caring");
    ("host-pid", "hostPID enabled, neighbors visible");
    ("host-ipc", "hostIPC enabled, gossip enabled");
    ("read-only-root-fs-missing", "rootfs read-write, regrets read-only");
    ("allow-privilege-escalation", "allowPrivilegeEscalation: yolo");
    ("host-path-volume", "hostPath mount, host’s problem");
    ("dangerous-capability-added", "Adding caps like party hats");
    ("capabilities-not-dropped-all", "drop ALL? Couldn’t be us");
    ("service-account-token-automount", "SA token auto-mounted, attacker auto-pivots") ].

Definition titleFor (f : Finding) : string :=
  match assoc_find (DetectorID f) titles with Some alt => alt | None => Title f end.

Definition with_title (title : string) (f : Finding) : Finding := {|
  DetectorID := DetectorID f; FWorkload := FWorkload f; Title := title; Detail := Detail f;
  MonthlyUSDCents := MonthlyUSDCents f; FSeverity := FSeverity f; FConfidence := FConfidence f;
  FCategory := FCategory f; FSignal := FSignal f |}.

Definition Apply (r : Report) : Report :=
  with_findings r ((λ f, with_title (titleFor f) f) <$> Findings r).

(** ** main.go *)

Definition validSeverity (s : string) : bool :=
  String.eqb s SeverityHigh || String.eqb s SeverityMed || String.eqb s SeverityLow.

Definition main_severityRank (s : string) : Z :=
  if String.eqb s SeverityHigh then 3 else if String.eqb s SeverityMed then 2
  else if String.eqb s SeverityLow then 1 else 0.

Inductive cli_error :=
| ErrAnalyze (e : parse_error)
| ErrHTML                          (** writing the --html report *)
| ErrEmit                          (** writing the text or JSON report *)
| ErrInvalidFailOn (s : string)
| ErrFindings.                     (** exit code 1: findings at the threshold *)

Definition checkFailOn (rep : Report) (threshold : string) : result cli_error unit :=
  if String.eqb threshold "" then Ok tt else
  let threshSev := toUpper threshold in
  if negb (validSeverity threshSev) then Err (ErrInvalidFailOn threshold) else
  if existsb (λ f, main_severityRank threshSev <=? main_severityRank (FSeverity f)) (Findings rep)
  then Err ErrFindings else Ok tt.

Record AnalyzeFlags := {
  fl_roast : bool;
  fl_minSev : string;
  fl_detectors : list string;
  fl_failOn : string;
}.

(** Flags win over the configuration. *)
Definition effective (flag cfg : string) : string := if String.eqb flag "" then cfg else flag.

(** The outcomes of the writes: [None] when --html was not given. *)
Record Output := { html_ok : option bool; emit_ok : bool }.

(** What the command prints (if it got that far) and how it ends. *)
Definition outcome : Type := option Report * result cli_error unit.

(** The [RunE] of [newAnalyzeCmd], after the values file has been read. *)
Definition analyzeRunE `{GoPlatform, GoSort} (yaml_parse : string → option Node)
    (source : string) (input : option string) (cfg : Config) (fl : AnalyzeFlags) (o : Output)
    : outcome :=
  match analyze_Run yaml_parse source input None with
  | Err e => (None, Err (ErrAnalyze e))
  | Ok rep =>
      let effSev := effective (fl_minSev fl) (CfgMinSeverity cfg) in
      let effDetectors := if (length (fl_detectors fl) =? 0)%nat then CfgDetectors cfg
                          else fl_detectors fl in
      let effFailOn := effective (fl_failOn fl) (CfgFailOn cfg) in
      let rep := Filter rep {| MinSeverity := toUpper effSev; DetectorIDs := effDetectors;
                               SecurityOnly := false |} in
      let rep := if fl_roast fl then Apply rep else rep in
      match html_ok o with
      | Some false => (None, Err ErrHTML)
      | _ => if emit_ok o then (Some rep, checkFailOn rep effFailOn) else (None, Err ErrEmit)
      end
  end.

(** [newAuditCmd]. *)
Definition auditRunE `{GoPlatform, GoSort} (yaml_parse : string → option Node)
    (source : string) (input : option string) (failOn : string) (emit_ok : bool) : outcome :=
  match analyze_Run yaml_parse source input None with
  | Err e => (None, Err (ErrAnalyze e))
  | Ok rep =>
      let rep := Filter rep {| MinSeverity := ""; DetectorIDs := []; SecurityOnly := true |} in
      if emit_ok then (Some rep, checkFailOn rep failOn) else (None, Err ErrEmit)
  end.

(** [newScoreCmd], up to writing the panel. *)
Definition scoreRunE `{GoPlatform, GoSort} (yaml_parse : string → option Node)
    (source : string) (input : option string) : result parse_error Score :=
  let* rep := analyze_Run yaml_parse source input None in
  Ok (Score_Compute (Source rep) (Workloads rep) (Findings rep)).

(** ** Facts *)

Lemma upper_lower s : toUpper (toLower s) = toUpper s.
Proof.
  unfold toUpper, toLower. induction s as [|c s IH]; [done|]. cbn [str_map]. rewrite IH.
  f_equal. by all_bytes c.
Qed.

Lemma rank_main_filter s : main_severityRank s = filter_severityRank s.
Proof. unfold main_severityRank, filter_severityRank. by repeat case_match. Qed.

(** Two findings that differ at most in their title. *)
Definition same_but_title (f g : Finding) : Prop := g = with_title (Title g) f.

Lemma keeps_title opts t f : keeps opts (with_title t f) = keeps opts f.
Proof. done. Qed.

Lemma filter_fmap_title opts (h : Finding → string) fs :
  List.filter (keeps opts) ((λ f, with_title (h f) f) <$> fs) =
  (λ f, with_title (h f) f) <$> List.filter (keeps opts) fs.
Proof.
  induction fs as [|f fs IH]; [done|]. rewrite fmap_cons. cbn [List.filter]. rewrite keeps_title, IH.
  by destruct (keeps opts f).
Qed.

Lemma apply_filter r opts : Filter (Apply r) opts = Apply (Filter r opts).
Proof.
  rewrite !filter_with. unfold Apply, with_findings. cbn [Source Workloads Findings].
  by rewrite filter_fmap_title.
Qed.

Lemma existsb_fmap {A B} (g : A → B) (P : B → bool) l :
  existsb P (g <$> l) = existsb (λ x, P (g x)) l.
Proof. induction l as [|x l IH]; [done|]. simpl. by rewrite <-IH. Qed.

Lemma checkFailOn_roast r t : checkFailOn (Apply r) t = checkFailOn r t.
Proof. unfold checkFailOn, Apply. cbn [Findings with_findings]. by rewrite existsb_fmap. Qed.

(** [--roast] rewrites titles and nothing else: the findings keep their
    order and every other field, roasting twice is roasting once, it commutes
    with filtering, it changes neither the penalties, the savings total nor the
    exit status, and every registered detector has a roast title. *)
Theorem roast_only_titles `{GoPlatform} (r : Report) (opts : FilterOptions) (threshold : string) :
  Forall2 same_but_title (Findings r) (Findings (Apply r)) ∧
  Apply (Apply r) = Apply r ∧
  Filter (Apply r) opts = Apply (Filter r opts) ∧
  penalty <$> Findings (Apply r) = penalty <$> Findings r ∧
  MonthlySavingsUSDCents (Apply r) = MonthlySavingsUSDCents r ∧
  checkFailOn (Apply r) threshold = checkFailOn r threshold ∧
  Forall (λ d, assoc_find (ID d) titles ≠ None) All.
Proof.
  split_and!.
  - unfold Apply. cbn [Findings with_findings]. apply Forall2_fmap_r, Forall_Forall2_diag.
    by apply Forall_forall.
  - unfold Apply, with_findings. cbn [Findings Source Workloads]. f_equal.
    rewrite <-list_fmap_compose. apply list_fmap_ext. intros _ f _. unfold compose, titleFor.
    cbn [DetectorID with_title Title]. by destruct (assoc_find _ _).
  - apply apply_filter.
  - unfold Apply. cbn [Findings with_findings]. by rewrite <-list_fmap_compose.
  - unfold Apply, MonthlySavingsUSDCents. cbn [Findings with_findings].
    by rewrite <-list_fmap_compose.
  - apply checkFailOn_roast.
  - apply (bool_decide_unpack _). vm_compute. exact I.
Qed.

Lemma checkFailOn_findings r t :
  checkFailOn r t = Err ErrFindings ↔
  validSeverity (toUpper t) = true ∧
  ∃ f, f ∈ Findings r ∧ main_severityRank (toUpper t) <= main_severityRank (FSeverity f).
Proof.
  unfold checkFailOn. destruct (String.eqb_spec t "") as [->|]; [naive_solver|].
  destruct (validSeverity (toUpper t)); cbn [negb]; [|naive_solver].
  destruct (existsb _ _) eqn:E.
  - split; [|done]. intros _. apply existsb_exists in E as (f&Hf&Hle). split; [done|].
    exists f. rewrite list_elem_of_In. split; [done|]. by apply Z.leb_le.
  - split; [done|]. intros (_&f&Hf&Hle). exfalso. apply not_true_iff_false in E. apply E.
    apply existsb_exists. exists f. rewrite <-list_elem_of_In. split; [done|]. by apply Z.leb_le.
Qed.

Definition flags_filter (cfg : Config) (fl : AnalyzeFlags) : FilterOptions := {|
  MinSeverity := toUpper (effective (fl_minSev fl) (CfgMinSeverity cfg));
  DetectorIDs := if (length (fl_detectors fl) =? 0)%nat then CfgDetectors cfg else fl_detectors fl;
  SecurityOnly := false |}.

Definition set_roast (b : bool) (fl : AnalyzeFlags) : AnalyzeFlags := {|
  fl_roast := b; fl_minSev := fl_minSev fl; fl_detectors := fl_detectors fl;
  fl_failOn := fl_failOn fl |}.

(** C40: when the chart parses and the output can be written, [optiqor analyze]
    prints the filtered report (titles aside) and ends with the findings error
    exactly when the effective threshold is one of low, med, high (in any case)
    and some finding of the analysis passes the filter at that rank or above;
    a non-empty threshold of another form is rejected; otherwise it succeeds.
    The status does not depend on [--roast]. *)
Theorem analyze_exit_status `{GoPlatform, GoSort} (yaml_parse : string → option Node)
    (source : string) (input : option string) (cfg : Config) (fl : AnalyzeFlags) (o : Output)
    (rep : Report)
    (Hrun : analyze_Run yaml_parse source input None = Ok rep)
    (Hhtml : html_ok o ≠ Some false) (Hemit : emit_ok o = true) :
  let t := effective (fl_failOn fl) (CfgFailOn cfg) in
  let opts := flags_filter cfg fl in
  let out := analyzeRunE yaml_parse source input cfg fl o in
  out.1 = Some (if fl_roast fl then Apply (Filter rep opts) else Filter rep opts) ∧
  (out.2 = Err ErrFindings ↔
     validSeverity (toUpper t) = true ∧
     ∃ f, f ∈ Findings rep ∧ wanted opts f ∧
       main_severityRank (toUpper t) <= main_severityRank (FSeverity f)) ∧
  (out.2 = Err (ErrInvalidFailOn t) ↔ t ≠ "" ∧ validSeverity (toUpper t) = false) ∧
  (is_ok out.2 = false → out.2 = Err ErrFindings ∨ out.2 = Err (ErrInvalidFailOn t)) ∧
  (∀ b, (analyzeRunE yaml_parse source input cfg (set_roast b fl) o).2 = out.2).
Proof.
  intros t opts.
  assert (∀ b, analyzeRunE yaml_parse source input cfg (set_roast b fl) o =
    (Some (if b then Apply (Filter rep opts) else Filter rep opts),
     checkFailOn (Filter rep opts) t)) as Hgen.
  { intros b. unfold analyzeRunE. rewrite Hrun, Hemit.
    cbn [fl_minSev fl_detectors fl_failOn fl_roast set_roast].
    fold t. change {| MinSeverity := _; DetectorIDs := _; SecurityOnly := false |} with opts.
    destruct (html_ok o) as [[]|]; try done; destruct b; by rewrite ?checkFailOn_roast. }
  pose proof (Hgen (fl_roast fl)) as Hout.
  replace (set_roast (fl_roast fl) fl) with fl in Hout by (by destruct fl).
  cbv zeta. rewrite Hout. cbn [fst snd]. split_and!; [done|..].
  - rewrite checkFailOn_findings. f_equiv. rewrite filter_findings.
    setoid_rewrite list_elem_of_In. setoid_rewrite filter_In. setoid_rewrite keeps_wanted.
    naive_solver.
  - unfold checkFailOn. destruct (String.eqb_spec t ""); [naive_solver|].
    destruct (validSeverity (toUpper t)); cbn [negb]; [|naive_solver].
    destruct (existsb _ _); naive_solver.
  - unfold checkFailOn. repeat case_match; naive_solver.
  - intros b. by rewrite Hgen.
Qed.

(** Every severity the configuration accepts is usable as a threshold,
    with one exception: [medium] passes [Validate] but is no severity of the
    engine, so as [min_severity] it filters nothing and as [fail_on] it makes
    every run end with the invalid-threshold error. *)
Theorem config_severities_usable (c : Config) (r : Report) :
  (Validate c = Ok tt →
     CfgFailOn c = "" ∨ validSeverity (toUpper (CfgFailOn c)) = true ∨
     toLower (CfgFailOn c) = "medium") ∧
  (toLower (CfgFailOn c) = "medium" →
     checkFailOn r (CfgFailOn c) = Err (ErrInvalidFailOn (CfgFailOn c))) ∧
  (toLower (CfgMinSeverity c) = "medium" →
     Filter r {| MinSeverity := toUpper (CfgMinSeverity c); DetectorIDs := [];
                 SecurityOnly := false |} = r) ∧
  Validate {| CfgMinSeverity := "medium"; CfgDetectors := []; CfgFailOn := "medium";
              CfgNoColor := false |} = Ok tt.
Proof.
  split_and!; [| | |reflexivity].
  - unfold Validate, validate_keys. intros H.
    assert (CfgFailOn c = "" ∨ str_mem (toLower (CfgFailOn c)) ["low"; "med"; "medium"; "high"] = true)
      as [->|Hm].
    { destruct (String.eqb_spec (CfgFailOn c) ""); [by left|right].
      destruct (str_mem (toLower (CfgFailOn c)) _); [done|].
      repeat case_match; done. }
    { by left. }
    right. rewrite <-(upper_lower (CfgFailOn c)). apply str_mem_spec in Hm.
    rewrite !elem_of_cons, elem_of_nil in Hm.
    destruct Hm as [->|[->|[->|[->|[]]]]]; [left|left|right|left]; reflexivity.
  - intros H. unfold checkFailOn. rewrite <-upper_lower, H.
    destruct (String.eqb_spec (CfgFailOn c) "") as [E|]; [by rewrite E in H|]. done.
  - intros H. rewrite filter_with, <-upper_lower, H.
    assert (∀ f, keeps {| MinSeverity := toUpper "medium"; DetectorIDs := []; SecurityOnly := false |} f
                 = true) as Hk.
    { intros f. apply keeps_wanted. split_and!; [done|done|]. intros _. cbn [MinSeverity].
      change (filter_severityRank (toUpper "medium")) with 0.
      unfold filter_severityRank. repeat case_match; lia. }
    destruct r as [s w fs]. unfold with_findings. cbn [Source Workloads Findings]. f_equal.
    apply forallb_filter_id, forallb_forall. intros f _. apply Hk.
Qed.

Definition sample_flags : AnalyzeFlags :=
  {| fl_roast := true; fl_minSev := "low"; fl_detectors := []; fl_failOn := "High" |}.
Definition sample_report : Report :=
  match @analyze_Run amd64 stable_GoSort doc_yaml "values.yaml" (Some "api") None with
  | Ok r => r
  | Err _ => {| Source := ""; Workloads := 0; Findings := [] |}
  end.

Lemma analyze_exit_status_witness :
  let out fl := @analyzeRunE amd64 stable_GoSort doc_yaml "values.yaml" (Some "api") zero_config fl
                  {| html_ok := None; emit_ok := true |} in
  (out sample_flags).1 = Some (Apply (Filter sample_report (flags_filter zero_config sample_flags))) ∧
  (out (set_roast false sample_flags)).2 = (out sample_flags).2.
Proof.
  intros out.
  destruct (@analyze_exit_status amd64 stable_GoSort doc_yaml "values.yaml" (Some "api") zero_config
    sample_flags {| html_ok := None; emit_ok := true |} sample_report)
    as (H1&_&_&_&H5); [vm_compute; reflexivity|discriminate|reflexivity|].
  split; [exact H1|exact (H5 false)].
Defined.
