(* ===== verification/Diff.v ===== *)
(** [internal/analyze/diff.go]: the change between two values files. *)

From Stdlib Require Import QArith Qround Lqa.
From S2P Require Import Prelude GoNum GoStr Quantity Helm Rules CostDetectors AllRules Analyze.
Local Open Scope Z_scope.

Record DiffEntry := {
  EName : string;
  NewWorkload : bool;
  RemovedWorkload : bool;
  CPURequestDelta : Z;
  CPULimitDelta : Z;
  MemoryRequestDelta : Z;
  MemoryLimitDelta : Z;
  MonthlyUSDCentsDelta : Z;
}.

Record DiffReport := { DA : string; DB : string; Entries : list DiffEntry }.

(** [pair{a, b *parser.Workload}] *)
Record pair_ab := mkPair { pa : option Workload; pb : option Workload }.

Inductive which := reqCPU | limCPU | reqMem | limMem.

Definition get (w : option Workload) (k : which) : Quantity :=
  match w with
  | None => unset_quantity
  | Some w =>
      match k with
      | reqCPU => CPU (Requests w)
      | limCPU => CPU (Limits w)
      | reqMem => Memory (Requests w)
      | limMem => Memory (Limits w)
      end
  end.

Definition qDelta (a b : Quantity) : Z :=
  let av := if IsSet a then Value a else 0 in
  let bv := if IsSet b then Value b else 0 in
  i64_sub bv av.

Definition cpuPriceCentsPerCoreHour : Z := 4.
Definition cpuMonthlyHours : Z := 730.
Definition memPriceCentsPerGiBMonth : Z := 350.

(** The two loops that fill [byName]. *)
Definition add_a (m : gmap string pair_ab) (w : Workload) : gmap string pair_ab :=
  <[Name w := mkPair (Some w) None]> m.
Definition add_b (m : gmap string pair_ab) (w : Workload) : gmap string pair_ab :=
  match m !! Name w with
  | Some p => <[Name w := mkPair (pa p) (Some w)]> m
  | None => <[Name w := mkPair None (Some w)]> m
  end.
Definition byName (wlA wlB : list Workload) : gmap string pair_ab :=
  foldl add_b (foldl add_a ∅ wlA) wlB.

Section Diff.
Context `{GoPlatform}.

(** Takes the two request deltas of the entry. *)
Definition monthlyDelta (cpuMillicoreDelta memBytesDelta : Z) : Z :=
  let cpuCents := i64_quot (i64_mul (i64_mul cpuMillicoreDelta cpuMonthlyHours)
                              cpuPriceCentsPerCoreHour) 1000 in
  let memCents := f_to_i64 (f_mul (f_div (f_of_Z memBytesDelta) (f_of_Z (1024 * 1024 * 1024)))
                              (f_of_Z memPriceCentsPerGiBMonth)) in
  i64_add cpuCents memCents.

(** The body of the loop over [byName]. *)
Definition make_entry (name : string) (p : pair_ab) : DiffEntry :=
  let cpuReq := qDelta (get (pa p) reqCPU) (get (pb p) reqCPU) in
  let memReq := qDelta (get (pa p) reqMem) (get (pb p) reqMem) in {|
  EName := name;
  NewWorkload := match pa p with None => true | _ => false end;
  RemovedWorkload := match pa p, pb p with Some _, None => true | _, _ => false end;
  CPURequestDelta := cpuReq;
  CPULimitDelta := qDelta (get (pa p) limCPU) (get (pb p) limCPU);
  MemoryRequestDelta := memReq;
  MemoryLimitDelta := qDelta (get (pa p) limMem) (get (pb p) limMem);
  MonthlyUSDCentsDelta := monthlyDelta cpuReq memReq |}.

(** The entry is not a no-op. *)
Definition notable (e : DiffEntry) : bool :=
  negb (negb (NewWorkload e) && negb (RemovedWorkload e) &&
        (CPURequestDelta e =? 0) && (CPULimitDelta e =? 0) &&
        (MemoryRequestDelta e =? 0) && (MemoryLimitDelta e =? 0)).

Definition entry_less (a b : DiffEntry) : bool := String.ltb (EName a) (EName b).

Definition raw_entries `{GoMapOrder} (m : gmap string pair_ab) : list DiffEntry :=
  List.filter notable ((λ np, make_entry np.1 np.2) <$> map_iter m).

Definition diff_workloads `{GoMapOrder, GoSort} (wlA wlB : list Workload) : list DiffEntry :=
  sort_slice entry_less (raw_entries (byName wlA wlB)).

Definition Diff `{GoMapOrder, GoSort} (yaml_parse : string → option Node)
    (a b : option string) (aLabel bLabel : string) : result (string * parse_error) DiffReport :=
  match ParseValues yaml_parse a with
  | Err e => Err (aLabel, e)
  | Ok wlA =>
      match ParseValues yaml_parse b with
      | Err e => Err (bLabel, e)
      | Ok wlB => Ok {| DA := aLabel; DB := bLabel; Entries := diff_workloads wlA wlB |}
      end
  end.

Definition DiffReport_MonthlyUSDCentsDelta (r : DiffReport) : Z :=
  sum64 (MonthlyUSDCentsDelta <$> Entries r).
End Diff.

(** ** What [byName] holds *)

(** The last workload of that name: later entries overwrite earlier ones. *)
Definition last_named (n : string) (ws : list Workload) : option Workload :=
  foldl (λ acc w, if String.eqb (Name w) n then Some w else acc) None ws.

Lemma last_named_snoc n ws w :
  last_named n (ws ++ [w]) = if String.eqb (Name w) n then Some w else last_named n ws.
Proof. unfold last_named. by rewrite foldl_app. Qed.

Definition pair_of (a b : option Workload) : option pair_ab :=
  match a, b with None, None => None | _, _ => Some (mkPair a b) end.

Lemma byName_a n ws : foldl add_a ∅ ws !! n = pair_of (last_named n ws) None.
Proof.
  induction ws as [|w ws IH] using rev_ind; [done|].
  rewrite foldl_app, last_named_snoc. cbn [foldl]. unfold add_a at 1.
  destruct (String.eqb_spec (Name w) n) as [->|].
  - by rewrite lookup_insert_eq.
  - by rewrite lookup_insert_ne.
Qed.

Lemma add_b_lookup (m : gmap string pair_ab) w n :
  add_b m w !! n =
    if String.eqb (Name w) n
    then Some (mkPair (match m !! n with Some p => pa p | None => None end) (Some w))
    else m !! n.
Proof.
  unfold add_b. destruct (String.eqb_spec (Name w) n) as [->|Hne].
  - by destruct (m !! n); rewrite lookup_insert_eq.
  - by destruct (m !! Name w); rewrite lookup_insert_ne.
Qed.

Lemma byName_lookup n wlA wlB :
  byName wlA wlB !! n = pair_of (last_named n wlA) (last_named n wlB).
Proof.
  unfold byName. induction wlB as [|w ws IH] using rev_ind; [apply byName_a|].
  rewrite foldl_app, last_named_snoc. cbn [foldl]. rewrite add_b_lookup, IH.
  destruct (String.eqb (Name w) n); [|done].
  by destruct (last_named n wlA), (last_named n ws).
Qed.

Definition swap_pair (p : pair_ab) : pair_ab := mkPair (pb p) (pa p).

Lemma byName_swap wlA wlB : byName wlB wlA = swap_pair <$> byName wlA wlB.
Proof.
  apply map_eq. intros n. rewrite lookup_fmap, !byName_lookup.
  by destruct (last_named n wlA), (last_named n wlB).
Qed.

(** ** Money is odd in the deltas *)

Lemma rnd_bounds q k : 0 <= k <= 900 → (0 <= q <= pow2 k)%Q → (0 <= rnd q <= pow2 k)%Q.
Proof.
  intros Hk [H0 H1]. destruct (Qlt_le_dec 0 q) as [Hq|Hq].
  - split.
    + destruct (Qlt_le_dec (rnd q) 0) as [Hn|]; [|done]. exfalso.
      pose proof (rnd_nonneg q H0). lra.
    + apply (rnd_le_rep _ _ 1 k); [unfold Qeq; simpl; lia|lia..|done|done].
  - assert (q == 0)%Q as E by lra. rewrite (rnd_0 _ E). split; [done|]. apply Qlt_le_weak, pow2_pos.
Qed.

Section Money.
Context `{GoPlatform}.

Definition mem_cents (d : Z) : Z :=
  f_to_i64 (f_mul (f_div (f_of_Z d) (f_of_Z (2^30))) (f_of_Z 350)).

(** The float expression stays far below the int64 range. *)
Lemma mem_cents_rep d : 0 < d <= 2^63 →
  ∃ v, f_rep (f_mul (f_div (f_of_Z d) (f_of_Z (2^30))) (f_of_Z 350)) v ∧ (0 <= v <= pow2 42)%Q.
Proof.
  intros Hd.
  assert (0 < inject_Z d)%Q as Hd0 by (rewrite <-(Zlt_Qlt 0); lia).
  assert (inject_Z d <= pow2 63)%Q as Hdb by (rewrite pow2_Z by lia; apply inject_Z_le; lia).
  assert (f_rep (f_of_Z d) (rnd (inject_Z d))) as H1.
  { unfold f_of_Z. rewrite (proj2 (Z.ltb_ge d 0)), Z.abs_eq by lia.
    apply rep_round; [lra|]. apply Z_le_pow2_1000. lia. }
  assert (0 <= rnd (inject_Z d) <= pow2 63)%Q as Hr1 by (apply rnd_bounds; [lia|lra]).
  edestruct (rep_div _ (f_of_Z (2^30)) _ (inject_Z (2^30)) H1) as (q1&Hq1&H2);
    [apply rep_of_Z; lia|lra|done| |].
  { apply Qle_shift_div_r; [done|]. apply Qle_trans with (pow2 63); [lra|done]. }
  assert (0 <= q1 <= pow2 33)%Q as Hb1.
  { rewrite Hq1. split; [apply Qle_shift_div_l; [done|]; lra|].
    apply Qle_shift_div_r; [done|]. apply Qle_trans with (pow2 63); [lra|done]. }
  pose proof (rnd_bounds q1 33 ltac:(lia) Hb1) as Hr2.
  edestruct (rep_mul _ (f_of_Z 350) _ (inject_Z 350) H2) as (q2&Hq2&H3);
    [apply rep_of_Z; lia|lra|done| |].
  { apply Qle_trans with (pow2 33 * inject_Z 350)%Q; [|done]. apply Qmult_le_compat_r; [lra|done]. }
  exists (rnd q2). split; [done|]. apply rnd_bounds; [lia|]. rewrite Hq2. split.
  - apply Qmult_le_0_compat; [lra|done].
  - apply Qle_trans with (pow2 33 * inject_Z 350)%Q; [|done]. apply Qmult_le_compat_r; [lra|done].
Qed.

Lemma mem_cents_bounds d : 0 < d <= 2^63 →
  let x := f_mul (f_div (f_of_Z d) (f_of_Z (2^30))) (f_of_Z 350) in
  f_finite x = true ∧ 0 <= f_trunc x <= 2^42.
Proof.
  intros Hd x. destruct (mem_cents_rep d Hd) as (v&Hv&H0&H1). fold x in Hv.
  split; [apply Hv|]. rewrite (rep_trunc _ _ Hv). split.
  - apply Zle_Qle in H0 || idtac. apply (Qfloor_resp_le 0 v H0).
  - pose proof (Qfloor_resp_le _ _ H1) as Hf. exact Hf.
Qed.

Lemma mem_cents_odd d : - 2^63 < d < 2^63 →
  mem_cents (- d) = - mem_cents d ∧ - 2^42 <= mem_cents d <= 2^42.
Proof.
  intros Hd.
  assert (∀ e, 0 < e <= 2^63 → mem_cents (- e) = - mem_cents e ∧ 0 <= mem_cents e <= 2^42) as Hpos.
  { intros e He. pose proof (mem_cents_bounds e He) as Hx. revert Hx. unfold mem_cents.
    rewrite f_of_Z_opp by lia. rewrite f_div_neg, f_mul_neg.
    generalize (f_mul (f_div (f_of_Z e) (f_of_Z (2^30))) (f_of_Z 350)). intros x [Hf Ht].
    rewrite f_to_i64_neg by (done || lia). split; [done|]. unfold f_to_i64. rewrite Hf.
    assert (in_i64b (f_trunc x) = true) as -> by (apply in_i64b_spec; unfold in_i64; lia). done. }
  destruct (Z.lt_trichotomy d 0) as [Hn|[->|Hp]].
  - destruct (Hpos (- d)) as [E Hb]; [lia|]. rewrite Z.opp_involutive in E. lia.
  - change (- 0) with 0. assert (mem_cents 0 = 0) as -> by (vm_compute; done). lia.
  - destruct (Hpos d) as [E Hb]; [lia|]. lia.
Qed.

Lemma monthlyDelta_odd c m : - 2^51 <= c <= 2^51 → - 2^63 < m < 2^63 →
  monthlyDelta (- c) (- m) = - monthlyDelta c m.
Proof.
  intros Hc Hm. unfold monthlyDelta. cbv zeta.
  change (1024 * 1024 * 1024) with (2^30). change memPriceCentsPerGiBMonth with 350.
  change (f_to_i64 (f_mul (f_div (f_of_Z (- m)) (f_of_Z (2^30))) (f_of_Z 350))) with (mem_cents (- m)).
  change (f_to_i64 (f_mul (f_div (f_of_Z m) (f_of_Z (2^30))) (f_of_Z 350))) with (mem_cents m).
  destruct (mem_cents_odd m Hm) as [-> Hb].
  assert (∀ x, - 2^51 <= x <= 2^51 →
    i64_quot (i64_mul (i64_mul x cpuMonthlyHours) cpuPriceCentsPerCoreHour) 1000 =
    Z.quot (x * 2920) 1000) as Hq.
  { intros x Hx. unfold i64_mul, i64_quot, cpuMonthlyHours, cpuPriceCentsPerCoreHour.
    rewrite wrap64_mul_l. replace (x * 730 * 4) with (x * 2920) by lia.
    rewrite (wrap64_id (x * 2920)) by (unfold in_i64; lia). apply wrap64_id. unfold in_i64. div_lia. }
  rewrite !Hq by lia. replace (- c * 2920) with (- (c * 2920)) by lia.
  rewrite Z.quot_opp_l by lia. unfold i64_add.
  assert (- 2^53 <= Z.quot (c * 2920) 1000 <= 2^53) by div_lia.
  rewrite !wrap64_id by (unfold in_i64; lia). lia.
Qed.
End Money.

(** ** The entries *)

Section Entries.
Context `{GoPlatform}.

Lemma elem_of_raw `{GoMapOrder} m e :
  e ∈ raw_entries m ↔ ∃ n p, m !! n = Some p ∧ e = make_entry n p ∧ notable e = true.
Proof.
  unfold raw_entries. rewrite list_elem_of_In, filter_In, <-list_elem_of_In, list_elem_of_fmap.
  setoid_rewrite map_iter_perm. split.
  - intros (([n p]&->&Hp)&Hn). apply elem_of_map_to_list in Hp. eauto 10.
  - intros (n&p&Hp&->&Hn). split; [|done]. exists (n, p). by rewrite elem_of_map_to_list.
Qed.

Lemma raw_name_inj `{GoMapOrder} m e1 e2 :
  e1 ∈ raw_entries m → e2 ∈ raw_entries m → EName e1 = EName e2 → e1 = e2.
Proof.
  rewrite !elem_of_raw. intros (n1&p1&H1&->&_) (n2&p2&H2&->&_) E. cbn [EName make_entry] in E.
  simplify_eq. done.
Qed.

Lemma raw_perm (O1 O2 : GoMapOrder) m : @raw_entries _ O1 m ≡ₚ @raw_entries _ O2 m.
Proof.
  unfold raw_entries. apply filter_bool_perm, fmap_Permutation.
  by rewrite (@map_iter_perm O1), (@map_iter_perm O2).
Qed.

#[export] Instance entry_less_sw : StrictWeak entry_less.
Proof. apply (string_less_sw EName). Qed.

Lemma entry_tie e1 e2 : equiv_key entry_less e1 e2 = true → EName e1 = EName e2.
Proof.
  unfold equiv_key, entry_less. intros [H1 H2]%andb_prop. bool_to_prop. by apply ltb_false_eq.
Qed.

(** Sorting by name has one result on entries with distinct names. *)
Lemma sorted_entries_unique l1 l2 :
  (∀ e1 e2, e1 ∈ l1 → e2 ∈ l1 → EName e1 = EName e2 → e1 = e2) →
  sorted_by entry_less l1 → sorted_by entry_less l2 → l1 ≡ₚ l2 → l1 = l2.
Proof.
  intros Hinj Hs1 Hs2 Hp. apply (sorted_by_unique entry_less); [|done..].
  intros x y Hx Hy Hxy. by apply Hinj, entry_tie.
Qed.

(** Whatever order Go iterates the workload map in and whatever algorithm
    [sort.Slice] uses, [Diff] lists the same entries in the same order. *)
Theorem diff_deterministic (O1 O2 : GoMapOrder) (S1 S2 : GoSort) (wlA wlB : list Workload) :
  @diff_workloads _ O1 S1 wlA wlB = @diff_workloads _ O2 S2 wlA wlB.
Proof.
  unfold diff_workloads. apply sorted_entries_unique.
  - intros e1 e2. rewrite !sort_slice_perm. apply raw_name_inj.
  - apply sort_slice_sorted, _.
  - apply sort_slice_sorted, _.
  - rewrite !sort_slice_perm. apply raw_perm.
Qed.

(** [Diff] has an entry for a name exactly when the name occurs in one of
    the files and its entry is not a no-op; the entry compares the last
    workload of that name on each side; entries are sorted by name, one per
    name; and comparing a file with itself gives no entries. *)
Theorem diff_spec `{GoMapOrder, GoSort} (wlA wlB : list Workload) :
  let d := diff_workloads wlA wlB in
  (∀ e, e ∈ d ↔ ∃ n p, pair_of (last_named n wlA) (last_named n wlB) = Some p ∧
                  e = make_entry n p ∧ notable e = true) ∧
  sorted_by entry_less d ∧
  (∀ e1 e2, e1 ∈ d → e2 ∈ d → EName e1 = EName e2 → e1 = e2) ∧
  diff_workloads wlA wlA = [].
Proof.
  intros d. unfold d, diff_workloads. split_and!.
  - intros e. rewrite sort_slice_perm, elem_of_raw. by setoid_rewrite byName_lookup.
  - apply sort_slice_sorted, _.
  - intros e1 e2. rewrite !sort_slice_perm. apply raw_name_inj.
  - apply elem_of_nil_inv. intros e. rewrite sort_slice_perm, elem_of_raw.
    intros (n&p&Hp&->&Hn). rewrite byName_lookup in Hp.
    assert (∀ a : Quantity, qDelta a a = 0) as Hz
      by (intros a; unfold qDelta, i64_sub; by rewrite Z.sub_diag).
    unfold pair_of in Hp. destruct (last_named n wlA) as [w|]; [|done]. simplify_eq.
    unfold notable in Hn. cbn [make_entry NewWorkload RemovedWorkload CPURequestDelta CPULimitDelta
      MemoryRequestDelta MemoryLimitDelta pa pb] in Hn. by rewrite !Hz in Hn.
Qed.
End Entries.

(** ** Swapping the two files *)

Definition qval (q : Quantity) : Z := if IsSet q then Value q else 0.

(** CPU requests up to 2^51 millicores, the rest any non-negative int64. *)
Definition sized (w : Workload) : Prop :=
  0 <= qval (CPU (Requests w)) <= 2^51 ∧ 0 <= qval (CPU (Limits w)) < 2^63 ∧
  0 <= qval (Memory (Requests w)) < 2^63 ∧ 0 <= qval (Memory (Limits w)) < 2^63.

Definition opt_sized (w : option Workload) : Prop :=
  match w with Some w => sized w | None => True end.

Definition neg_entry (e : DiffEntry) : DiffEntry := {|
  EName := EName e; NewWorkload := RemovedWorkload e; RemovedWorkload := NewWorkload e;
  CPURequestDelta := - CPURequestDelta e; CPULimitDelta := - CPULimitDelta e;
  MemoryRequestDelta := - MemoryRequestDelta e; MemoryLimitDelta := - MemoryLimitDelta e;
  MonthlyUSDCentsDelta := - MonthlyUSDCentsDelta e |}.

Lemma get_sized w k : opt_sized w →
  0 <= qval (get w k) < 2^63 ∧ (k = reqCPU → qval (get w k) <= 2^51).
Proof.
  destruct w as [w|]; [|intros _; cbn; split; [lia|intros; lia]].
  intros (?&?&?&?). destruct k; cbn [get]; (split; [lia|intros; (done || lia)]).
Qed.

Lemma qDelta_exact a b : 0 <= qval a < 2^63 → 0 <= qval b < 2^63 → qDelta a b = qval b - qval a.
Proof. intros. unfold qDelta, i64_sub. fold (qval a) (qval b). apply wrap64_id. unfold in_i64. lia. Qed.

Section Swap.
Context `{GoPlatform}.

Lemma make_entry_swap n p : opt_sized (pa p) → opt_sized (pb p) → (pa p ≠ None ∨ pb p ≠ None) →
  make_entry n (swap_pair p) = neg_entry (make_entry n p).
Proof.
  intros Ha Hb Hne.
  assert (∀ k, qDelta (get (pb p) k) (get (pa p) k) = - qDelta (get (pa p) k) (get (pb p) k)) as Hq.
  { intros k. destruct (get_sized _ k Ha), (get_sized _ k Hb). rewrite !qDelta_exact by done. lia. }
  assert (- 2^51 <= qDelta (get (pa p) reqCPU) (get (pb p) reqCPU) <= 2^51) as Hc.
  { destruct (get_sized _ reqCPU Ha) as [H1 H2], (get_sized _ reqCPU Hb) as [H3 H4].
    rewrite qDelta_exact by done. specialize (H2 eq_refl). specialize (H4 eq_refl). lia. }
  assert (- 2^63 < qDelta (get (pa p) reqMem) (get (pb p) reqMem) < 2^63) as Hm.
  { destruct (get_sized _ reqMem Ha) as [H1 _], (get_sized _ reqMem Hb) as [H3 _].
    rewrite qDelta_exact by done. lia. }
  unfold make_entry, neg_entry, swap_pair. cbv zeta.
  cbn [pa pb EName NewWorkload RemovedWorkload CPURequestDelta CPULimitDelta MemoryRequestDelta
       MemoryLimitDelta MonthlyUSDCentsDelta].
  rewrite !Hq, monthlyDelta_odd by done. f_equal; destruct (pa p), (pb p); naive_solver.
Qed.

Lemma notable_neg e : notable (neg_entry e) = notable e.
Proof.
  unfold notable. cbn [neg_entry NewWorkload RemovedWorkload CPURequestDelta CPULimitDelta
    MemoryRequestDelta MemoryLimitDelta].
  assert (∀ z, (- z =? 0) = (z =? 0)) as Hz.
  { intros z. destruct (Z.eqb_spec (- z) 0), (Z.eqb_spec z 0); (done || lia). }
  rewrite !Hz. by destruct (NewWorkload e), (RemovedWorkload e).
Qed.

Lemma filter_neg l :
  List.filter notable (neg_entry <$> l) = neg_entry <$> List.filter notable l.
Proof.
  induction l as [|e l IH]; [done|]. rewrite fmap_cons. cbn [List.filter].
  rewrite notable_neg, IH. by destruct (notable e).
Qed.

Lemma last_named_elem n ws w : last_named n ws = Some w → w ∈ ws.
Proof.
  induction ws as [|x ws IH] using rev_ind; [done|].
  rewrite last_named_snoc. case_match; intros; simplify_eq; set_solver.
Qed.

Lemma byName_sized wlA wlB n p : Forall sized wlA → Forall sized wlB →
  byName wlA wlB !! n = Some p →
  opt_sized (pa p) ∧ opt_sized (pb p) ∧ (pa p ≠ None ∨ pb p ≠ None).
Proof.
  rewrite !Forall_forall. intros HA HB. rewrite byName_lookup. unfold pair_of.
  destruct (last_named n wlA) eqn:EA, (last_named n wlB) eqn:EB; intros; simplify_eq;
    cbn [pa pb opt_sized]; split_and!; eauto using last_named_elem.
Qed.

(** C30: swapping the two files negates every delta, including the estimated
    money, turns new workloads into removed ones and changes nothing else, for
    CPU requests up to 2^51 millicores and any int64 memory. *)
Theorem diff_antisymmetric `{GoMapOrder, GoSort} (wlA wlB : list Workload)
    (HA : Forall sized wlA) (HB : Forall sized wlB) :
  diff_workloads wlB wlA = neg_entry <$> diff_workloads wlA wlB.
Proof.
  unfold diff_workloads. apply sorted_entries_unique.
  - intros e1 e2. rewrite !sort_slice_perm. apply raw_name_inj.
  - apply sort_slice_sorted, _.
  - pose proof (sort_slice_sorted entry_less (raw_entries (byName wlA wlB)) _) as Hs.
    induction Hs as [|e l Hl IH He]; [constructor|]. rewrite fmap_cons. constructor; [done|].
    by apply Forall_fmap.
  - rewrite !sort_slice_perm. unfold raw_entries at 1. rewrite byName_swap.
    rewrite (map_iter_perm (swap_pair <$> byName wlA wlB)), map_to_list_fmap.
    rewrite <-(map_iter_perm (byName wlA wlB)), <-list_fmap_compose.
    unfold raw_entries.
    assert (∀ np, np ∈ map_iter (byName wlA wlB) →
      make_entry np.1 (swap_pair np.2) = neg_entry (make_entry np.1 np.2)) as Hsw.
    { intros [n p]. rewrite map_iter_perm, elem_of_map_to_list. cbn [fst snd]. intros Hp.
      apply byName_sized in Hp as (?&?&?); [|done..]. by apply make_entry_swap. }
    rewrite <-filter_neg, <-list_fmap_compose.
    rewrite (list_fmap_ext _ (neg_entry ∘ (λ np, make_entry np.1 np.2))); [done|].
    intros i np Hnp. apply (Hsw np). by eapply list_elem_of_lookup_2.
Qed.
End Swap.

Lemma diff_antisymmetric_witness :
  let P := amd64 in let O := canonical_order in let S := stable_GoSort in
  CPURequestDelta <$> diff_workloads [sample_api] [sample_web] = [-900; 100] ∧
  diff_workloads [sample_web] [sample_api] =
    neg_entry <$> diff_workloads [sample_api] [sample_web].
Proof.
  split; [vm_compute; reflexivity|].
  apply (@diff_antisymmetric amd64 canonical_order stable_GoSort);
    repeat constructor; vm_compute; congruence.
Defined.
