(* ===== verification/Utf8.v ===== *)
(** Runes: Go's conversion between strings and [[]rune] (invalid bytes decode to
    U+FFFD, one byte at a time), [strings.Fields] and [strings.Repeat]. *)

From Stdlib Require Import Ascii.
From S2P Require Import Prelude GoNum GoStr.
Local Open Scope Z_scope.

Definition RuneError : Z := 65533.

Definition between (lo hi b : Z) : bool := (lo <=? b) && (b <=? hi).
Definition cont (b : Z) : bool := between 128 191 b.

(** The byte at the head and what follows it. *)
Definition next (s : string) : option (Z * string) :=
  match s with EmptyString => None | String c s => Some (byte_val c, s) end.

(** First rune of a non-empty string and the rest of it. *)
Definition decode_rune (b0 : Z) (s : string) : Z * string :=
  if b0 <? 128 then (b0, s) else
  match next s with
  | None => (RuneError, s)
  | Some (b1, s1) =>
      if between 194 223 b0 then
        if cont b1 then ((b0 - 192) * 64 + (b1 - 128), s1) else (RuneError, s)
      else if between 224 239 b0 then
        let ok1 := if b0 =? 224 then between 160 191 b1
                   else if b0 =? 237 then between 128 159 b1 else cont b1 in
        match next s1 with
        | Some (b2, s2) =>
            if ok1 && cont b2
            then ((b0 - 224) * 4096 + (b1 - 128) * 64 + (b2 - 128), s2) else (RuneError, s)
        | None => (RuneError, s)
        end
      else if between 240 244 b0 then
        let ok1 := if b0 =? 240 then between 144 191 b1
                   else if b0 =? 244 then between 128 143 b1 else cont b1 in
        match next s1 with
        | Some (b2, s2) =>
            match next s2 with
            | Some (b3, s3) =>
                if ok1 && cont b2 && cont b3
                then ((b0 - 240) * 262144 + (b1 - 128) * 4096 + (b2 - 128) * 64 + (b3 - 128), s3)
                else (RuneError, s)
            | None => (RuneError, s)
            end
        | None => (RuneError, s)
        end
      else (RuneError, s)
  end.

Fixpoint runes_fuel (fuel : nat) (s : string) : list Z :=
  match fuel, s with
  | S fuel, String c s =>
      let '(r, rest) := decode_rune (byte_val c) s in r :: runes_fuel fuel rest
  | _, _ => []
  end.
(** [[]rune(s)]; each rune takes at least one byte. *)
Definition runes (s : string) : list Z := runes_fuel (String.length s) s.
Definition rune_count (s : string) : Z := Z.of_nat (length (runes s)).

Definition chr (b : Z) : ascii := ascii_of_N (Z.to_N b).
Definition of_bytes (l : list Z) : string := foldr (λ b s, String (chr b) s) "" l.

Definition encode_rune (r : Z) : string :=
  if (r <? 0) || (1114111 <? r) || between 55296 57343 r then of_bytes [239; 191; 189]
  else if r <? 128 then of_bytes [r]
  else if r <? 2048 then of_bytes [192 + r / 64; 128 + r mod 64]
  else if r <? 65536 then of_bytes [224 + r / 4096; 128 + r / 64 mod 64; 128 + r mod 64]
  else of_bytes [240 + r / 262144; 128 + r / 4096 mod 64; 128 + r / 64 mod 64; 128 + r mod 64].

Definition hex_digit (n : Z) : ascii :=
  chr (if n <? 10 then 48 + n else 87 + n).
(** [hex.EncodeToString] *)
Fixpoint hex (s : string) : string :=
  match s with
  | EmptyString => EmptyString
  | String c s => String (hex_digit (byte_val c / 16)) (String (hex_digit (byte_val c mod 16)) (hex s))
  end.

(** [string(rs)] *)
Definition string_of_runes (rs : list Z) : string := foldr (λ r s, encode_rune r +:+ s) "" rs.

(** [strings.Repeat] for a non-negative count. *)
Fixpoint str_repeat (s : string) (n : nat) : string :=
  match n with O => "" | S n => s +:+ str_repeat s n end.

(** [strings.Fields]. *)
Fixpoint fields_fuel (fuel : nat) (cur : string) (s : string) : list string :=
  let flush := if String.eqb cur "" then [] else [cur] in
  match fuel with
  | O => flush
  | S fuel =>
      match s with
      | EmptyString => flush
      | String c s' =>
          match strip_any space_runes s with
          | Some rest => flush ++ fields_fuel fuel "" rest
          | None => fields_fuel fuel (cur +:+ String c "") s'
          end
      end
  end.
Definition strings_Fields (s : string) : list string := fields_fuel (S (String.length s)) "" s.

(** [strings.Contains]. *)
Fixpoint str_contains (s sub : string) : bool :=
  has_prefix s sub || match s with EmptyString => false | String _ s => str_contains s sub end.

Example runes_example : runes "a·…─" = [97; 183; 8230; 9472].
Proof. reflexivity. Qed.
Example runes_roundtrip_example : string_of_runes (runes "x — ●░█") = "x — ●░█".
Proof. reflexivity. Qed.
Example fields_example : strings_Fields "  a  bc d " = ["a"; "bc"; "d"].
Proof. reflexivity. Qed.

(** ** Substrings *)

Lemma has_prefix_app p t : has_prefix (p +:+ t) p = true.
Proof. unfold has_prefix. by rewrite strip_prefix_app. Qed.

Lemma has_prefix_weak s t p : has_prefix s p = true → has_prefix (s +:+ t) p = true.
Proof.
  unfold has_prefix. destruct (strip_prefix p s) eqn:E; [|done].
  apply strip_prefix_Some in E as ->. by rewrite <-sapp_assoc, strip_prefix_app.
Qed.

Lemma str_contains_app_l s t sub : str_contains s sub = true → str_contains (s +:+ t) sub = true.
Proof.
  induction s as [|c s IH]; cbn [str_contains].
  - rewrite orb_false_r. intros E. apply (has_prefix_weak "" t) in E.
    change ("" +:+ t) with t in E |- *. destruct t; cbn [str_contains]; by rewrite E.
  - rewrite orb_true_iff. intros [E|E].
    + rewrite sapp_cons. cbn [str_contains]. apply (has_prefix_weak _ t) in E.
      rewrite sapp_cons in E. by rewrite E.
    + rewrite sapp_cons. cbn [str_contains]. rewrite (IH E). apply orb_true_r.
Qed.

Lemma str_contains_app_r s t sub : str_contains t sub = true → str_contains (s +:+ t) sub = true.
Proof.
  intros E. induction s as [|c s IH]; [done|]. rewrite sapp_cons. cbn [str_contains].
  rewrite IH. apply orb_true_r.
Qed.

Lemma str_contains_refl s : str_contains s s = true.
Proof.
  pose proof (has_prefix_app s "") as E. rewrite sapp_nil_r in E.
  destruct s; cbn [str_contains]; by rewrite E.
Qed.
#[export] Hint Resolve str_contains_refl str_contains_app_l str_contains_app_r : go.

(** ** Decoding is local *)

Definition high_byte (c : ascii) : bool := 128 <=? byte_val c.

(** An ASCII byte is its own rune; any other rune is at least 128 and swallows
    bytes that are at least 128. *)
Lemma decode_rune_local b0 s r rest : decode_rune b0 s = (r, rest) →
  (b0 < 128 ∧ r = b0 ∧ rest = s) ∨
  (128 <= b0 ∧ 128 <= r ∧ ∃ t, s = t +:+ rest ∧ str_all high_byte t = true).
Proof.
  assert (∀ lo c, 128 <= lo → ∀ hi, between lo hi (byte_val c) = true → high_byte c = true) as Hb.
  { intros lo c Hlo hi. unfold between, high_byte. rewrite andb_true_iff, !Z.leb_le. lia. }
  unfold decode_rune. destruct (Z.ltb_spec b0 128) as [Hlt|Hge]; [intros [= <- <-]; by left|].
  intros H. right. split; [done|].
  assert (∀ r', (RuneError, s) = (r', rest) → 128 <= r' ∧ ∃ t, s = t +:+ rest ∧ str_all high_byte t = true) as Herr.
  { intros r' [= <- <-]. split; [done|]. by exists "". }
  destruct s as [|c1 s1]; [by apply Herr|]. cbn [next] in H.
  destruct (between 194 223 b0) eqn:E2.
  { destruct (cont (byte_val c1)) eqn:Ec; [|by apply Herr]. injection H as <- <-.
    unfold between in E2. unfold cont in Ec. pose proof (Hb 128 c1 ltac:(lia) _ Ec).
    unfold between in Ec. bool_to_prop. split; [lia|]. exists (String c1 ""). cbn. by rewrite andb_true_r. }
  assert (∀ c, cont (byte_val c) = true → high_byte c = true) as Hc by (intros c; by apply Hb).
  destruct (between 224 239 b0) eqn:E3.
  { destruct s1 as [|c2 s2]; [by apply Herr|]. cbn [next] in H.
    destruct (_ && cont (byte_val c2)) eqn:Eok; [|by apply Herr]. injection H as <- <-.
    apply andb_prop in Eok as [Eok Ec2].
    assert (high_byte c1 = true ∧ 128 <= (b0 - 224) * 4096 + (byte_val c1 - 128) * 64 + (byte_val c2 - 128))
      as [Hh Hr].
    { unfold cont, between in *. unfold high_byte. destruct (b0 =? 224) eqn:Ea, (b0 =? 237) eqn:Eb'; bool_to_prop; lia. }
    split; [done|]. exists (String c1 (String c2 "")). cbn. by rewrite Hh, (Hc c2). }
  destruct (between 240 244 b0) eqn:E4; [|by apply Herr].
  destruct s1 as [|c2 s2]; [by apply Herr|]. cbn [next] in H.
  destruct s2 as [|c3 s3]; [by apply Herr|]. cbn [next] in H.
  destruct (_ && cont (byte_val c3)) eqn:Eok; [|by apply Herr]. injection H as <- <-.
  apply andb_prop in Eok as [[Eok Ec2]%andb_prop Ec3].
  assert (high_byte c1 = true ∧ 128 <= (b0 - 240) * 262144 + (byte_val c1 - 128) * 4096
            + (byte_val c2 - 128) * 64 + (byte_val c3 - 128)) as [Hh Hr].
  { unfold cont, between in *. unfold high_byte. destruct (b0 =? 240) eqn:Ea, (b0 =? 244) eqn:Eb'; bool_to_prop; lia. }
  split; [done|]. exists (String c1 (String c2 (String c3 ""))). cbn. by rewrite Hh, (Hc c2), (Hc c3).
Qed.

(** A rune of several bytes is read from its own bytes only. *)
Lemma decode_rune_extend b0 s r rest : decode_rune b0 s = (r, rest) → 128 <= b0 → rest ≠ s →
  ∃ t, s = t +:+ rest ∧ str_all high_byte t = true ∧ ∀ x, decode_rune b0 (t +:+ x) = (r, x).
Proof.
  intros Hd Hb Hne. unfold decode_rune in *. rewrite (proj2 (Z.ltb_ge b0 128)) in * by lia.
  assert (∀ lo c, 128 <= lo → ∀ hi, between lo hi (byte_val c) = true → high_byte c = true) as Hh.
  { intros lo c Hlo hi. unfold between, high_byte. rewrite andb_true_iff, !Z.leb_le. lia. }
  assert (∀ c, cont (byte_val c) = true → high_byte c = true) as Hc by (intros c; by apply Hh).
  destruct s as [|c1 s1]; [by injection Hd as <- <-|]. cbn [next] in Hd.
  destruct (between 194 223 b0) eqn:E2.
  { destruct (cont (byte_val c1)) eqn:Ec; [|by injection Hd as <- <-]. injection Hd as <- <-.
    exists (String c1 ""). cbn [str_all]. rewrite (Hc c1) by done. split; [done|]. split; [done|]. intros x. rewrite !sapp_cons. cbn [next]. by rewrite Ec. }
  destruct (between 224 239 b0) eqn:E3.
  { destruct s1 as [|c2 s2]; [by injection Hd as <- <-|]. cbn [next] in Hd.
    destruct (_ && cont (byte_val c2)) eqn:Eok; [|by injection Hd as <- <-]. injection Hd as <- <-.
    exists (String c1 (String c2 "")).
    split; [done|]. split; [|intros x; rewrite !sapp_cons; cbn [next]; by rewrite Eok].
    apply andb_prop in Eok as [Eok Ec2]. cbn. rewrite (Hc c2), andb_true_r by done.
    destruct (b0 =? 224); [|destruct (b0 =? 237)]; (eapply Hh; [|exact Eok]; done). }
  destruct (between 240 244 b0) eqn:E4; [|by injection Hd as <- <-].
  destruct s1 as [|c2 s2]; [by injection Hd as <- <-|]. cbn [next] in Hd.
  destruct s2 as [|c3 s3]; [by injection Hd as <- <-|]. cbn [next] in Hd.
  destruct (_ && cont (byte_val c3)) eqn:Eok; [|by injection Hd as <- <-]. injection Hd as <- <-.
  exists (String c1 (String c2 (String c3 ""))).
  split; [done|]. split; [|intros x; rewrite !sapp_cons; cbn [next]; by rewrite Eok].
  apply andb_prop in Eok as [[Eok Ec2]%andb_prop Ec3]. cbn. rewrite (Hc c2), (Hc c3), andb_true_r by done.
  destruct (b0 =? 240); [|destruct (b0 =? 244)]; (eapply Hh; [|exact Eok]; done).
Qed.

(** A byte above 127 that decodes on its own is invalid. *)
Lemma decode_rune_invalid b0 s r : decode_rune b0 s = (r, s) → 128 <= b0 → r = RuneError.
Proof.
  unfold decode_rune. intros Hd Hb. rewrite (proj2 (Z.ltb_ge b0 128)) in Hd by lia.
  destruct s as [|c1 [|c2 [|c3 s3]]]; cbn [next] in Hd;
    repeat match type of Hd with context [if ?b then _ else _] => destruct b end;
    injection Hd as Hr; try done;
    match goal with E : ?t = String _ _ |- _ => apply (f_equal String.length) in E; simpl in E; lia end.
Qed.

(** Decoding a rune never lengthens what is left. *)
Lemma decode_rune_shorter b s r rest : decode_rune b s = (r, rest) →
  (String.length rest <= String.length s)%nat.
Proof.
  unfold decode_rune, next. intros H.
  repeat (case_match; simplify_eq/=; try lia).
Qed.
