(* ===== verification/Regex.v ===== *)
(** The part of Go's [regexp] the program uses, on lists of runes: character
    classes, sequence, alternatives, repetition, word boundaries and line starts.
    [ends] lists the ends of the matches from a position in the order of
    preference of a leftmost-first search, and is proved equivalent to the
    declarative relation [matches]. *)

From Stdlib Require Import Ascii.
From S2P Require Import Prelude GoNum GoStr Utf8.

(** ** Runes with the bytes they were decoded from *)

Definition rune_bytes : Type := Z * string.

Fixpoint chunks_fuel (fuel : nat) (s : string) : list rune_bytes :=
  match fuel, s with
  | S fuel, String c s' =>
      let '(r, rest) := decode_rune (byte_val c) s' in
      (r, String.substring 0 (String.length s - String.length rest) s) :: chunks_fuel fuel rest
  | _, _ => []
  end.
Definition chunks (s : string) : list rune_bytes := chunks_fuel (String.length s) s.
Definition unchunks (l : list rune_bytes) : string := foldr (λ c s, c.2 +:+ s) "" l.

(** ** Syntax *)

Inductive re :=
| Eps
| Chr (p : Z → bool)
| Cat (r1 r2 : re)
| Alt (r1 r2 : re)
| Star (greedy : bool) (r : re)
| UpTo (n : nat) (r : re)      (** [r{0,n}] *)
| WordBoundary                 (** [\b] *)
| LineStart.                   (** [^] under the flag m *)

(** [r?] prefers a match of [r]. *)
Definition Opt (r : re) : re := Alt r Eps.

Fixpoint cats (l : list re) : re := match l with [] => Eps | [r] => r | r :: l => Cat r (cats l) end.
Fixpoint alts (l : list re) : re := match l with [] => Eps | [r] => r | r :: l => Alt r (alts l) end.

(** A literal byte under the flag i: runes that fold to the same letter. *)
Definition fold_eq (c : ascii) (r : Z) : bool :=
  let v := byte_val c in
  let low := byte_val (ascii_lower c) in
  (r =? v)%Z || (r =? low)%Z || (r =? byte_val (ascii_upper c))%Z
  || ((low =? 115) && (r =? 383))%Z || ((low =? 107) && (r =? 8490))%Z.
Definition lit_i (c : ascii) : re := Chr (fold_eq c).
Definition lit (c : ascii) : re := Chr (λ r, (r =? byte_val c)%Z).
Fixpoint word_i (s : string) : re :=
  match s with
  | EmptyString => Eps
  | String c EmptyString => lit_i c
  | String c s' => Cat (lit_i c) (word_i s')
  end.

(** [\s] *)
Definition space_class : re := Chr (λ r, existsb (Z.eqb r) [9; 10; 12; 13; 32]%Z).
Definition is_word_rune (r : Z) : bool :=
  between 48 57 r || between 65 90 r || between 97 122 r || (r =? 95)%Z.

(** ** Matching *)

Section Matching.
Context (l : list Z).

Definition word_at (i : nat) : bool :=
  match l !! i with Some r => is_word_rune r | None => false end.
Definition word_boundary (i : nat) : bool :=
  xorb (match i with O => false | S j => word_at j end) (word_at i).
Definition line_start (i : nat) : bool :=
  match i with O => true | S j => match l !! j with Some r => (r =? 10)%Z | None => false end end.

(** Every round of a star consumes a rune, so [length l - i] rounds suffice. *)
Fixpoint ends (r : re) (i : nat) : list nat :=
  match r with
  | Eps => [i]
  | Chr p => match l !! i with Some c => if p c then [S i] else [] | None => [] end
  | Cat r1 r2 => flat_map (ends r2) (ends r1 i)
  | Alt r1 r2 => ends r1 i ++ ends r2 i
  | Star greedy r =>
      (fix star (n i : nat) : list nat :=
         match n with
         | O => [i]
         | S n =>
             let more := flat_map (star n) (List.filter (λ j, (i <? j)%nat) (ends r i)) in
             if greedy then more ++ [i] else i :: more
         end) (length l - i)%nat i
  | UpTo n r =>
      (fix upto (n i : nat) : list nat :=
         match n with O => [i] | S n => flat_map (upto n) (ends r i) ++ [i] end) n i
  | WordBoundary => if word_boundary i then [i] else []
  | LineStart => if line_start i then [i] else []
  end.

(** [re.MatchString] *)
Definition MatchString (r : re) : bool :=
  existsb (λ i, match ends r i with [] => false | _ => true end) (seq 0 (S (length l))).

(** What the syntax means: [matches r i j] when [r] matches the runes from [i]
    to [j]. *)
Inductive matches : re → nat → nat → Prop :=
| M_eps i : matches Eps i i
| M_chr p i c : l !! i = Some c → p c = true → matches (Chr p) i (S i)
| M_cat r1 r2 i j k : matches r1 i j → matches r2 j k → matches (Cat r1 r2) i k
| M_alt_l r1 r2 i j : matches r1 i j → matches (Alt r1 r2) i j
| M_alt_r r1 r2 i j : matches r2 i j → matches (Alt r1 r2) i j
| M_star_nil g r i : matches (Star g r) i i
| M_star_cons g r i j k : matches r i j → matches (Star g r) j k → matches (Star g r) i k
| M_upto_nil n r i : matches (UpTo n r) i i
| M_upto_cons n r i j k : matches r i j → matches (UpTo n r) j k → matches (UpTo (S n) r) i k
| M_word i : word_boundary i = true → matches WordBoundary i i
| M_line i : line_start i = true → matches LineStart i i.

Lemma matches_bound r i j : matches r i j → (i <= j)%nat ∧ (i < j → j <= length l)%nat.
Proof.
  induction 1 as [|p i c Hi _|r1 r2 i j k _ [? ?] _ [? ?]|r1 r2 i j _ [? ?]|r1 r2 i j _ [? ?]|
    |g r i j k _ [? ?] _ [? ?]| |n r i j k _ [? ?] _ [? ?]| |]; try lia.
  apply lookup_lt_Some in Hi. lia.
Qed.

Definition star_ends (greedy : bool) (r : re) : nat → nat → list nat :=
  fix star (n i : nat) : list nat :=
    match n with
    | O => [i]
    | S n =>
        let more := flat_map (star n) (List.filter (λ j, (i <? j)%nat) (ends r i)) in
        if greedy then more ++ [i] else i :: more
    end.
Definition upto_ends (r : re) : nat → nat → list nat :=
  fix upto (n i : nat) : list nat :=
    match n with O => [i] | S n => flat_map (upto n) (ends r i) ++ [i] end.

Lemma elem_of_flat_map {A B} (f : A → list B) (xs : list A) y :
  y ∈ flat_map f xs ↔ ∃ x, x ∈ xs ∧ y ∈ f x.
Proof. rewrite list_elem_of_In, in_flat_map. by setoid_rewrite <-list_elem_of_In. Qed.

Lemma elem_of_star_ends g r n i k : k ∈ star_ends g r (S n) i ↔
  k = i ∨ ∃ j, (i < j)%nat ∧ j ∈ ends r i ∧ k ∈ star_ends g r n j.
Proof.
  assert (k ∈ flat_map (star_ends g r n) (List.filter (λ j, (i <? j)%nat) (ends r i)) ↔
    ∃ j, (i < j)%nat ∧ j ∈ ends r i ∧ k ∈ star_ends g r n j) as Hm.
  { rewrite elem_of_flat_map. setoid_rewrite list_elem_of_In. setoid_rewrite filter_In.
    setoid_rewrite Nat.ltb_lt. naive_solver. }
  cbn [star_ends]. destruct g; [rewrite elem_of_app, list_elem_of_singleton|rewrite elem_of_cons];
    rewrite Hm; naive_solver.
Qed.

Lemma elem_of_upto_ends r n i k : k ∈ upto_ends r (S n) i ↔
  k = i ∨ ∃ j, j ∈ ends r i ∧ k ∈ upto_ends r n j.
Proof.
  cbn [upto_ends]. rewrite elem_of_app, elem_of_flat_map, list_elem_of_singleton. naive_solver.
Qed.

(** A star can do without rounds that consume nothing. *)
Lemma star_progress g r i k : matches (Star g r) i k →
  i = k ∨ ∃ j, (i < j)%nat ∧ matches r i j ∧ matches (Star g r) j k.
Proof.
  intros H. remember (Star g r) as s eqn:Es. induction H; simplify_eq; auto.
  destruct (matches_bound _ _ _ H) as [Hle _]. destruct (decide (i = j)) as [->|]; [auto|].
  right. exists j. split; [lia|done].
Qed.

Lemma star_ends_spec g r : (∀ i j, j ∈ ends r i ↔ matches r i j) → ∀ n i k,
  (length l - i <= n)%nat → k ∈ star_ends g r n i ↔ matches (Star g r) i k.
Proof.
  intros Hr. induction n as [|n IH]; intros i k Hn.
  - cbn. rewrite list_elem_of_singleton. split; [intros ->; constructor|].
    intros [->|(j&Hj&Hm&_)]%star_progress; [done|].
    destruct (matches_bound _ _ _ Hm) as [_ Hb]. specialize (Hb Hj). lia.
  - rewrite elem_of_star_ends. split.
    + intros [->|(j&Hj&Hm&Hk)]; [constructor|].
      apply Hr in Hm. apply IH in Hk; [|lia]. by econstructor.
    + intros [->|(j&Hj&Hm&Hk)]%star_progress; [by left|].
      right. exists j. split; [done|]. split; [by apply Hr|]. apply IH; [lia|done].
Qed.

Lemma upto_ends_spec r : (∀ i j, j ∈ ends r i ↔ matches r i j) → ∀ n i k,
  k ∈ upto_ends r n i ↔ matches (UpTo n r) i k.
Proof.
  intros Hr. induction n as [|n IH]; intros i k.
  - cbn. rewrite list_elem_of_singleton. split; [intros ->; constructor|]. inversion 1; by subst.
  - rewrite elem_of_upto_ends. setoid_rewrite Hr. setoid_rewrite IH. split.
    + intros [->|(j&?&?)]; [constructor|by econstructor].
    + inversion 1; subst; eauto.
Qed.

(** The matcher computes the relation. *)
Lemma ends_spec r : ∀ i j, j ∈ ends r i ↔ matches r i j.
Proof.
  induction r as [|p|r1 IH1 r2 IH2|r1 IH1 r2 IH2|g r IH|n r IH| |]; intros i j.
  - cbn. rewrite list_elem_of_singleton. split; [intros ->; constructor|inversion 1; by subst].
  - cbn. destruct (l !! i) as [c|] eqn:El; [destruct (p c) eqn:Ep|].
    + rewrite list_elem_of_singleton. split; [intros ->; by econstructor|inversion 1; by subst].
    + rewrite elem_of_nil. split; [done|inversion 1; simplify_eq; congruence].
    + rewrite elem_of_nil. split; [done|inversion 1; simplify_eq].
  - cbn. rewrite elem_of_flat_map. setoid_rewrite IH1. setoid_rewrite IH2. split.
    + intros (k&?&?). by econstructor.
    + inversion 1; subst. eauto.
  - cbn. rewrite elem_of_app, IH1, IH2. split; [|inversion 1; subst; auto].
    intros [?|?]; [by apply M_alt_l|by apply M_alt_r].
  - change (ends (Star g r) i) with (star_ends g r (length l - i) i). by apply star_ends_spec.
  - change (ends (UpTo n r) i) with (upto_ends r n i). by apply upto_ends_spec.
  - cbn. destruct (word_boundary i) eqn:E; rewrite ?list_elem_of_singleton, ?elem_of_nil.
    + split; [intros ->; by constructor|inversion 1; by subst].
    + split; [done|inversion 1; congruence].
  - cbn. destruct (line_start i) eqn:E; rewrite ?list_elem_of_singleton, ?elem_of_nil.
    + split; [intros ->; by constructor|inversion 1; by subst].
    + split; [done|inversion 1; congruence].
Qed.

Lemma MatchString_spec r :
  MatchString r = true ↔ ∃ i j, (i <= length l)%nat ∧ matches r i j.
Proof.
  unfold MatchString. rewrite existsb_exists. setoid_rewrite in_seq. split.
  - intros (i&Hi&Hm). destruct (ends r i) as [|j js] eqn:E; [done|].
    exists i, j. split; [lia|]. apply ends_spec. rewrite E. left.
  - intros (i&j&Hi&Hm). exists i. split; [lia|]. apply ends_spec in Hm.
    destruct (ends r i); [by apply elem_of_nil in Hm|done].
Qed.
End Matching.

(** [re.ReplaceAllString(s, "")] for a pattern that never matches the empty text:
    [skip] runes of a match are still to be dropped. *)
Fixpoint remove_matches (runes : list Z) (r : re) (i skip : nat) (cs : list rune_bytes) : string :=
  match cs with
  | [] => ""
  | c :: cs =>
      match skip with
      | S skip => remove_matches runes r (S i) skip cs
      | O =>
          match ends runes r i with
          | j :: _ => if (i <? j)%nat then remove_matches runes r (S i) (j - i - 1) cs
                      else c.2 +:+ remove_matches runes r (S i) 0 cs
          | [] => c.2 +:+ remove_matches runes r (S i) 0 cs
          end
      end
  end.
Definition ReplaceAllEmpty (r : re) (s : string) : string :=
  remove_matches (runes s) r 0 0 (chunks s).

Definition match_string (r : re) (s : string) : bool := MatchString (runes s) r.

Example regex_example :
  match_string (cats [WordBoundary; word_i "now do"; WordBoundary]) "please Now Do it" = true ∧
  match_string (cats [WordBoundary; word_i "now do"; WordBoundary]) "know don't" = false.
Proof. vm_compute. auto. Qed.
