(* ===== verification/PrComment.v ===== *)
(** The pull request comment (backend/internal/prwriter/comment.go) and the
    follow-up posted after a merge (applyfix/attribution FormatComment). The
    template is written out as the text it produces. *)

From Stdlib Require Import Ascii.
From S2P Require Import Prelude GoNum GoStr GoTime Lines Utf8 Rules.
Local Open Scope Z_scope.

Definition AccuracyDisclosureSandbox : string :=
  "Sandbox accuracy: ±40%. Install the Optiqor agent for exact numbers (optiqor.dev/get).".
Definition AccuracyDisclosureAgent : string :=
  "Agent accuracy: ±15%. Backed by 30 days of Prometheus + your AWS bill.".

Inductive Mode := ModeSandbox | ModeAgent.

Record Comment := mkComment {
  Chart : string; Tenant : string; Workloads : Z; Findings : list Finding;
  MonthlySavingsUSDCents : Z; AnnualSavingsUSDCents : Z; CMode : Mode; GeneratedAt : Z;
  OptiqorAnalysisURL : string; ApplyFixURL : string; UnifiedDiff : string; Narrative : string;
  ProvisionerNote : string; SecurityVisible : bool }.

Inductive error := ErrNoChart.

Record view := mkView {
  VChart : string; VWorkloads : Z; CostFindings : list Finding; CostCount : Z;
  SecurityFindings : list Finding; SecurityCount : Z; ShowSecurity : bool;
  MonthlyUSD : string; AnnualUSD : string; ShowSavings : bool; VNarrative : string;
  VProvisionerNote : string; VUnifiedDiff : string; DiffFence : string; DiffLines : Z;
  AccuracyDisclosure : string; VOptiqorAnalysisURL : string; VApplyFixURL : string; GeneratedAtISO : string }.

(** ** Helpers *)

Fixpoint longest_run (r : Z) (longest cur : Z) (rs : list Z) : Z :=
  match rs with
  | [] => longest
  | x :: rs =>
      if x =? r then longest_run r (if longest <? cur + 1 then cur + 1 else longest) (cur + 1) rs
      else longest_run r longest 0 rs
  end.

Definition backtick : string := "`".
Definition diffFence (s : string) : string :=
  str_repeat backtick (Z.to_nat (longest_run 96 0 0 (runes s) + 3)).

(** [strings.Count(s, c)] of a byte. *)
Fixpoint count_byte (c : ascii) (s : string) : Z :=
  match s with
  | EmptyString => 0
  | String a s => (if Ascii.eqb a c then 1 else 0) + count_byte c s
  end.

Definition countLines (s : string) : Z :=
  if String.eqb s "" then 0
  else count_byte newline s + (if has_suffix s (String newline "") then 0 else 1).

Section Clock.
(** [time.Now()]. *)
Context (now : Z).
Definition generatedAt (t : Z) : Z :=
  if time_IsZero t then time_truncate now Minute else time_truncate t Minute.
End Clock.

Definition split (l : list Finding) : list Finding * list Finding :=
  (List.filter (λ f, negb (String.eqb (FCategory f) CategorySecurity)) l,
   List.filter (λ f, String.eqb (FCategory f) CategorySecurity) l).

Definition cost_less (a b : Finding) : bool :=
  if negb (Bool.eqb (0 <? MonthlyUSDCents a) (0 <? MonthlyUSDCents b))
  then MonthlyUSDCents b <? MonthlyUSDCents a
  else if negb (MonthlyUSDCents a =? MonthlyUSDCents b) then MonthlyUSDCents b <? MonthlyUSDCents a
  else if negb (String.eqb (FWorkload a) (FWorkload b)) then String.ltb (FWorkload a) (FWorkload b)
  else String.ltb (DetectorID a) (DetectorID b).

Definition sortCostForDisplay (l : list Finding) : list Finding := sort_stable cost_less l.

(** [fmt.Sprintf("%02d", z)]: the width counts the sign. *)
Definition fmt_02d (z : Z) : string :=
  if z <? 0 then "-" +:+ pad_left 1 (itoa (- z)) else pad_left 2 (itoa z).

Definition fmtUSD (cents : Z) : string :=
  if cents =? 0 then "$0"
  else
    let dollars := Z.quot cents 100 in
    let c := Z.rem cents 100 in
    if c =? 0 then "$" +:+ itoa dollars else "$" +:+ itoa dollars +:+ "." +:+ fmt_02d c.

(** ** Template *)

Definition nl : string := String newline "".
Definition when (b : bool) (s : string) : string := if b then s else "".
Definition not_empty (s : string) : bool := negb (String.eqb s "").

Definition cost_row (f : Finding) : string :=
  "| " +:+ FSeverity f +:+ " | " +:+ FWorkload f +:+ " | " +:+ Title f +:+ " | " +:+
  (if 0 <? MonthlyUSDCents f
   then "save ~$" +:+ itoa (Z.quot (MonthlyUSDCents f) 100) +:+ "." +:+ fmt_02d (Z.rem (MonthlyUSDCents f) 100)
   else "—") +:+ " |" +:+ nl.

Definition security_row (f : Finding) : string :=
  "| " +:+ FSeverity f +:+ " | " +:+ FWorkload f +:+ " | " +:+ Title f +:+ " |" +:+ nl.

Definition concat_map (f : Finding → string) (l : list Finding) : string :=
  foldr (λ x s, f x +:+ s) "" l.

Definition cost_section (v : view) : string :=
  match CostFindings v with
  | [] => ""
  | _ =>
      "<details open>" +:+ nl +:+
      "<summary><b>Cost optimisations</b> · " +:+ itoa (CostCount v) +:+ " finding" +:+
      when (negb (CostCount v =? 1)) "s" +:+
      when (ShowSavings v) (" · save " +:+ MonthlyUSD v +:+ "/mo") +:+ "</summary>" +:+ nl +:+ nl +:+
      "| Severity | Workload | Title | Save / mo |" +:+ nl +:+ "| --- | --- | --- | --- |" +:+ nl +:+
      concat_map cost_row (CostFindings v) +:+ nl +:+ "</details>"
  end.

Definition diff_section (v : view) : string :=
  when (not_empty (VUnifiedDiff v))
    ("<details open>" +:+ nl +:+
     "<summary><b>Apply Fix preview</b> · " +:+ itoa (DiffLines v) +:+
     "-line <code>values.yaml</code> diff</summary>" +:+ nl +:+ nl +:+
     DiffFence v +:+ "diff" +:+ nl +:+ VUnifiedDiff v +:+ nl +:+ DiffFence v +:+ nl +:+ "</details>").

Definition security_section (v : view) : string :=
  when (ShowSecurity v)
    ("<details>" +:+ nl +:+
     "<summary><b>Security findings</b> (bonus) · " +:+ itoa (SecurityCount v) +:+ "</summary>" +:+ nl +:+ nl +:+
     "_Spotted while parsing your chart. Cost is the headline; this is a side-effect._" +:+ nl +:+ nl +:+
     "| Severity | Workload | Title |" +:+ nl +:+ "| --- | --- | --- |" +:+ nl +:+
     concat_map security_row (SecurityFindings v) +:+ nl +:+ "</details>").

(** [tmpl.Execute]: the text before and after the disclosure line. *)
Definition comment_head (v : view) : string :=
  "## Optiqor analysis — " +:+ VChart v +:+ nl +:+ nl +:+
  (if ShowSavings v
   then "**Potential savings:** " +:+ MonthlyUSD v +:+ " / month · ~" +:+ AnnualUSD v +:+ " / year"
   else "**No cost optimisations detected** — this chart is already clean.") +:+ nl +:+ nl +:+
  when (not_empty (VNarrative v)) (VNarrative v +:+ nl +:+ nl) +:+
  "_Workloads analysed: " +:+ itoa (VWorkloads v) +:+ "._" +:+ nl +:+ nl +:+
  cost_section v +:+ nl +:+ nl +:+ diff_section v +:+ nl +:+ nl +:+ security_section v +:+ nl +:+ nl +:+
  "---" +:+ nl +:+ nl +:+
  when (not_empty (VProvisionerNote v)) ("> **Provisioner context** — " +:+ VProvisionerNote v +:+ nl +:+ nl).

Definition comment_tail (v : view) : string :=
  when (not_empty (VOptiqorAnalysisURL v))
    ("[Full analysis →](" +:+ VOptiqorAnalysisURL v +:+ ")" +:+
     when (not_empty (VApplyFixURL v)) (" · [Apply Fix PR →](" +:+ VApplyFixURL v +:+ ")") +:+ nl) +:+ nl +:+
  "<sub>Generated at " +:+ GeneratedAtISO v +:+ " by optiqor.dev</sub>" +:+ nl.

Definition execute (v : view) : string :=
  comment_head v +:+ "> " +:+ AccuracyDisclosure v +:+ nl +:+ nl +:+ comment_tail v.

Definition is_newline (c : ascii) : bool := Ascii.eqb c newline.

Definition make_view (now : Z) (c : Comment) : view :=
  let '(cost, security) := split (Findings c) in
  let sortedCost := sortCostForDisplay cost in
  let d := trim_space (UnifiedDiff c) in
  {| VChart := Chart c; VWorkloads := Workloads c; CostFindings := sortedCost;
     CostCount := Z.of_nat (length sortedCost); SecurityFindings := security;
     SecurityCount := Z.of_nat (length security);
     ShowSecurity := SecurityVisible c && (0 <? Z.of_nat (length security));
     MonthlyUSD := fmtUSD (MonthlySavingsUSDCents c); AnnualUSD := fmtUSD (AnnualSavingsUSDCents c);
     ShowSavings := 0 <? MonthlySavingsUSDCents c; VNarrative := Narrative c;
     VProvisionerNote := ProvisionerNote c;
     VUnifiedDiff := d; DiffFence := when (not_empty d) (diffFence d);
     DiffLines := if not_empty d then countLines d else 0;
     AccuracyDisclosure := match CMode c with
                           | ModeAgent => AccuracyDisclosureAgent
                           | ModeSandbox => AccuracyDisclosureSandbox
                           end;
     VOptiqorAnalysisURL := OptiqorAnalysisURL c; VApplyFixURL := ApplyFixURL c;
     GeneratedAtISO := format_rfc3339 (generatedAt now (GeneratedAt c)) |}.

Definition Render (now : Z) (c : Comment) : result error string :=
  if String.eqb (Chart c) "" then Err ErrNoChart
  else Ok (trim_right is_newline (execute (make_view now c)) +:+ nl).

(** ** The fence *)

(** The longest run of a byte. *)
Fixpoint byte_run (c : ascii) (longest cur : Z) (s : string) : Z :=
  match s with
  | EmptyString => longest
  | String x s =>
      if Ascii.eqb x c then byte_run c (Z.max longest (cur + 1)) (cur + 1) s
      else byte_run c longest 0 s
  end.

Lemma byte_run_high c L cur t s : byte_val c < 128 → str_all high_byte t = true → t ≠ "" →
  byte_run c L cur (t +:+ s) = byte_run c L 0 s.
Proof.
  intros Hc. revert cur. induction t as [|x t IH]; [done|]. intros cur Ht _.
  cbn [str_all] in Ht. apply andb_prop in Ht as [Hx Ht]. rewrite sapp_cons. cbn [byte_run].
  destruct (Ascii.eqb_spec x c) as [->|]; [unfold high_byte in Hx; bool_to_prop; lia|].
  destruct t as [|y t]; [done|]. by apply IH.
Qed.

(** Runs of an ASCII rune are runs of its byte. *)
Lemma longest_run_bytes c s L cur : byte_val c < 128 →
  longest_run (byte_val c) L cur (runes s) = byte_run c L cur s.
Proof.
  intros Hc. unfold runes. assert (String.length s <= String.length s)%nat as Hf by done. revert Hf.
  generalize (String.length s) at 2 3 as n. intros n.
  revert s L cur. induction n as [|n IH]; intros [|x s] L cur Hf; cbn in Hf; try done; [lia|].
  cbn [runes_fuel]. destruct (decode_rune (byte_val x) s) as [r rest] eqn:Ed.
  apply decode_rune_local in Ed as [(Hx&->&->)|(Hx&Hr&t&->&Ht)].
  - cbn [longest_run byte_run]. rewrite !IH by lia.
    destruct (Ascii.eqb_spec x c) as [->|Hne].
    + rewrite Z.eqb_refl. f_equal. destruct (Z.ltb_spec L (cur + 1)); lia.
    + destruct (Z.eqb_spec (byte_val x) (byte_val c)) as [E|]; [|done].
      destruct Hne. by apply byte_val_inj.
  - cbn [longest_run]. destruct (Z.eqb_spec r (byte_val c)); [lia|].
    rewrite IH by (rewrite slength_app in Hf; lia).
    change (String x (t +:+ rest)) with (String x t +:+ rest). rewrite (byte_run_high c L cur); [done|done| |done].
    cbn [str_all]. rewrite Ht, andb_true_r. unfold high_byte. by apply Z.leb_le.
Qed.

Lemma byte_run_mono c s : ∀ L cur L' cur', L <= L' → cur <= cur' → byte_run c L cur s <= byte_run c L' cur' s.
Proof.
  induction s as [|x s IH]; intros; cbn [byte_run]; [done|]. destruct (Ascii.eqb x c); apply IH; lia.
Qed.
Lemma byte_run_ge c s : ∀ L cur, L <= byte_run c L cur s.
Proof.
  induction s as [|x s IH]; intros; cbn [byte_run]; [done|].
  destruct (Ascii.eqb x c); [|apply IH]. specialize (IH (Z.max L (cur + 1)) (cur + 1)). lia.
Qed.

Lemma byte_run_repeat c n s : ∀ L cur, 0 <= cur → cur <= L →
  cur + Z.of_nat n <= byte_run c L cur (str_repeat (String c "") n +:+ s).
Proof.
  induction n as [|n IH]; intros L cur H1 H2.
  - change (str_repeat (String c "") 0 +:+ s) with s. pose proof (byte_run_ge c s L cur). lia.
  - change (str_repeat (String c "") (S n) +:+ s) with (String c (str_repeat (String c "") n +:+ s)).
    cbn [byte_run]. rewrite Ascii.eqb_refl.
    specialize (IH (Z.max L (cur + 1)) (cur + 1)). lia.
Qed.

Lemma byte_run_contains c n s : str_contains s (str_repeat (String c "") n) = true →
  ∀ L cur, 0 <= cur → cur <= L → Z.of_nat n <= byte_run c L cur s.
Proof.
  assert (∀ s, has_prefix s (str_repeat (String c "") n) = true →
    ∀ L cur, 0 <= cur → cur <= L → Z.of_nat n <= byte_run c L cur s) as Hp.
  { intros s'. unfold has_prefix. destruct (strip_prefix _ s') as [q|] eqn:E; [|done].
    apply strip_prefix_Some in E as ->. intros _ L cur H1 H2. pose proof (byte_run_repeat c n q L cur). lia. }
  induction s as [|x s IH]; cbn [str_contains]; rewrite orb_true_iff; intros [H|H] L cur H1 H2; try done;
    [by apply Hp|by apply Hp|].
  cbn [byte_run]. destruct (Ascii.eqb x c).
  - apply IH; [done|lia..].
  - apply IH; [done|lia..].
Qed.

(** The text holds no run of backticks as long as its fence. *)
Lemma diffFence_fresh s : str_contains s (diffFence s) = false.
Proof.
  apply not_true_iff_false. unfold diffFence, backtick. intros H.
  change 96 with (byte_val "`") in H. rewrite longest_run_bytes in H by done.
  pose proof (byte_run_contains _ _ _ H 0 0 ltac:(done) ltac:(done)).
  pose proof (byte_run_ge "`" s 0 0). lia.
Qed.

(** ** The comment *)

(** Trimming the newlines and adding one back leaves the executed template. *)
Lemma render_execute now c : Chart c ≠ "" → Render now c = Ok (execute (make_view now c)).
Proof.
  intros Hc. unfold Render. destruct (String.eqb_spec (Chart c) ""); [done|]. f_equal.
  generalize (make_view now c). intros v.
  assert (∃ s, execute v = s +:+ String ">" "" +:+ nl) as [s ->].
  { exists (comment_head v +:+ "> " +:+ AccuracyDisclosure v +:+ nl +:+ nl +:+
      when (not_empty (VOptiqorAnalysisURL v))
        ("[Full analysis →](" +:+ VOptiqorAnalysisURL v +:+ ")" +:+
         when (not_empty (VApplyFixURL v)) (" · [Apply Fix PR →](" +:+ VApplyFixURL v +:+ ")") +:+ nl) +:+ nl +:+
      "<sub>Generated at " +:+ GeneratedAtISO v +:+ " by optiqor.dev</sub").
    unfold execute, comment_tail. by rewrite <-!sapp_assoc. }
  rewrite sapp_assoc. unfold nl at 1. by rewrite trim_right_drop, trim_right_stop, <-!sapp_assoc.
Qed.

Definition cost_key (f : Finding) : Z * string * string := (MonthlyUSDCents f, FWorkload f, DetectorID f).

Definition cost_lex : Finding → Finding → bool :=
  lex_less (λ a b, - MonthlyUSDCents a <? - MonthlyUSDCents b)
    (lex_less (λ a b, String.ltb (FWorkload a) (FWorkload b)) (λ a b, String.ltb (DetectorID a) (DetectorID b))).

#[export] Instance cost_lex_sw : StrictWeak cost_lex.
Proof.
  unfold cost_lex. apply lex_less_sw; [apply (Z_less_sw (λ x, - MonthlyUSDCents x))|].
  apply lex_less_sw; apply string_less_sw.
Qed.

Lemma comment_cost_lex a b : cost_less a b = cost_lex a b.
Proof.
  unfold cost_less, cost_lex, lex_less. rewrite <-lex_string, <-lex_Z.
  destruct (eqb_spec (0 <? MonthlyUSDCents a) (0 <? MonthlyUSDCents b)) as [_|Hne]; cbn [negb]; [done|].
  destruct (Z.eqb_spec (MonthlyUSDCents a) (MonthlyUSDCents b)) as [E|]; [|done].
  by rewrite E in Hne.
Qed.

Lemma cost_key_equiv a b : equiv_key cost_lex a b = true → cost_key a = cost_key b.
Proof.
  unfold equiv_key. intros [H1 H2]%andb_prop. rewrite <-!comment_cost_lex in *. apply negb_true_iff in H1, H2.
  unfold cost_less, cost_key in *. rewrite (Z.eqb_sym (MonthlyUSDCents b)), (String.eqb_sym (FWorkload b)) in H2.
  destruct (Z.ltb_spec 0 (MonthlyUSDCents a)), (Z.ltb_spec 0 (MonthlyUSDCents b)); cbn [Bool.eqb negb] in *;
    destruct (Z.eqb_spec (MonthlyUSDCents a) (MonthlyUSDCents b)) as [->|]; cbn [negb] in *;
    bool_to_prop; try lia;
    destruct (String.eqb_spec (FWorkload a) (FWorkload b)) as [->|Hw]; cbn [negb] in *;
    try (by rewrite (ltb_false_eq _ _ H1 H2)); by destruct Hw; apply ltb_false_eq.
Qed.

Lemma sortCost_sorted l : sorted_by cost_lex (sortCostForDisplay l).
Proof.
  unfold sortCostForDisplay. rewrite (sort_stable_ext cost_less cost_lex) by (intros; apply comment_cost_lex).
  apply sort_stable_sorted, _.
Qed.

(** Findings with different keys have one display order. *)
Lemma sortCost_perm l1 l2 : (∀ x y, x ∈ l1 → y ∈ l1 → cost_key x = cost_key y → x = y) →
  l1 ≡ₚ l2 → sortCostForDisplay l1 = sortCostForDisplay l2.
Proof.
  intros Hinj Hp. apply (sorted_by_unique cost_lex); [|apply sortCost_sorted..|].
  - intros x y. unfold sortCostForDisplay. rewrite !sort_stable_perm.
    intros Hx Hy E. by apply Hinj, cost_key_equiv.
  - unfold sortCostForDisplay. by rewrite !sort_stable_perm.
Qed.

Definition with_findings (c : Comment) (l : list Finding) : Comment :=
  {| Chart := Chart c; Tenant := Tenant c; Workloads := Workloads c; Findings := l;
     MonthlySavingsUSDCents := MonthlySavingsUSDCents c; AnnualSavingsUSDCents := AnnualSavingsUSDCents c;
     CMode := CMode c; GeneratedAt := GeneratedAt c; OptiqorAnalysisURL := OptiqorAnalysisURL c;
     ApplyFixURL := ApplyFixURL c; UnifiedDiff := UnifiedDiff c; Narrative := Narrative c;
     ProvisionerNote := ProvisionerNote c; SecurityVisible := SecurityVisible c |}.

Definition disclosure (m : Mode) : string :=
  match m with ModeAgent => AccuracyDisclosureAgent | ModeSandbox => AccuracyDisclosureSandbox end.

(** The fenced block the diff [d] is shown in. *)
Definition fenced (d : string) : string :=
  diffFence d +:+ "diff" +:+ nl +:+ d +:+ nl +:+ diffFence d +:+ nl.

Lemma make_view_hidden now c l : SecurityVisible c = false →
  sortCostForDisplay (split l).1 = sortCostForDisplay (split (Findings c)).1 →
  execute (make_view now (with_findings c l)) = execute (make_view now c).
Proof.
  intros Hs E. unfold make_view, execute, comment_head, comment_tail, cost_section, diff_section, security_section.
  cbn. rewrite Hs. cbn in E. by rewrite E.
Qed.

Lemma head_diff v : occurs (diff_section v) (comment_head v).
Proof. unfold comment_head. occurs_in_app (diff_section v). Qed.

Lemma diff_fenced v : VUnifiedDiff v ≠ "" → DiffFence v = diffFence (VUnifiedDiff v) →
  occurs (fenced (VUnifiedDiff v)) (execute v).
Proof.
  intros Hd E. unfold execute. apply occurs_app_l. etrans; [|apply head_diff].
  unfold diff_section, not_empty, fenced. destruct (String.eqb_spec (VUnifiedDiff v) ""); [done|].
  cbn [negb when]. rewrite E. generalize (diffFence (VUnifiedDiff v)), (VUnifiedDiff v). intros f d.
  do 7 apply occurs_app_r. exists "", "</details>". by rewrite <-!sapp_assoc.
Qed.

(** A comment is refused exactly when it has no chart name. Otherwise its text
    is the template with the accuracy disclosure of its mode, whatever the other
    fields hold; a diff that is not blank stands in a code block whose fence does
    not occur in it, so that nothing in the diff can close the block; the cost
    rows are the non-security findings in display order; and with security hidden
    the security findings have no influence on the text, nor has the order of the
    cost findings when their keys differ. *)
Theorem pr_comment_contract (now : Z) (c : Comment) :
  match Render now c with
  | Err ErrNoChart => Chart c = ""
  | Ok out =>
      let d := trim_space (UnifiedDiff c) in
      let cost := (split (Findings c)).1 in
      Chart c ≠ "" ∧
      (∃ head tail, out = head +:+ "> " +:+ disclosure (CMode c) +:+ nl +:+ nl +:+ tail) ∧
      (d ≠ "" → occurs (fenced d) out ∧ str_contains d (diffFence d) = false) ∧
      (cost ≠ [] → occurs (concat_map cost_row (sortCostForDisplay cost)) out) ∧
      sortCostForDisplay cost ≡ₚ cost ∧ sorted_by cost_lex (sortCostForDisplay cost) ∧
      (SecurityVisible c = false →
         (∀ l, (split l).1 = cost → Render now (with_findings c l) = Ok out) ∧
         ((∀ x y, x ∈ cost → y ∈ cost → cost_key x = cost_key y → x = y) →
          ∀ l, (split l).1 ≡ₚ cost → Render now (with_findings c l) = Ok out))
  end.
Proof.
  destruct (String.eqb_spec (Chart c) "") as [E|Hc].
  { unfold Render. by rewrite E. }
  rewrite render_execute by done. cbn zeta. split_and!; [done|..].
  - unfold execute. exists (comment_head (make_view now c)), (comment_tail (make_view now c)).
    unfold make_view, disclosure. cbn [AccuracyDisclosure split]. by destruct (CMode c).
  - intros Hd. split; [|apply diffFence_fresh].
    change (trim_space (UnifiedDiff c)) with (VUnifiedDiff (make_view now c)).
    apply diff_fenced; [done|]. unfold make_view, not_empty. cbn [DiffFence VUnifiedDiff split].
    by destruct (String.eqb_spec (trim_space (UnifiedDiff c)) "").
  - intros Hne. unfold execute. apply occurs_app_l. trans (cost_section (make_view now c)).
    2: { unfold comment_head. occurs_in_app (cost_section (make_view now c)). }
    unfold cost_section. change (CostFindings (make_view now c)) with (sortCostForDisplay (split (Findings c)).1).
    destruct (sortCostForDisplay (split (Findings c)).1) as [|f l] eqn:E.
    { destruct Hne. apply Permutation_nil. rewrite <-E. apply sort_stable_perm. }
    do 14 apply occurs_app_r. apply occurs_app_l, occurs_refl.
  - apply sort_stable_perm.
  - apply sortCost_sorted.
  - intros Hs. split.
    + intros l E. rewrite render_execute by done. by rewrite make_view_hidden; rewrite ?E.
    + intros Hinj l Hp. rewrite render_execute by done. rewrite make_view_hidden; [done..|].
      symmetry. apply sortCost_perm; [done|by symmetry].
Qed.
