(* ===== verification/Render.v ===== *)
(** [internal/render] (text.go, style/style.go) and the text renderers of
    [internal/analyze] (diff_render.go, score_render.go).  The styling library
    (lipgloss) is a parameter: a theme is a function that styles a string. *)

From Stdlib Require Import Ascii QArith.
From S2P Require Import Prelude GoNum GoStr Utf8 Quantity Helm Rules CostDetectors AllRules Analyze Diff.
Local Open Scope Z_scope.

(** ** style.go *)

(** The styles of [Theme], by field name. *)
Inductive Style :=
| sBrand | sBrandMark | sTagline | sCardBorder | sBarFilled | sBarEmpty | sBarOverflow
| sSectionPrimary | sSectionBonus | sSectionSubtle | sSevHigh | sSevMed | sSevLow | sSevInfo
| sConfHigh | sConfMed | sConfLow | sWorkload | sTitle | sDetail | sSavings | sBigSavings
| sMuted | sDivider | sDisclosure | sCallToLink | sOK.

Record Theme := {
  UseColor : bool;
  Render : Style → string → string;
  (** a severity style with its background as foreground, no padding *)
  RenderWord : Style → string → string;
}.

Definition BrandGlyph : string := "◐".

Definition Hyperlink (t : Theme) (label url : string) : string :=
  if negb (UseColor t) then label +:+ " (" +:+ url +:+ ")"
  else let esc := bytes [27%nat] in
       esc +:+ "]8;;" +:+ url +:+ esc +:+ "\" +:+ label +:+ esc +:+ "]8;;" +:+ esc +:+ "\".

Definition repeat (s : string) (n : Z) : string := if n <=? 0 then "" else str_repeat s (Z.to_nat n).

Definition DividerLine (t : Theme) (width : Z) : string :=
  let width := if width <=? 0 then 64 else width in
  Render t sDivider (repeat "─" width).

Definition SignalBar `{GoPlatform} (t : Theme) (have want : float64) (width : Z) : string :=
  let width := if width <=? 0 then 20 else width in
  let zero := f_of_Z 0 in
  if f_le want zero then Render t sBarEmpty (repeat "░" width) else
  let ratio := f_div have want in
  let ratio := if f_lt ratio zero then zero else ratio in
  if f_le ratio (f_of_Z 1) then
    let filled := f_to_i64 (f_add (f_mul ratio (f_of_Z width)) (f_const (1 # 2)%Q)) in
    let filled := if width <? filled then width else filled in
    Render t sBarFilled (repeat "█" filled) +:+ Render t sBarEmpty (repeat "░" (i64_sub width filled))
  else Render t sBarOverflow (repeat "█" width).

Definition SectionRule (t : Theme) (label : string) (width : Z) (accent : Style) : string :=
  let width := if width <=? 0 then 64 else width in
  let prefix := "━━ " in
  let consumed := rune_count (prefix +:+ label +:+ " ") in
  let remaining := width - consumed in
  let remaining := if remaining <? 4 then 4 else remaining in
  Render t accent (prefix +:+ label +:+ " ") +:+ Render t accent (repeat "━" remaining).

Definition SeverityBadge (t : Theme) (sev : string) : string :=
  if String.eqb sev "HIGH" then Render t sSevHigh " HIGH "
  else if String.eqb sev "MED" then Render t sSevMed " MED  "
  else if String.eqb sev "LOW" then Render t sSevLow " LOW  "
  else Render t sSevInfo " INFO ".

Definition ConfidenceDots (t : Theme) (conf : string) : string :=
  if String.eqb conf "high" then Render t sConfHigh "●●●" +:+ " " +:+ Render t sMuted "high"
  else if String.eqb conf "medium" then
    Render t sConfMed "●●" +:+ Render t sMuted "○" +:+ " " +:+ Render t sMuted "medium"
  else if String.eqb conf "low" then
    Render t sConfLow "●" +:+ Render t sMuted "○○" +:+ " " +:+ Render t sMuted "low"
  else Render t sMuted "○○○ unknown".

Definition ConfidenceGlyph (t : Theme) (conf : string) : string :=
  if String.eqb conf "high" then Render t sConfHigh "●●●"
  else if String.eqb conf "medium" then Render t sConfMed "●●" +:+ Render t sMuted "○"
  else if String.eqb conf "low" then Render t sConfLow "●" +:+ Render t sMuted "○○"
  else Render t sMuted "○○○".

(** ** text.go: strings *)

Definition nl : string := bytes [10%nat].

Definition AccuracyDisclosure : string :=
  "Sandbox accuracy: ±40%. Install the Optiqor agent for exact numbers (optiqor.dev/get).".
Definition BrandName : string := "optiqor".
Definition BrandTagline : string := "Helm chart cost optimization · security as a bonus".
Definition GetURL : string := "https://optiqor.dev/get".
Definition defaultWidth : Z := 78.
Definition contentIndent : string := "  ".
Definition findingIndent : string := "    ".
Definition monthsPerYear : Z := 12.
Definition annualTeaserMin : Z := 100.
Definition bonusSectionName : string := "Security findings".
Definition costSectionName : string := "Cost optimizations".
Definition cardMinInner : Z := 50.
Definition signalBarWidth : Z := 24.

Record Options := {
  OColor : bool;
  OWidth : Z;
  ORoast : bool;
  RoastTagline : string;
  RoastFooter : string;
}.

(** [fmt.Sprintf("%02d", n)]: the sign counts towards the width. *)
Definition fmt_02d (n : Z) : string :=
  if n <? 0 then "-" +:+ pad_left 1 (itoa (- n)) else pad_left 2 (itoa n).

Definition formatCents (c : Z) : string :=
  let dollars := Z.quot c 100 in
  let cents := Z.rem c 100 in
  if cents =? 0 then itoa dollars else itoa dollars +:+ "." +:+ fmt_02d cents.

Definition plural (n : Z) (singular pluralForm : string) : string :=
  itoa n +:+ " " +:+ (if n =? 1 then singular else pluralForm).

Definition len (s : string) : Z := Z.of_nat (String.length s).

(** One word of the wrapping loop: the finished lines and the current one. *)
Definition wrap_step (width : Z) (st : list string * string) (w : string) : list string * string :=
  let '(lines, cur) := st in
  if len cur =? 0 then (lines, w)
  else if width <? len cur + 1 + len w then (lines ++ [cur], w)
  else (lines, cur +:+ " " +:+ w).

Definition wrap (s : string) (width : Z) : list string :=
  if (width <=? 0) || (rune_count s <=? width) then (if String.eqb s "" then [] else [s]) else
  let '(lines, cur) := foldl (wrap_step width) ([], "") (strings_Fields s) in
  if 0 <? len cur then lines ++ [cur] else lines.

Definition truncate (s : string) (width : Z) : string :=
  if width <=? 0 then "" else
  let r := runes s in
  if Z.of_nat (length r) <=? width then s
  else if width =? 1 then "…"
  else string_of_runes (take (Z.to_nat (width - 1)) r) +:+ "…".

Definition padRight (s : string) (width : Z) : string :=
  if width <=? rune_count s then s else s +:+ repeat " " (width - rune_count s).

(** ** visibleRuneCount *)

(** Skips the parameters of a CSI sequence and its final letter. *)
Fixpoint skip_csi (r : list Z) : list Z :=
  match r with
  | [] => []
  | c :: r => if (c <? 64) || (126 <? c) then skip_csi r else r
  end.

(** Skips an OSC sequence up to BEL or ESC backslash. *)
Fixpoint skip_osc (r : list Z) : list Z :=
  match r with
  | [] => []
  | c :: r' =>
      if c =? 7 then r'
      else match r' with
           | c2 :: r'' => if (c =? 27) && (c2 =? 92) then r'' else skip_osc r'
           | [] => []
           end
  end.

Fixpoint visible_fuel (fuel : nat) (r : list Z) : Z :=
  match fuel, r with
  | S fuel, c :: rest =>
      if negb (c =? 27) then 1 + visible_fuel fuel rest
      else match rest with
           | c1 :: rest' =>
               if c1 =? 91 then visible_fuel fuel (skip_csi rest')
               else if c1 =? 93 then visible_fuel fuel (skip_osc rest')
               else visible_fuel fuel rest'
           | [] => 0
           end
  | _, _ => 0
  end.
Definition visibleRuneCount (s : string) : Z := visible_fuel (length (runes s)) (runes s).

(** ** text.go: sections *)

Definition render_severityRank (s : string) : Z :=
  if String.eqb s SeverityHigh then 3 else if String.eqb s SeverityMed then 2
  else if String.eqb s SeverityLow then 1 else 0.

(** (cost, security); anything that is not security counts as cost. *)
Definition splitByCategory (findings : list Finding) : list Finding * list Finding :=
  (List.filter (λ f, negb (String.eqb (FCategory f) CategorySecurity)) findings,
   List.filter (λ f, String.eqb (FCategory f) CategorySecurity) findings).

Definition cost_less (a b : Finding) : bool :=
  if negb (eqb (0 <? MonthlyUSDCents a) (0 <? MonthlyUSDCents b))
  then MonthlyUSDCents b <? MonthlyUSDCents a
  else if negb (MonthlyUSDCents a =? MonthlyUSDCents b)
  then MonthlyUSDCents b <? MonthlyUSDCents a
  else if negb (String.eqb (FSeverity a) (FSeverity b))
  then render_severityRank (FSeverity b) <? render_severityRank (FSeverity a)
  else if negb (String.eqb (FWorkload a) (FWorkload b))
  then String.ltb (FWorkload a) (FWorkload b)
  else String.ltb (DetectorID a) (DetectorID b).

Definition sortCostForDisplay (l : list Finding) : list Finding := sort_stable cost_less l.

Definition writeHeader (t : Theme) (width : Z) (opts : Options) : string :=
  let div := DividerLine t width in
  let taglineText :=
    if ORoast opts && negb (String.eqb (RoastTagline opts) "") then RoastTagline opts else BrandTagline in
  div +:+ nl +:+
  contentIndent +:+ Render t sBrandMark BrandGlyph +:+ "  " +:+ Render t sBrand BrandName +:+ nl +:+
  contentIndent +:+ Render t sTagline taglineText +:+ nl +:+
  div +:+ nl +:+ nl.

Definition costSummaryValue (t : Theme) (count monthlyCents : Z) : string :=
  if count =? 0 then Render t sOK "✓ no cost waste detected" else
  let primary := Render t sTitle (plural count "optimization" "optimizations") in
  if monthlyCents <=? 0 then primary else
  let monthly := Render t sBigSavings ("save ~$" +:+ formatCents monthlyCents +:+ "/mo") in
  let suffix :=
    if annualTeaserMin <=? monthlyCents
    then Render t sMuted (" (~$" +:+ formatCents (i64_mul monthlyCents monthsPerYear) +:+ "/yr)")
    else "" in
  primary +:+ Render t sMuted " · " +:+ monthly +:+ suffix +:+ Render t sMuted " ±40%".

Definition summary_rows (t : Theme) (r : Report) (costCount secCount : Z) : list (string * string) :=
  let srcLabel := if String.eqb (Source r) "" then "(stdin)" else Source r in
  [ ("Source", Render t sWorkload srcLabel);
    ("Workloads", Render t sTitle (plural (Workloads r) "workload" "workloads") +:+
                  Render t sMuted " analyzed");
    ("Cost", costSummaryValue t costCount (MonthlySavingsUSDCents r)) ] ++
  (if 0 <? secCount
   then [("Security", Render t sMuted (plural secCount "finding" "findings" +:+
                                       " — bonus, surfaced while parsing"))]
   else []).

Definition max_runes (l : list string) : Z := foldl (λ m s, Z.max m (rune_count s)) 0 l.

Definition writeSummary (t : Theme) (r : Report) (costCount secCount : Z) : string :=
  let rows := summary_rows t r costCount secCount in
  let labelWidth := max_runes rows.*1 in
  foldr String.append ""
    ((λ row, contentIndent +:+
        Render t sMuted (row.1 +:+ repeat " " (labelWidth - rune_count row.1)) +:+ "   " +:+
        row.2 +:+ nl) <$> rows).

(** [strings.SplitN(label, " · ", 2)]: the parts around the first separator. *)
Fixpoint split_dot (acc s : string) : option (string * string) :=
  match strip_prefix " · " s with
  | Some rest => Some (acc, rest)
  | None => match s with
            | EmptyString => None
            | String c s => split_dot (acc +:+ String c "") s
            end
  end.

Definition stylizeSeverityWord (t : Theme) (sev label : string) : string :=
  match split_dot "" label with
  | None => Render t sCardBorder label
  | Some (sevTok, rest) =>
      let word s := if String.eqb sev SeverityHigh then RenderWord t sSevHigh s
                    else if String.eqb sev SeverityMed then RenderWord t sSevMed s
                    else if String.eqb sev SeverityLow then RenderWord t sSevLow s
                    else RenderWord t sMuted s in
      word sevTok +:+ Render t sCardBorder (" · " +:+ rest)
  end.

(** The label runes kept and the number of dashes between the labels. *)
Definition header_geometry (left right : list Z) (innerWidth : Z) : list Z * Z :=
  let lr := Z.of_nat (length right) in
  let leftRunes :=
    if innerWidth <? Z.of_nat (length left) + lr
    then take (Z.to_nat (Z.max 4 (innerWidth - lr))) left else left in
  let gap := innerWidth - Z.of_nat (length leftRunes) - lr in
  (leftRunes, if gap <? 1 then 1 else gap).

Definition writeCardHeaderRule (t : Theme) (sev left right : string) (innerWidth : Z) : string :=
  let '(leftRunes, gap) := header_geometry (runes left) (runes right) innerWidth in
  contentIndent +:+ Render t sCardBorder "┌─" +:+
  stylizeSeverityWord t sev (string_of_runes leftRunes) +:+
  Render t sCardBorder (repeat "─" gap) +:+
  Render t sSavings (string_of_runes (runes right)) +:+
  Render t sCardBorder "─┐" +:+ nl.

Definition cardLine (t : Theme) (innerWidth : Z) (content : string) : string :=
  let visible := visibleRuneCount content in
  let '(content, visible) :=
    if innerWidth <? visible then (truncate content innerWidth, innerWidth) else (content, visible) in
  contentIndent +:+ Render t sCardBorder "│" +:+ " " +:+ content +:+
  repeat " " (innerWidth - visible) +:+ " " +:+ Render t sCardBorder "│" +:+ nl.

Definition finding_title (f : Finding) : string :=
  if String.eqb (Title f) "" && negb (String.eqb (DetectorID f) "") then DetectorID f else Title f.

Section Text.
Context `{GoPlatform}.

Definition formatSignalLine (t : Theme) (s : Signal) : string :=
  let bar := SignalBar t (Have s) (Want s) signalBarWidth in
  let label := if String.eqb (Label s) "" then "ratio" else Label s in
  let note := if String.eqb (SigNote s) "" then "" else "   " +:+ Render t sMuted (SigNote s) in
  Render t sMuted (padRight label 8) +:+ " " +:+ Render t sDetail (padRight (HaveDisplay s) 6) +:+
  " " +:+ bar +:+ " " +:+ Render t sDetail (WantDisplay s) +:+ note.

Definition writeCostFindingFlat (t : Theme) (f : Finding) (width : Z) : string :=
  let badge := SeverityBadge t (FSeverity f) in
  let wl := Render t sWorkload (FWorkload f) in
  (if 0 <? MonthlyUSDCents f
   then contentIndent +:+ badge +:+ "  " +:+ wl +:+ "   " +:+
        Render t sSavings ("save ~$" +:+ formatCents (MonthlyUSDCents f) +:+ "/mo") +:+ nl
   else contentIndent +:+ badge +:+ "  " +:+ wl +:+ nl) +:+
  findingIndent +:+ Render t sTitle (finding_title f) +:+ nl +:+
  (match FSignal f with
   | Some s => findingIndent +:+ formatSignalLine t s +:+ nl
   | None => ""
   end) +:+
  foldr String.append ""
    ((λ line, findingIndent +:+ Render t sDetail line +:+ nl) <$>
       wrap (Detail f) (width - len findingIndent)) +:+
  findingIndent +:+ Render t sMuted "confidence:" +:+ " " +:+ ConfidenceDots t (FConfidence f) +:+ nl.

Definition writeCostFinding (t : Theme) (f : Finding) (width : Z) : string :=
  let innerWidth := width - len contentIndent - 4 in
  if innerWidth <? cardMinInner then writeCostFindingFlat t f width else
  let left := " " +:+ trim_space (FSeverity f) +:+ " · " +:+ FWorkload f +:+ " " in
  let right := if 0 <? MonthlyUSDCents f
               then " save ~$" +:+ formatCents (MonthlyUSDCents f) +:+ "/mo " else "" in
  writeCardHeaderRule t (FSeverity f) left right innerWidth +:+
  cardLine t innerWidth "" +:+
  cardLine t innerWidth (Render t sTitle (finding_title f)) +:+
  (match FSignal f with
   | Some s => cardLine t innerWidth "" +:+ cardLine t innerWidth (formatSignalLine t s)
   | None => ""
   end) +:+
  cardLine t innerWidth "" +:+
  foldr String.append ""
    ((λ line, cardLine t innerWidth (Render t sDetail line)) <$> wrap (Detail f) (innerWidth - 2)) +:+
  cardLine t innerWidth "" +:+
  cardLine t innerWidth (Render t sMuted "confidence:" +:+ " " +:+ ConfidenceDots t (FConfidence f)) +:+
  contentIndent +:+ Render t sCardBorder ("└" +:+ repeat "─" (innerWidth + 2) +:+ "┘") +:+ nl.

(** [join nl]: a blank line between findings, none after the last. *)
Definition writeCostSection (t : Theme) (width : Z) (findings : list Finding) : string :=
  nl +:+ SectionRule t costSectionName width sSectionPrimary +:+ nl +:+ nl +:+
  join nl ((λ f, writeCostFinding t f width) <$> findings) +:+ nl.

Definition writeSecurityFinding (t : Theme) (f : Finding) (workloadColWidth : Z) : string :=
  let wl := truncate (FWorkload f) workloadColWidth in
  let wlPadded := wl +:+ repeat " " (workloadColWidth - rune_count wl) in
  contentIndent +:+ SeverityBadge t (FSeverity f) +:+ "  " +:+ Render t sWorkload wlPadded +:+ "   " +:+
  ConfidenceGlyph t (FConfidence f) +:+ "   " +:+ Render t sDetail (finding_title f) +:+ nl.

Definition writeSecuritySection (t : Theme) (width : Z) (findings : list Finding) : string :=
  let label := bonusSectionName +:+ "  (bonus, " +:+ itoa (Z.of_nat (length findings)) +:+ ")" in
  let maxWorkload := max_runes (FWorkload <$> findings) in
  let maxWorkload := if 24 <? maxWorkload then 24 else maxWorkload in
  nl +:+ SectionRule t label width sSectionBonus +:+ nl +:+
  contentIndent +:+
  Render t sSectionSubtle "Spotted while parsing your chart. Cost is the headline; this is a bonus." +:+
  nl +:+ nl +:+
  foldr String.append "" ((λ f, writeSecurityFinding t f maxWorkload) <$> findings) +:+
  nl +:+ contentIndent +:+
  Render t sMuted "Run `optiqor audit` to focus only on these findings." +:+ nl +:+ nl.

Definition writeFooter (t : Theme) (width totalCents : Z) (opts : Options) : string :=
  DividerLine t width +:+ nl +:+
  (if 0 <? totalCents
   then contentIndent +:+ Render t sMuted "estimated monthly savings:" +:+ " " +:+
        Render t sBigSavings ("$" +:+ formatCents totalCents +:+ "/mo") +:+ "   " +:+
        Render t sMuted "(±40%)" +:+ nl
   else "") +:+
  contentIndent +:+ Render t sDisclosure AccuracyDisclosure +:+ nl +:+
  contentIndent +:+ Render t sMuted "→ install the agent for exact numbers:" +:+ " " +:+
  Hyperlink t (Render t sCallToLink "optiqor.dev/get") GetURL +:+ nl +:+
  (if ORoast opts && negb (String.eqb (RoastFooter opts) "")
   then contentIndent +:+ Render t sTagline (RoastFooter opts) +:+ nl else "").

(** What [Text] writes; [newTheme] is [style.NewTheme]. *)
Definition Text (newTheme : bool → Theme) (r : Report) (opts : Options) : string :=
  let t := newTheme (OColor opts) in
  let width := if OWidth opts <=? 0 then defaultWidth else OWidth opts in
  let '(cost, security) := splitByCategory (Findings r) in
  let ncost := Z.of_nat (length cost) in
  let nsec := Z.of_nat (length security) in
  writeHeader t width opts +:+ writeSummary t r ncost nsec +:+
  (if (ncost =? 0) && (nsec =? 0) then
     nl +:+ contentIndent +:+ Render t sOK "✓ Clean. No findings." +:+ nl +:+ nl +:+
     writeFooter t width 0 opts
   else
     (if 0 <? ncost then writeCostSection t width (sortCostForDisplay cost) else "") +:+
     (if 0 <? nsec then writeSecuritySection t width security else "") +:+
     writeFooter t width (MonthlySavingsUSDCents r) opts).
End Text.

(** ** diff_render.go *)

Definition absInt (x : Z) : Z := if x <? 0 then i64_neg x else x.

Definition styleDelta (t : Theme) (magnitude : string) (delta : Z) : string :=
  if delta =? 0 then Render t sMuted "0"
  else if delta <? 0 then Render t sSavings ("-" +:+ magnitude)
  else Render t sDisclosure ("+" +:+ magnitude).

Definition set_quantity (v : Z) : Quantity := {| Value := v; IsSet := true; Original := "" |}.

(** [sign+"$"+formatCents(absInt(x))+"/mo"] in green or amber. *)
Definition signed_money (t : Theme) (x : Z) : string :=
  if x <? 0 then Render t sSavings ("-" +:+ "$" +:+ formatCents (absInt x) +:+ "/mo")
  else Render t sDisclosure ("+" +:+ "$" +:+ formatCents (absInt x) +:+ "/mo").

Definition delta_row (t : Theme) (label magnitude : string) (delta : Z) : string :=
  "    " +:+ Render t sMuted label +:+ " " +:+ styleDelta t magnitude delta +:+ nl.

Definition writeDiffEntry (t : Theme) (e : DiffEntry) : string :=
  let tag := if NewWorkload e then Render t sSevMed " NEW   "
             else if RemovedWorkload e then Render t sSevLow " REM   "
             else Render t sSevInfo " CHG   " in
  let cpu d := FormatCPU (set_quantity (absInt d)) in
  let mem d := FormatMemory (set_quantity (absInt d)) in
  "  " +:+ tag +:+ "  " +:+ Render t sWorkload (EName e) +:+ nl +:+
  delta_row t "cpu req:" (cpu (CPURequestDelta e)) (CPURequestDelta e) +:+
  delta_row t "cpu lim:" (cpu (CPULimitDelta e)) (CPULimitDelta e) +:+
  delta_row t "mem req:" (mem (MemoryRequestDelta e)) (MemoryRequestDelta e) +:+
  delta_row t "mem lim:" (mem (MemoryLimitDelta e)) (MemoryLimitDelta e) +:+
  (if negb (MonthlyUSDCentsDelta e =? 0)
   then "    " +:+ Render t sMuted "est. delta:" +:+ " " +:+ signed_money t (MonthlyUSDCentsDelta e) +:+ nl
   else "").

Definition DiffReport_WriteText (newTheme : bool → Theme) (r : DiffReport) (opts : Options) : string :=
  let t := newTheme (OColor opts) in
  let width := if OWidth opts <=? 0 then 72 else OWidth opts in
  let total := DiffReport_MonthlyUSDCentsDelta r in
  DividerLine t width +:+ nl +:+
  "  " +:+ Render t sBrand "optiqor diff" +:+ "   " +:+
  Render t sTagline "compare two Helm values files" +:+ nl +:+
  DividerLine t width +:+ nl +:+ nl +:+
  "  " +:+ Render t sMuted "a:" +:+ " " +:+ Render t sWorkload (DA r) +:+ nl +:+
  "  " +:+ Render t sMuted "b:" +:+ " " +:+ Render t sWorkload (DB r) +:+ nl +:+ nl +:+
  (match Entries r with
   | [] => "  " +:+ Render t sOK "✓ No workload changes." +:+ nl +:+ nl
   | es => join nl (writeDiffEntry t <$> es) +:+ nl
   end) +:+
  DividerLine t width +:+ nl +:+
  (if negb (total =? 0)
   then "  " +:+ Render t sMuted "net monthly delta:" +:+ " " +:+ signed_money t total +:+ "   " +:+
        Render t sMuted "(±40%)" +:+ nl
   else "") +:+
  "  " +:+ Render t sDisclosure AccuracyDisclosure +:+ nl.

(** ** score_render.go *)

Definition scoreDefaultWidth : Z := 78.

Definition writeScoreHeader (t : Theme) (width : Z) : string :=
  let div := DividerLine t width in
  div +:+ nl +:+
  "  " +:+ Render t sBrandMark BrandGlyph +:+ "  " +:+ Render t sBrand "optiqor score" +:+ "   " +:+
  Render t sTagline "Helm chart efficiency grade" +:+ nl +:+ div +:+ nl +:+ nl.

Definition writeScoreSource (t : Theme) (s : Score) : string :=
  let srcLabel := if String.eqb (SSource s) "" then "(stdin)" else SSource s in
  "  " +:+ Render t sMuted "Source     " +:+ " " +:+ Render t sWorkload srcLabel +:+ nl +:+
  "  " +:+ Render t sMuted "Workloads  " +:+ " " +:+
  Render t sTitle (itoa (SWorkloads s) +:+ " analyzed") +:+ nl +:+ nl.

Definition gradeBadge (value : Z) : Style :=
  if value <? 60 then sSevHigh else if value <? 85 then sSevMed else sSevLow.

Definition writeScoreGradeRow (t : Theme) (s : Score) : string :=
  let g := SGrade s in
  "  " +:+ Render t sMuted "Grade      " +:+ " " +:+
  Render t (gradeBadge (SValue s)) (" " +:+ Letter g +:+ " ") +:+ "   " +:+
  Render t sTitle ("better than " +:+ itoa (PercentileRank g) +:+ "% of " +:+ itoa (Sample g) +:+
                   " benchmark charts") +:+ nl.

Definition writeScoreNumericRow (t : Theme) (s : Score) : string :=
  "  " +:+ Render t sMuted "Score      " +:+ " " +:+ Render t sTitle (itoa (SValue s) +:+ " / 100") +:+
  "   " +:+ ConfidenceDots t (Band s) +:+ nl +:+ nl.

Definition maxInt (a b : Z) : Z := if b <? a then a else b.

(** [sort.Strings] of the keys has one result, since they are distinct. *)
Definition sorted_ids (m : gmap string Z) : list string :=
  sort_stable String.ltb (map_to_list m).*1.

Definition writeScorePenalties (t : Theme) (s : Score) : string :=
  if (size (Penalties s) =? 0)%nat then "" else
  "  " +:+ Render t sTitle "Penalty breakdown" +:+ nl +:+
  foldr String.append ""
    ((λ det, "    " +:+ Render t sMuted det +:+ repeat " " (maxInt 2 (32 - len det)) +:+ "   " +:+
        Render t sDisclosure ("-" +:+ itoa (default 0 (Penalties s !! det))) +:+ nl) <$>
     sorted_ids (Penalties s)) +:+ nl.

Definition writeScoreFooter (t : Theme) (width : Z) : string :=
  DividerLine t width +:+ nl +:+
  "  " +:+ Render t sDisclosure AccuracyDisclosure +:+ nl +:+
  "  " +:+ Render t sMuted "Calibration:" +:+ " " +:+
  Render t sMuted
    "static benchmark distribution; agent install unlocks live percentile vs your fleet." +:+ nl.

Definition Score_WriteText (newTheme : bool → Theme) (s : Score) (opts : Options) : string :=
  let t := newTheme (OColor opts) in
  let width := if OWidth opts <=? 0 then scoreDefaultWidth else OWidth opts in
  writeScoreHeader t width +:+ writeScoreSource t s +:+ writeScoreGradeRow t s +:+
  writeScoreNumericRow t s +:+ writeScorePenalties t s +:+ writeScoreFooter t width.

(** ** The disclosure is always printed *)

(** Walks down a right-nested concatenation to the part proved by [tac]. *)
Ltac find_part tac :=
  repeat first [ tac | apply str_contains_app_l; tac | apply str_contains_app_r ].

Lemma contains_footer t width cents opts :
  str_contains (Render t sDisclosure AccuracyDisclosure) AccuracyDisclosure = true →
  str_contains (writeFooter t width cents opts) AccuracyDisclosure = true.
Proof. intros H. unfold writeFooter. find_part ltac:(exact H). Qed.

(** Every text output of the tool (analyze and audit reports, diff, score;
    coloured or not, roasted or not, with or without findings) contains the
    exact accuracy disclosure, as long as the theme's disclosure style keeps
    the text it styles. *)
Theorem disclosure_always_printed `{GoPlatform} (newTheme : bool → Theme)
    (Hstyle : ∀ c, str_contains (Render (newTheme c) sDisclosure AccuracyDisclosure)
                     AccuracyDisclosure = true)
    (r : Report) (d : DiffReport) (s : Score) (opts : Options) :
  str_contains (Text newTheme r opts) AccuracyDisclosure = true ∧
  str_contains (DiffReport_WriteText newTheme d opts) AccuracyDisclosure = true ∧
  str_contains (Score_WriteText newTheme s opts) AccuracyDisclosure = true.
Proof.
  split_and!.
  - unfold Text. destruct (splitByCategory (Findings r)) as [cost security]. cbv zeta.
    do 2 apply str_contains_app_r.
    destruct (_ && _); find_part ltac:(apply contains_footer, Hstyle).
  - unfold DiffReport_WriteText. cbv zeta. find_part ltac:(apply Hstyle).
  - unfold Score_WriteText, writeScoreFooter. cbv zeta. find_part ltac:(apply Hstyle).
Qed.

(** lipgloss without colour: text is unchanged. *)
Definition plain_theme (c : bool) : Theme :=
  {| UseColor := c; Render := λ _ s, s; RenderWord := λ _ s, s |}.

Definition plain_options : Options :=
  {| OColor := false; OWidth := 0; ORoast := false; RoastTagline := ""; RoastFooter := "" |}.

Lemma disclosure_always_printed_witness :
  let P := amd64 in
  let r := {| Source := "values.yaml"; Workloads := 2;
              Findings := Run [sample_api; sample_web] All |} in
  str_contains (Text plain_theme r plain_options) AccuracyDisclosure = true.
Proof.
  intros P r.
  apply (@disclosure_always_printed amd64 plain_theme ltac:(intros []; vm_compute; reflexivity) r
    {| DA := ""; DB := ""; Entries := [] |} (Score_Compute "" 0 []) plain_options).
Defined.

(** ** Word wrap *)

Lemma runes_fuel_length fuel s : (length (runes_fuel fuel s) <= String.length s)%nat.
Proof.
  revert s. induction fuel as [|fuel IH]; intros [|c s]; simpl; try lia.
  destruct (decode_rune (byte_val c) s) as [r rest] eqn:E. simpl.
  apply decode_rune_shorter in E. specialize (IH rest). lia.
Qed.

(** A string has at most as many runes as bytes. *)
Lemma rune_count_len s : rune_count s <= len s.
Proof. unfold rune_count, len, runes. pose proof (runes_fuel_length (String.length s) s). lia. Qed.

Lemma fields_fuel_nonempty fuel cur s : Forall (λ w, w ≠ "") (fields_fuel fuel cur s).
Proof.
  revert cur s. induction fuel as [|fuel IH]; intros cur s; cbn [fields_fuel].
  - destruct (String.eqb_spec cur ""); repeat constructor; done.
  - destruct s as [|c s].
    + destruct (String.eqb_spec cur ""); repeat constructor; done.
    + destruct (strip_any space_runes (String c s)); [|apply IH].
      apply Forall_app. split; [|apply IH].
      destruct (String.eqb_spec cur ""); repeat constructor; done.
Qed.

Lemma join_snoc sep l x : l ≠ [] → join sep (l ++ [x]) = join sep l +:+ sep +:+ x.
Proof.
  induction l as [|y l IH]; [done|]. intros _. destruct l as [|z l]; [done|].
  change (join sep ((y :: z :: l) ++ [x])) with (y +:+ sep +:+ join sep ((z :: l) ++ [x])).
  change (join sep (y :: z :: l)) with (y +:+ sep +:+ join sep (z :: l)).
  rewrite IH by done. by rewrite !sapp_assoc.
Qed.

(** What holds after the words [ws] have been laid out. *)
Definition wrap_inv (width : Z) (ws : list string) (st : list string * string) : Prop :=
  if decide (ws = []) then st = ([], "")
  else st.2 ≠ "" ∧ join " " (st.1 ++ [st.2]) = join " " ws ∧
       Forall (λ l, l ≠ "" ∧ (len l <= width ∨ l ∈ ws)) (st.1 ++ [st.2]).

Lemma len_pos s : s ≠ "" → 0 < len s.
Proof. destruct s; [done|]. unfold len. simpl. lia. Qed.

Lemma len_app s t : len (s +:+ t) = len s + len t.
Proof. unfold len. induction s as [|c s IH]; [done|]. rewrite sapp_cons. simpl. lia. Qed.

Lemma wrap_step_inv width ws st w : w ≠ "" → wrap_inv width ws st →
  wrap_inv width (ws ++ [w]) (wrap_step width st w).
Proof.
  intros Hw Hinv. unfold wrap_inv in *. rewrite (decide_False (P := ws ++ [w] = [])) by (by destruct ws).
  case_decide as Hws.
  - subst. cbn. split_and!; [done|done|]. apply Forall_singleton; split; [done|right; set_solver].
  - destruct st as [lines cur]. cbn [fst snd] in *. destruct Hinv as (Hc&Hj&Hf).
    pose proof (len_pos _ Hc). unfold wrap_step.
    rewrite (proj2 (Z.eqb_neq (len cur) 0)) by lia.
    assert (Forall (λ l, l ≠ "" ∧ (len l <= width ∨ l ∈ ws ++ [w])) (lines ++ [cur])) as Hf'.
    { eapply Forall_impl; [exact Hf|]. intros l [? [?|?]]; split; [done|by left|done|right; set_solver]. }
    destruct (Z.ltb_spec width (len cur + 1 + len w)) as [Hlt|Hle]; cbn [fst snd].
    + split_and!; [done| |].
      * rewrite (join_snoc " " (lines ++ [cur])) by (by destruct lines).
        rewrite (join_snoc " " ws) by done. by rewrite Hj.
      * apply Forall_app. split; [done|]. apply Forall_singleton; split; [done|right; set_solver].
    + assert (cur +:+ " " +:+ w ≠ "") by (by destruct cur). split_and!; [done| |].
      * rewrite (join_snoc " " ws) by done. rewrite <-Hj.
        destruct lines as [|l lines]; [done|]. rewrite !(join_snoc " " (l :: lines)) by done.
        by rewrite !sapp_assoc.
      * apply Forall_app in Hf' as [Hl _]. apply Forall_app. split; [done|].
        apply Forall_singleton; split; [done|left]. rewrite !len_app. change (len " ") with 1. lia.
Qed.

Lemma wrap_fold_inv width ws : Forall (λ w, w ≠ "") ws →
  wrap_inv width ws (foldl (wrap_step width) ([], "") ws).
Proof.
  induction ws as [|w ws IH] using rev_ind; intros Hws; [done|].
  apply Forall_app in Hws as [Hws [Hw _]%Forall_cons_1].
  rewrite foldl_app. cbn [foldl]. apply wrap_step_inv; [exact Hw|by apply IH].
Qed.

(** [wrap] loses no word and cuts none: joining its lines with spaces gives
    the text itself when it fits, and otherwise its words joined with spaces;
    no line is empty, and a line is wider than asked only if it is a single
    word that does not fit. *)
Theorem wrap_spec (s : string) (width : Z) (Hw : 0 < width) :
  Forall (λ l, l ≠ "" ∧ (rune_count l <= width ∨ l ∈ strings_Fields s)) (wrap s width) ∧
  join " " (wrap s width) =
    (if rune_count s <=? width then s else join " " (strings_Fields s)).
Proof.
  unfold wrap. rewrite (proj2 (Z.leb_gt width 0)) by lia. cbn [orb].
  destruct (Z.leb_spec (rune_count s) width) as [Hs|Hs].
  { destruct (String.eqb_spec s "") as [->|]; [by split|].
    split; [apply Forall_singleton; split; [done|by left]|done]. }
  pose proof (wrap_fold_inv width (strings_Fields s) (fields_fuel_nonempty _ _ _)) as Hi.
  destruct (foldl _ _ _) as [lines cur]. unfold wrap_inv in Hi. cbn [fst snd] in Hi.
  case_decide as Hf.
  - simplify_eq. rewrite Hf. split; [constructor|done].
  - destruct Hi as (Hc&Hj&Hl). pose proof (len_pos _ Hc).
    rewrite (proj2 (Z.ltb_lt 0 (len cur))) by done. split; [|done].
    eapply Forall_impl; [exact Hl|]. intros l [Hne [Hle|Hin]]; split; [done|left|done|by right].
    pose proof (rune_count_len l). lia.
Qed.

Lemma wrap_spec_witness :
  wrap "tighten the limit toward observed P95" 12 = ["tighten the"; "limit toward"; "observed P95"] ∧
  join " " (wrap "tighten the limit toward observed P95" 12) = "tighten the limit toward observed P95".
Proof.
  split; [vm_compute; reflexivity|].
  exact (proj2 (wrap_spec "tighten the limit toward observed P95" 12 ltac:(lia))).
Defined.

(** ** Card geometry *)

(** Cells of the header row: two corners and two dashes around the labels.  A
    body row and the bottom rule have [innerWidth + 4]. *)
Definition header_cells (left right : list Z) (innerWidth : Z) : Z :=
  let '(leftRunes, gap) := header_geometry left right innerWidth in
  4 + Z.of_nat (length leftRunes) + gap + Z.of_nat (length right).

(** The top of a card lines up with its body exactly when severity,
    workload and savings leave room for at least one dash.  A longer label is
    cut, but the gap is then forced up to one dash, so the row is one cell
    wider than the card. *)
Theorem card_header_width (left right : list Z) (innerWidth : Z)
    (Hleft : (4 <= length left)%nat) (Hright : Z.of_nat (length right) + 4 <= innerWidth) :
  let fits := Z.of_nat (length left) + Z.of_nat (length right) < innerWidth in
  (fits → (header_geometry left right innerWidth).1 = left ∧
          header_cells left right innerWidth = innerWidth + 4) ∧
  (¬ fits → (header_geometry left right innerWidth).1 `prefix_of` left ∧
            header_cells left right innerWidth = innerWidth + 5).
Proof.
  unfold header_cells, header_geometry. cbv zeta. cbn [fst snd].
  destruct (Z.ltb_spec innerWidth (Z.of_nat (length left) + Z.of_nat (length right))) as [Hlt|Hge].
  - split; [lia|]. intros _. split; [apply prefix_take|].
    rewrite length_take, Z.max_r by lia. case_match; bool_to_prop; lia.
  - split; intros Hfit; (split; [done || apply prefix_refl|]); case_match; bool_to_prop; lia.
Qed.

Lemma card_header_width_witness :
  let left := runes " HIGH · a-workload-with-a-name-long-enough-to-be-cut-by-the-card " in
  (4 <= length left)%nat ∧ header_cells left (runes " save ~$29/mo ") 72 = 77.
Proof.
  intros left. split; [vm_compute; lia|].
  apply (card_header_width left (runes " save ~$29/mo ") 72); vm_compute; intros; (lia || discriminate).
Defined.

(** ** Order of the cost section *)

Definition known_severity (f : Finding) : Prop :=
  FSeverity f ∈ [SeverityHigh; SeverityMed; SeverityLow].

(** [cost_less] on findings with known severities, as a lexicographic order. *)
Definition cost_lex : Finding → Finding → bool :=
  lex_less (λ x y, - MonthlyUSDCents x <? - MonthlyUSDCents y)
    (lex_less (λ x y, - render_severityRank (FSeverity x) <? - render_severityRank (FSeverity y))
       (lex_less (λ x y, String.ltb (FWorkload x) (FWorkload y))
          (λ x y, String.ltb (DetectorID x) (DetectorID y)))).

#[export] Instance cost_lex_sw : StrictWeak cost_lex.
Proof.
  unfold cost_lex. apply lex_less_sw; [apply (Z_less_sw (λ x, - MonthlyUSDCents x))|].
  apply lex_less_sw; [apply (Z_less_sw (λ x, - render_severityRank (FSeverity x)))|].
  apply lex_less_sw; apply string_less_sw.
Qed.

Lemma rank_inj s s' : s ∈ [SeverityHigh; SeverityMed; SeverityLow] →
  s' ∈ [SeverityHigh; SeverityMed; SeverityLow] →
  render_severityRank s = render_severityRank s' → s = s'.
Proof.
  rewrite !elem_of_cons, !elem_of_nil.
  intros [->|[->|[->|[]]]] [->|[->|[->|[]]]]; cbn; done.
Qed.

Lemma cost_less_lex a b : known_severity a → known_severity b → cost_less a b = cost_lex a b.
Proof.
  intros Ha Hb. unfold cost_less, cost_lex, lex_less.
  rewrite <-lex_string, <-lex_Z, <-lex_Z.
  destruct (eqb_spec (0 <? MonthlyUSDCents a) (0 <? MonthlyUSDCents b)) as [_|Hne]; cbn [negb].
  - destruct (negb (MonthlyUSDCents a =? MonthlyUSDCents b)); [done|].
    destruct (String.eqb_spec (FSeverity a) (FSeverity b)) as [->|Hs]; cbn [negb].
    + by rewrite Z.eqb_refl.
    + rewrite (proj2 (Z.eqb_neq _ _)); [done|]. intros E. by apply Hs, rank_inj.
  - destruct (Z.eqb_spec (MonthlyUSDCents a) (MonthlyUSDCents b)) as [E|]; [|done].
    by rewrite E in Hne.
Qed.

Lemma cost_tie a b : equiv_key cost_lex a b = true →
  FWorkload a = FWorkload b ∧ DetectorID a = DetectorID b.
Proof.
  unfold equiv_key, cost_lex, lex_less.
  destruct (- MonthlyUSDCents a <? - MonthlyUSDCents b), (- MonthlyUSDCents b <? - MonthlyUSDCents a);
    try done.
  destruct (- render_severityRank (FSeverity a) <? - render_severityRank (FSeverity b)),
    (- render_severityRank (FSeverity b) <? - render_severityRank (FSeverity a)); try done.
  destruct (String.ltb (FWorkload a) (FWorkload b)) eqn:E1,
    (String.ltb (FWorkload b) (FWorkload a)) eqn:E2; try done.
  destruct (String.ltb (DetectorID a) (DetectorID b)) eqn:E3,
    (String.ltb (DetectorID b) (DetectorID a)) eqn:E4; try done.
  intros _. split; by apply ltb_false_eq.
Qed.

(** The report shows every finding once: cost findings first, largest
    savings leading (ties by severity, workload and detector id), then the
    security findings in engine order; when no two findings share workload and
    detector, the displayed cost order does not depend on the input order. *)
Theorem display_order (fs : list Finding) (Hk : Forall known_severity fs) :
  let cost := (splitByCategory fs).1 in
  let security := (splitByCategory fs).2 in
  let shown := sortCostForDisplay cost in
  shown ++ security ≡ₚ fs ∧
  sublist security fs ∧
  (∀ f, f ∈ security ↔ f ∈ fs ∧ FCategory f = CategorySecurity) ∧
  StronglySorted (λ a b, MonthlyUSDCents b <= MonthlyUSDCents a) shown ∧
  (∀ fs', fs' ≡ₚ fs →
     (∀ f g, f ∈ fs → g ∈ fs → FWorkload f = FWorkload g → DetectorID f = DetectorID g → f = g) →
     sortCostForDisplay (splitByCategory fs').1 = shown).
Proof.
  rewrite Forall_forall in Hk.
  assert (∀ l, (∀ f, f ∈ l → f ∈ fs) → sortCostForDisplay l = sort_stable cost_lex l) as Hext.
  { intros l Hl. apply sort_stable_ext. intros. apply cost_less_lex; auto. }
  assert (∀ (P : Finding → bool) l f, f ∈ List.filter P l → f ∈ l) as Hsub.
  { intros P l f. rewrite !list_elem_of_In, filter_In. tauto. }
  cbn [splitByCategory fst snd]. split_and!.
  - unfold sortCostForDisplay. rewrite sort_stable_perm. clear. induction fs as [|f fs IH]; [done|].
    simpl. destruct (String.eqb (FCategory f) CategorySecurity); simpl.
    + rewrite <-Permutation_middle. by constructor.
    + by constructor.
  - apply filter_sublist_bool.
  - intros f. by rewrite !list_elem_of_In, filter_In, String.eqb_eq.
  - rewrite Hext by eauto.
    match goal with |- StronglySorted _ ?l =>
      assert (sorted_by cost_lex l) as Hs by apply sort_stable_sorted, _ end.
    induction Hs as [|a l Hl IH Ha]; constructor; [done|].
    eapply Forall_impl; [exact Ha|]. intros b Hab. cbv beta in Hab. unfold cost_lex, lex_less in Hab. rewrite orb_false_iff in Hab.
    destruct Hab as [Hab _]. bool_to_prop. lia.
  - intros fs' Hp Hinj. rewrite !Hext by (intros f Hf; apply Hsub in Hf; by rewrite ?Hp in Hf).
    apply (sorted_by_unique cost_lex); [|apply sort_stable_sorted, _..|].
    + intros f g. rewrite !sort_stable_perm. intros Hf Hg Ht. apply cost_tie in Ht as [??].
      apply Hsub in Hf, Hg. rewrite Hp in Hf, Hg. by apply Hinj.
    + by rewrite !sort_stable_perm, Hp.
Qed.

(** Every registered detector reports one of the three severities. *)
Lemma all_known_severity `{GoPlatform} :
  Forall (λ d, ∀ w f, f ∈ DRun d w → known_severity f) All.
Proof.
  unfold All, cost_detectors, security_detectors. simpl.
  repeat (apply Forall_cons_2; [intros w f; open_detector w; intros Hf; try done; subst f;
    unfold known_severity; cbn; rewrite !elem_of_cons; tauto|]).
  apply Forall_nil_2.
Qed.

Lemma run_known_severity `{GoPlatform} ws : Forall known_severity (Run ws All).
Proof.
  apply Forall_forall. intros f. unfold Run. rewrite sort_stable_perm.
  intros (w&d&_&Hd&Hf)%elem_of_collect. unfold detect in Hf.
  apply list_elem_of_fmap in Hf as (g&->&Hg).
  pose proof all_known_severity as Hall. rewrite Forall_forall in Hall.
  unfold known_severity. rewrite (proj2 (proj2 (stamp_fields (Category d) g))).
  by apply (Hall d Hd w).
Qed.

Lemma display_order_witness :
  let P := amd64 in
  let fs := Run [sample_web; sample_api] All in
  StronglySorted (λ a b, MonthlyUSDCents b <= MonthlyUSDCents a)
    (sortCostForDisplay (splitByCategory fs).1).
Proof.
  intros P fs.
  exact (proj1 (proj2 (proj2 (proj2 (display_order fs (@run_known_severity amd64 _)))))).
Defined.
