(* ===== verification/Environment.v ===== *)
(** Environment classification of a cluster and namespace
    (backend/internal/safety/environment/environment.go).

    The Go type [Environment] is a string, and custom rules may name any string.
    A nil map is the empty map: both answer every lookup alike. *)

From S2P Require Import Prelude GoStr.

(** ** Data *)

Definition Environment : Type := string.
Definition EnvProd : Environment := "prod".
Definition EnvStaging : Environment := "staging".
Definition EnvDev : Environment := "dev".
Definition EnvUnknown : Environment := "unknown".

Definition AggressivenessConservative : string := "conservative".
Definition AggressivenessMedium : string := "medium".
Definition AggressivenessAggressive : string := "aggressive".

Record Profile := mkProfile {
  P_Environment : Environment; P_Aggressiveness : string; P_ConfidenceFloor : string;
  P_AutoMergeEligible : bool; P_ManualApproval : bool }.

(** ** Classification *)

Definition canonical (v : string) : Environment :=
  let s := to_lower (trim_space v) in
  if str_mem s ["prod"; "production"] then EnvProd
  else if str_mem s ["stg"; "stage"; "staging"] then EnvStaging
  else if str_mem s ["dev"; "development"] then EnvDev
  else EnvUnknown.

Fixpoint label_loop (labels : gmap string string) (keys : list string) : Environment :=
  match keys with
  | [] => EnvUnknown
  | k :: keys' => match labels !! k with Some v => canonical v | None => label_loop labels keys' end
  end.
Definition envFromLabel (labels : gmap string string) : Environment :=
  label_loop labels ["environment"; "env"; "tier"].

Definition envFromName (name : string) : Environment :=
  let n := to_lower name in
  if has_suffix n "-prod" || has_prefix n "production-" || has_prefix n "prod-"
     || (string_eqb n "prod" || string_eqb n "production") then EnvProd
  else if has_suffix n "-staging" || has_suffix n "-stg" || has_prefix n "staging-"
     || (string_eqb n "staging" || string_eqb n "stg") then EnvStaging
  else if has_suffix n "-dev" || has_prefix n "dev-" || has_prefix n "development-"
     || has_suffix n "-development" || (string_eqb n "dev" || string_eqb n "development") then EnvDev
  else EnvUnknown.

Definition Classify (clusterName : string) (clusterLabels nsLabels : gmap string string)
    (ns : string) (customRules : gmap string Environment) : Environment :=
  let guess :=
    let e1 := envFromLabel clusterLabels in
    if negb (string_eqb e1 EnvUnknown) then e1 else
    let e2 := envFromLabel nsLabels in
    if negb (string_eqb e2 EnvUnknown) then e2 else
    let e3 := envFromName clusterName in
    if negb (string_eqb e3 EnvUnknown) then e3 else
    let e4 := envFromName ns in
    if negb (string_eqb e4 EnvUnknown) then e4 else EnvUnknown in
  match customRules !! ns with
  | Some env => if string_eqb env "" then guess else env
  | None => guess
  end.

Definition ProfileFor (e : Environment) : Profile :=
  if string_eqb e EnvDev then mkProfile EnvDev AggressivenessAggressive "low" true false
  else if string_eqb e EnvStaging then mkProfile EnvStaging AggressivenessMedium "medium" false false
  else mkProfile EnvProd AggressivenessConservative "high" false true.

(** ** Facts *)

Lemma canonical_cases v : canonical v ∈ [EnvProd; EnvStaging; EnvDev; EnvUnknown].
Proof. unfold canonical. repeat case_match; set_solver. Qed.

Lemma envFromLabel_cases l : envFromLabel l ∈ [EnvProd; EnvStaging; EnvDev; EnvUnknown].
Proof.
  unfold envFromLabel. cbn. repeat case_match; try apply canonical_cases. set_solver.
Qed.

Lemma envFromName_cases n : envFromName n ∈ [EnvProd; EnvStaging; EnvDev; EnvUnknown].
Proof. unfold envFromName. repeat case_match; set_solver. Qed.

(** The first of several answers that is known. *)
Definition first_known (es : list Environment) : Environment :=
  default EnvUnknown (List.find (λ e, negb (string_eqb e EnvUnknown)) es).

Lemma classify_first_known c cl nl ns rules :
  Classify c cl nl ns rules =
    match rules !! ns with
    | Some env => if string_eqb env "" then
        first_known [envFromLabel cl; envFromLabel nl; envFromName c; envFromName ns] else env
    | None => first_known [envFromLabel cl; envFromLabel nl; envFromName c; envFromName ns]
    end.
Proof.
  unfold Classify, first_known. cbn [List.find].
  destruct (negb (string_eqb (envFromLabel cl) EnvUnknown)),
    (negb (string_eqb (envFromLabel nl) EnvUnknown)),
    (negb (string_eqb (envFromName c) EnvUnknown)),
    (negb (string_eqb (envFromName ns) EnvUnknown)); done.
Qed.

Lemma first_known_elem es : first_known es = EnvUnknown ∨ first_known es ∈ es.
Proof.
  unfold first_known. destruct (List.find (λ e, negb (string_eqb e EnvUnknown)) es) as [e|] eqn:E; [|by left].
  right. apply find_some in E as [E _]. by apply list_elem_of_In in E.
Qed.

(** ** Properties *)

(** Classification is fail-safe.  A custom rule for the namespace decides;
    otherwise the answer is the first known one of cluster label, namespace label,
    cluster name and namespace name, and one of the four environments.  A change
    may merge itself only if the classification is "dev", and whatever is neither
    "dev" nor "staging", an unknown custom rule included, gets the production
    profile with manual approval. *)
Theorem classify_fail_safe c cl nl ns rules :
  let e := Classify c cl nl ns rules in
  (∀ env, rules !! ns = Some env → env ≠ "" → e = env) ∧
  (default "" (rules !! ns) = "" →
     e = first_known [envFromLabel cl; envFromLabel nl; envFromName c; envFromName ns] ∧
     e ∈ [EnvProd; EnvStaging; EnvDev; EnvUnknown]) ∧
  (P_AutoMergeEligible (ProfileFor e) = true ↔ e = EnvDev) ∧
  (e ≠ EnvDev → e ≠ EnvStaging →
     ProfileFor e = mkProfile EnvProd AggressivenessConservative "high" false true).
Proof.
  cbv zeta. rewrite classify_first_known. unfold string_eqb. split_and!.
  - intros env -> Hne. by destruct (String.eqb_spec env "").
  - assert (∀ e, e = first_known [envFromLabel cl; envFromLabel nl; envFromName c; envFromName ns] →
      e ∈ [EnvProd; EnvStaging; EnvDev; EnvUnknown]) as Hin.
    { intros ? ->. destruct (first_known_elem
        [envFromLabel cl; envFromLabel nl; envFromName c; envFromName ns]) as [->|Hin]; [set_solver|].
      rewrite !elem_of_cons, elem_of_nil in Hin.
      destruct Hin as [->|[->|[->|[->|[]]]]];
        auto using envFromLabel_cases, envFromName_cases. }
    destruct (rules !! ns) as [env|]; cbn; [intros ->; cbn|]; auto.
  - unfold ProfileFor, string_eqb. match goal with |- context [String.eqb ?x EnvDev] => generalize x end.
    intros e. destruct (String.eqb_spec e EnvDev); [done|]. by destruct (String.eqb e EnvStaging).
  - match goal with |- ?x ≠ EnvDev → _ => generalize x end. intros e Hd Hs.
    unfold ProfileFor, string_eqb. by destruct (String.eqb_spec e EnvDev), (String.eqb_spec e EnvStaging).
Qed.

(** The name patterns are asymmetric: a cluster whose name starts with "dev-" is
    a development cluster even if it ends in "-production", and "-production" as
    a suffix alone is not recognised. *)
Theorem name_patterns_asymmetric :
  envFromName "dev-payments-production" = EnvDev ∧ envFromName "payments-production" = EnvUnknown ∧
  envFromName "dev-payments-prod" = EnvProd ∧ envFromName "payments-development" = EnvDev.
Proof. vm_compute. auto. Qed.
