(* ===== verification/Confidence.v ===== *)
(** The confidence heuristic (backend/internal/confidence/classifier.go).  The Go
    type [rules.Confidence] is a string, and a detector's default may be any. *)

From S2P Require Import Prelude Rules.
Local Open Scope Z_scope.

Record Evidence := mkEvidence {
  E_DetectorID : string; SandboxMode : bool; HasHistoricalData : bool;
  HistoryDaysObserved : Z; SignalCount : Z; PriorDismissed : bool; DetectorDefault : string }.

Definition MinDaysForHighBand : Z := 7.
Definition MinSignalsForHighBand : Z := 2.

Definition rank (c : string) : Z :=
  if string_eqb c ConfidenceHigh then 3
  else if string_eqb c ConfidenceMed then 2
  else if string_eqb c ConfidenceLow then 1 else 0.

Definition stepDown (c : string) : string :=
  if string_eqb c ConfidenceHigh then ConfidenceMed
  else if string_eqb c ConfidenceMed then ConfidenceLow else ConfidenceLow.
Definition stepUpToHigh (c : string) : string :=
  if string_eqb c ConfidenceHigh then c else ConfidenceHigh.
Definition atLeast (have floor : string) : string := if rank floor <=? rank have then have else floor.
Definition atMost (have ceiling : string) : string := if rank have <=? rank ceiling then have else ceiling.

(** [Heuristic.Classify] *)
Definition Classify (s : Evidence) : string :=
  let out := if string_eqb (DetectorDefault s) "" then ConfidenceLow else DetectorDefault s in
  if PriorDismissed s then stepDown out
  else if negb (SandboxMode s) && HasHistoricalData s
       && (MinDaysForHighBand <=? HistoryDaysObserved s) && (MinSignalsForHighBand <=? SignalCount s)
  then stepUpToHigh out
  else if negb (SandboxMode s) && HasHistoricalData s then atLeast out ConfidenceMed
  else if SandboxMode s && (MinSignalsForHighBand <=? SignalCount s) then atLeast out ConfidenceMed
  else if SandboxMode s then atMost out ConfidenceMed else out.

(** ** Properties *)

Definition known_bands : list string := [ConfidenceHigh; ConfidenceMed; ConfidenceLow].
Definition measured (s : Evidence) : Prop := SandboxMode s = false ∧ HasHistoricalData s = true.
Definition corroborated (s : Evidence) : Prop := 2 <= SignalCount s.

(** [a] is at least as strong evidence as [b], for the same finding. *)
Record stronger (a b : Evidence) : Prop := {
  st_default : DetectorDefault a = DetectorDefault b;
  st_mode : SandboxMode a = SandboxMode b;
  st_dismissed : PriorDismissed a = PriorDismissed b;
  st_history : HasHistoricalData b = true → HasHistoricalData a = true;
  st_days : HistoryDaysObserved b <= HistoryDaysObserved a;
  st_signals : SignalCount b <= SignalCount a }.

(** The rank of the answer, for a known default: the table of the heuristic. *)
Lemma classify_rank s : DetectorDefault s ∈ known_bands →
  Classify s ∈ known_bands ∧
  rank (Classify s) =
    (let d := rank (DetectorDefault s) in
     if PriorDismissed s then Z.max 1 (d - 1)
     else if negb (SandboxMode s) && HasHistoricalData s then
       if (7 <=? HistoryDaysObserved s) && (2 <=? SignalCount s) then 3 else Z.max 2 d
     else if SandboxMode s then if 2 <=? SignalCount s then Z.max 2 d else Z.min 2 d
     else d).
Proof.
  unfold Classify, MinDaysForHighBand, MinSignalsForHighBand, known_bands.
  destruct s as [id sb hist days sigs dis def]. cbn.
  rewrite !elem_of_cons, elem_of_nil.
  intros [->|[->|[->|[]]]]; destruct dis, sb, hist; cbn;
    repeat match goal with |- context [?a <=? ?b] => destruct (Z.leb_spec a b); cbn end;
    (split; [set_solver|reflexivity]).
Qed.

Lemma rank_high c : c ∈ known_bands → (c = ConfidenceHigh ↔ rank c = 3).
Proof. unfold known_bands. rewrite !elem_of_cons, elem_of_nil. by intros [->|[->|[->|[]]]]. Qed.

Lemma rank_known c : c ∈ known_bands → 1 <= rank c <= 3.
Proof. unfold known_bands. rewrite !elem_of_cons, elem_of_nil. by intros [->|[->|[->|[]]]]. Qed.

Ltac evidence_tests :=
  repeat match goal with |- context [?a <=? ?b] => destruct (Z.leb_spec a b) end; cbn [andb].

(** The band of a finding whose detector names a known band: it is known;
    a dismissed finding goes exactly one band down (low stays); without a
    dismissal it is high exactly when the detector says high and it does not rest
    on a single sandbox signal, or when seven days of measured history are
    corroborated by two signals; and stronger evidence never lowers it. *)
Theorem confidence_bands (s : Evidence) (Hd : DetectorDefault s ∈ known_bands) :
  Classify s ∈ known_bands ∧
  (PriorDismissed s = true → rank (Classify s) = Z.max 1 (rank (DetectorDefault s) - 1)) ∧
  (PriorDismissed s = false →
     (Classify s = ConfidenceHigh ↔
        (DetectorDefault s = ConfidenceHigh ∧ (SandboxMode s = true → corroborated s)) ∨
        (measured s ∧ 7 <= HistoryDaysObserved s ∧ corroborated s))) ∧
  (∀ s', stronger s' s → rank (Classify s) <= rank (Classify s')).
Proof.
  destruct (classify_rank s Hd) as [Hk Hr]. pose proof (rank_known _ Hd).
  split_and!; [done| | |].
  - intros Hp. rewrite Hr. cbv zeta. by rewrite Hp.
  - intros Hp. rewrite (rank_high _ Hk), (rank_high _ Hd), Hr. cbv zeta.
    unfold measured, corroborated. rewrite Hp.
    destruct (SandboxMode s), (HasHistoricalData s); cbn [negb andb]; evidence_tests; lia.
  - intros s' [Hdef Hm Hdis Hh Hdays Hsig].
    assert (DetectorDefault s' ∈ known_bands) as Hd' by by rewrite Hdef.
    destruct (classify_rank s' Hd') as [_ Hr']. rewrite Hr, Hr'. cbv zeta. rewrite Hdef, Hm, Hdis.
    destruct (PriorDismissed s), (SandboxMode s), (HasHistoricalData s), (HasHistoricalData s');
      cbn [negb andb]; try (specialize (Hh eq_refl); done); evidence_tests; lia.
Qed.

Definition sample_evidence : Evidence := mkEvidence "idle-workload" false true 9 2 false "low".

Lemma confidence_bands_witness : Classify sample_evidence = ConfidenceHigh.
Proof.
  destruct (confidence_bands sample_evidence) as (_ & _ & Hh & _); [set_solver|].
  apply Hh; [reflexivity|]. right. unfold measured, corroborated. simpl. split_and!; [done..|lia|lia].
Defined.

(** The stated invariants that do not hold: a sandbox finding can be high, a
    detector that says high is lowered, and a dismissal raises an unknown band. *)
Theorem confidence_divergences :
  Classify (mkEvidence "d" true false 0 2 false "high") = ConfidenceHigh ∧
  Classify (mkEvidence "d" true false 0 1 false "high") = ConfidenceMed ∧
  rank "HIGH" < rank (Classify (mkEvidence "d" false false 0 0 true "HIGH")).
Proof. vm_compute. auto. Qed.
