(* ===== verification/Strategy.v ===== *)
(** Sizing policy: the provisioner class of a cluster
    (backend/internal/agent/provisioner/provisioner.go) and the per-environment
    bundle of limits (backend/internal/cost/strategy/strategy.go). *)

From S2P Require Import Prelude GoNum GoStr Environment.
Local Open Scope Z_scope.

(** ** Provisioner *)

Definition Class_ : Type := string.
Definition ClassKarpenter : Class_ := "karpenter".
Definition ClassAutoscaler : Class_ := "autoscaler".
Definition ClassStatic : Class_ := "static".

(** The answers of the cluster's API, each of which may be an error. *)
Record Probe := mkProbe {
  HasKarpenterCRD : result string bool; HasClusterAutoscalerDeployment : result string bool }.

(** The class comes with the error, as in Go. *)
Definition Detect (p : option Probe) : Class_ * option string :=
  match p with
  | None => (ClassStatic, Some "provisioner: nil probe")
  | Some p =>
      match HasKarpenterCRD p with
      | Err e => (ClassStatic, Some e)
      | Ok true => (ClassKarpenter, None)
      | Ok false =>
          match HasClusterAutoscalerDeployment p with
          | Err e => (ClassStatic, Some e)
          | Ok true => (ClassAutoscaler, None)
          | Ok false => (ClassStatic, None)
          end
      end
  end.

Definition AdvisoryNote (c : Class_) : string :=
  if string_eqb c ClassKarpenter then ""
  else if string_eqb c ClassAutoscaler then "Cluster Autoscaler detected — savings assume the ASG can scale to the recommended count. Verify the ASG min/max bounds before merging."
  else if string_eqb c ClassStatic then "No autoscaler detected — savings are advisory. Apply the resource change, then manually right-size the node group."
  else "".

Definition ConfidenceCap (c : Class_) : string :=
  if string_eqb c ClassStatic then "medium" else "".

(** ** Strategy *)

Record Sizing := mkSizing {
  PercentileTarget : Z; MaxMemoryReductionPct : Z; MaxReplicaReductionPerPR : Z;
  MinConfidence : string; MaxAggressiveness : Z;
  AutoMergeEligible : bool; ManualApproval : bool }.

Definition baseSizing (env : Environment) : Sizing :=
  if string_eqb env EnvDev then mkSizing 95 0 100 "low" 0 true false
  else if string_eqb env EnvStaging then mkSizing 95 25 2 "medium" 0 false false
  else mkSizing 99 10 0 "high" 0 false true.

Definition aggressivenessCap (class : Class_) : Z :=
  if string_eqb class ClassStatic then 50
  else if string_eqb class ClassKarpenter || string_eqb class ClassAutoscaler then 100
  else 100.

Definition ForClass (env : Environment) (class : Class_) : Sizing :=
  let s := baseSizing env in
  let s := mkSizing (PercentileTarget s) (MaxMemoryReductionPct s) (MaxReplicaReductionPerPR s)
             (MinConfidence s) (aggressivenessCap class) (AutoMergeEligible s) (ManualApproval s) in
  if string_eqb class ClassStatic then
    mkSizing (PercentileTarget s) (MaxMemoryReductionPct s) 0
      (if string_eqb (MinConfidence s) "low" then "medium" else MinConfidence s)
      (MaxAggressiveness s) (AutoMergeEligible s) (ManualApproval s)
  else s.

Definition For (env : Environment) : Sizing := ForClass env ClassKarpenter.

Definition confidenceRank (c : string) : Z :=
  if string_eqb c "high" then 3
  else if string_eqb c "medium" then 2
  else if string_eqb c "low" then 1 else 0.

Definition ConfidenceMeets (s : Sizing) (candidateConfidence : string) : bool :=
  confidenceRank (MinConfidence s) <=? confidenceRank candidateConfidence.

Definition scaleByAggressiveness (base agg : Z) : Z :=
  if (agg <=? 0) || (base <=? 0) then 0
  else if 100 <=? agg then base
  else i64_quot (i64_mul base agg) 100.

Definition EffectiveMemoryCap (s : Sizing) : Z :=
  scaleByAggressiveness (MaxMemoryReductionPct s) (MaxAggressiveness s).
Definition EffectiveReplicaCap (s : Sizing) : Z :=
  scaleByAggressiveness (MaxReplicaReductionPerPR s) (MaxAggressiveness s).

Definition MemoryCutAllowed (s : Sizing) (reductionPct : Z) : bool :=
  let maxPct := EffectiveMemoryCap s in
  if maxPct =? 0 then reductionPct =? 0 else reductionPct <=? maxPct.

Definition ReplicaCutAllowed (s : Sizing) (reductionCount : Z) : bool :=
  if reductionCount <=? 0 then true else reductionCount <=? EffectiveReplicaCap s.

(** ** Facts *)

(** What a bundle amounts to: the two effective caps and the confidence floor. *)
Definition limits (s : Sizing) : Z * Z * Z :=
  (EffectiveMemoryCap s, EffectiveReplicaCap s, confidenceRank (MinConfidence s)).

Lemma limits_table env class :
  limits (ForClass env class) =
    if string_eqb class ClassStatic then
      if string_eqb env EnvDev then (0, 0, 2)
      else if string_eqb env EnvStaging then (12, 0, 2) else (5, 0, 3)
    else
      if string_eqb env EnvDev then (0, 100, 1)
      else if string_eqb env EnvStaging then (25, 2, 2) else (10, 0, 3).
Proof.
  unfold ForClass, aggressivenessCap, baseSizing.
  destruct (string_eqb class ClassStatic);
    [|destruct (string_eqb class ClassKarpenter || string_eqb class ClassAutoscaler)];
    destruct (string_eqb env EnvDev), (string_eqb env EnvStaging); reflexivity.
Qed.

Lemma limits_inv s m r c : limits s = (m, r, c) →
  EffectiveMemoryCap s = m ∧ EffectiveReplicaCap s = r ∧ confidenceRank (MinConfidence s) = c.
Proof. by intros [= <- <- <-]. Qed.

(** The scaled cap never exceeds the base, and grows with it. *)
Lemma scale_bounds base agg : 0 <= base < 2^55 → 0 <= scaleByAggressiveness base agg <= base.
Proof.
  intros Hb. unfold scaleByAggressiveness.
  destruct (Z.leb_spec agg 0), (Z.leb_spec base 0), (Z.leb_spec 100 agg); cbn [orb]; try lia.
  assert (base * agg < 2^55 * 100) by nia.
  unfold i64_mul. rewrite wrap64_id by (unfold in_i64; nia).
  unfold i64_quot. rewrite Z.quot_div_nonneg by nia.
  assert (base * agg / 100 <= base) by (apply Z.div_le_upper_bound; nia).
  assert (0 <= base * agg / 100) by (apply Z.div_pos; nia).
  rewrite wrap64_id; [lia|]. unfold in_i64. lia.
Qed.

(** The three tests of a bundle in terms of its limits. *)
Lemma limits_tests s m r c : limits s = (m, r, c) →
  (∀ x, ConfidenceMeets s x = true ↔ c <= confidenceRank x) ∧
  (∀ n, ReplicaCutAllowed s n = true ↔ n <= 0 ∨ n <= r) ∧
  (∀ p, MemoryCutAllowed s p = true ↔ (m = 0 ∧ p = 0) ∨ (m ≠ 0 ∧ p <= m)).
Proof.
  intros [= <- <- <-]. unfold ConfidenceMeets, ReplicaCutAllowed, MemoryCutAllowed. split_and!.
  - intros x. apply Z.leb_le.
  - intros n. destruct (Z.leb_spec n 0); [naive_solver|]. rewrite Z.leb_le. naive_solver lia.
  - intros p. destruct (Z.eqb_spec (EffectiveMemoryCap s) 0); rewrite ?Z.eqb_eq, ?Z.leb_le; naive_solver.
Qed.

(** ** Properties *)

(** Environments from strict to lax; whatever is not one of these is production. *)
Definition laxity (env : Environment) : Z :=
  if string_eqb env EnvDev then 2 else if string_eqb env EnvStaging then 1 else 0.
(** Provisioner classes from limited to full. *)
Definition capability (class : Class_) : Z := if string_eqb class ClassStatic then 0 else 1.

(** The bundle agrees with the environment's safety profile on the confidence
    floor, self-merging and manual approval.  Limits are monotone: what a stricter
    environment and a more limited node provisioner allow, a laxer and fuller one
    allows too, for confidence and replica cuts, and for memory cuts except into
    "dev", which allows none.  Production and static node groups never allow a
    replica cut, and no bundle allows a memory cut above 25 percent. *)
Theorem strategy_monotone env class :
  let s := ForClass env class in
  (MinConfidence (For env) = P_ConfidenceFloor (ProfileFor env) ∧
   AutoMergeEligible s = P_AutoMergeEligible (ProfileFor env) ∧
   ManualApproval s = P_ManualApproval (ProfileFor env)) ∧
  (∀ env' class', laxity env <= laxity env' → capability class <= capability class' →
     let s' := ForClass env' class' in
     (∀ c, ConfidenceMeets s c = true → ConfidenceMeets s' c = true) ∧
     (∀ n, ReplicaCutAllowed s n = true → ReplicaCutAllowed s' n = true) ∧
     (env' ≠ EnvDev → ∀ p, MemoryCutAllowed s p = true → MemoryCutAllowed s' p = true)) ∧
  (laxity env = 0 ∨ class = ClassStatic → ∀ n, ReplicaCutAllowed s n = true ↔ n <= 0) ∧
  (∀ p, MemoryCutAllowed s p = true → p <= 25) ∧
  (env = EnvDev → ∀ p, MemoryCutAllowed s p = true ↔ p = 0).
Proof.
  cbv zeta. destruct (limits (ForClass env class)) as [[m r] c] eqn:E.
  destruct (limits_tests _ _ _ _ E) as (Hc&Hr&Hm). rewrite limits_table in E.
  split_and!.
  - unfold For, ForClass, ProfileFor, baseSizing. cbn.
    by destruct (string_eqb env EnvDev), (string_eqb env EnvStaging).
  - unfold ForClass, ProfileFor, baseSizing.
    by destruct (string_eqb class ClassStatic), (string_eqb env EnvDev), (string_eqb env EnvStaging).
  - unfold ForClass, ProfileFor, baseSizing.
    by destruct (string_eqb class ClassStatic), (string_eqb env EnvDev), (string_eqb env EnvStaging).
  - intros env' class' Hl Hp. destruct (limits (ForClass env' class')) as [[m' r'] c'] eqn:E'.
    destruct (limits_tests _ _ _ _ E') as (Hc'&Hr'&Hm'). rewrite limits_table in E'.
    assert (c' <= c ∧ r <= r' ∧ (env' ≠ EnvDev → 0 < m' ∧ m <= m')) as (?&?&Hmem).
    { revert E E' Hl Hp. unfold laxity, capability, string_eqb.
      destruct (String.eqb_spec class ClassStatic), (String.eqb_spec class' ClassStatic),
        (String.eqb_spec env EnvDev), (String.eqb_spec env' EnvDev),
        (String.eqb_spec env EnvStaging), (String.eqb_spec env' EnvStaging);
        intros [= <- <- <-] [= <- <- <-]; lia || naive_solver lia. }
    split_and!; intros *; [rewrite Hc, Hc'; lia|rewrite Hr, Hr'; lia|].
    intros Hd%Hmem p. rewrite Hm, Hm'. lia.
  - intros H n. rewrite Hr. enough (r = 0) by lia. revert E H. unfold laxity, string_eqb.
    destruct (String.eqb_spec class ClassStatic), (String.eqb_spec env EnvDev),
      (String.eqb_spec env EnvStaging); intros [= <- <- <-]; naive_solver lia.
  - intros p. rewrite Hm. enough (m <= 25) by lia. revert E.
    repeat case_match; intros [= <- <- <-]; lia.
  - intros -> p. rewrite Hm. enough (m = 0) by lia. revert E. cbn.
    case_match; by intros [= <- <- <-].
Qed.
