(* ===== verification/Cost.v ===== *)
(** The backend's cost engine: the monthly estimate of a workload from its requests and a
    regional pricer (backend/internal/cost/pricer.go), and the static price table
    (backend/internal/cost/static_pricer.go). *)

From S2P Require Import Prelude GoNum GoStr Quantity Helm.
Local Open Scope Z_scope.

(** ** Pricers *)

Record Pricer := mkPricer {
  VCPUPerMonthUSDCents : string → option Z;
  GiBMemoryPerMonthUSDCents : string → option Z }.

Record rate := mkRate { vcpuMonthlyCents : Z; gibMonthlyCents : Z }.

Definition SupportedRegions : list string :=
  ["us-east-1"; "us-east-2"; "us-west-2"; "eu-central-1"; "eu-west-1"; "ap-south-1"; "ap-southeast-1"].

Definition defaultRates : gmap string rate :=
  list_to_map
    [("us-east-1", mkRate 3504 876); ("us-east-2", mkRate 3504 876); ("us-west-2", mkRate 3504 876);
     ("eu-central-1", mkRate 4380 1095); ("eu-west-1", mkRate 4205 1051); ("ap-south-1", mkRate 3329 832);
     ("ap-southeast-1", mkRate 4117 1029)].

Definition StaticPricer (rates : gmap string rate) : Pricer :=
  mkPricer (λ region, vcpuMonthlyCents <$> rates !! region) (λ region, gibMonthlyCents <$> rates !! region).

(** The loop of [Regions]: each key moves left past the greater ones before it. *)
Fixpoint move_left (x : string) (sorted_rev : list string) : list string :=
  match sorted_rev with
  | y :: l => if String.ltb x y then y :: move_left x l else x :: sorted_rev
  | [] => [x]
  end.
(** [keys] is the order in which the map was ranged over. *)
Definition Regions (keys : list string) : list string := rev (foldl (λ acc x, move_left x acc) [] keys).

(** ** Estimates *)

Record Estimate := mkEstimate {
  EWorkload : string; ERegion : string; EReplicas : Z; CPUMillicores : Z; MemoryBytes : Z;
  MonthlyUSDCents : Z; CPUMonthlyCents : Z; MemMonthlyCents : Z; Note : string;
  AccuracyBandPct : Z; UnpriceableField : string }.

Record Estimator := mkEstimator { EPricer : Pricer; Region : string; Band : Z }.

Inductive cost_error := ErrVCPU | ErrMemory.

Definition bytesPerGiB : Z := 1024 * 1024 * 1024.
Definition hoursPerMonth : Z := 730.

Definition clampReplicas (r : Z) : Z := if r <=? 0 then 1 else r.

(** The cents of one resource: [price * amount * replicas / unit], in int64. *)
Definition resource_cents (price amount replicas unit : Z) : Z :=
  i64_quot (i64_mul (i64_mul price amount) replicas) unit.

Definition note (kind region : string) (replicas : Z) : string :=
  kind +:+ " across " +:+ itoa replicas +:+ " replica(s) at " +:+ region +:+ " on-demand pricing".

(** The price of a declared request; nothing is asked of the pricer for the others. *)
Definition priced (price : option Z) (q : Quantity) (replicas unit : Z) (e : cost_error) : result cost_error (Z * Z) :=
  if IsSet q then
    match price with
    | None => Err e
    | Some p => Ok (Value q, resource_cents p (Value q) replicas unit)
    end
  else Ok (0, 0).

Definition estimate (e : Estimator) (w : Workload) : result cost_error Estimate :=
  let band := if Band e <=? 0 then 40 else Band e in
  let replicas := clampReplicas (Replicas w) in
  let cpu := CPU (Requests w) in
  let mem := Memory (Requests w) in
  if negb (IsSet cpu) && negb (IsSet mem) then
    Ok (mkEstimate (Name w) (Region e) replicas 0 0 0 0 0
      "workload declares no resource requests; cannot estimate cost without an agent's measured baseline"
      band "requests.cpu+memory")
  else
    let* c := priced (VCPUPerMonthUSDCents (EPricer e) (Region e)) cpu replicas 1000 ErrVCPU in
    let* m := priced (GiBMemoryPerMonthUSDCents (EPricer e) (Region e)) mem replicas bytesPerGiB ErrMemory in
    let n :=
      if (0 <? c.2) && (0 <? m.2) then note "cpu+mem requests" (Region e) replicas
      else if 0 <? c.2 then note "cpu-only request" (Region e) replicas
      else if 0 <? m.2 then note "memory-only request" (Region e) replicas
      else "" in
    Ok (mkEstimate (Name w) (Region e) replicas c.1 m.1 (i64_add c.2 m.2) c.2 m.2 n band "").

Definition Total (es : list Estimate) : Z := foldl (λ s e, i64_add s (MonthlyUSDCents e)) 0 es.
Definition HourlyRateCents (monthlyCents : Z) : Z := i64_quot monthlyCents hoursPerMonth.

(** ** Facts *)

Lemma resource_cents_exact price amount replicas unit :
  0 <= price → 0 <= amount → 0 <= replicas → 0 < unit → price * amount * replicas < 2^63 → 0 < replicas →
  resource_cents price amount replicas unit = price * amount * replicas / unit.
Proof.
  intros Hp Ha Hr Hu Hb Hr'. assert (0 <= price * amount) by nia. assert (price * amount <= price * amount * replicas) by nia.
  unfold resource_cents, i64_quot, i64_mul.
  rewrite (wrap64_id (price * amount)) by (unfold in_i64; lia).
  rewrite (wrap64_id (price * amount * replicas)) by (unfold in_i64; lia).
  rewrite Z.quot_div_nonneg by lia. apply wrap64_id.
  assert (0 <= price * amount * replicas / unit <= price * amount * replicas) by (split; [apply Z.div_pos; lia|apply Z.div_le_upper_bound; nia]).
  unfold in_i64. lia.
Qed.

(** A request of the workload, as the estimate prices it. *)
Definition request_cents (price : option Z) (q : Quantity) (replicas unit : Z) : Z :=
  if IsSet q then default 0 price * Value q * replicas / unit else 0.

Definition request_fits (price : option Z) (q : Quantity) (replicas : Z) : Prop :=
  IsSet q = true → ∃ p, price = Some p ∧ 0 <= p ∧ 0 <= Value q ∧ p * Value q * replicas < 2^62.

Lemma priced_exact price q replicas unit e : request_fits price q replicas → 0 < replicas → 0 < unit →
  priced price q replicas unit e =
    Ok (if IsSet q then Value q else 0, request_cents price q replicas unit) ∧
  0 <= request_cents price q replicas unit < 2^62.
Proof.
  unfold request_fits, priced, request_cents. destruct (IsSet q); [|split; [done|lia]].
  intros Hf Hr Hu. destruct (Hf eq_refl) as (p&->&Hp&Hv&Hb). cbn [default from_option id].
  rewrite resource_cents_exact by (done || lia). split; [done|].
  assert (0 <= p * Value q * replicas) by nia.
  split; [apply Z.div_pos; lia|apply Z.div_lt_upper_bound; nia].
Qed.

(** The estimate of a workload. With no request declared it is zero, with a note of what
    is missing and without asking the pricer; otherwise it is the sum of the price of each
    declared request - price times amount times replicas, rounded down to the cent, an unset
    replica count being one - and never a guess for the other; it fails exactly when the
    price of a declared request is not known; and the accuracy it claims is never better than
    the sandbox's unless it was told so. *)
Theorem estimate_declared (e : Estimator) (w : Workload) :
  let reps := clampReplicas (Replicas w) in
  let vcpu := VCPUPerMonthUSDCents (EPricer e) (Region e) in
  let gib := GiBMemoryPerMonthUSDCents (EPricer e) (Region e) in
  let cpu := CPU (Requests w) in let mem := Memory (Requests w) in
  (IsSet cpu = false → IsSet mem = false → ∃ est, estimate e w = Ok est ∧ MonthlyUSDCents est = 0 ∧
    UnpriceableField est = "requests.cpu+memory") ∧
  (IsSet cpu = true ∧ vcpu = None → estimate e w = Err ErrVCPU) ∧
  (IsSet mem = true ∧ gib = None → ∃ err, estimate e w = Err err) ∧
  (IsSet cpu = true ∨ IsSet mem = true → request_fits vcpu cpu reps → request_fits gib mem reps →
    ∃ est, estimate e w = Ok est ∧
      CPUMonthlyCents est = request_cents vcpu cpu reps 1000 ∧
      MemMonthlyCents est = request_cents gib mem reps bytesPerGiB ∧
      MonthlyUSDCents est = CPUMonthlyCents est + MemMonthlyCents est ∧ 0 <= MonthlyUSDCents est ∧
      1 <= EReplicas est ∧ AccuracyBandPct est = (if Band e <=? 0 then 40 else Band e) ∧
      (Note est = "" ↔ MonthlyUSDCents est = 0)).
Proof.
  intros reps vcpu gib cpu mem. unfold estimate. fold cpu mem vcpu gib reps.
  assert (0 < reps) as Hreps by (unfold reps, clampReplicas; destruct (Z.leb_spec (Replicas w) 0); lia).
  clearbody reps vcpu gib cpu mem. split_and!.
  - intros -> ->. eexists. by split.
  - intros [Hs ->]. unfold priced at 1. by rewrite Hs.
  - intros [Hs ->]. rewrite Hs, andb_false_r.
    destruct (priced vcpu cpu reps 1000 ErrVCPU) as [c|err]; [|by eexists]. cbn [rbind].
    unfold priced. rewrite Hs. by eexists.
  - intros Hset Hc Hm. assert (negb (IsSet cpu) && negb (IsSet mem) = false) as ->.
    { destruct Hset as [-> | ->]; [done|]. by rewrite andb_false_r. }
    destruct (priced_exact vcpu cpu reps 1000 ErrVCPU Hc Hreps ltac:(lia)) as [-> Hcb].
    destruct (priced_exact gib mem reps bytesPerGiB ErrMemory Hm Hreps ltac:(done)) as [-> Hmb]. cbn [rbind fst snd].
    set (c := request_cents vcpu cpu reps 1000) in *. set (m := request_cents gib mem reps bytesPerGiB) in *.
    eexists. split; [done|]. cbn [CPUMonthlyCents MemMonthlyCents MonthlyUSDCents EReplicas AccuracyBandPct Note].
    unfold i64_add. rewrite wrap64_id by (unfold in_i64; lia). split_and!; try (done || lia).
    destruct (Z.ltb_spec 0 c), (Z.ltb_spec 0 m); cbn [andb]; unfold note; (split; [discriminate || lia|]); (lia || done).
Qed.

Definition demo_workload : Workload := {|
  Name := "web"; WKind := "Deployment";
  Requests := {| CPU := {| Value := 250; IsSet := true; Original := "250m" |};
                 Memory := {| Value := 536870912; IsSet := true; Original := "512Mi" |} |};
  Limits := {| CPU := unset_quantity; Memory := unset_quantity |};
  Image := {| Repository := ""; Tag := ""; ImageSet := false |};
  Replicas := 0; HasHPA := false; Security := Helm.empty_security |}.

Example estimate_demo : estimate (mkEstimator (StaticPricer defaultRates) "eu-west-1" 0) demo_workload =
  Ok (mkEstimate "web" "eu-west-1" 1 250 536870912 1576 1051 525
    "cpu+mem requests across 1 replica(s) at eu-west-1 on-demand pricing" 40 "").
Proof. vm_compute. reflexivity. Qed.

(** ** The static table *)

Lemma move_left_perm x l : move_left x l ≡ₚ x :: l.
Proof.
  induction l as [|y l IH]; simpl; [done|]. destruct (String.ltb x y); [|done]. rewrite IH. constructor.
Qed.

Definition after (x y : string) : bool := String.ltb y x.
#[export] Instance after_sw : StrictWeak after.
Proof.
  pose proof (string_less_sw (λ x : string, x)) as [H1 H2 H3]. split.
  - intros x. apply H1.
  - intros x y. apply H2.
  - intros x y z Hx Hy. unfold after in *. by eapply H3.
Qed.

Lemma move_left_sorted x l : sorted_by after l → sorted_by after (move_left x l).
Proof.
  unfold sorted_by. induction 1 as [|y l Hl IH Hy]; cbn [move_left]; [repeat constructor|].
  destruct (String.ltb x y) eqn:E.
  - constructor; [done|]. rewrite move_left_perm. constructor; [|done].
    by apply (sw_asym (StrictWeak := after_sw)).
  - constructor; [by constructor|]. constructor; [done|]. eapply Forall_impl; [done|].
    intros z Hz; cbn in *. eapply (sw_ntrans (StrictWeak := after_sw)); [|exact E]. done.
Qed.

Lemma regions_loop keys acc : sorted_by after acc →
  foldl (λ acc x, move_left x acc) acc keys ≡ₚ keys ++ acc ∧ sorted_by after (foldl (λ acc x, move_left x acc) acc keys).
Proof.
  revert acc. induction keys as [|k keys IH]; intros acc Hs; [done|]. cbn [foldl].
  destruct (IH (move_left k acc)) as [Hp Hso]; [by apply move_left_sorted|]. split; [|done].
  rewrite Hp, move_left_perm. symmetry. apply Permutation_middle.
Qed.

(** The listing does not depend on the order the map is ranged over in. *)
Lemma Regions_order keys keys' : keys ≡ₚ keys' → Regions keys = Regions keys'.
Proof.
  intros Hp. unfold Regions. f_equal.
  destruct (regions_loop keys []) as [H1 S1]; [constructor|]. destruct (regions_loop keys' []) as [H2 S2]; [constructor|].
  rewrite app_nil_r in *. eapply (sorted_by_unique after); [|done..|by rewrite H1, H2].
  intros x y _ _. unfold equiv_key, after. rewrite andb_true_iff, !negb_true_iff. intros [? ?]. by apply ltb_false_eq.
Qed.

(** The table prices the regions it lists and no others, and lists them in order. *)
Lemma regions_priced (keys : list string) : keys ≡ₚ (map_to_list defaultRates).*1 →
  Regions keys = ["ap-south-1"; "ap-southeast-1"; "eu-central-1"; "eu-west-1"; "us-east-1"; "us-east-2"; "us-west-2"] ∧
  Regions keys ≡ₚ SupportedRegions ∧
  ∀ region, is_Some (VCPUPerMonthUSDCents (StaticPricer defaultRates) region) ↔ region ∈ SupportedRegions.
Proof.
  intros Hp. assert (Regions keys = ["ap-south-1"; "ap-southeast-1"; "eu-central-1"; "eu-west-1"; "us-east-1"; "us-east-2"; "us-west-2"]) as E.
  { rewrite (Regions_order _ _ Hp). by vm_compute. }
  split; [done|]. rewrite E. split.
  - unfold SupportedRegions. apply (bool_decide_unpack _). by vm_compute.
  - intros region. cbn [StaticPricer VCPUPerMonthUSDCents]. rewrite fmap_is_Some.
    unfold defaultRates, SupportedRegions. rewrite <-not_eq_None_Some, <-not_elem_of_list_to_map.
    split; [intros Hn; by apply dec_stable|by intros Hin Hnot].
Qed.

(** The product is taken in int64 before it is divided: 1,000 replicas of 10Ti wrap around. *)
Lemma estimate_overflows : resource_cents 876 (10 * 2^40) 1000 bytesPerGiB < 0.
Proof. by vm_compute. Qed.
