(* ===== verification/Observed.v ===== *)
(** The detectors that read what the agent observed
    (backend/internal/methodology/detectors), the behaviour classifier's sandbox
    (backend/internal/methodology/classify) and the OOM history reader
    (backend/internal/cost/oomkilled). One Module per detector. *)

From Stdlib Require Import QArith Qround Lqa.
From S2P Require Import Prelude GoNum GoStr GoTime Quantity Helm Rules AllRules.
Local Open Scope Z_scope.

Definition observed (id severity workload title detail : string) (cents : Z) : Finding := {|
  DetectorID := id; FWorkload := workload; Title := title; Detail := detail; MonthlyUSDCents := cents;
  FSeverity := severity; FConfidence := ""; FCategory := CategoryCost; FSignal := None |}.

(** The loop they share: a sample either meets a [continue] or gives a finding. *)
Definition analyze {S} (invalid : option string) (fires : S → bool) (finding : S → Finding) (samples : list S) :
    result string (list Finding) :=
  match invalid with
  | Some e => Err e
  | None => Ok (finding <$> List.filter fires samples)
  end.

Module HpaPinnedToMin.
Record Sample := mkSample {
  Workload : string; Namespace : string; MinReplicas : Z; MaxReplicas : Z; CurrentReplicas : Z;
  TargetCPUUtilPct : Z; AvgCPUUtilPct : float64; MonthlyCostUSDCents : Z }.
Definition Default : float64 := f_const (1 # 2).
Definition half : float64 := f_const (1 # 2).

Definition fires (ratio : float64) (s : Sample) : bool :=
  negb (MinReplicas s <=? 1) && (CurrentReplicas s =? MinReplicas s) && negb (TargetCPUUtilPct s <=? 0) &&
  negb (f_le (f_mul (f_of_Z (TargetCPUUtilPct s)) ratio) (AvgCPUUtilPct s)).
Definition finding (s : Sample) : Finding :=
  observed "hpa-pinned-to-min" SeverityMed (Workload s) "HPA stuck at minReplicas; floor likely too high"
    "Drop minReplicas by one and re-observe for a week." (MonthlyCostUSDCents s).
Definition Analyze (maxLoadRatio : float64) : list Sample → result string (list Finding) :=
  let ratio := if f_is0 maxLoadRatio then half else maxLoadRatio in
  analyze (if f_lt maxLoadRatio (f_zero false) then Some "hpa_pinned_to_min: negative MaxLoadRatio" else None)
    (fires ratio) finding.
End HpaPinnedToMin.

Module IdleWorkload.
Record Sample := mkSample {
  Workload : string; Namespace : string; Replicas : Z; HasHPA : bool; P95CPUMilli : Z; NetworkBytes7d : Z;
  RequestsCPUm : Z; MonthlyCostUSDCents : Z }.
Record IdleThreshold := mkThreshold { MaxP95CPUMilli : Z; MaxNetworkB7d : Z }.
Definition Default : IdleThreshold := mkThreshold 10 (1024 * 1024).

Definition cpuFmt (milli : Z) : string :=
  if (1000 <=? milli) && (Z.rem milli 1000 =? 0) then itoa (Z.quot milli 1000) +:+ " vCPU" else itoa milli +:+ "m".

Definition fires (t : IdleThreshold) (s : Sample) : bool :=
  negb (Replicas s <=? 0) && negb (HasHPA s && (0 <? P95CPUMilli s)) &&
  negb (MaxP95CPUMilli t <? P95CPUMilli s) && negb (MaxNetworkB7d t <? NetworkBytes7d s).
Definition finding (t : IdleThreshold) (s : Sample) : Finding :=
  observed "idle-workload-observed" SeverityHigh (Workload s) "Workload appears idle over the last 7 days"
    ("P95 CPU under " +:+ cpuFmt (MaxP95CPUMilli t) +:+ " and network < 1 MiB") (MonthlyCostUSDCents s).
Definition Analyze (t : IdleThreshold) : list Sample → result string (list Finding) :=
  analyze (if (MaxP95CPUMilli t <? 0) || (MaxNetworkB7d t <? 0) then Some "idle_workload_observed: negative threshold" else None)
    (fires t) (finding t).
End IdleWorkload.

Module OomKilled.
Record Sample := mkSample {
  Workload : string; Namespace : string; OOMKillCount : Z; CurrentRequestB : Z; PeakRSSBytes : Z;
  MonthlyCostUSDCents : Z }.
Definition Default : Z := 1.
Definition fires (floor : Z) (s : Sample) : bool := negb (OOMKillCount s <? floor).
Definition finding (s : Sample) : Finding :=
  observed "oomkilled-observed" SeverityHigh (Workload s) "Memory request too low; OOMKilled events observed"
    "Raise request above the observed peak RSS to stop OOMKills." (MonthlyCostUSDCents s).
Definition Analyze (minKills : Z) : list Sample → result string (list Finding) :=
  let floor := if minKills =? 0 then 1 else minKills in
  analyze (if minKills <? 0 then Some "oomkilled_observed: negative MinKills" else None) (fires floor) finding.
End OomKilled.

Module OrphanedPVC.
Record PVCRef := mkPVC {
  Namespace : string; Name : string; StorageClass : string; CapacityBytes : Z; AgeDays : Z; Referenced : bool;
  MonthlyCostCents : Z }.
Definition MinAgeDays : Z := 7.
Definition fires (threshold : Z) (p : PVCRef) : bool := negb (Referenced p) && negb (AgeDays p <? threshold).
Definition finding (p : PVCRef) : Finding :=
  observed "orphaned-pvc" SeverityMed (Namespace p +:+ "/" +:+ Name p) "PersistentVolumeClaim has no referencing pod"
    "Likely safe to delete after a 7-day soak; verify with the owning team." (MonthlyCostCents p).
Definition Analyze (minAge : Z) : list PVCRef → result string (list Finding) :=
  let threshold := if minAge =? 0 then MinAgeDays else minAge in
  analyze (if minAge <? 0 then Some "orphaned_pvc: negative MinAge" else None) (fires threshold) finding.
End OrphanedPVC.

Module StaleNamespace.
Record Activity := mkActivity {
  Namespace : string; WorkloadCount : Z; CPUMilliSecondsObserved : Z; NetworkBytes : Z; PodRestarts : Z;
  MonthlyCostUSDCents : Z }.
Definition MinStaleDays : Z := 30.
Definition fires (a : Activity) : bool :=
  negb (WorkloadCount a =? 0) &&
  negb ((0 <? CPUMilliSecondsObserved a) || (0 <? NetworkBytes a) || (0 <? PodRestarts a)).
Definition finding (a : Activity) : Finding :=
  observed "stale-namespace" SeverityMed (Namespace a) "Namespace shows no activity over the staleness window"
    "Verify with the team that owns the namespace before deleting." (MonthlyCostUSDCents a).
Definition Analyze (staleDays : Z) : list Activity → result string (list Finding) :=
  analyze (if staleDays <? 0 then Some "stale_namespace: negative StaleDays" else None) fires finding.
End StaleNamespace.

Module VpaDivergence.
Record Sample := mkSample {
  Workload : string; Namespace : string; Mode : string; CurrentCPUm : Z; CurrentMemB : Z; RecommendCPUm : Z;
  RecommendMemB : Z; MonthlyCostUSDCents : Z }.
Definition Default : float64 := f_const (1 # 5).

Definition diverges (current recommend : Z) (gap : float64) : bool :=
  if (current <=? 0) || (recommend <=? 0) then false
  else if current <=? recommend then false
  else f_le gap (f_div (f_of_Z (i64_sub current recommend)) (f_of_Z current)).

Definition fires (gap : float64) (s : Sample) : bool :=
  negb (String.eqb (Mode s) "Auto") && (String.eqb (Mode s) "Off" || String.eqb (Mode s) "Initial") &&
  (diverges (CurrentCPUm s) (RecommendCPUm s) gap || diverges (CurrentMemB s) (RecommendMemB s) gap).
Definition finding (s : Sample) : Finding :=
  observed "vpa-recommendation-divergence" SeverityMed (Workload s) "VPA recommendation diverges from current request"
    ("VPA in " +:+ Mode s +:+ " mode suggests a lower request; consider applying.") (MonthlyCostUSDCents s).
Definition Analyze (minDivergence : float64) : list Sample → result string (list Finding) :=
  let gap := if f_is0 minDivergence then Default else minDivergence in
  analyze (if f_lt minDivergence (f_zero false) then Some "vpa_divergence: negative MinDivergence" else None)
    (fires gap) finding.
End VpaDivergence.

(** ** The sandbox classifier *)

Module Classify.
Inductive Class_ := ClassSteady | ClassDailyCyclical | ClassWeeklyCyclical | ClassBursty.
Record Sample := mkSample { Time : Z; SampleValue : float64 }.
Record Result := mkResult { RClass : Class_; CV : float64; Autocorr24h : float64; Autocorr168h : float64; SampleCount : Z }.
(** [None] is ErrInsufficientData. *)
Definition Classify (samples : list Sample) : option Result :=
  match samples with
  | [] => None
  | _ => Some (mkResult ClassSteady (f_zero false) (f_zero false) (f_zero false) (Z.of_nat (length samples)))
  end.
End Classify.

(** ** The OOM history *)

Module OomHistory.
Record WorkloadRef := mkRef { ClusterID : string; Namespace : string; Workload : string }.
Record Reader := mkReader { Client : string → Z → result string Z; Window : Z }.

Definition NewReader (c : option (string → Z → result string Z)) (window : Z) : result string Reader :=
  match c with
  | None => Err "oomkilled: nil QueryClient"
  | Some c => Ok (mkReader c (if window <=? 0 then 7 * 24 * Hour else window))
  end.

Definition windowExpr (d : Z) : string :=
  if Z.rem d (24 * Hour) =? 0 then itoa (Z.quot d (24 * Hour)) +:+ "d" else itoa (Z.quot d Hour) +:+ "h".

Definition q : string := String (Ascii.ascii_of_nat 34) "".
Definition buildQuery (w : WorkloadRef) (window : Z) : string :=
  "sum(increase(kube_pod_container_status_last_terminated_reason{cluster=" +:+ q +:+ ClusterID w +:+ q +:+
  ",namespace=" +:+ q +:+ Namespace w +:+ q +:+ ",pod=~" +:+ q +:+ Workload w +:+ "-.*" +:+ q +:+
  ",reason=" +:+ q +:+ "OOMKilled" +:+ q +:+ "}[" +:+ windowExpr window +:+ "]))".

Definition Count (r : Reader) (now : Z) (w : WorkloadRef) : result string Z :=
  if String.eqb (ClusterID w) "" || String.eqb (Namespace w) "" || String.eqb (Workload w) ""
  then Err "oomkilled: incomplete WorkloadRef"
  else Client r (buildQuery w (Window r)) now.

Definition Recent (r : Reader) (now : Z) (w : WorkloadRef) : result string bool :=
  let* n := Count r now w in Ok (0 <? n).

(** A window under an hour is asked for as zero hours, and the pods of a workload are matched
    by a prefix that those of a workload with a longer name also have. *)
Lemma oom_divergences :
  windowExpr (30 * Minute) = "0h" ∧
  windowExpr (7 * 24 * Hour) = "7d" ∧
  buildQuery (mkRef "c" "ns" "web") (36 * Hour) =
    "sum(increase(kube_pod_container_status_last_terminated_reason{cluster=" +:+ q +:+ "c" +:+ q +:+
    ",namespace=" +:+ q +:+ "ns" +:+ q +:+ ",pod=~" +:+ q +:+ "web-.*" +:+ q +:+ ",reason=" +:+ q +:+ "OOMKilled" +:+ q +:+ "}[36h]))".
Proof. vm_compute. auto. Qed.
End OomHistory.

(** ** Facts *)

Lemma analyze_spec {S} invalid (fires : S → bool) finding samples :
  analyze invalid fires finding samples =
  match invalid with Some e => Err e | None => Ok (finding <$> List.filter fires samples) end.
Proof. done. Qed.

(** A fifth, as the constant of the code rounds it, separates quotients of integers of up to
    53 bits exactly where a fifth does. *)
Lemma fifth_ratio n d : 0 < n <= 2^53 → 0 < d <= 2^53 →
  f_le (f_const (1 # 5)) (f_div (f_of_Z n) (f_of_Z d)) = (d <=? 5 * n).
Proof.
  intros Hn Hd.
  pose proof (inject_Z_le 1 d ltac:(lia)) as Hd1. pose proof (inject_Z_le 1 n ltac:(lia)) as Hn1.
  change (inject_Z 1) with 1%Q in *.
  destruct (rep_div _ _ _ _ (rep_of_Z n ltac:(lia)) (rep_of_Z d ltac:(lia)) ltac:(lra) ltac:(lra)) as (q&Hq&Hrep).
  { eapply Qle_trans; [apply Qdiv_le_num; [lra|done]|]. apply Z_le_pow2_1000; lia. }
  set (M := 7205759403792794) in *.
  assert (f_rep (f_const (1 # 5)) (inject_Z M * pow2 (-55))) as Ht by by vm_compute.
  rewrite (rep_le _ _ _ _ Ht Hrep). apply eq_true_iff_eq. rewrite Qle_bool_iff, Z.leb_le.
  assert (0 < q)%Q as Hq0 by (rewrite Hq; apply Qlt_shift_div_l; lra).
  split.
  - intros Hle. destruct (Z.le_gt_cases d (5 * n)) as [|Hlt]; [done|]. exfalso. revert Hle. apply Qlt_not_le.
    apply Qle_lt_trans with (inject_Z (M - 1) * pow2 (-55))%Q.
    + apply (rnd_le_rep _ _ (M - 1) (-55)); [done|unfold M; lia|done|done|].
      rewrite Hq. apply Qle_shift_div_r; [lra|].
      assert (inject_Z (M - 1) * pow2 (-55) == (M - 1) # (2^55))%Q as -> by (vm_compute; reflexivity).
      unfold Qle. simpl. unfold M. nia.
    + by vm_compute.
  - intros Hle. assert (rnd (1 # 5) == inject_Z M * pow2 (-55))%Q as <- by by vm_compute.
    apply rnd_mono; [done|]. rewrite Hq. apply Qle_shift_div_l; [lra|]. unfold Qle. simpl. lia.
Qed.

Lemma diverges_fifth current recommend : current <= 2^53 →
  VpaDivergence.diverges current recommend VpaDivergence.Default = true ↔
  0 < recommend < current ∧ current <= 5 * (current - recommend).
Proof.
  intros Hc. unfold VpaDivergence.diverges.
  destruct (Z.leb_spec current 0); cbn [orb]; [split; [done|lia]|].
  destruct (Z.leb_spec recommend 0); [split; [done|lia]|].
  destruct (Z.leb_spec current recommend); [split; [done|lia]|].
  unfold i64_sub. rewrite wrap64_id by (unfold in_i64; lia). unfold VpaDivergence.Default.
  rewrite fifth_ratio, Z.leb_le by lia. lia.
Qed.

(** The rule in whole numbers: at least a fifth less is recommended than is requested. *)
Definition a_fifth_over (current recommend : Z) : Prop :=
  0 < recommend < current ∧ current <= 5 * (current - recommend).

Lemma elem_of_findings {S} (p : S → bool) (mk : S → Finding) l f :
  f ∈ (mk <$> List.filter p l) ↔ ∃ s, s ∈ l ∧ p s = true ∧ f = mk s.
Proof.
  rewrite list_elem_of_fmap. split.
  - intros (s&->&Hs). apply list_elem_of_In, filter_In in Hs as [Hs Hp]. exists s. split; [by apply list_elem_of_In|done].
  - intros (s&Hs&Hp&->). exists s. split; [done|]. apply list_elem_of_In, filter_In.
    split; [by apply list_elem_of_In|done].
Qed.

Lemma default_nonzero : f_is0 VpaDivergence.Default = false.
Proof. by vm_compute. Qed.
Lemma default_nonneg : f_lt VpaDivergence.Default (f_zero false) = false.
Proof. by vm_compute. Qed.

(** The VPA detector with its default threshold, computed in floating point, reports
    exactly the workloads whose VPA only advises (mode Off or Initial) and advises at least a
    fifth less CPU or memory than is requested - at the fifth itself too - with the amounts
    below 2^53; no rounding moves a workload over the line. *)
Theorem vpa_divergence_exact (samples : list VpaDivergence.Sample) :
  Forall (λ s, VpaDivergence.CurrentCPUm s <= 2^53 ∧ VpaDivergence.CurrentMemB s <= 2^53) samples →
  ∃ out, VpaDivergence.Analyze VpaDivergence.Default samples = Ok out ∧
  ∀ f, f ∈ out ↔ ∃ s, s ∈ samples ∧ f = VpaDivergence.finding s ∧
    (VpaDivergence.Mode s = "Off" ∨ VpaDivergence.Mode s = "Initial") ∧
    (a_fifth_over (VpaDivergence.CurrentCPUm s) (VpaDivergence.RecommendCPUm s) ∨
     a_fifth_over (VpaDivergence.CurrentMemB s) (VpaDivergence.RecommendMemB s)).
Proof.
  intros Hb. exists (VpaDivergence.finding <$> List.filter (VpaDivergence.fires VpaDivergence.Default) samples).
  split; [unfold VpaDivergence.Analyze; by rewrite default_nonzero, default_nonneg|].
  intros f. rewrite elem_of_findings.
  rewrite Forall_forall in Hb.
  assert (∀ s, s ∈ samples → VpaDivergence.fires VpaDivergence.Default s = true ↔
    (VpaDivergence.Mode s = "Off" ∨ VpaDivergence.Mode s = "Initial") ∧
    (a_fifth_over (VpaDivergence.CurrentCPUm s) (VpaDivergence.RecommendCPUm s) ∨
     a_fifth_over (VpaDivergence.CurrentMemB s) (VpaDivergence.RecommendMemB s))) as Hs.
  { intros s Hin. destruct (Hb s) as [Hc Hm]; [done|]. unfold VpaDivergence.fires.
    rewrite !andb_true_iff, !orb_true_iff, negb_true_iff, !diverges_fifth by done.
    rewrite String.eqb_neq, !String.eqb_eq. unfold a_fifth_over. intuition congruence. }
  split.
  - intros (s&Hin&Hf&->). exists s. split; [done|]. split; [done|]. by apply Hs.
  - intros (s&Hin&->&Hr). exists s. split; [done|]. split; [by apply Hs|done].
Qed.

Definition demo_sample (rec : Z) : VpaDivergence.Sample := VpaDivergence.mkSample "web" "shop" "Off" 500 0 rec 0 1200.

Lemma vpa_divergence_exact_witness : ∃ out,
  VpaDivergence.Analyze VpaDivergence.Default [demo_sample 400; demo_sample 401] = Ok out ∧
  VpaDivergence.finding (demo_sample 400) ∈ out ∧ length out = 1%nat.
Proof.
  destruct (vpa_divergence_exact [demo_sample 400; demo_sample 401]) as (out&E&Hout).
  { repeat (constructor; [cbn; lia|]). constructor. }
  exists out. split; [done|]. split.
  - apply Hout. exists (demo_sample 400). split; [constructor|]. split; [reflexivity|]. split; [left; reflexivity|].
    left. unfold a_fifth_over. cbn. lia.
  - revert E. vm_compute. by intros [= <-].
Defined.

(** The floor of an HPA is reported on a load strictly under half the target, which the
    product with one half gives exactly. *)
Lemma half_exact t : 0 < t <= 2^53 → f_rep (f_mul (f_of_Z t) HpaPinnedToMin.half) (inject_Z t * (1 # 2)).
Proof.
  intros Ht. pose proof (inject_Z_le 1 t ltac:(lia)) as Ht1. change (inject_Z 1) with 1%Q in Ht1.
  destruct (rep_mul (f_of_Z t) HpaPinnedToMin.half (inject_Z t) (1 # 2)) as (q&Hq&Hrep);
    [apply rep_of_Z; lia|by vm_compute|lra|done|..].
  - apply Qle_trans with (inject_Z t); [lra|]. apply Z_le_pow2_1000. lia.
  - unfold f_rep in *. destruct Hrep as (?&?&Hv). split; [done|]. split; [done|]. rewrite Hv, <-Hq.
    apply (rnd_exact q t (-1)); [|lia|done]. rewrite Hq. reflexivity.
Qed.

Lemma hpa_under_half s a : 0 < HpaPinnedToMin.TargetCPUUtilPct s <= 2^53 →
  f_rep (HpaPinnedToMin.AvgCPUUtilPct s) a →
  HpaPinnedToMin.fires HpaPinnedToMin.half s = true ↔
  1 < HpaPinnedToMin.MinReplicas s ∧ HpaPinnedToMin.CurrentReplicas s = HpaPinnedToMin.MinReplicas s ∧
  (a < inject_Z (HpaPinnedToMin.TargetCPUUtilPct s) * (1 # 2))%Q.
Proof.
  intros Ht Ha. unfold HpaPinnedToMin.fires. rewrite (rep_le _ _ _ _ (half_exact _ Ht) Ha).
  rewrite !andb_true_iff, !negb_true_iff, Z.eqb_eq, !Z.leb_gt, <-not_true_iff_false, Qle_bool_iff.
  split.
  - intros [[[H1 H2] H3] H4]. split; [done|]. split; [done|]. by apply Qnot_le_lt.
  - intros (H1&H2&H3). split_and!; [done|done|lia|]. by apply Qlt_not_le.
Qed.

(** "Gates how long the activity window must be empty": the number of days only has to be
    non-negative; nothing else depends on it. *)
Lemma stale_days_unused d d' l : 0 <= d → 0 <= d' → StaleNamespace.Analyze d l = StaleNamespace.Analyze d' l.
Proof.
  intros Hd Hd'. unfold StaleNamespace.Analyze. by rewrite (proj2 (Z.ltb_ge d 0)), (proj2 (Z.ltb_ge d' 0)) by done.
Qed.
