(* ===== verification/Operators.v ===== *)
(** The owner-reference walk that tells operator-managed workloads from direct
    ones (backend/internal/operators/detector.go).  The lookup of an owner's own
    controller is a parameter, as in the code. *)

From Stdlib Require Import Ascii.
From S2P Require Import Prelude GoStr.

Local Arguments str_mem : simpl never.

(** ** Data *)

Record OwnerRef := mkOwner {
  O_APIVersion : string; O_Kind : string; O_Name : string; O_Controller : bool }.
#[export] Instance OwnerRef_eq_dec : EqDecision OwnerRef.
Proof. solve_decision. Defined.

Record OWorkload := mkOWorkload {
  OW_Namespace : string; OW_Kind : string; OW_Name : string; OW_Owners : list OwnerRef }.

Record Classification := mkClassification { Direct : bool; Operator : string }.
#[export] Instance Classification_eq_dec : EqDecision Classification.
Proof. solve_decision. Defined.

Definition Classification_String (c : Classification) : string :=
  if Direct c then "direct"
  else if negb (string_eqb (Operator c) "") then "operator:" +:+ Operator c
  else "unknown".

Definition FormatClass (c : Classification) : string :=
  if Direct c then "direct"
  else if string_eqb (Operator c) "" then "unknown"
  else "operator:" +:+ Operator c.

Definition builtIn : list string :=
  ["Deployment"; "ReplicaSet"; "StatefulSet"; "DaemonSet"; "Job"; "CronJob"].

(** ** The walk *)

Definition controllingOwner (owners : list OwnerRef) : option OwnerRef :=
  match List.find O_Controller owners with
  | Some o => Some o
  | None => head owners
  end.

Definition apiGroup (apiVersion : string) : string :=
  match cut_byte "/"%char apiVersion with None => "" | Some (g, _) => g end.

Definition owner_key (r : OwnerRef) : string :=
  O_APIVersion r +:+ "/" +:+ O_Kind r +:+ "/" +:+ O_Name r.

Definition operator_of (r : OwnerRef) : string := apiGroup (O_APIVersion r) +:+ "/" +:+ O_Kind r.

Section Walk.
Context (resolve : OwnerRef → option OwnerRef).

(** The owner that the walk goes on with: found, and of a named kind. *)
Definition next_owner (r : OwnerRef) : option OwnerRef :=
  match resolve r with
  | Some next => if string_eqb (O_Kind next) "" then None else Some next
  | None => None
  end.

(** [depth] iterations are left; [visited] holds the keys seen so far. *)
Fixpoint classify_loop (depth : nat) (visited : list string) (ref : OwnerRef) : Classification :=
  match depth with
  | O => mkClassification false ""
  | S depth' =>
      let key := owner_key ref in
      if str_mem key visited then mkClassification false ""
      else if str_mem (O_Kind ref) builtIn then
        match next_owner ref with
        | None => mkClassification true ""
        | Some next => classify_loop depth' (key :: visited) next
        end
      else mkClassification false (operator_of ref)
  end.

Definition Classify (w : OWorkload) : Classification :=
  match controllingOwner (OW_Owners w) with
  | Some ref => classify_loop 16 [] ref
  | None => if str_mem (OW_Kind w) builtIn then mkClassification true "" else mkClassification true ""
  end.

(** ** Specification: the chain of controllers *)

(** [chain r path last]: following controllers from [r] through built-in kinds
    visits [path], which ends in [last]: an owner of another kind, or a built-in
    one without a controller of its own. *)
Inductive chain : OwnerRef → list OwnerRef → OwnerRef → Prop :=
| chain_operator r : str_mem (O_Kind r) builtIn = false → chain r [r] r
| chain_top r : str_mem (O_Kind r) builtIn = true → next_owner r = None → chain r [r] r
| chain_next r r' path last :
    str_mem (O_Kind r) builtIn = true → next_owner r = Some r' → chain r' path last →
    chain r (r :: path) last.

Definition verdict_of (last : OwnerRef) : Classification :=
  if str_mem (O_Kind last) builtIn then mkClassification true ""
  else mkClassification false (operator_of last).

(** The walk reads the chain when it is short enough and repeats no key. *)
Definition readable (depth : nat) (visited : list string) (path : list OwnerRef) : Prop :=
  (length path <= depth)%nat ∧ NoDup (owner_key <$> path) ∧
  ∀ r, r ∈ path → owner_key r ∉ visited.

Lemma chain_functional r p1 l1 p2 l2 : chain r p1 l1 → chain r p2 l2 → p1 = p2 ∧ l1 = l2.
Proof.
  intros H1. revert p2 l2. induction H1; intros p2 l2 H2; inversion H2; subst; try congruence; try done.
  simplify_eq. destruct (IHchain _ _ ltac:(eassumption)) as [-> ->]. done.
Qed.

Lemma loop_chain r path last : chain r path last → ∀ depth visited,
  readable depth visited path → classify_loop depth visited r = verdict_of last.
Proof.
  unfold verdict_of. induction 1 as [r Hb|r Hb Hn|r r' path last Hb Hn Hc IH];
    intros [|depth] visited (Hlen&Hnd&Hv); cbn in Hlen; try lia; cbn [classify_loop];
    rewrite (proj1 (not_true_iff_false (str_mem (owner_key r) visited))), Hb by
      (rewrite str_mem_spec; apply Hv; left); try done.
  - by rewrite Hn.
  - rewrite Hn. cbn in Hnd. apply NoDup_cons in Hnd as [Hnin Hnd]. apply IH.
    split_and!; [lia|done|]. intros q Hq. rewrite not_elem_of_cons. split.
    + intros E. apply Hnin. rewrite <-E. by apply list_elem_of_fmap_2.
    + apply Hv. by right.
Qed.

(** What the loop says is either the verdict of a chain it could read, or nothing. *)
Lemma loop_sound depth : ∀ visited r,
  classify_loop depth visited r = mkClassification false "" ∨
  ∃ path last, chain r path last ∧ readable depth visited path ∧
    classify_loop depth visited r = verdict_of last.
Proof.
  induction depth as [|depth IH]; intros visited r; [by left|]. cbn [classify_loop].
  destruct (str_mem (owner_key r) visited) eqn:Ev; [by left|].
  assert (owner_key r ∉ visited) as Hv by (rewrite <-str_mem_spec, Ev; done).
  assert (readable (S depth) visited [r]) as Hone.
  { split_and!; [cbn; lia|apply NoDup_singleton|]. by intros q ->%list_elem_of_singleton. }
  unfold verdict_of. destruct (str_mem (O_Kind r) builtIn) eqn:Eb.
  - destruct (next_owner r) as [r'|] eqn:En.
    + destruct (IH (owner_key r :: visited) r') as [->|(path&last&Hc&(Hlen&Hnd&Hvs)&->)]; [by left|].
      right. exists (r :: path), last. split; [by econstructor|]. split; [|done].
      split_and!; [cbn; lia| |].
      * cbn. apply NoDup_cons. split; [|done]. intros (q&E&Hq)%list_elem_of_fmap.
        apply (Hvs q Hq). rewrite <-E. left.
      * intros q [->|Hq]%elem_of_cons; [done|]. specialize (Hvs q Hq).
        rewrite not_elem_of_cons in Hvs. naive_solver.
    + right. exists [r], r. rewrite Eb. split; [by apply chain_top|done].
  - right. exists [r], r. rewrite Eb. split; [by apply chain_operator|done].
Qed.
End Walk.

Lemma operator_of_nonempty r : operator_of r ≠ "".
Proof. unfold operator_of. by destruct (apiGroup (O_APIVersion r)). Qed.

(** ** Properties *)

(** The classification is the verdict of the chain of controllers.  A workload
    without owners is direct.  Otherwise it is direct exactly when the chain from
    its controlling owner passes only built-in kinds to an owner without a
    controller, and is attributed to an operator exactly when the chain ends at
    another kind, in both cases within sixteen owners and without meeting a key
    twice; in every other case, a cycle among them, it is unknown, never direct.
    The walk always ends. *)
Theorem classify_chain (resolve : OwnerRef → option OwnerRef) (w : OWorkload) :
  let c := Classify resolve w in
  let reads r path last := chain resolve r path last ∧ readable 16 [] path in
  match controllingOwner (OW_Owners w) with
  | None => OW_Owners w = [] ∧ c = mkClassification true ""
  | Some r =>
      (Direct c = true ↔ ∃ path last, reads r path last ∧ str_mem (O_Kind last) builtIn = true) ∧
      (∀ op, op ≠ "" → (Operator c = op ↔
         ∃ path last, reads r path last ∧ str_mem (O_Kind last) builtIn = false ∧
           op = operator_of last)) ∧
      ((∀ path last, ¬ reads r path last) → c = mkClassification false "") ∧
      FormatClass c = Classification_String c
  end.
Proof.
  cbv zeta. unfold Classify. destruct (controllingOwner (OW_Owners w)) as [r|] eqn:Eo.
  - destruct (loop_sound resolve 16 [] r) as [Hu|(path&last&Hc&Hr&Hv)].
    + assert (∀ path last, chain resolve r path last → readable 16 [] path →
        verdict_of last = mkClassification false "") as Hno.
      { intros path last Hc Hr. by rewrite <-(loop_chain resolve r path last Hc 16 [] Hr). }
      rewrite Hu. cbn. split_and!; [|intros op Hop|done|done]; (split; [done|]).
      * intros (path&last&[Hc Hr]&Hb). specialize (Hno path last Hc Hr). unfold verdict_of in Hno.
        by rewrite Hb in Hno.
      * intros (path&last&[Hc Hr]&Hb&->). specialize (Hno path last Hc Hr). unfold verdict_of in Hno.
        rewrite Hb in Hno. by injection Hno.
    + rewrite Hv. unfold verdict_of. split_and!.
      * destruct (str_mem (O_Kind last) builtIn) eqn:Eb; cbn; (split; try done).
        -- intros _. by exists path, last.
        -- intros (p2&l2&[Hc2 _]&Hb2). destruct (chain_functional _ _ _ _ _ _ Hc Hc2) as [_ <-].
           congruence.
      * intros op Hop. destruct (str_mem (O_Kind last) builtIn) eqn:Eb; cbn; split.
        -- by intros <-.
        -- intros (p2&l2&[Hc2 _]&Hb2&_). destruct (chain_functional _ _ _ _ _ _ Hc Hc2) as [_ <-].
           congruence.
        -- intros <-. by exists path, last.
        -- intros (p2&l2&[Hc2 _]&_&->). by destruct (chain_functional _ _ _ _ _ _ Hc Hc2) as [_ <-].
      * intros Hn. by destruct (Hn path last).
      * unfold FormatClass, Classification_String. destruct (str_mem _ _); cbn; [done|].
        unfold string_eqb. by destruct (String.eqb_spec (operator_of last) "").
  - unfold controllingOwner in Eo. destruct (List.find O_Controller (OW_Owners w)); [done|].
    destruct (OW_Owners w); [|done]. split; [done|]. by destruct (str_mem _ _).
Qed.

(** A StatefulSet run by a Kafka operator, and a cycle. *)
Example classify_kafka :
  Classify (λ r, if string_eqb (O_Kind r) "StatefulSet"
                 then Some (mkOwner "kafka.strimzi.io/v1beta2" "Kafka" "main" true) else None)
    (mkOWorkload "ns" "Pod" "main-0" [mkOwner "apps/v1" "StatefulSet" "main" true]) =
  mkClassification false "kafka.strimzi.io/Kafka".
Proof. reflexivity. Qed.
Example classify_cycle :
  Classify (λ r, Some r) (mkOWorkload "ns" "Pod" "p" [mkOwner "apps/v1" "ReplicaSet" "r" true]) =
  mkClassification false "".
Proof. reflexivity. Qed.
