(* ===== verification/GateDiff.v ===== *)
(** [backend/internal/applyfix/gate/render.go]: applying a unified diff to the
    text of a chart. *)

From Stdlib Require Import Ascii.
From S2P Require Import Prelude GoNum GoStr Lines.
Local Open Scope Z_scope.

Record hunk := {
  oldStart : Z;
  oldLen : Z;
  operations : list ascii;
  body : list string;
}.

Inductive diff_error :=
| errMalformedHunk
| errContextMiss
| errNoHunks
| errPanic.        (** the Go runtime panics: slice index out of range *)

Definition splitNum (s : string) : string * string :=
  match cut_byte "," s with Some (a, b) => (a, b) | None => (s, "") end.

Definition parseHunkHeader (line : string) : result diff_error hunk :=
  let rest := trim_space (trim_prefix line "@@") in
  (** [strings.SplitN(rest, " ", 3)]: the first part, if there is a second *)
  match cut_byte " " rest with
  | None => Err errMalformedHunk
  | Some (part0, _) =>
      if negb (has_prefix part0 "-") then Err errMalformedHunk else
      let '(startStr, lenStr) := splitNum (trim_prefix part0 "-") in
      match parse_int startStr with
      | None => Err errMalformedHunk
      | Some start =>
          if String.eqb lenStr ""
          then Ok {| oldStart := start; oldLen := 1; operations := []; body := [] |}
          else match parse_int lenStr with
               | None => Err errMalformedHunk
               | Some l => Ok {| oldStart := start; oldLen := l; operations := []; body := [] |}
               end
      end
  end.

Definition add_line (h : hunk) (op : ascii) (payload : string) : hunk := {|
  oldStart := oldStart h; oldLen := oldLen h;
  operations := operations h ++ [op]; body := body h ++ [payload] |}.

(** The hunks so far and the one being filled ([cur]). *)
Definition scan_state : Type := list hunk * option hunk.
Definition all_hunks (st : scan_state) : list hunk :=
  st.1 ++ match st.2 with Some h => [h] | None => [] end.

Definition scan_line (st : scan_state) (line : string) : result diff_error scan_state :=
  if has_prefix line "--- " || has_prefix line "+++ " then Ok st
  else if has_prefix line "@@" then
    let* h := parseHunkHeader line in Ok (all_hunks st, Some h)
  else match st.2 with
       | None => Ok st
       | Some cur =>
           match line with
           | EmptyString => Ok (st.1, Some (add_line cur " " ""))
           | String op payload =>
               if Ascii.eqb op " " || Ascii.eqb op "-" || Ascii.eqb op "+"
               then Ok (st.1, Some (add_line cur op payload))
               else if Ascii.eqb op "\" then Ok st
               else Ok (st.1, Some (add_line cur " " line))
           end
       end.

Fixpoint scan_lines (st : scan_state) (lines : list string) : result diff_error scan_state :=
  match lines with
  | [] => Ok st
  | l :: lines => let* st := scan_line st l in scan_lines st lines
  end.

Fixpoint old_block (ops : list ascii) (body : list string) : list string :=
  match ops, body with
  | op :: ops, b :: body =>
      if Ascii.eqb op " " || Ascii.eqb op "-" then b :: old_block ops body else old_block ops body
  | _, _ => []
  end.
Fixpoint new_block (ops : list ascii) (body : list string) : list string :=
  match ops, body with
  | op :: ops, b :: body =>
      if Ascii.eqb op " " || Ascii.eqb op "+" then b :: new_block ops body else new_block ops body
  | _, _ => []
  end.

Definition zlen {A} (l : list A) : Z := Z.of_nat (length l).

(** [for k := range want { if src[i+k] != want[k] ... }]; [None] is a panic. *)
Fixpoint match_at (src want : list string) (i : Z) : option bool :=
  match want with
  | [] => Some true
  | w :: want =>
      if (0 <=? i) && (i <? zlen src) then
        match src !! Z.to_nat i with
        | Some l => if String.eqb l w then match_at src want (i64_add i 1) else Some false
        | None => None
        end
      else None
  end.

Definition tryAt (src want : list string) (i : Z) : option bool :=
  if (i <? 0) || (zlen src <? i64_add i (zlen want)) then Some false else match_at src want i.

(** [for i := cursor; i+len(want) <= len(src); i++] *)
Fixpoint search_block (fuel : nat) (src want : list string) (i : Z) : result diff_error Z :=
  match fuel with
  | O => Err errContextMiss
  | S fuel =>
      if zlen src <? i + zlen want then Err errContextMiss else
      match tryAt src want i with
      | None => Err errPanic
      | Some true => Ok i
      | Some false => search_block fuel src want (i + 1)
      end
  end.

Definition findBlock (src want : list string) (cursor hint : Z) : result diff_error Z :=
  match want with
  | [] => if (0 <=? hint) && (hint <=? zlen src) then Ok hint else Ok cursor
  | _ =>
      match tryAt src want hint with
      | None => Err errPanic
      | Some true => Ok hint
      | Some false => search_block (S (length src)) src want cursor
      end
  end.

Definition apply_hunk (out : list string) (cursor : Z) (h : hunk) : result diff_error (list string * Z) :=
  let oldBlock := old_block (operations h) (body h) in
  let newBlock := new_block (operations h) (body h) in
  let* idx := findBlock out oldBlock cursor (i64_sub (oldStart h) 1) in
  Ok (take (Z.to_nat idx) out ++ newBlock ++ drop (Z.to_nat (idx + zlen oldBlock)) out,
      idx + zlen newBlock).

Fixpoint apply_hunks (out : list string) (cursor : Z) (hs : list hunk) : result diff_error (list string) :=
  match hs with
  | [] => Ok out
  | h :: hs =>
      match apply_hunk out cursor h with
      | Err e => Err e
      | Ok (out, cursor) => apply_hunks out cursor hs
      end
  end.


Definition applyUnifiedDiff (src diff : string) : result diff_error string :=
  let srcLines := split_byte newline src in
  let* st := scan_lines ([], None) (split_byte newline diff) in
  let hunks := all_hunks st in
  match hunks with
  | [] => Err errNoHunks
  | _ => let* out := apply_hunks srcLines 0 hunks in
         Ok (join (String newline "") out)
  end.

(** ** Hunk headers *)

Definition header (start n m : Z) : string :=
  "@@ -" +:+ itoa start +:+ "," +:+ itoa n +:+ " +" +:+ itoa start +:+ "," +:+ itoa m +:+ " @@".

Lemma trim_space_inner c mid d : is_graph c = true → is_graph d = true →
  trim_space (String " " (String c (mid +:+ String d ""))) = String c (mid +:+ String d "").
Proof.
  intros Hc Hd. unfold trim_space.
  change (String.length (String " " (String c (mid +:+ String d ""))))
    with (S (String.length (String c (mid +:+ String d "")))).
  cbn [trim_left_fuel].
  change (strip_any space_runes (String " " (String c (mid +:+ String d ""))))
    with (Some (String c (mid +:+ String d ""))).
  cbv iota. rewrite (trim_left_stop _ space_runes) by (by apply strip_space_graph).
  rewrite <-sapp_cons, rev_sapp.
  change (String.rev (String d "")) with (String d "").
  change (String d "" +:+ String.rev (String c mid)) with (String d (String.rev (String c mid))).
  rewrite trim_left_stop by (by apply strip_rev_space_graph).
  rewrite rev_cons, rev_involutive. done.
Qed.

Lemma parse_header start n m : 0 <= start < 2^63 → 0 <= n < 2^63 → 0 <= m →
  parseHunkHeader (header start n m) =
    Ok {| oldStart := start; oldLen := n; operations := []; body := [] |}.
Proof.
  intros Hs Hn Hm.
  destruct (itoa_nonneg start) as (Ds&Ns&_); [lia|]. destruct (itoa_nonneg n) as (Dn&Nn&_); [lia|].
  unfold parseHunkHeader.
  set (tail := "+" +:+ itoa start +:+ "," +:+ itoa m +:+ " @").
  assert (trim_prefix (header start n m) "@@" =
    String " " (String "-" ((itoa start +:+ "," +:+ itoa n +:+ " " +:+ tail) +:+ String "@" ""))) as ->.
  { unfold trim_prefix, header.
    change ("@@ -" +:+ ?x) with ("@@" +:+ (" -" +:+ x)). rewrite strip_prefix_app.
    cbn [default from_option id]. unfold tail. by rewrite <-!sapp_assoc. }
  rewrite trim_space_inner by done.
  assert (String "-" ((itoa start +:+ "," +:+ itoa n +:+ " " +:+ tail) +:+ String "@" "") =
    ("-" +:+ itoa start +:+ "," +:+ itoa n) +:+ String " " (tail +:+ String "@" "")) as ->
    by (by rewrite <-!sapp_assoc).
  rewrite cut_byte_app.
  2: { rewrite !no_byte_app, (digits_no_byte " " (itoa start)), (digits_no_byte " " (itoa n)) by done.
       done. }
  unfold has_prefix, trim_prefix. rewrite strip_prefix_app. cbn [negb default from_option id].
  unfold splitNum. change ("," +:+ itoa n) with (String "," (itoa n)).
  rewrite cut_byte_app by (by apply digits_no_byte).
  rewrite !parse_int_itoa by (unfold in_i64; lia).
  destruct (String.eqb_spec (itoa n) ""); done.
Qed.

(** ** Edit scripts *)

(** An edit: the unchanged lines before it, and its hunk (operation, text). *)
Record edit := { kept : list string; ops : list (ascii * string) }.

Definition old_of (e : edit) : list string := old_block (ops e).*1 (ops e).*2.
Definition new_of (e : edit) : list string := new_block (ops e).*1 (ops e).*2.

Definition op_line (o : ascii * string) : string := String o.1 o.2.

(** The unified diff of a script; [pos] is the line of the old file reached. *)
Fixpoint diff_lines (pos : Z) (script : list edit) : list string :=
  match script with
  | [] => []
  | e :: script =>
      header (pos + zlen (kept e) + 1) (zlen (old_of e)) (zlen (new_of e)) ::
      (op_line <$> ops e) ++ diff_lines (pos + zlen (kept e) + zlen (old_of e)) script
  end.

Definition old_lines (script : list edit) (tail : list string) : list string :=
  flat_map (λ e, kept e ++ old_of e) script ++ tail.
Definition new_lines (script : list edit) (tail : list string) : list string :=
  flat_map (λ e, kept e ++ new_of e) script ++ tail.

(** A line the diff format can carry: no newline, and neither a removed line
    starting with [-- ] nor an added one starting with [++ ] (they would read
    as file headers). *)
Definition op_ok (o : ascii * string) : bool :=
  (Ascii.eqb o.1 " " || Ascii.eqb o.1 "-" && negb (has_prefix o.2 "-- ")
   || Ascii.eqb o.1 "+" && negb (has_prefix o.2 "++ ")) && no_byte newline o.2.

(** The hunk changes lines in place. *)
Definition edit_ok (e : edit) : Prop :=
  Forall (λ o, op_ok o = true) (ops e) ∧ Forall (λ l, no_byte newline l = true) (kept e) ∧
  length (old_of e) = length (new_of e).

Definition hunk_of (pos : Z) (e : edit) : hunk := {|
  oldStart := pos + zlen (kept e) + 1; oldLen := zlen (old_of e);
  operations := (ops e).*1; body := (ops e).*2 |}.

Fixpoint hunks_of (pos : Z) (script : list edit) : list hunk :=
  match script with
  | [] => []
  | e :: script => hunk_of pos e :: hunks_of (pos + zlen (kept e) + zlen (old_of e)) script
  end.

(** ** Scanning the printed diff *)

Lemma scan_op hs cur o : op_ok o = true →
  scan_line (hs, Some cur) (op_line o) = Ok (hs, Some (add_line cur o.1 o.2)).
Proof.
  destruct o as [op p]. unfold op_ok, op_line, scan_line. cbn [fst snd].
  destruct (Ascii.eqb_spec op " ") as [->|]; [done|].
  destruct (Ascii.eqb_spec op "-") as [->|].
  { cbn [orb andb]. intros [H _]%andb_prop. rewrite orb_false_r in H. apply negb_true_iff in H.
    assert (has_prefix (String "-" p) "--- " = false) as -> by exact H. done. }
  destruct (Ascii.eqb_spec op "+") as [->|]; [|done].
  cbn [orb andb]. intros [H _]%andb_prop. apply negb_true_iff in H.
  assert (has_prefix (String "+" p) "+++ " = false) as -> by exact H. done.
Qed.

Lemma scan_ops hs cur os rest : Forall (λ o, op_ok o = true) os →
  scan_lines (hs, Some cur) ((op_line <$> os) ++ rest) =
  scan_lines (hs, Some {| oldStart := oldStart cur; oldLen := oldLen cur;
                          operations := operations cur ++ os.*1;
                          body := body cur ++ os.*2 |}) rest.
Proof.
  intros Hos. revert cur. induction Hos as [|o os Ho Hos IH]; intros cur.
  - destruct cur. cbn. by rewrite !app_nil_r.
  - rewrite fmap_cons. cbn [app scan_lines]. rewrite scan_op by done. cbn [rbind].
    rewrite IH. cbn [add_line oldStart oldLen operations body]. rewrite !fmap_cons.
    by rewrite <-!app_assoc.
Qed.

Lemma scan_header st start n m : 0 <= start < 2^63 → 0 <= n < 2^63 → 0 <= m →
  scan_line st (header start n m) =
    Ok (all_hunks st, Some {| oldStart := start; oldLen := n; operations := []; body := [] |}).
Proof. intros. unfold scan_line. rewrite parse_header by done. done. Qed.

Lemma zlen_app {A} (l1 l2 : list A) : zlen (l1 ++ l2) = zlen l1 + zlen l2.
Proof. unfold zlen. rewrite length_app. lia. Qed.
Lemma zlen_nonneg {A} (l : list A) : 0 <= zlen l.
Proof. unfold zlen. lia. Qed.

Lemma old_lines_cons e script tail :
  old_lines (e :: script) tail = kept e ++ old_of e ++ old_lines script tail.
Proof. unfold old_lines. simpl. by rewrite <-!app_assoc. Qed.
Lemma new_lines_cons e script tail :
  new_lines (e :: script) tail = kept e ++ new_of e ++ new_lines script tail.
Proof. unfold new_lines. simpl. by rewrite <-!app_assoc. Qed.

Lemma scan_diff script tail pos st : Forall edit_ok script → 0 <= pos →
  pos + zlen (old_lines script tail) < 2^62 →
  ∃ st', scan_lines st (diff_lines pos script) = Ok st' ∧
         all_hunks st' = all_hunks st ++ hunks_of pos script.
Proof.
  intros Hok. revert pos st. induction Hok as [|e script He Hok IH]; intros pos st Hp Hlen.
  { exists st. cbn. by rewrite app_nil_r. }
  rewrite old_lines_cons, !zlen_app in Hlen.
  pose proof (zlen_nonneg (kept e)). pose proof (zlen_nonneg (old_of e)).
  pose proof (zlen_nonneg (new_of e)). pose proof (zlen_nonneg (old_lines script tail)).
  cbn [diff_lines scan_lines hunks_of]. rewrite scan_header by lia. cbn [rbind].
  destruct He as (Hops&_&_). rewrite scan_ops by done. cbn [oldStart oldLen operations body app].
  edestruct IH as (st'&->&Hst'); [..|exists st'; split; [done|]]; [lia|lia|].
  rewrite Hst'. unfold all_hunks at 1. cbn [fst snd]. by rewrite <-app_assoc.
Qed.

(** ** Applying it *)

Lemma match_at_spec (pre mid post : list string) : zlen (pre ++ mid ++ post) < 2^62 →
  match_at (pre ++ mid ++ post) mid (zlen pre) = Some true.
Proof.
  revert pre. induction mid as [|l mid IH]; intros pre Hlen; [done|].
  rewrite !zlen_app in Hlen. change (l :: mid) with ([l] ++ mid) in Hlen. rewrite zlen_app in Hlen.
  pose proof (zlen_nonneg pre). pose proof (zlen_nonneg mid). pose proof (zlen_nonneg post).
  change (zlen [l]) with 1 in Hlen.
  cbn [match_at]. rewrite (proj2 (Z.leb_le 0 (zlen pre))) by done.
  assert (zlen pre < zlen (pre ++ (l :: mid) ++ post)) as Hlt.
  { rewrite !zlen_app. change (l :: mid) with ([l] ++ mid). rewrite zlen_app.
    change (zlen [l]) with 1. lia. }
  rewrite (proj2 (Z.ltb_lt _ _) Hlt). cbn [andb].
  unfold zlen at 1. rewrite Nat2Z.id, lookup_app_r, Nat.sub_diag by lia. cbn [app lookup list_lookup].
  rewrite String.eqb_refl. unfold i64_add. rewrite wrap64_id by (unfold in_i64; lia).
  replace (pre ++ l :: mid ++ post) with ((pre ++ [l]) ++ mid ++ post) by (by rewrite <-app_assoc).
  replace (zlen pre + 1) with (zlen (pre ++ [l])) by (rewrite zlen_app; done).
  apply IH. rewrite !zlen_app. change (zlen [l]) with 1. lia.
Qed.

(** A block at the hinted line is found there. *)
Lemma findBlock_hint pre mid post cursor : zlen (pre ++ mid ++ post) < 2^62 →
  findBlock (pre ++ mid ++ post) mid cursor (zlen pre) = Ok (zlen pre).
Proof.
  intros Hlen. pose proof (zlen_nonneg pre). pose proof (zlen_nonneg mid). pose proof (zlen_nonneg post).
  pose proof Hlen as Hlen'. rewrite !zlen_app in Hlen'.
  unfold findBlock. destruct mid as [|l mid].
  - rewrite (proj2 (Z.leb_le 0 (zlen pre))), (proj2 (Z.leb_le (zlen pre) _)); [done| |done].
    rewrite !zlen_app. change (zlen []) with 0. lia.
  - unfold tryAt. rewrite (proj2 (Z.ltb_ge (zlen pre) 0)) by done.
    unfold i64_add. rewrite wrap64_id by (unfold in_i64; lia).
    rewrite (proj2 (Z.ltb_ge _ (zlen pre + zlen (l :: mid)))) by (rewrite !zlen_app; lia).
    cbn [orb]. by rewrite match_at_spec.
Qed.

Lemma apply_hunk_at pre e post cursor :
  zlen (pre ++ kept e ++ old_of e ++ post) < 2^62 →
  apply_hunk (pre ++ kept e ++ old_of e ++ post) cursor (hunk_of (zlen pre) e) =
    Ok (pre ++ kept e ++ new_of e ++ post, zlen pre + zlen (kept e) + zlen (new_of e)).
Proof.
  intros Hlen. unfold apply_hunk. cbn [hunk_of operations body oldStart].
  change (old_block (ops e).*1 (ops e).*2) with (old_of e).
  change (new_block (ops e).*1 (ops e).*2) with (new_of e).
  pose proof Hlen as Hlen'. rewrite !zlen_app in Hlen'.
  pose proof (zlen_nonneg pre). pose proof (zlen_nonneg (kept e)).
  pose proof (zlen_nonneg (old_of e)). pose proof (zlen_nonneg post).
  unfold i64_sub. rewrite wrap64_id by (unfold in_i64; lia).
  replace (zlen pre + zlen (kept e) + 1 - 1) with (zlen (pre ++ kept e)) by (rewrite zlen_app; lia).
  replace (pre ++ kept e ++ old_of e ++ post) with ((pre ++ kept e) ++ old_of e ++ post) in *
    by (by rewrite <-app_assoc).
  rewrite findBlock_hint by done. cbn [rbind]. f_equal. f_equal.
  - assert (Z.to_nat (zlen (pre ++ kept e)) = length (pre ++ kept e)) as -> by (unfold zlen; lia).
    assert (Z.to_nat (zlen (pre ++ kept e) + zlen (old_of e)) = length ((pre ++ kept e) ++ old_of e))
      as -> by (unfold zlen; rewrite (length_app (pre ++ kept e)); lia).
    rewrite take_app_length, (app_assoc (pre ++ kept e) (old_of e) post), drop_app_length. by rewrite <-!app_assoc.
  - by rewrite zlen_app.
Qed.

Lemma apply_script script : ∀ tail pre cursor, Forall edit_ok script →
  zlen (pre ++ old_lines script tail) < 2^62 →
  apply_hunks (pre ++ old_lines script tail) cursor (hunks_of (zlen pre) script) =
    Ok (pre ++ new_lines script tail).
Proof.
  induction script as [|e script IH]; intros tail pre cursor Hok Hlen; [done|].
  apply Forall_cons in Hok as [He Hok]. rewrite old_lines_cons in *. rewrite new_lines_cons.
  cbn [hunks_of apply_hunks]. rewrite apply_hunk_at by done.
  destruct He as (_&_&Hsame).
  assert (zlen (new_of e) = zlen (old_of e)) as Hz by (unfold zlen; by rewrite Hsame).
  replace (zlen pre + zlen (kept e) + zlen (old_of e)) with (zlen (pre ++ kept e ++ new_of e))
    by (rewrite !zlen_app; lia).
  rewrite (app_assoc (kept e)), (app_assoc pre).
  rewrite IH; [by rewrite <-!app_assoc|done|].
  rewrite !zlen_app in *. lia.
Qed.

Lemma header_no_newline start n m : 0 <= start → 0 <= n → 0 <= m →
  no_byte newline (header start n m) = true.
Proof.
  intros. unfold header.
  destruct (itoa_nonneg start) as (Ds&_); [done|]. destruct (itoa_nonneg n) as (Dn&_); [done|].
  destruct (itoa_nonneg m) as (Dm&_); [done|].
  rewrite !no_byte_app, (digits_no_byte newline (itoa start)), (digits_no_byte newline (itoa n)),
    (digits_no_byte newline (itoa m)) by done. done.
Qed.

Lemma op_ok_newline o : op_ok o = true → no_byte newline (op_line o) = true ∧ no_byte newline o.2 = true.
Proof.
  destruct o as [op p]. unfold op_ok, op_line. cbn [fst snd]. intros [H Hp]%andb_prop.
  split; [|done]. unfold no_byte in *. cbn [str_all]. rewrite Hp, andb_true_r.
  apply negb_true_iff, Ascii.eqb_neq. intros ->. by cbn in H.
Qed.

Lemma diff_lines_no_newline script pos : Forall edit_ok script → 0 <= pos →
  Forall (λ l, no_byte newline l = true) (diff_lines pos script).
Proof.
  intros Hok. revert pos. induction Hok as [|e script (Ho&_) Hok IH]; intros pos Hp; [constructor|].
  pose proof (zlen_nonneg (kept e)). pose proof (zlen_nonneg (old_of e)).
  pose proof (zlen_nonneg (new_of e)).
  cbn [diff_lines]. apply Forall_cons. split; [apply header_no_newline; lia|].
  apply Forall_app. split; [|apply IH; lia].
  apply Forall_fmap. eapply Forall_impl; [exact Ho|]. intros o Hq. by apply op_ok_newline.
Qed.

Lemma old_block_forall (P : string → Prop) os : Forall (λ o, P o.2) os → Forall P (old_block os.*1 os.*2).
Proof.
  induction 1 as [|[op p] os Ho Hos IH]; [constructor|]. cbn in *. destruct (_ || _); [by constructor|done].
Qed.

Lemma old_lines_no_newline script tail : Forall edit_ok script →
  Forall (λ l, no_byte newline l = true) tail →
  Forall (λ l, no_byte newline l = true) (old_lines script tail).
Proof.
  intros Hok Ht. induction Hok as [|e script (Ho&Hk&_) Hok IH]; [done|].
  rewrite old_lines_cons. rewrite !Forall_app. split_and!; [done| |done].
  apply (old_block_forall (λ l, no_byte newline l = true)).
  eapply Forall_impl; [exact Ho|]. intros o Hq. by apply op_ok_newline.
Qed.

Definition unlines (ls : list string) : string := join (String newline "") ls.

(** C3: applying the unified diff of an edit script to the old text gives the
    new text, for any number of hunks that change lines in place (as many lines
    added as removed), whatever the texts, repeated lines included. *)
Theorem unified_diff_roundtrip (script : list edit) (tail : list string)
    (Hne : script ≠ []) (Hok : Forall edit_ok script)
    (Htail : Forall (λ l, no_byte newline l = true) tail)
    (Hsrc : old_lines script tail ≠ []) (Hlen : zlen (old_lines script tail) < 2^62) :
  applyUnifiedDiff (unlines (old_lines script tail)) (unlines (diff_lines 0 script)) =
    Ok (unlines (new_lines script tail)).
Proof.
  unfold applyUnifiedDiff, unlines.
  rewrite (split_join newline (old_lines script tail)) by (done || by apply old_lines_no_newline).
  rewrite (split_join newline (diff_lines 0 script)); [|by destruct script|by apply diff_lines_no_newline].
  destruct (scan_diff script tail 0 ([], None) Hok) as (st&->&Hst); [lia|lia|].
  cbn [rbind]. rewrite Hst. cbn [all_hunks app fst snd].
  pose proof (apply_script script tail [] 0 Hok Hlen) as Ha. cbn [app] in Ha.
  change (zlen []) with 0 in Ha.
  destruct (hunks_of 0 script) eqn:E; [by destruct script|]. rewrite Ha. done.
Qed.

Definition sample_script : list edit :=
  [ {| kept := ["api:"; "  resources:"]; ops := [(" "%char, "    requests:");
       ("-"%char, "      cpu: 2"); ("+"%char, "      cpu: 1")] |};
    {| kept := ["    limits:"]; ops := [("-"%char, "      cpu: 4"); ("+"%char, "      cpu: 2")] |} ].

Lemma unified_diff_roundtrip_witness :
  diff_lines 0 sample_script =
    ["@@ -3,2 +3,2 @@"; "     requests:"; "-      cpu: 2"; "+      cpu: 1";
     "@@ -6,1 +6,1 @@"; "-      cpu: 4"; "+      cpu: 2"] ∧
  applyUnifiedDiff (unlines (old_lines sample_script [""])) (unlines (diff_lines 0 sample_script)) =
    Ok (unlines ["api:"; "  resources:"; "    requests:"; "      cpu: 1"; "    limits:";
                 "      cpu: 2"; ""]).
Proof.
  split; [vm_compute; reflexivity|].
  apply (unified_diff_roundtrip sample_script [""]);
    [discriminate|repeat constructor|repeat constructor|discriminate|vm_compute; reflexivity].
Defined.

(** Outside that case the gate's patching departs from the unified format:
    a start line near the int64 limit makes the bounds test wrap and the gate
    panics; a diff that ends in a newline gets an extra empty context line and
    is refused; after a hunk that adds a line the next one is looked up at the
    old line number and can rewrite the wrong copy of a repeated line; and a
    pure insertion lands before the line it should follow. *)
Theorem unified_diff_divergences :
  applyUnifiedDiff (unlines ["a"; "b"])
    (unlines ["@@ -9223372036854775807,2 +1,2 @@"; " a"; " b"]) = Err errPanic ∧
  applyUnifiedDiff (unlines ["a"; "b"; "c"]) (unlines ["@@ -1,1 +1,1 @@"; "-a"; "+x"; ""]) =
    Err errContextMiss ∧
  applyUnifiedDiff (unlines ["a"; "x"; "x"; "x"; "b"])
    (unlines ["@@ -1,1 +1,2 @@"; "+n"; " a"; "@@ -4,1 +5,1 @@"; "-x"; "+y"]) =
    Ok (unlines ["n"; "a"; "x"; "y"; "x"; "b"]) ∧
  applyUnifiedDiff (unlines ["a"; "b"; "c"]) (unlines ["@@ -2,0 +3,1 @@"; "+n"]) =
    Ok (unlines ["a"; "n"; "b"; "c"]).
Proof. repeat split; vm_compute; reflexivity. Qed.
