(* ===== verification/Gate.v ===== *)
(** [backend/internal/applyfix/gate]: the validation pipeline an Apply Fix
    candidate passes before it leaves the worker (pipeline.go, policy.go,
    validators.go, render.go, conform.go, post.go, dryrun.go).  The YAML decoder
    and the in-cluster agent are parameters. *)

From Stdlib Require Import Ascii QArith Qround Lqa.
From S2P Require Import Prelude GoNum GoStr Quantity AllRules Diff GateDiff.
Local Open Scope Z_scope.

(** ** pipeline.go *)

Inductive Stage := StageTemplate | StageConform | StageDryrun | StagePost.
Inductive Status := StatusPassed | StatusFailed | StatusNotImplemented.

#[export] Instance stage_eq_dec : EqDecision Stage.
Proof. solve_decision. Defined.
#[export] Instance status_eq_dec : EqDecision Status.
Proof. solve_decision. Defined.

Record Candidate := {
  ApplyFixID : string;
  ChartYAML : string;
  UnifiedDiff : string;
  CWorkload : string;
}.

(** The errors a stage can carry. *)
Inductive gate_error :=
| ErrNotImplemented
| ErrEmptyInput
| ErrDiff (e : diff_error)
| ErrYAML
| ErrKeyDropped (key : string)
| ErrShape
| ErrLabelRemoved (label : string)
| ErrResourceRemoved (path : string)
| ErrResourceCut (path : string)
| ErrAgent
| ErrAgentRejected.

Record StageResult := { SRStage : Stage; SRStatus : Status; SRDetail : string; SRErr : option gate_error }.

Record Validator := { VStage : Stage; VValidate : Candidate → StageResult }.

Definition Policy : Type := Stage → Status → bool.

Definition with_stage (s : Stage) (r : StageResult) : StageResult :=
  {| SRStage := s; SRStatus := SRStatus r; SRDetail := SRDetail r; SRErr := SRErr r |}.

(** What [fmt.Errorf] wraps: the stage's error, or the detail text. *)
Inductive run_error := RunErr (stage : Stage) (status : Status) (cause : gate_error + string).

Definition errOrSentinel (r : StageResult) : gate_error + string :=
  match SRErr r with
  | Some e => inl e
  | None => if decide (SRStatus r = StatusNotImplemented) then inl ErrNotImplemented
            else inr (SRDetail r)
  end.

(** The stage results recorded, and the error if a stage was not allowed. *)
Fixpoint Pipeline_Run (policy : Policy) (vs : list Validator) (c : Candidate)
    : list StageResult * option run_error :=
  match vs with
  | [] => ([], None)
  | v :: vs =>
      let res := with_stage (VStage v) (VValidate v c) in
      if policy (SRStage res) (SRStatus res) then
        let '(rest, err) := Pipeline_Run policy vs c in (res :: rest, err)
      else ([res], Some (RunErr (SRStage res) (SRStatus res) (errOrSentinel res)))
  end.

(** ** policy.go, validators.go *)

Definition SkeletonPolicy : Policy := λ _ s, negb (bool_decide (s = StatusFailed)).
Definition StrictPolicy : Policy := λ _ s, bool_decide (s = StatusPassed).

Definition NotImplementedValidator (s : Stage) : Validator := {|
  VStage := s;
  VValidate := λ _, {| SRStage := s; SRStatus := StatusNotImplemented;
                       SRDetail := "stage not yet implemented"; SRErr := Some ErrNotImplemented |} |}.

Definition SkeletonValidators : list Validator :=
  NotImplementedValidator <$> [StageTemplate; StageConform; StageDryrun; StagePost].

(** ** render.go *)

Definition failed (s : Stage) (detail : string) (err : gate_error) : StageResult :=
  {| SRStage := s; SRStatus := StatusFailed; SRDetail := detail; SRErr := Some err |}.
Definition passed (s : Stage) : StageResult :=
  {| SRStage := s; SRStatus := StatusPassed; SRDetail := ""; SRErr := None |}.

Definition blank (s : string) : bool := String.eqb (trim_space s) "".

(** Decoded YAML ([any] in Go); maps in the order Go happens to iterate them. *)
Inductive any :=
| AMap (kvs : list (string * any))
| AList (l : list any)
| AStr (s : string)
| AInt (z : Z)
| AFloat (f : float64)
| AOther.

Definition RenderValidator (yaml_any : string → option any) : Validator := {|
  VStage := StageTemplate;
  VValidate := λ c,
    if blank (UnifiedDiff c) then failed StageTemplate "empty diff" ErrEmptyInput
    else if blank (ChartYAML c) then failed StageTemplate "empty chart yaml" ErrEmptyInput
    else match applyUnifiedDiff (ChartYAML c) (UnifiedDiff c) with
         | Err e => failed StageTemplate "diff did not apply" (ErrDiff e)
         | Ok patched =>
             match yaml_any patched with
             | None => failed StageTemplate "post-diff yaml invalid" ErrYAML
             | Some _ => passed StageTemplate
             end
         end |}.

(** ** conform.go *)

Fixpoint hasKey (n : any) (key : string) : bool :=
  match n with
  | AMap kvs =>
      existsb (λ kv, String.eqb kv.1 key) kvs ||
      (fix go l := match l with [] => false | (_, v) :: l => hasKey v key || go l end) kvs
  | AList l => (fix go l := match l with [] => false | v :: l => hasKey v key || go l end) l
  | _ => false
  end.

(** [n[key]] and whether it is present; keys of a Go map are unique. *)
Fixpoint map_get (key : string) (kvs : list (string * any)) : option any :=
  match kvs with
  | [] => None
  | (k, v) :: kvs => if String.eqb k key then Some v else map_get key kvs
  end.

(** [s, _ := v.(string)] *)
Definition as_string (v : option any) : string :=
  match v with Some (AStr s) => s | _ => "" end.

Definition empty_if_present (v : option any) : bool :=
  match v with Some _ => String.eqb (as_string v) "" | None => false end.

Fixpoint checkAPIVersionKindShape (n : any) : result gate_error unit :=
  match n with
  | AMap kvs =>
      if empty_if_present (map_get "apiVersion" kvs) then Err ErrShape
      else if empty_if_present (map_get "kind" kvs) then Err ErrShape
      else (fix go l := match l with
                        | [] => Ok tt
                        | (_, v) :: l => let* _ := checkAPIVersionKindShape v in go l
                        end) kvs
  | AList l => (fix go l := match l with
                            | [] => Ok tt
                            | v :: l => let* _ := checkAPIVersionKindShape v in go l
                            end) l
  | _ => Ok tt
  end.

Fixpoint check_keys (doc : any) (keys : list string) : option string :=
  match keys with
  | [] => None
  | key :: keys => if hasKey doc key then check_keys doc keys else Some key
  end.

(** [yaml_map] decodes into [map[string]any]; it fails on other documents. *)
Definition ConformValidator (yaml_map : string → option (list (string * any)))
    (RequiredKeys : list string) : Validator := {|
  VStage := StageConform;
  VValidate := λ c,
    if blank (ChartYAML c) || blank (UnifiedDiff c) then failed StageConform "empty input" ErrEmptyInput
    else match applyUnifiedDiff (ChartYAML c) (UnifiedDiff c) with
         | Err e => failed StageConform "diff did not apply" (ErrDiff e)
         | Ok patched =>
             match yaml_map patched with
             | None => failed StageConform "post-diff yaml invalid" ErrYAML
             | Some doc =>
                 match check_keys (AMap doc) RequiredKeys with
                 | Some key => failed StageConform ("required key removed: " +:+ key) (ErrKeyDropped key)
                 | None =>
                     match checkAPIVersionKindShape (AMap doc) with
                     | Err e => failed StageConform "manifest shape rejected" e
                     | Ok _ => passed StageConform
                     end
                 end
             end
         end |}.

(** ** post.go *)

Definition label_keys (kvs : list (string * any)) : list string :=
  match map_get "labels" kvs with Some (AMap labels) => labels.*1 | _ => [] end.

Fixpoint walkLabels (n : any) : list string :=
  match n with
  | AMap kvs =>
      label_keys kvs ++
      (fix go l := match l with [] => [] | (_, v) :: l => walkLabels v ++ go l end) kvs
  | AList l => (fix go l := match l with [] => [] | v :: l => walkLabels v ++ go l end) l
  | _ => []
  end.

Definition checkLabelsPreserved (before after : any) : result gate_error unit :=
  match List.filter (λ k, negb (str_mem k (walkLabels after))) (walkLabels before) with
  | [] => Ok tt
  | k :: _ => Err (ErrLabelRemoved k)
  end.

(** The running value, the power of ten of the fraction, and whether the dot
    has been seen; stops at the first other character. *)
Fixpoint parseFloat_go (s : string) (out frac : float64) (inFrac : bool) : float64 :=
  match s with
  | EmptyString => out
  | String c s =>
      if Ascii.eqb c "." then parseFloat_go s out frac true
      else if is_digit c then
        let d := f_of_Z (byte_val c - 48) in
        if inFrac then
          let frac := f_mul frac (f_of_Z 10) in
          parseFloat_go s (f_add out (f_div d frac)) frac inFrac
        else parseFloat_go s (f_add (f_mul out (f_of_Z 10)) d) frac inFrac
      else out
  end.
Definition parseFloat (s : string) : float64 := parseFloat_go s (f_of_Z 0) (f_of_Z 1) false.

Definition gate_units : list (string * float64) :=
  [ ("Ei", f_of_Z (2^60)); ("Pi", f_of_Z (2^50)); ("Ti", f_of_Z (2^40)); ("Gi", f_of_Z (2^30));
    ("Mi", f_of_Z (2^20)); ("Ki", f_of_Z (2^10));
    ("E", f_of_Z (10^18)); ("P", f_of_Z (10^15)); ("T", f_of_Z (10^12)); ("G", f_of_Z (10^9));
    ("M", f_of_Z (10^6)); ("K", f_of_Z (10^3)); ("m", f_const (1 # 1000)%Q) ].

Fixpoint apply_unit (units : list (string * float64)) (s : string) : float64 :=
  match units with
  | [] => parseFloat s
  | (suffix, mult) :: units =>
      if has_suffix s suffix then f_mul (parseFloat (trim_suffix s suffix)) mult
      else apply_unit units s
  end.

Definition parseQuantity (v : any) : float64 :=
  match v with
  | AStr s =>
      let s := trim_space s in
      if String.eqb s "" then f_of_Z 0 else apply_unit gate_units s
  | AInt i => f_of_Z i
  | AFloat f => f
  | _ => f_of_Z 0
  end.

(** The entries written for one [resources] block, in order. *)
Definition resource_entries (path : string) (res : list (string * any)) : list (string * float64) :=
  flat_map (λ ks : string * any,
    match ks.2 with
    | AMap m =>
        omap (λ kv : string * any,
                let q := parseQuantity kv.2 in
                if f_lt (f_of_Z 0) q
                then Some (path +:+ ".resources." +:+ ks.1 +:+ "." +:+ kv.1, q) else None) m
    | _ => []
    end) res.

Fixpoint collectResWalk (n : any) (path : string) : list (string * float64) :=
  match n with
  | AMap kvs =>
      (match map_get "resources" kvs with
       | Some (AMap res) => resource_entries path res
       | _ => []
       end) ++
      (fix go l := match l with
                   | [] => []
                   | (k, v) :: l =>
                       (if String.eqb k "resources" then [] else collectResWalk v (path +:+ "." +:+ k))
                       ++ go l
                   end) kvs
  | AList l =>
      (fix go i l := match l with
                     | [] => []
                     | v :: l => collectResWalk v (path +:+ "[" +:+ itoa i +:+ "]") ++ go (i + 1) l
                     end) 0 l
  | _ => []
  end.

(** Later writes to a path overwrite earlier ones. *)
Definition collectResources (root : any) : gmap string float64 :=
  foldl (λ m pq, <[pq.1 := pq.2]> m) ∅ (collectResWalk root "").

(** Is the value after the diff acceptable for this path? *)
Definition bound_error (afterRes : gmap string float64) (ratioCap : float64)
    (pb : string * float64) : option gate_error :=
  match afterRes !! pb.1 with
  | None => Some (ErrResourceRemoved pb.1)
  | Some a =>
      if f_lt (f_of_Z 0) pb.2 && f_lt a (f_mul pb.2 (f_sub (f_of_Z 1) ratioCap))
      then Some (ErrResourceCut pb.1) else None
  end.

Definition checkResourceBounds `{GoMapOrder} (before after : any) (ratioCap : float64)
    : result gate_error unit :=
  let afterRes := collectResources after in
  match omap (bound_error afterRes ratioCap) (map_iter (collectResources before)) with
  | [] => Ok tt
  | e :: _ => Err e
  end.

Definition ratio_cap (MaxResourceReductionRatio : float64) : float64 :=
  if f_le MaxResourceReductionRatio (f_of_Z 0) then f_const (1 # 2)%Q else MaxResourceReductionRatio.

Definition PostValidator `{GoMapOrder} (yaml_map : string → option (list (string * any)))
    (MaxResourceReductionRatio : float64) : Validator := {|
  VStage := StagePost;
  VValidate := λ c,
    if blank (ChartYAML c) || blank (UnifiedDiff c) then failed StagePost "empty input" ErrEmptyInput
    else match yaml_map (ChartYAML c) with
         | None => failed StagePost "pre-diff yaml invalid" ErrYAML
         | Some before =>
             match applyUnifiedDiff (ChartYAML c) (UnifiedDiff c) with
             | Err e => failed StagePost "diff did not apply" (ErrDiff e)
             | Ok patched =>
                 match yaml_map patched with
                 | None => failed StagePost "post-diff yaml invalid" ErrYAML
                 | Some after =>
                     match checkLabelsPreserved (AMap before) (AMap after) with
                     | Err e => failed StagePost "labels removed" e
                     | Ok _ =>
                         match checkResourceBounds (AMap before) (AMap after)
                                 (ratio_cap MaxResourceReductionRatio) with
                         | Err e => failed StagePost "resource cut exceeds safety floor" e
                         | Ok _ => passed StagePost
                         end
                     end
                 end
             end
         end |}.

(** ** dryrun.go *)

Record DryRunResponse := { Accepted : bool; DRDetail : string }.

(** [client] is the agent; [None] when no client is configured, and its answer
    is [None] when the call fails. *)
Definition DryrunValidator (client : option (Candidate → option DryRunResponse)) : Validator := {|
  VStage := StageDryrun;
  VValidate := λ c,
    match client with
    | None => {| SRStage := StageDryrun; SRStatus := StatusNotImplemented;
                 SRDetail := "no agent client configured"; SRErr := Some ErrNotImplemented |}
    | Some dryRun =>
        match dryRun c with
        | None => failed StageDryrun "agent dry-run errored" ErrAgent
        | Some out =>
            if negb (Accepted out)
            then failed StageDryrun ("agent rejected dry-run: " +:+ DRDetail out) ErrAgentRejected
            else passed StageDryrun
        end
    end |}.

(** ** The pipeline *)

Definition allowed (policy : Policy) (c : Candidate) (v : Validator) : bool :=
  policy (VStage v) (SRStatus (VValidate v c)).
Definition stage_result (c : Candidate) (v : Validator) : StageResult :=
  with_stage (VStage v) (VValidate v c).

Lemma run_spec (policy : Policy) (vs : list Validator) (c : Candidate) :
  let out := Pipeline_Run policy vs c in
  (out.2 = None ↔ Forall (λ v, allowed policy c v = true) vs) ∧
  (out.2 = None → out.1 = stage_result c <$> vs) ∧
  (∀ e, out.2 = Some e →
     ∃ pre v post, vs = pre ++ v :: post ∧
       Forall (λ v, allowed policy c v = true) pre ∧ allowed policy c v = false ∧
       out.1 = stage_result c <$> (pre ++ [v]) ∧
       e = RunErr (VStage v) (SRStatus (VValidate v c)) (errOrSentinel (stage_result c v))).
Proof.
  intros out. subst out.
  induction vs as [|v vs (IH1&IH2&IH3)]; [split_and!; done|].
  cbn [Pipeline_Run]. fold (stage_result c v).
  change (policy (SRStage (stage_result c v)) (SRStatus (stage_result c v)))
    with (allowed policy c v).
  destruct (allowed policy c v) eqn:Ea.
  - destruct (Pipeline_Run policy vs c) as [rest err]. cbn [fst snd] in *. split_and!.
    + rewrite Forall_cons, IH1. naive_solver.
    + intros H. by rewrite fmap_cons, IH2.
    + intros e He. destruct (IH3 e He) as (pre&w&post&Evs&Hpre&Hw&Hr&Hee).
      exists (v :: pre), w, post. split_and!; [by rewrite Evs|by constructor|done| |done].
      cbn [app]. by rewrite fmap_cons, Hr.
  - cbn [fst snd]. split_and!; [|done|].
    + rewrite Forall_cons, Ea. naive_solver.
    + intros e [= <-]. exists [], v, vs. done.
Qed.

Lemma strict_passed c v : allowed StrictPolicy c v = true → SRStatus (VValidate v c) = StatusPassed.
Proof. unfold allowed, StrictPolicy. by rewrite bool_decide_eq_true. Qed.

(** The pipeline accepts a candidate exactly when the policy allows every
    stage, and then reports all of them; otherwise it stops at the first stage
    the policy disallows, reports the stages up to and including it, and
    returns that stage's error.  Under the strict policy acceptance means every
    stage passed; the strict policy accepts nothing the skeleton policy
    refuses; and the stub validators are accepted by the skeleton policy and
    refused by the strict one, whatever the candidate. *)
Theorem pipeline_spec (policy : Policy) (vs : list Validator) (c : Candidate) :
  let out := Pipeline_Run policy vs c in
  (out.2 = None ↔ Forall (λ v, allowed policy c v = true) vs) ∧
  (out.2 = None → out.1 = stage_result c <$> vs) ∧
  (∀ e, out.2 = Some e →
     ∃ pre v post, vs = pre ++ v :: post ∧
       Forall (λ v, allowed policy c v = true) pre ∧ allowed policy c v = false ∧
       out.1 = stage_result c <$> (pre ++ [v]) ∧
       e = RunErr (VStage v) (SRStatus (VValidate v c)) (errOrSentinel (stage_result c v))) ∧
  ((Pipeline_Run StrictPolicy vs c).2 = None →
     Forall (λ v, SRStatus (VValidate v c) = StatusPassed) vs ∧
     (Pipeline_Run SkeletonPolicy vs c).2 = None) ∧
  (Pipeline_Run SkeletonPolicy SkeletonValidators c).2 = None ∧
  (Pipeline_Run StrictPolicy SkeletonValidators c).2 ≠ None.
Proof.
  destruct (run_spec policy vs c) as (H1&H2&H3). split_and!; [exact H1|exact H2|exact H3| |done|done].
  intros Hs%(proj1 (proj1 (run_spec StrictPolicy vs c))).
  assert (Forall (λ v, SRStatus (VValidate v c) = StatusPassed) vs) as Hp.
  { eapply Forall_impl; [exact Hs|]. intros v. apply strict_passed. }
  split; [done|]. apply (proj2 (proj1 (run_spec SkeletonPolicy vs c))).
  eapply Forall_impl; [exact Hp|]. intros v Hv. unfold allowed, SkeletonPolicy. by rewrite Hv.
Qed.

(** ** The safety checks *)

Lemma omap_nil {A B} (f : A → option B) l : omap f l = [] ↔ ∀ x, x ∈ l → f x = None.
Proof.
  induction l as [|x l IH]; simpl; [split; [intros _ y Hy; by apply elem_of_nil in Hy|done]|].
  setoid_rewrite elem_of_cons. destruct (f x) eqn:E.
  - split; [done|]. intros H. specialize (H x (or_introl eq_refl)). congruence.
  - rewrite IH. naive_solver.
Qed.

Lemma labels_preserved before after :
  is_ok (checkLabelsPreserved before after) = true ↔
  ∀ k, k ∈ walkLabels before → k ∈ walkLabels after.
Proof.
  unfold checkLabelsPreserved.
  destruct (List.filter _ _) as [|k ks] eqn:E; simpl.
  - split; [|done]. intros _ k Hk. apply str_mem_spec, not_false_iff_true. intros Hn.
    assert (k ∈ List.filter (λ k, negb (str_mem k (walkLabels after))) (walkLabels before)) as Hin.
    { apply list_elem_of_In, filter_In. rewrite <-list_elem_of_In, Hn. done. }
    rewrite E in Hin. by apply elem_of_nil in Hin.
  - split; [done|]. intros H.
    assert (k ∈ List.filter (λ k, negb (str_mem k (walkLabels after))) (walkLabels before)) as Hin
      by (rewrite E; left).
    apply list_elem_of_In, filter_In in Hin as [Hb Hn]. apply list_elem_of_In, H, str_mem_spec in Hb.
    by rewrite Hb in Hn.
Qed.

(** The value kept for a path is not below the floor. *)
Definition above_floor (cap b a : float64) : Prop :=
  f_lt (f_of_Z 0) b && f_lt a (f_mul b (f_sub (f_of_Z 1) cap)) = false.

Lemma resource_bounds `{GoMapOrder} before after cap :
  is_ok (checkResourceBounds before after cap) = true ↔
  ∀ path b, collectResources before !! path = Some b →
    ∃ a, collectResources after !! path = Some a ∧ above_floor cap b a.
Proof.
  unfold checkResourceBounds. cbv zeta.
  trans (omap (bound_error (collectResources after) cap) (map_iter (collectResources before)) = []).
  { destruct (omap _ _); naive_solver. }
  rewrite omap_nil. setoid_rewrite map_iter_perm. unfold above_floor.
  split.
  - intros Hn path b Hb. specialize (Hn (path, b)). rewrite elem_of_map_to_list in Hn.
    specialize (Hn Hb). unfold bound_error in Hn. cbn [fst snd] in Hn.
    destruct (collectResources after !! path) as [a|]; [|done]. exists a. split; [done|].
    by destruct (_ && _).
  - intros Hn [path b] Hb%elem_of_map_to_list. destruct (Hn path b Hb) as (a&Ha&Hf).
    unfold bound_error. cbn [fst snd]. by rewrite Ha, Hf.
Qed.


(** ** Quantities *)

Lemma digits_val_ge acc s w : 0 <= acc → digits_val acc s = Some w → acc <= w.
Proof.
  revert acc. induction s as [|c s IH]; intros acc Ha; cbn [digits_val]; [naive_solver lia|].
  destruct (digit_val c) as [d|] eqn:E; [|done]. intros H.
  unfold digit_val in E. destruct (_ && _) eqn:Eb; [|done]. simplify_eq.
  apply andb_prop in Eb as [Eb _]. apply Z.leb_le in Eb. apply IH in H; lia.
Qed.

(** One more digit is exact as long as the number stays within 2^53. *)
Lemma rep_digit x v d : f_rep x (inject_Z v) → 0 <= v → 0 <= d <= 9 → v * 10 + d <= 2^53 →
  f_rep (f_add (f_mul x (f_of_Z 10)) (f_of_Z d)) (inject_Z (v * 10 + d)).
Proof.
  intros Hx Hv Hd Hb.
  edestruct (rep_mul x (f_of_Z 10) _ (inject_Z 10) Hx) as (q&Hq&Hr);
    [apply rep_of_Z; lia|apply (inject_Z_le 0); lia|done| |].
  { rewrite <-inject_Z_mult. apply Z_le_pow2_1000. lia. }
  rewrite <-inject_Z_mult, (inject_Z_pow2_0 (v * 10)) in Hq.
  apply rep_exact with (m := v * 10) (e := 0) in Hr; [|done|lia..].
  rewrite <-inject_Z_pow2_0 in Hr.
  edestruct (rep_add _ (f_of_Z d) _ (inject_Z d) Hr) as (q'&Hq'&Hr');
    [apply rep_of_Z; lia|apply (inject_Z_le 0); lia|apply (inject_Z_le 0); lia| |].
  { rewrite <-inject_Z_plus. apply Z_le_pow2_1000. lia. }
  rewrite <-inject_Z_plus, (inject_Z_pow2_0 (v * 10 + d)) in Hq'.
  apply rep_exact with (m := v * 10 + d) (e := 0) in Hr'; [|done|lia..].
  by rewrite <-inject_Z_pow2_0 in Hr'.
Qed.

Lemma parseFloat_go_digits s rest out frac v w :
  f_rep out (inject_Z v) → 0 <= v → digits_val v s = Some w → w <= 2^53 →
  (rest = "" ∨ ∃ c r, rest = String c r ∧ is_digit c = false ∧ c ≠ "."%char) →
  f_rep (parseFloat_go (s +:+ rest) out frac false) (inject_Z w).
Proof.
  intros Hx Hv Hd Hw Hrest. revert out v Hx Hv Hd. induction s as [|c s IH]; intros out v Hx Hv Hd.
  - cbn in Hd. simplify_eq. change ("" +:+ rest) with rest.
    destruct Hrest as [->|(c&r&->&Hc&Hdot)]; [done|]. cbn [parseFloat_go].
    rewrite (proj2 (Ascii.eqb_neq c ".") Hdot), Hc. done.
  - rewrite sapp_cons. cbn [digits_val] in Hd. unfold digit_val in Hd.
    fold (is_digit c) in Hd. destruct (is_digit c) eqn:Ec; [|done]. cbn [parseFloat_go].
    assert (Ascii.eqb c "." = false) as -> by (apply Ascii.eqb_neq; intros ->; done).
    rewrite Ec. unfold is_digit in Ec. apply andb_prop in Ec as [E1 E2].
    apply Z.leb_le in E1, E2.
    assert (v * 10 + (byte_val c - 48) <= w) by (eapply digits_val_ge; [|exact Hd]; lia).
    apply (IH _ (v * 10 + (byte_val c - 48))); [apply rep_digit; (done || lia)|lia|done].
Qed.

Lemma parseFloat_int n rest : 0 <= n <= 2^53 →
  (rest = "" ∨ ∃ c r, rest = String c r ∧ is_digit c = false ∧ c ≠ "."%char) →
  f_rep (parseFloat (itoa n +:+ rest)) (inject_Z n).
Proof.
  intros Hn Hrest. destruct (itoa_nonneg n) as (_&_&Hv); [lia|]. unfold parseFloat.
  eapply (parseFloat_go_digits _ _ _ _ 0); [by apply (rep_of_Z 0)|lia|done|lia|done].
Qed.

#[local] Opaque f_of_Z f_mul f_const parseFloat.

(** The unit tables agree: a memory suffix other than [k] selects its
    multiplier. *)
Lemma apply_unit_suffix s suf mult : s ≠ "" → str_all is_digit s = true →
  (suf, mult) ∈ memory_suffixes → suf ≠ "k" →
  apply_unit gate_units (s +:+ suf) = f_mul (parseFloat s) (f_of_Z mult).
Proof.
  intros Hne Hs Hin Hk. unfold memory_suffixes in Hin.
  repeat (apply elem_of_cons in Hin as [Hin|Hin]; [simplify_eq|]); [..|by apply elem_of_nil in Hin];
    try done;
    unfold gate_units, apply_unit, has_suffix, trim_suffix, strip_suffix;
    rewrite rev_sapp; cbn; rewrite !sapp_cons;
    change ("" +:+ String.rev s) with (String.rev s); cbn; by rewrite ?rev_involutive.
Qed.

Lemma apply_unit_plain s rest : s ≠ "" → str_all is_digit s = true → (rest = "" ∨ rest = "k") →
  apply_unit gate_units (s +:+ rest) = parseFloat (s +:+ rest).
Proof.
  intros Hne Hs [->| ->].
  - rewrite sapp_nil_r.
    assert (∀ a, is_digit a = false → strip_suffix (String a "") s = None) as Hno
      by (intros a Ha; by apply (digits_no_suffix s a "")).
    assert (∀ a, is_digit a = false → strip_suffix (String a "i") s = None) as Hnoi
      by (intros a Ha; by apply (digits_no_suffix s "i"%char (String a ""))).
    unfold gate_units, apply_unit, has_suffix. by rewrite !Hno, !Hnoi by done.
  - unfold gate_units, apply_unit, has_suffix, strip_suffix.
    rewrite rev_sapp. cbn. rewrite !sapp_cons. done.
Qed.
#[local] Transparent f_of_Z f_mul f_const parseFloat.

(** The gate's own quantity parser agrees exactly with the chart parser on
    integers with any unit the chart parser knows, up to 2^53 bytes, except for
    the decimal kilo [k], which the gate does not know: it reads the number
    without its unit. *)
Theorem quantity_parsers_agree `{GoPlatform} (n : Z) (suf : string) (mult : Z)
    (Hin : (suf, mult) ∈ ("", 1) :: memory_suffixes) (Hn : 0 <= n) (Hb : n * mult <= 2^53) :
  ParseMemory (itoa n +:+ suf) =
    Ok {| Value := n * mult; IsSet := true; Original := itoa n +:+ suf |} ∧
  f_rep (parseQuantity (AStr (itoa n +:+ suf)))
    (inject_Z (if String.eqb suf "k" then n else n * mult)).
Proof.
  split; [by apply parse_memory_units|].
  destruct (itoa_nonneg n Hn) as (Hd&Hne&_).
  assert (str_all is_graph suf = true ∧ 0 < mult <= 2^53) as [Hg Hm].
  { revert Hin. unfold memory_suffixes. rewrite !elem_of_cons, elem_of_nil.
    intros Hin. destruct_or! Hin; simplify_eq; done. }
  unfold parseQuantity.
  rewrite trim_space_graph by (by rewrite str_all_app, itoa_graph, Hg).
  assert (String.eqb (itoa n +:+ suf) "" = false) as ->
    by (apply String.eqb_neq; by destruct (itoa n)).
  apply elem_of_cons in Hin as [Hin|Hin].
  - simplify_eq. rewrite apply_unit_plain by (done || by left).
    change (String.eqb "" "k") with false. cbv iota. rewrite Z.mul_1_r.
    apply parseFloat_int; [lia|by left].
  - destruct (String.eqb_spec suf "k") as [->|Hk].
    + rewrite apply_unit_plain by (done || by right).
      apply parseFloat_int; [|right; by eexists _, _].
      assert (mult = 1000) as ->; [|lia].
      revert Hin. unfold memory_suffixes. rewrite !elem_of_cons, elem_of_nil.
      intros Hin. destruct_or! Hin; by simplify_eq.
    + rewrite (apply_unit_suffix _ _ mult) by done.
      assert (f_rep (parseFloat (itoa n)) (inject_Z n)) as Hx.
      { rewrite <-(sapp_nil_r (itoa n)). apply parseFloat_int; [nia|by left]. }
      edestruct (rep_mul _ (f_of_Z mult) _ (inject_Z mult) Hx) as (q&Hq&Hr);
        [apply rep_of_Z; lia|apply (inject_Z_le 0); lia|apply (inject_Z_le 0); lia| |].
      { rewrite <-inject_Z_mult. apply Z_le_pow2_1000. lia. }
      rewrite <-inject_Z_mult, (inject_Z_pow2_0 (n * mult)) in Hq.
      apply rep_exact with (m := n * mult) (e := 0) in Hr; [|done|nia|lia].
      by rewrite <-inject_Z_pow2_0 in Hr.
Qed.

Lemma quantity_parsers_agree_witness :
  ("Mi", 1048576) ∈ ("", 1) :: memory_suffixes ∧
  f_rep (parseQuantity (AStr "512Mi")) (inject_Z 536870912).
Proof.
  assert (("Mi", 1048576) ∈ ("", 1) :: memory_suffixes) as H
    by (apply (bool_decide_unpack _); vm_compute; exact I).
  split; [exact H|].
  exact (proj2 (@quantity_parsers_agree amd64 512 "Mi" 1048576 H ltac:(lia) ltac:(lia))).
Defined.

(** One workload with one memory request. *)
Definition memory_chart (v : string) : any :=
  AMap [("api", AMap [("resources", AMap [("requests", AMap [("memory", AStr v)])])])].

Lemma memory_chart_resources v : f_lt (f_of_Z 0) (parseQuantity (AStr v)) = true →
  collectResources (memory_chart v) = {[".api.resources.requests.memory" := parseQuantity (AStr v)]}.
Proof.
  intros Hv. unfold collectResources.
  assert (collectResWalk (memory_chart v) "" =
    [(".api.resources.requests.memory", parseQuantity (AStr v))]) as ->; [|done].
  unfold memory_chart. cbn -[parseQuantity f_lt f_of_Z]. by rewrite Hv.
Qed.

Lemma memory_chart_check `{GoMapOrder} b a cap :
  f_lt (f_of_Z 0) (parseQuantity (AStr b)) = true → f_lt (f_of_Z 0) (parseQuantity (AStr a)) = true →
  is_ok (checkResourceBounds (memory_chart b) (memory_chart a) cap) =
    negb (f_lt (parseQuantity (AStr a)) (f_mul (parseQuantity (AStr b)) (f_sub (f_of_Z 1) cap))).
Proof.
  intros Hb Ha. apply eq_true_iff_eq. rewrite resource_bounds, !memory_chart_resources by done.
  unfold above_floor. rewrite negb_true_iff. split.
  - intros Hall. destruct (Hall _ _ (lookup_singleton_eq _ _)) as (x&Hx&Hf).
    rewrite lookup_singleton_eq in Hx. simplify_eq. by rewrite Hb in Hf.
  - intros Hf path v Hv. apply lookup_singleton_Some in Hv as [<- <-]. eexists.
    rewrite lookup_singleton_eq, Hf. split; [done|apply andb_false_r].
Qed.

(** The safety floor compares prefixes of numbers, not quantities: cutting
    a request from 2e9 (two billion bytes) to 2, or from 900k to 500, passes
    the 50% floor, while restating 1M as 1000k, the same amount, is refused as
    a cut. *)
Theorem safety_floor_blind_spots `{GoMapOrder} :
  let check b a := checkResourceBounds (memory_chart b) (memory_chart a) (f_const (1 # 2)%Q) in
  is_ok (check "2e9" "2") = true ∧ is_ok (check "900k" "500") = true ∧
  is_ok (check "1M" "1000k") = false ∧ is_ok (check "1Gi" "600Mi") = true ∧
  is_ok (check "1Gi" "400Mi") = false.
Proof.
  intros check. unfold check.
  split_and!; rewrite memory_chart_check by (vm_compute; reflexivity); vm_compute; reflexivity.
Qed.
