(* ===== verification/RateLimit.v ===== *)
(** The in-memory rate limiter and its HTTP middleware
    (backend/internal/platform/ratelimit/memory.go, ratelimit.go).

    The mutex makes every method one atomic step, so a concurrent execution is a
    sequence of calls with the clock readings in lock order.  The reference specification is a
    counter per key that never forgets a bucket ([ref_allow]); the limiter with
    its lazy sweep refines it. *)

From S2P Require Import Prelude GoNum GoTime.
Local Open Scope Z_scope.

(** ** State and operations of [Memory] *)

Record bucket := mkBucket { b_count : Z; b_expiresAt : Z }.

Record Memory := mkMemory {
  m_limit : Z; m_window : Z; m_buckets : gmap string bucket; m_lastSwept : Z }.

(** [None] is the panic on a bad argument. *)
Definition NewMemory (limit window : Z) : option Memory :=
  if limit <=? 0 then None
  else if window <=? 0 then None
  else Some (mkMemory limit window ∅ 0).

Definition sweep_loop (now : Z) (kbs : list (string * bucket)) (m : gmap string bucket) :
    gmap string bucket :=
  foldl (λ m kb, if time_after now (b_expiresAt kb.2) then delete kb.1 m else m) m kbs.

Definition maybeSweep `{GoMapOrder} (m : Memory) (now : Z) : Memory :=
  if time_sub now (m_lastSwept m) <? m_window m then m
  else mkMemory (m_limit m) (m_window m)
         (sweep_loop now (map_iter (m_buckets m)) (m_buckets m)) now.

Definition with_bucket (m : Memory) (key : string) (b : bucket) : Memory :=
  mkMemory (m_limit m) (m_window m) (<[key := b]> (m_buckets m)) (m_lastSwept m).

Definition Allow `{GoMapOrder} (m0 : Memory) (now : Z) (key : string) : Memory * (bool * Z) :=
  let m := maybeSweep m0 now in
  let fresh := (with_bucket m key (mkBucket 1 (time_add now (m_window m))), (true, 0)) in
  match m_buckets m !! key with
  | None => fresh
  | Some b =>
      if time_after now (b_expiresAt b) then fresh
      else if m_limit m <=? b_count b then (m, (false, time_sub (b_expiresAt b) now))
      else (with_bucket m key (mkBucket (i64_add (b_count b) 1) (b_expiresAt b)), (true, 0))
  end.

Definition Len (m : Memory) : Z := Z.of_nat (size (m_buckets m)).

(** [now] and [now'] are the two clock readings of [Quota]. *)
Definition Quota (m : Memory) (now now' : Z) (key : string) : Z * Z * Z :=
  match m_buckets m !! key with
  | None => (m_limit m, m_limit m, time_add now' (m_window m))
  | Some b =>
      if time_after now (b_expiresAt b)
      then (m_limit m, m_limit m, time_add now' (m_window m))
      else let rem := i64_sub (m_limit m) (b_count b) in
           (m_limit m, if rem <? 0 then 0 else rem, b_expiresAt b)
  end.

(** A sequence of calls, each with the key and the clock reading. *)
Definition call : Type := Z * string.
Fixpoint run_calls `{GoMapOrder} (m : Memory) (cs : list call) : Memory * list (call * (bool * Z)) :=
  match cs with
  | [] => (m, [])
  | c :: cs' =>
      let r := Allow m c.1 c.2 in
      let rest := run_calls r.1 cs' in
      (rest.1, (c, r.2) :: rest.2)
  end.

(** ** The middleware *)

(** Go's interface [Limiter]: the state type, its [Allow] (with the transport
    error it may return) and the optional [Quotaer]. *)
Record Limiter (S : Type) := mkLimiter {
  L_Allow : S → Z → string → S * result string (bool * Z);
  L_Quota : option (S → Z → Z → string → Z * Z * Z) }.
Arguments L_Allow {S}. Arguments L_Quota {S}.

Record quota_headers := mkQuotaHeaders {
  h_limit : Z; h_remaining : Z; h_reset : option Z }.

Inductive response :=
| Served (hs : option quota_headers)
| ServiceUnavailable
| TooManyRequests (hs : option quota_headers) (retry_after_seconds : Z).

Definition writeQuotaHeaders (q : Z * Z * Z) : option quota_headers :=
  let '(limit, remaining, resetAt) := q in
  if limit <=? 0 then None
  else Some (mkQuotaHeaders limit (if remaining <? 0 then 0 else remaining)
               (if resetAt =? 0 then None else Some (unix_seconds resetAt))).

Definition retry_seconds `{GoPlatform} (retry : Z) : Z :=
  let secs := f_to_i64 (duration_seconds retry) in
  if secs <? 1 then 1 else secs.

(** [t0] is the clock reading of [Allow], [t1] and [t2] those of [Quota]. *)
Definition Middleware `{GoPlatform} {S} (L : Limiter S) (failOpen : bool) (st : S)
    (key : string) (t0 t1 t2 : Z) : S * response :=
  if string_eqb key "" then (st, Served None)
  else
    let '(st', r) := L_Allow L st t0 key in
    match r with
    | Err _ => (st', if failOpen then Served None else ServiceUnavailable)
    | Ok (allowed, retry) =>
        let hs := match L_Quota L with
                  | Some quota => writeQuotaHeaders (quota st' t1 t2 key)
                  | None => None
                  end in
        (st', if allowed then Served hs else TooManyRequests hs (retry_seconds retry))
    end.

Definition memory_limiter `{GoMapOrder} : Limiter Memory :=
  mkLimiter Memory (λ m now key, let r := Allow m now key in (r.1, Ok r.2)) (Some Quota).

(** ** The reference counter of one key *)

Definition ref_state : Type := option (Z * Z).

Definition ref_allow (limit window : Z) (st : ref_state) (now : Z) : ref_state * (bool * Z) :=
  match st with
  | Some (c, e) =>
      if now <=? e
      then if c <? limit then (Some (c + 1, e), (true, 0)) else (st, (false, e - now))
      else (Some (1, now + window), (true, 0))
  | None => (Some (1, now + window), (true, 0))
  end.

Fixpoint ref_run (limit window : Z) (st : ref_state) (ts : list Z) :
    ref_state * list (Z * (bool * Z)) :=
  match ts with
  | [] => (st, [])
  | t :: ts' =>
      let r := ref_allow limit window st t in
      let rest := ref_run limit window r.1 ts' in
      (rest.1, (t, r.2) :: rest.2)
  end.

(** The calls, and the outcomes, of one key. *)
Definition calls_of (k : string) (cs : list call) : list Z :=
  fst <$> List.filter (λ c, string_eqb k c.2) cs.
Definition outcomes_of (k : string) (os : list (call * (bool * Z))) : list (Z * (bool * Z)) :=
  (λ o, (o.1.1, o.2)) <$> List.filter (λ o, string_eqb k o.1.2) os.

(** The number of admissions with a clock reading in [[lo, hi]]. *)
Definition admitted_in (lo hi : Z) (os : list (Z * (bool * Z))) : Z :=
  Zsum ((λ o, if (o.2.1 : bool) && (lo <=? o.1) && (o.1 <=? hi) then 1 else 0) <$> os).

Definition clock_monotone (cs : list call) : Prop := Sorted Z.le (fst <$> cs).

(** ** The sweep *)

Lemma sweep_loop_lookup now kbs m k :
  NoDup (fst <$> kbs) →
  sweep_loop now kbs m !! k =
    match list_find (λ kb, kb.1 = k) kbs with
    | Some (_, (_, b)) => if time_after now (b_expiresAt b) then None else m !! k
    | None => m !! k
    end.
Proof.
  revert m. induction kbs as [|[k' b] kbs IH]; intros m Hnd; [done|].
  cbn [fmap list_fmap] in Hnd. apply NoDup_cons in Hnd as [Hnin Hnd].
  cbn [sweep_loop foldl]. change (foldl _ ?m kbs) with (sweep_loop now kbs m).
  rewrite IH by done. cbn [list_find fst snd]. destruct (decide (k' = k)) as [->|Hne].
  - destruct (list_find (λ kb, kb.1 = k) kbs) as [[i [k2 b2]]|] eqn:E.
    + apply list_find_Some in E as (E&Hk&_). cbn in Hk. subst k2.
      destruct Hnin. apply list_elem_of_fmap. exists (k, b2). split; [done|].
      by eapply list_elem_of_lookup_2.
    + destruct (time_after now (b_expiresAt b)); [apply lookup_delete_eq|done].
  - destruct (list_find (λ kb, kb.1 = k) kbs) as [[i [k2 b2]]|];
      cbn [prod_map fmap option_fmap option_map id];
      destruct (time_after now (b_expiresAt b)); rewrite ?lookup_delete_ne by done; done.
Qed.

Lemma sweep_lookup `{GoMapOrder} now (m : gmap string bucket) k :
  sweep_loop now (map_iter m) m !! k =
    b ← m !! k; if time_after now (b_expiresAt b) then None else Some b.
Proof.
  assert (NoDup (fst <$> map_iter m)) as Hnd.
  { rewrite map_iter_perm. apply NoDup_fst_map_to_list. }
  rewrite sweep_loop_lookup by done.
  destruct (list_find (λ kb, kb.1 = k) (map_iter m)) as [[i [k2 b]]|] eqn:E.
  - apply list_find_Some in E as (E&Hk&_). cbn in Hk. subst k2.
    apply list_elem_of_lookup_2 in E. rewrite map_iter_perm, elem_of_map_to_list in E.
    by rewrite E.
  - apply list_find_None in E. destruct (m !! k) as [b|] eqn:Em; [|done].
    exfalso. rewrite Forall_forall in E. apply (E (k, b)); [|done].
    by rewrite map_iter_perm, elem_of_map_to_list.
Qed.

Lemma maybeSweep_params `{GoMapOrder} m now :
  m_limit (maybeSweep m now) = m_limit m ∧ m_window (maybeSweep m now) = m_window m.
Proof. unfold maybeSweep. by case_match. Qed.

(** A sweep keeps every live bucket, and touches no other bucket's contents. *)
Lemma maybeSweep_lookup `{GoMapOrder} m now k :
  m_buckets (maybeSweep m now) !! k = m_buckets m !! k ∨
  (m_buckets (maybeSweep m now) !! k = None ∧
   ∃ b, m_buckets m !! k = Some b ∧ b_expiresAt b < now).
Proof.
  unfold maybeSweep. case_match; [by left|]. cbn [m_buckets]. rewrite sweep_lookup.
  destruct (m_buckets m !! k) as [b|] eqn:Em; cbn; [|by left].
  unfold time_after. destruct (b_expiresAt b <? now) eqn:E; [|by left].
  right. bool_to_prop. eauto.
Qed.

(** ** Simulation by the reference counter *)

Record tracks (m : Memory) (limit window last : Z) (k : string) (st : ref_state) : Prop := {
  tr_limit : m_limit m = limit;
  tr_window : m_window m = window;
  tr_bucket : match st with
    | None => m_buckets m !! k = None
    | Some (c, e) =>
        1 <= c <= limit ∧ e <= last + window ∧
        (m_buckets m !! k = Some (mkBucket c e) ∨ (m_buckets m !! k = None ∧ e < last))
    end }.

Section Limiter.
Context `{GoMapOrder}.
Context (limit window : Z) (Hlimit : 0 < limit < 2^63) (Hwindow : 0 < window < 2^63).

Lemma tracks_sweep m last now k st :
  last <= now → tracks m limit window last k st →
  tracks (maybeSweep m now) limit window now k st.
Proof.
  intros Hle [Hl Hw Hb]. destruct (maybeSweep_params m now) as [Hl' Hw'].
  split; [congruence..|].
  destruct (maybeSweep_lookup m now k) as [E|(E&b&Hm&He)]; rewrite E.
  - destruct st as [[c e]|]; [|done]. destruct Hb as (?&?&[?|[??]]); repeat split; try lia; auto.
    right. split; [done|lia].
  - destruct st as [[c e]|]; [|congruence]. destruct Hb as (?&?&[Hb|[??]]); [|congruence].
    rewrite Hb in Hm. injection Hm as <-. cbn in He. repeat split; try lia. right. auto.
Qed.

Lemma tracks_later m last fin k st :
  last <= fin → tracks m limit window last k st → tracks m limit window fin k st.
Proof.
  intros Hle [Hl Hw Hb]. split; [done..|]. destruct st as [[c e]|]; [|done].
  destruct Hb as (?&?&[?|[??]]); split_and!; try lia; auto. right. split; [done|lia].
Qed.

Lemma allow_same m last now k st :
  last <= now → tracks m limit window last k st →
  let r := Allow m now k in
  let r' := ref_allow limit window st now in
  tracks r.1 limit window now k r'.1 ∧ r.2 = r'.2.
Proof.
  intros Hle Ht%(tracks_sweep m last now k st Hle). cbv zeta. unfold Allow.
  destruct Ht as [Hl Hw Hb]. unfold time_after.
  assert (∀ b, tracks (with_bucket (maybeSweep m now) k b) limit window now k
            (Some (b_count b, b_expiresAt b)) ↔
          1 <= b_count b <= limit ∧ b_expiresAt b <= now + window) as Hset.
  { intros [c e]. split; [intros [_ _ (?&?&_)]; done|]. cbn. intros [??]. split; cbn; [done..|].
    split_and!; [lia..|]. left. by rewrite lookup_insert_eq. }
  assert (tracks (with_bucket (maybeSweep m now) k (mkBucket 1 (time_add now (m_window (maybeSweep m now)))))
            limit window now k (Some (1, now + window))) as Hfresh.
  { rewrite Hw. apply Hset; cbn; unfold time_add. lia. }
  destruct st as [[c e]|]; cbn [ref_allow]; [|by rewrite Hb].
  destruct Hb as (Hc&He&[Hb|[Hb Hexp]]); rewrite Hb; cbn [b_expiresAt b_count].
  2:{ by rewrite (proj2 (Z.leb_gt now e)). }
  destruct (now <=? e) eqn:E1; bool_to_prop.
  2:{ by rewrite (proj2 (Z.ltb_lt e now)). }
  rewrite (proj2 (Z.ltb_ge e now)) by lia. rewrite Hl.
  destruct (c <? limit) eqn:E2; bool_to_prop.
  - rewrite (proj2 (Z.leb_gt limit c)) by lia. unfold i64_add.
    rewrite wrap64_id by (unfold in_i64; lia). split; [|done]. by apply Hset; cbn; lia.
  - rewrite (proj2 (Z.leb_le limit c)) by lia. cbn [fst snd]. split.
    + split; [done..|]. repeat split; auto; lia.
    + unfold time_sub, maxDuration. repeat f_equal. lia.
Qed.

Lemma allow_other m last now k k' st :
  k ≠ k' → last <= now → tracks m limit window last k st →
  tracks (Allow m now k').1 limit window now k st.
Proof.
  intros Hne Hle Ht%(tracks_sweep m last now k st Hle).
  assert (∀ b, tracks (with_bucket (maybeSweep m now) k' b) limit window now k st) as Hset.
  { intros b. destruct Ht as [Hl Hw Hb]. split; [done..|]. cbn. by rewrite lookup_insert_ne. }
  unfold Allow. split_matches; auto.
Qed.

Lemma run_tracks k cs : ∀ m last st,
  clock_monotone cs → (∀ c, c ∈ cs → last <= c.1) →
  tracks m limit window last k st →
  let r := run_calls m cs in
  let r' := ref_run limit window st (calls_of k cs) in
  outcomes_of k r.2 = r'.2 ∧
  (∀ fin, last <= fin → (∀ c, c ∈ cs → c.1 <= fin) → tracks r.1 limit window fin k r'.1).
Proof.
  unfold clock_monotone. cbv zeta.
  induction cs as [|[t k'] cs IH]; intros m last st Hs Hlast Ht.
  { split; [done|]. intros fin Hfin _. by eapply tracks_later. }
  cbn [fmap list_fmap fst] in Hs. apply Sorted_StronglySorted in Hs; [|intros ???; lia].
  inversion Hs as [|?? Hs' Hall]; subst. apply StronglySorted_Sorted in Hs'.
  assert (∀ c, c ∈ cs → t <= c.1) as Hlast'.
  { rewrite Forall_forall in Hall. intros c Hc. apply Hall. by apply list_elem_of_fmap_2. }
  assert (last <= t) as Hle by (apply (Hlast (t, k')); left).
  unfold outcomes_of, calls_of, string_eqb in *.
  cbn [run_calls snd fst List.filter]. destruct (String.eqb_spec k k') as [<-|Hne].
  - destruct (allow_same m last t k st Hle Ht) as [Ht' Ho].
    cbn [fmap list_fmap ref_run fst snd]. rewrite <-Ho.
    destruct (IH _ _ _ Hs' Hlast' Ht') as [E Hfin]. split; [by f_equal|].
    intros fin Hf Hc. apply Hfin; [apply (Hc (t, k)); left|intros; apply Hc; by right].
  - destruct (IH _ _ _ Hs' Hlast' (allow_other m last t k k' st Hne Hle Ht)) as [E Hfin].
    split; [done|].
    intros fin Hf Hc. apply Hfin; [apply (Hc (t, k')); left|intros; apply Hc; by right].
Qed.
End Limiter.

Lemma new_tracks limit window m k last :
  NewMemory limit window = Some m → tracks m limit window last k None.
Proof. unfold NewMemory. intros. split_matches. Qed.

Lemma new_bounds limit window m :
  NewMemory limit window = Some m → 0 < limit ∧ 0 < window.
Proof. unfold NewMemory. intros. split_matches. bool_to_prop. lia. Qed.

(** ** Counting admissions of the reference counter *)

Lemma admitted_in_cons lo hi o os :
  admitted_in lo hi (o :: os) =
  (if (o.2.1 : bool) && (lo <=? o.1) && (o.1 <=? hi) then 1 else 0) + admitted_in lo hi os.
Proof. done. Qed.

Lemma admitted_in_app lo hi os1 os2 :
  admitted_in lo hi (os1 ++ os2) = admitted_in lo hi os1 + admitted_in lo hi os2.
Proof. unfold admitted_in. by rewrite fmap_app, Zsum_app. Qed.

Definition from (t : Z) (ts : list Z) : Prop := StronglySorted Z.le ts ∧ Forall (Z.le t) ts.

Lemma from_cons t u ts : from t (u :: ts) → t <= u ∧ from u ts.
Proof. intros [Hs Hf]. inversion Hs; inversion Hf; subst. by repeat split. Qed.

Section Counting.
Context (limit window lo : Z) (Hlimit : 0 < limit) (Hwindow : 0 < window).
Abbreviation hi := (lo + window).
Abbreviation count st ts := (admitted_in lo hi (ref_run limit window st ts).2).
Abbreviation step := (ref_allow limit window).

Lemma count_cons st u ts :
  count st (u :: ts) =
  (if ((step st u).2.1 : bool) && (lo <=? u) && (u <=? hi) then 1 else 0) + count (step st u).1 ts.
Proof. done. Qed.

(** Past the interval nothing counts. *)
Lemma count_after st t ts : hi < t → from t ts → count st ts = 0.
Proof.
  intros Ht. revert st t Ht. induction ts as [|u ts IH]; intros st t Ht Hf; [done|].
  apply from_cons in Hf as [Htu Hf]. rewrite count_cons.
  rewrite (proj2 (Z.leb_gt u hi)), andb_false_r by lia. rewrite (IH _ u); [done|lia|done].
Qed.

(** A bucket that outlives the interval admits what is left of its quota. *)
Lemma count_last_window c e t ts :
  hi <= e → c <= limit → from t ts → count (Some (c, e)) ts <= limit - c.
Proof.
  intros He. revert c t. induction ts as [|u ts IH]; intros c t Hc Hf; [cbn; lia|].
  apply from_cons in Hf as [Htu Hf]. rewrite count_cons. cbn [ref_allow].
  destruct (u <=? e) eqn:E1; bool_to_prop; cbn [fst snd].
  - destruct (c <? limit) eqn:E2; bool_to_prop; cbn [fst snd andb].
    + specialize (IH (c + 1) u ltac:(lia) Hf). case_match; lia.
    + specialize (IH c u ltac:(lia) Hf). lia.
  - rewrite (proj2 (Z.leb_gt u hi)), andb_false_r by lia.
    rewrite (count_after _ u) by (done || lia). lia.
Qed.

(** Inside the interval: the rest of the current bucket and one more. *)
Lemma count_inside c e ts :
  c <= limit → from lo ts → count (Some (c, e)) ts <= (limit - c) + limit.
Proof.
  revert c. induction ts as [|u ts IH]; intros c Hc Hf; [cbn; lia|].
  apply from_cons in Hf as [Hu Hf].
  assert (from lo ts) as Hf'.
  { destruct Hf as [? Hf]. split; [done|]. eapply Forall_impl; [done|]. simpl. lia. }
  rewrite count_cons. cbn [ref_allow].
  destruct (u <=? e) eqn:E1; bool_to_prop; cbn [fst snd].
  - destruct (c <? limit) eqn:E2; bool_to_prop; cbn [fst snd andb].
    + specialize (IH (c + 1) ltac:(lia) Hf'). case_match; lia.
    + specialize (IH c ltac:(lia) Hf'). lia.
  - pose proof (count_last_window 1 (u + window) u ts ltac:(lia) ltac:(lia) Hf). case_match; lia.
Qed.

Definition ref_ok (st : ref_state) : Prop :=
  match st with Some (c, _) => 1 <= c <= limit | None => True end.

Lemma ref_allow_ok st t : ref_ok st → ref_ok (step st t).1.
Proof.
  destruct st as [[c e]|]; cbn; [|lia]. intros Hc. repeat case_match; bool_to_prop; cbn; lia.
Qed.

Lemma count_bound st ts : ref_ok st → StronglySorted Z.le ts → count st ts <= 2 * limit - 1.
Proof.
  revert st. induction ts as [|u ts IH]; intros st Hok Hs; [cbn; lia|].
  destruct (Z.le_gt_cases lo u) as [Hu|Hu].
  - assert (from lo (u :: ts)) as Hf.
    { split; [done|]. inversion Hs; subst. constructor; [done|].
      eapply Forall_impl; [done|]. simpl. lia. }
    destruct st as [[c e]|]; cbn in Hok.
    + pose proof (count_inside c e (u :: ts) ltac:(lia) Hf). lia.
    + apply from_cons in Hf as [_ Hf]. rewrite count_cons. cbn [ref_allow].
      pose proof (count_last_window 1 (u + window) u ts ltac:(lia) ltac:(lia) Hf).
      cbn [fst snd]. case_match; lia.
  - rewrite count_cons.
    rewrite (proj2 (Z.leb_gt lo u)), andb_false_r by lia. cbn [andb].
    inversion Hs; subst. pose proof (IH _ (ref_allow_ok st u Hok) ltac:(done)). lia.
Qed.
End Counting.

(** The counter of the current bucket is the number of admissions since the
    bucket was opened, and no admission is later than its expiry. *)
Definition since (lo : Z) (h : list (Z * (bool * Z))) : Z :=
  Zsum ((λ o, if (o.2.1 : bool) && (lo <=? o.1) then 1 else 0) <$> h).

Definition counts (limit window : Z) (h : list (Z * (bool * Z))) (st : ref_state) : Prop :=
  match st with
  | Some (c, e) =>
      1 <= c <= limit ∧ c = since (e - window) h ∧ ∀ o, o ∈ h → o.2.1 = true → o.1 <= e
  | None => h = []
  end.

Lemma since_snoc lo h o :
  since lo (h ++ [o]) = since lo h + if (o.2.1 : bool) && (lo <=? o.1) then 1 else 0.
Proof. unfold since. rewrite fmap_app, Zsum_app. cbn. lia. Qed.

Lemma since_cons lo o h :
  since lo (o :: h) = (if (o.2.1 : bool) && (lo <=? o.1) then 1 else 0) + since lo h.
Proof. done. Qed.

Lemma since_late lo h :
  (∀ o, o ∈ h → o.2.1 = true → o.1 < lo) → since lo h = 0.
Proof.
  induction h as [|[t [a r]] h IH]; intros Hh; [done|].
  rewrite since_cons, IH by (intros; apply Hh; [by right|done]).
  destruct a; [|done]. cbn [fst snd andb].
  by rewrite (proj2 (Z.leb_gt lo t)) by apply (Hh (t, (true, r)) ltac:(left) eq_refl).
Qed.

Lemma counts_step limit window h st t :
  0 < limit → 0 < window →
  (∀ c e, st = Some (c, e) → e - window <= t) → counts limit window h st →
  let r := ref_allow limit window st t in
  counts limit window (h ++ [(t, r.2)]) r.1 ∧
  (∀ c e, r.1 = Some (c, e) → e - window <= t).
Proof.
  intros Hl Hw He Hc. cbv zeta. destruct st as [[c e]|]; cbn [ref_allow].
  - destruct Hc as (Hc&Hn&Ho). specialize (He c e eq_refl).
    destruct (t <=? e) eqn:E1; [destruct (c <? limit) eqn:E2|]; bool_to_prop;
      (split; [|intros ?? [= <- <-]; lia]); cbn [fst snd counts]; rewrite since_snoc; cbn [fst snd andb].
    + rewrite (proj2 (Z.leb_le (e - window) t)) by done.
      split_and!; [lia..|]. setoid_rewrite elem_of_app. setoid_rewrite list_elem_of_singleton.
      intros ? [?| ->]; [auto|done].
    + split_and!; [lia..|]. setoid_rewrite elem_of_app. setoid_rewrite list_elem_of_singleton.
      intros ? [?| ->]; [auto|done].
    + rewrite since_late, (proj2 (Z.leb_le _ t)) by (lia || intros ? Hi Ha; specialize (Ho _ Hi Ha); lia).
      split_and!; [lia..|]. setoid_rewrite elem_of_app. setoid_rewrite list_elem_of_singleton.
      intros ? [Hi| ->]; cbn; [intros Ha; specialize (Ho _ Hi Ha)|]; lia.
  - cbn in Hc. subst h. cbn. split; [|intros ?? [= <- <-]; lia].
    unfold since. cbn. rewrite (proj2 (Z.leb_le _ t)) by lia.
    split_and!; [lia..|]. intros ? ->%list_elem_of_singleton. cbn. lia.
Qed.

Lemma ref_run_counts limit window ts : ∀ h st,
  0 < limit → 0 < window → StronglySorted Z.le ts →
  (∀ t c e, t ∈ ts → st = Some (c, e) → e - window <= t) → counts limit window h st →
  let r := ref_run limit window st ts in counts limit window (h ++ r.2) r.1.
Proof.
  induction ts as [|t ts IH]; intros h st Hl Hw Hs Hst Hc; cbn.
  { by rewrite app_nil_r. }
  inversion Hs as [|?? Hs' Hall]; subst. rewrite Forall_forall in Hall.
  destruct (counts_step limit window h st t Hl Hw) as [Hc' Hst']; [|done|].
  { intros. eapply Hst; [left|done]. }
  rewrite cons_middle, app_assoc. apply IH; try done.
  intros u c e Hu E. specialize (Hst' c e E). specialize (Hall u Hu). lia.
Qed.

Lemma ref_run_split limit window pre o post : ∀ st ts,
  (ref_run limit window st ts).2 = pre ++ o :: post →
  ∃ ts1 t ts2, ts = ts1 ++ t :: ts2 ∧ pre = (ref_run limit window st ts1).2 ∧
    o = (t, (ref_allow limit window (ref_run limit window st ts1).1 t).2).
Proof.
  induction pre as [|o' pre IH]; intros st [|t ts] E; try done; cbn in E.
  - injection E as <- _. by exists [], t, ts.
  - injection E as <- E. apply IH in E as (ts1&u&ts2&->&->&->).
    by exists (t :: ts1), u, ts2.
Qed.

Lemma since_admitted lo hi h :
  (∀ o, o ∈ h → o.1 <= hi) → since lo h = admitted_in lo hi h.
Proof.
  intros Hh. unfold since, admitted_in. f_equal. apply list_fmap_ext. intros i o Ho.
  rewrite (proj2 (Z.leb_le o.1 hi)), andb_true_r; [done|]. apply Hh. by eapply list_elem_of_lookup_2.
Qed.

Lemma admitted_in_mono lo lo' hi h : lo' <= lo → admitted_in lo hi h <= admitted_in lo' hi h.
Proof.
  intros Hlo. unfold admitted_in. induction h as [|o h IH]; cbn [fmap list_fmap Zsum foldr]; [done|].
  change (foldr Z.add 0) with Zsum. destruct (lo <=? o.1) eqn:E1, (lo' <=? o.1) eqn:E2; bool_to_prop;
    rewrite ?andb_true_r, ?andb_false_r; cbn [andb]; try case_match; lia.
Qed.

Lemma ref_run_times limit window ts : ∀ st, (ref_run limit window st ts).2.*1 = ts.
Proof. induction ts as [|t ts IH]; intros st; cbn; [done|]. by f_equal. Qed.

(** The reference counter denies only when [limit] calls of the key were
    admitted during the window before. *)
Lemma ref_denied_full limit window ts pre t retry post :
  0 < limit → 0 < window → StronglySorted Z.le ts →
  (ref_run limit window None ts).2 = pre ++ (t, (false, retry)) :: post →
  limit <= admitted_in (t - window) t pre.
Proof.
  intros Hl Hw Hs E. apply ref_run_split in E as (ts1&t'&ts2&->&->&E). injection E as -> Ed.
  apply StronglySorted_app in Hs as (Hle&Hs1&_).
  pose proof (ref_run_counts limit window ts1 [] None Hl Hw Hs1 ltac:(done) eq_refl) as Hc.
  cbn in Hc. destruct (ref_run limit window None ts1).1 as [[c e]|]; [|done].
  cbn in Ed. destruct (t' <=? e) eqn:E1; [|done]. destruct (c <? limit) eqn:E2; [done|].
  bool_to_prop. destruct Hc as (Hc&Hn&_).
  rewrite (since_admitted _ t') in Hn.
  - pose proof (admitted_in_mono (e - window) (t' - window) t' (ref_run limit window None ts1).2
      ltac:(lia)). lia.
  - intros o Ho. apply Hle; [|left]. rewrite <-(ref_run_times limit window ts1 None).
    by apply list_elem_of_fmap_2.
Qed.

Lemma calls_of_sorted k cs : clock_monotone cs → StronglySorted Z.le (calls_of k cs).
Proof.
  unfold clock_monotone, calls_of. intros Hs.
  apply Sorted_StronglySorted in Hs; [|intros ???; lia].
  induction cs as [|[t k'] cs IH]; [constructor|]. cbn in Hs. inversion Hs as [|?? Hs' Hall]; subst.
  cbn. case_match; [|auto]. cbn. constructor; [auto|].
  rewrite Forall_forall in Hall |- *. intros u (c&->&Hc)%list_elem_of_fmap.
  apply list_elem_of_In, filter_In in Hc as [Hc%list_elem_of_In _]. apply Hall.
  by apply list_elem_of_fmap_2.
Qed.

Lemma run_from_new `{GoMapOrder} limit window m cs k :
  NewMemory limit window = Some m → limit < 2^63 → window < 2^63 → clock_monotone cs →
  let r := run_calls m cs in
  let r' := ref_run limit window None (calls_of k cs) in
  outcomes_of k r.2 = r'.2 ∧
  (∀ fin, (∀ c, c ∈ cs → c.1 <= fin) → tracks r.1 limit window fin k r'.1).
Proof.
  intros Hm Hl Hw Hs. destruct (new_bounds _ _ _ Hm). cbv zeta.
  destruct cs as [|c cs].
  { split; [done|]. intros. by eapply new_tracks. }
  destruct (run_tracks limit window ltac:(lia) ltac:(lia) k (c :: cs) m c.1 None) as [E Hfin];
    [done| |by eapply new_tracks|].
  - apply Sorted_StronglySorted in Hs; [|intros ???; lia]. cbn in Hs.
    inversion Hs as [|?? _ Hall]; subst. rewrite Forall_forall in Hall.
    intros c' [->|Hc']%elem_of_cons; [done|]. apply Hall. by apply list_elem_of_fmap_2.
  - split; [done|]. intros fin Hc. apply Hfin; [apply Hc; left|done].
Qed.

(** ** Properties *)

(** A clock in nanoseconds and a limiter of two calls per ten ticks. *)
Definition sample_limiter : Memory := mkMemory 2 10 ∅ 0.
Definition sample_calls : list call :=
  [(100, "a"); (105, "b"); (110, "a"); (110, "a"); (111, "a"); (112, "a"); (112, "a")]%string.

(** C7 The limiter refines the per-key counter: with a clock that does not run
    backwards, for every key the outcomes of its calls (admitted or not, and
    the retry hint) are those of a counter for that key alone that never drops
    a bucket.  Hence keys do not affect each other, whatever the other traffic,
    and the lazy sweep, in whatever order it visits the map, is invisible. *)
Theorem limiter_refines_counter `{GoMapOrder} limit window m cs k :
  NewMemory limit window = Some m → limit < 2^63 → window < 2^63 → clock_monotone cs →
  outcomes_of k (run_calls m cs).2 = (ref_run limit window None (calls_of k cs)).2.
Proof. intros. by apply run_from_new. Qed.

Lemma limiter_refines_counter_witness :
  outcomes_of "a" (@run_calls canonical_order sample_limiter sample_calls).2 =
  [(100, (true, 0)); (110, (true, 0)); (110, (false, 0)); (111, (true, 0)); (112, (true, 0));
   (112, (false, 9))].
Proof.
  rewrite (@limiter_refines_counter canonical_order 2 10 sample_limiter sample_calls "a");
    [reflexivity|reflexivity|lia|lia|repeat (constructor; try (simpl; lia))].
Defined.

(** The limiter's rate: for a key, any interval as long as the window holds
    at most [2 * limit - 1] admissions (not [limit]: a bucket filled late and
    the next one filled at once fall into one interval), and a call is denied
    only when at least [limit] calls of that key were admitted during the
    window before it. *)
Theorem limiter_rate `{GoMapOrder} limit window m cs k :
  NewMemory limit window = Some m → limit < 2^63 → window < 2^63 → clock_monotone cs →
  (∀ lo, admitted_in lo (lo + window) (outcomes_of k (run_calls m cs).2) <= 2 * limit - 1) ∧
  (∀ pre t retry post,
     outcomes_of k (run_calls m cs).2 = pre ++ (t, (false, retry)) :: post →
     limit <= admitted_in (t - window) t pre).
Proof.
  intros Hm Hl Hw Hs. destruct (new_bounds _ _ _ Hm).
  destruct (run_from_new limit window m cs k) as [-> _]; [done..|].
  split; [|intros * E; eapply ref_denied_full; [..|done]; auto using calls_of_sorted].
  intros lo. by apply count_bound; auto using calls_of_sorted.
Qed.

(** Three admissions within ten ticks with a limit of two: the bound is tight. *)
Lemma limiter_rate_witness :
  admitted_in 110 120 (outcomes_of "a" (@run_calls canonical_order sample_limiter sample_calls).2) = 3
  ∧ 3 <= 2 * 2 - 1.
Proof.
  split; [reflexivity|].
  pose proof (@limiter_rate canonical_order 2 10 sample_limiter sample_calls "a" eq_refl
    ltac:(lia) ltac:(lia) ltac:(repeat (constructor; try (simpl; lia)))) as [Hr _].
  exact (Hr 110).
Defined.

(** What a client of the limiter is told is what happens.  After any history,
    at a clock reading not before it: [Quota] reports a positive remainder
    exactly when [Allow] would admit the call; when [Allow] denies, the retry
    hint lies between zero and the window, and a further call of the key is
    admitted exactly when it comes later than the hint, strictly; and the
    middleware serves the request exactly when [Allow] admits it. *)
Theorem limiter_quota_and_retry `{GoMapOrder, GoPlatform} limit window m0 cs k t :
  NewMemory limit window = Some m0 → limit < 2^63 → window < 2^63 →
  clock_monotone cs → (∀ c, c ∈ cs → c.1 <= t) → k ≠ ""%string →
  let m := (run_calls m0 cs).1 in
  let r := Allow m t k in
  let allowed := r.2.1 in
  let retry := r.2.2 in
  (0 < (Quota m t t k).1.2 ↔ allowed = true) ∧
  (allowed = false → 0 <= retry <= window ∧
     ∀ t', t <= t' → ((Allow r.1 t' k).2.1 = true ↔ t + retry < t')) ∧
  (∀ failOpen t1 t2, (∃ hs, (Middleware memory_limiter failOpen m k t t1 t2).2 = Served hs) ↔
     allowed = true).
Proof.
  intros Hm Hl Hw Hs Hc Hk. destruct (new_bounds _ _ _ Hm). cbv zeta.
  destruct (run_from_new limit window m0 cs k) as [_ Ht]; [done..|]. specialize (Ht t Hc).
  destruct (Allow _ t k) as [m' [allowed retry]] eqn:EA.
  destruct (allow_same limit window ltac:(lia) ltac:(lia) _ t t k _ ltac:(lia) Ht) as [Ht' Ho].
  rewrite EA in Ht', Ho. cbn [fst snd] in Ht', Ho |- *.
  set (st := (ref_run limit window None (calls_of k cs)).1) in *.
  split_and!.
  - destruct Ht as [El Ew Hb]. unfold Quota, time_after. rewrite El.
    destruct st as [[c e]|]; cbn in Ho; [|rewrite Hb; naive_solver lia].
    destruct Hb as (Hc'&He&[Hb|[Hb Hexp]]); rewrite Hb; cbn [b_expiresAt b_count].
    + destruct (Z.ltb_spec e t) as [Hlt|Hge].
      * rewrite (proj2 (Z.leb_gt t e)) in Ho by lia. cbn. naive_solver lia.
      * rewrite (proj2 (Z.leb_le t e)) in Ho by lia. unfold i64_sub.
        rewrite wrap64_id by (unfold in_i64; lia). cbn [fst snd].
        rewrite (proj2 (Z.ltb_ge (limit - c) 0)) by lia.
        destruct (Z.ltb_spec c limit); naive_solver lia.
    + rewrite (proj2 (Z.leb_gt t e)) in Ho by lia. cbn. naive_solver lia.
  - intros ->. destruct st as [[c e]|]; cbn in Ho; [|done].
    destruct (Z.leb_spec t e), (Z.ltb_spec c limit); cbn in Ho; simplify_eq.
    destruct Ht as [_ _ (_&He&_)]. split; [lia|]. intros t' Hle.
    destruct (allow_same limit window ltac:(lia) ltac:(lia) _ t t' k _ Hle Ht') as [_ ->].
    cbn [ref_allow fst]. rewrite (proj2 (Z.leb_le t e)), (proj2 (Z.ltb_ge c limit)) by lia.
    cbn [ref_allow fst]. rewrite (proj2 (Z.ltb_ge c limit)) by lia.
    destruct (Z.leb_spec t' e); cbn; naive_solver lia.
  - intros. unfold Middleware, memory_limiter, string_eqb. cbn [L_Allow L_Quota].
    rewrite (proj2 (String.eqb_neq k "")) by done. rewrite EA. cbn [fst snd].
    destruct allowed; naive_solver.
Qed.

(** The two calls of "a" at 112 above: the second is denied for nine ticks. *)
Lemma limiter_quota_and_retry_witness :
  let m := (@run_calls canonical_order sample_limiter sample_calls).1 in
  ¬ 0 < (Quota m 112 112 "a").1.2 ∧
  (@Allow canonical_order (@Allow canonical_order m 112 "a").1 121 "a").2.1 = false ∧
  (@Allow canonical_order (@Allow canonical_order m 112 "a").1 122 "a").2.1 = true.
Proof.
  pose proof (@limiter_quota_and_retry canonical_order amd64 2 10 sample_limiter sample_calls "a" 112
    eq_refl ltac:(lia) ltac:(lia) ltac:(repeat (constructor; try (simpl; lia)))
    ltac:(apply Forall_forall; repeat (constructor; try (simpl; lia))) ltac:(done)) as Hall.
  cbv zeta in Hall. destruct Hall as (Hq & Hd & _).
  destruct Hd as [_ Hn]; [vm_compute; reflexivity|].
  split; [rewrite Hq; vm_compute; discriminate|]. split; [vm_compute; reflexivity|].
  apply (Hn 122); [lia|vm_compute; reflexivity].
Defined.

(** The header is the hint in whole seconds, rounded down: a client that waits
    for the announced second of a 1.9 s hint is denied again. *)
Theorem retry_header_too_early `{GoPlatform} :
  let m := mkMemory 1 1900000000 ∅ 0 in
  let m1 := (@Allow canonical_order m 100 "a").1 in
  (∃ hs m2, Middleware (@memory_limiter canonical_order) true m1 "a" 100 100 100 =
     (m2, TooManyRequests hs 1)) ∧
  (@Allow canonical_order m1 (100 + 1 * 1000000000) "a").2.1 = false.
Proof. split; [|reflexivity]. eexists _, _. vm_compute. reflexivity. Qed.
