(* ===== verification/Tenancy.v ===== *)
(** The tenant scope (backend/internal/tenancy/context.go).  A Go
    [context.Context] is seen through the one key the package uses: the stored
    tenant scope, if any. *)

From S2P Require Import Prelude.

Record TenantContext := mkTenant {
  TenantID : string; WorkspaceID : string; ClusterID : string; Namespace : string }.

#[export] Instance TenantContext_eq_dec : EqDecision TenantContext.
Proof. solve_decision. Defined.

Inductive tenancy_error := ErrNoTenant.

Definition TenantContext_String (c : TenantContext) : string :=
  "tenant=" +:+ TenantID c +:+ " workspace=" +:+ WorkspaceID c +:+
  " cluster=" +:+ ClusterID c +:+ " ns=" +:+ Namespace c.

Definition TenantContext_Validate (c : TenantContext) : option tenancy_error :=
  if string_eqb (TenantID c) "" then Some ErrNoTenant else None.

Definition go_context : Type := option TenantContext.

Definition WithContext (ctx : go_context) (t : TenantContext) : go_context := Some t.

Definition FromContext (ctx : go_context) : result tenancy_error TenantContext :=
  match ctx with
  | None => Err ErrNoTenant
  | Some v => match TenantContext_Validate v with Some e => Err e | None => Ok v end
  end.

Lemma validate_iff c : TenantContext_Validate c = None ↔ TenantID c ≠ ""%string.
Proof.
  unfold TenantContext_Validate, string_eqb. destruct (String.eqb_spec (TenantID c) ""); naive_solver.
Qed.

(** A scope recovered downstream is the one attached, and has a tenant. *)
Lemma from_with_context ctx t :
  FromContext (WithContext ctx t) = if string_eqb (TenantID t) "" then Err ErrNoTenant else Ok t.
Proof. unfold FromContext, WithContext, TenantContext_Validate. by destruct (string_eqb _ _). Qed.
