(* ===== verification/Sha256.v ===== *)
(** SHA-256 (FIPS 180-4) and HMAC (RFC 2104) of Go's crypto packages, over strings of
    bytes: what the signed tokens are authenticated with. *)

From Stdlib Require Import Ascii.
From S2P Require Import Prelude GoNum GoStr Utf8.
Local Open Scope Z_scope.

Definition w32 (x : Z) : Z := x mod 2^32.
Definition rotr (n x : Z) : Z := Z.lor (Z.shiftr x n) (w32 (Z.shiftl x (32 - n))).

(** ** The constants: fractional parts of the roots of the first primes *)

Definition is_prime (n : nat) : bool :=
  forallb (λ d, negb (Nat.eqb (Nat.modulo n d) 0)) (seq 2 (n - 2)).
Definition primes : list Z := map Z.of_nat (List.filter is_prime (seq 2 310)).

(** The integer cube root by bisection, [bits] halvings of the interval from [lo]. *)
Fixpoint cbrt_from (bits : nat) (lo n : Z) : Z :=
  match bits with
  | O => lo
  | S bits =>
      let mid := lo + 2 ^ Z.of_nat bits in
      cbrt_from bits (if mid * mid * mid <=? n then mid else lo) n
  end.

Definition round_constants : list Z :=
  Eval vm_compute in map (λ p, w32 (cbrt_from 40 0 (p * 2^96))) (take 64 primes).
Definition initial_hash : list Z :=
  Eval vm_compute in map (λ p, w32 (Z.sqrt (p * 2^64))) (take 8 primes).

(** ** Blocks *)

Definition bytes_of (s : string) : list Z := map byte_val (String.list_ascii_of_string s).
Definition be_bytes (width : nat) (x : Z) : list Z :=
  map (λ i, x / 256 ^ Z.of_nat (width - 1 - i) mod 256) (seq 0 width).

Definition pad (msg : list Z) : list Z :=
  let n := Z.of_nat (length msg) in
  msg ++ [128] ++ replicate (Z.to_nat ((55 - n) mod 64)) 0 ++ be_bytes 8 (8 * n).

Fixpoint words (bs : list Z) : list Z :=
  match bs with
  | a :: b :: c :: d :: bs => (((a * 256 + b) * 256 + c) * 256 + d) :: words bs
  | _ => []
  end.

(** The message schedule, newest word first: [w_t] from the sixteen before it. *)
Definition schedule_step (ws : list Z) : list Z :=
  let at_ n := nth (n - 1) ws 0 in
  let s0 x := Z.lxor (Z.lxor (rotr 7 x) (rotr 18 x)) (Z.shiftr x 3) in
  let s1 x := Z.lxor (Z.lxor (rotr 17 x) (rotr 19 x)) (Z.shiftr x 10) in
  w32 (s1 (at_ 2%nat) + at_ 7%nat + s0 (at_ 15%nat) + at_ 16%nat) :: ws.

Definition schedule (block : list Z) : list Z := rev (Nat.iter 48 schedule_step (rev block)).

Definition round (st : list Z) (kw : Z * Z) : list Z :=
  match st with
  | [a; b; c; d; e; f; g; h] =>
      let S1 := Z.lxor (Z.lxor (rotr 6 e) (rotr 11 e)) (rotr 25 e) in
      let ch := Z.lxor (Z.land e f) (Z.land (Z.lxor e (2^32 - 1)) g) in
      let t1 := h + S1 + ch + kw.1 + kw.2 in
      let S0 := Z.lxor (Z.lxor (rotr 2 a) (rotr 13 a)) (rotr 22 a) in
      let maj := Z.lxor (Z.lxor (Z.land a b) (Z.land a c)) (Z.land b c) in
      [w32 (t1 + (S0 + maj)); a; b; c; w32 (d + t1); e; f; g]
  | _ => st
  end.

Definition compress (st block : list Z) : list Z :=
  zip_with (λ x y, w32 (x + y)) st (foldl round st (zip round_constants (schedule block))).

Fixpoint blocks (fuel : nat) (st ws : list Z) : list Z :=
  match fuel, ws with
  | S fuel, _ :: _ => blocks fuel (compress st (take 16 ws)) (drop 16 ws)
  | _, _ => st
  end.

(** [sha256.Sum256]: the 32 bytes of the digest. *)
Definition sha256_bytes (msg : list Z) : list Z :=
  let ws := words (pad msg) in
  concat (map (be_bytes 4) (blocks (length ws) initial_hash ws)).
Definition sha256 (msg : string) : string := of_bytes (sha256_bytes (bytes_of msg)).

(** [hmac.New(sha256.New, key)] over one write. *)
Definition hmac_key (key : list Z) : list Z :=
  let k := if (64 <? length key)%nat then sha256_bytes key else key in
  k ++ replicate (64 - length k) 0.

Definition hmac_sha256 (key msg : string) : string :=
  let k := hmac_key (bytes_of key) in
  of_bytes (sha256_bytes (map (Z.lxor 92) k ++ sha256_bytes (map (Z.lxor 54) k ++ bytes_of msg))).

(** The published test vectors (FIPS 180-4, RFC 4231). *)
Example sha256_abc :
  hex (sha256 "abc") = "ba7816bf8f01cfea414140de5dae2223b00361a396177a9cb410ff61f20015ad".
Proof. vm_compute. reflexivity. Qed.
Example hmac_rfc4231_2 :
  hex (hmac_sha256 "Jefe" "what do ya want for nothing?") =
  "5bdcc146bf60754e6a042426089575c75a003f089d2739839dec58b964ec3843".
Proof. vm_compute. reflexivity. Qed.
Example sha256_two_blocks :
  hex (sha256 "abcdbcdecdefdefgefghfghighijhijkijkljklmklmnlmnomnopnopq") =
  "248d6a61d20638b8e5c026930c3e6039a33ce45964ff2167f6ecedd419db06c1".
Proof. vm_compute. reflexivity. Qed.

(** ** Shape of the digest *)

Lemma round_length st kw : length st = 8%nat → length (round st kw) = 8%nat.
Proof. intros. do 9 (destruct st as [|? st]; [done|]). done. Qed.

Lemma compress_length st block : length st = 8%nat → length (compress st block) = 8%nat.
Proof.
  intros Hst. unfold compress. rewrite length_zip_with, Hst.
  enough (∀ kws, length (foldl round st kws) = 8%nat) as ->; [done|].
  intros kws. revert st Hst. induction kws; intros st Hst; simpl; [done|]. by apply IHkws, round_length.
Qed.

Lemma blocks_length fuel st ws : length st = 8%nat → length (blocks fuel st ws) = 8%nat.
Proof.
  revert st ws. induction fuel as [|fuel IH]; intros st [|w ws] Hst; try done.
  cbn [blocks]. by apply IH, compress_length.
Qed.

Lemma pad_blocks msg : (length (pad msg) mod 64 = 0)%nat.
Proof.
  unfold pad. rewrite !length_app, length_replicate. cbn [length be_bytes map seq].
  apply Nat2Z.inj. rewrite Nat2Z.inj_mod, !Nat2Z.inj_add.
  pose proof (Z.mod_pos_bound (55 - Z.of_nat (length msg)) 64 ltac:(lia)).
  rewrite Z2Nat.id by lia. Z.to_euclidean_division_equations. lia.
Qed.

Lemma of_bytes_length l : String.length (of_bytes l) = length l.
Proof. induction l; simpl; congruence. Qed.

Lemma sha256_bytes_length msg : length (sha256_bytes msg) = 32%nat.
Proof.
  unfold sha256_bytes. set (hs := blocks _ _ _).
  assert (length hs = 8%nat) as Hh by by apply blocks_length.
  do 9 (destruct hs as [|? hs]; [done|]). done.
Qed.

Lemma hmac_length key msg : String.length (hmac_sha256 key msg) = 32%nat.
Proof. unfold hmac_sha256. by rewrite of_bytes_length, sha256_bytes_length. Qed.
