(* ===== verification/Base64.v ===== *)
(** Unpadded URL-safe base64 of Go's encoding/base64 ([RawURLEncoding], not strict):
    the wire form of the signed tokens. *)

From Stdlib Require Import Ascii.
From S2P Require Import Prelude GoNum GoStr Lines Utf8.
Local Open Scope Z_scope.

Definition alphabet : string := "ABCDEFGHIJKLMNOPQRSTUVWXYZabcdefghijklmnopqrstuvwxyz0123456789-_".
Definition b64_char (n : Z) : ascii := default "A"%char (String.get (Z.to_nat n) alphabet).

Definition b64_val (c : ascii) : option Z :=
  let b := byte_val c in
  if between 65 90 b then Some (b - 65)
  else if between 97 122 b then Some (b - 71)
  else if between 48 57 b then Some (b + 4)
  else if b =? 45 then Some 62
  else if b =? 95 then Some 63
  else None.

(** [base64.RawURLEncoding.EncodeToString] *)
Fixpoint encode (s : string) : string :=
  match s with
  | String a (String b (String c s)) =>
      let a := byte_val a in let b := byte_val b in let c := byte_val c in
      String (b64_char (a / 4)) (String (b64_char (a mod 4 * 16 + b / 16))
        (String (b64_char (b mod 16 * 4 + c / 64)) (String (b64_char (c mod 64)) (encode s))))
  | String a (String b EmptyString) =>
      let a := byte_val a in let b := byte_val b in
      String (b64_char (a / 4)) (String (b64_char (a mod 4 * 16 + b / 16))
        (String (b64_char (b mod 16 * 4)) EmptyString))
  | String a EmptyString =>
      let a := byte_val a in
      String (b64_char (a / 4)) (String (b64_char (a mod 4 * 16)) EmptyString)
  | EmptyString => EmptyString
  end.

(** The decoder skips line breaks wherever they stand. *)
Fixpoint skip_breaks (s : string) : string :=
  match s with
  | EmptyString => EmptyString
  | String c s => if (byte_val c =? 10) || (byte_val c =? 13) then skip_breaks s else String c (skip_breaks s)
  end.

Fixpoint decode_quads (s : string) : option string :=
  match s with
  | EmptyString => Some EmptyString
  | String a (String b r) =>
      match b64_val a, b64_val b, r with
      | Some a, Some b, EmptyString => Some (String (chr (a * 4 + b / 16)) EmptyString)
      | Some a, Some b, String c r =>
          match b64_val c, r with
          | Some c, EmptyString =>
              Some (String (chr (a * 4 + b / 16)) (String (chr (b mod 16 * 16 + c / 4)) EmptyString))
          | Some c, String d r =>
              match b64_val d, decode_quads r with
              | Some d, Some t =>
                  Some (String (chr (a * 4 + b / 16)) (String (chr (b mod 16 * 16 + c / 4))
                    (String (chr (c mod 4 * 64 + d)) t)))
              | _, _ => None
              end
          | None, _ => None
          end
      | _, _, _ => None
      end
  | String _ EmptyString => None
  end.

(** [base64.RawURLEncoding.DecodeString] *)
Definition decode (s : string) : option string := decode_quads (skip_breaks s).

(** ** Round trip *)

Lemma byte_val_range c : 0 <= byte_val c < 256.
Proof. unfold byte_val. pose proof (N_ascii_bounded c). lia. Qed.

Lemma chr_byte_val c : chr (byte_val c) = c.
Proof. unfold chr, byte_val. by rewrite N2Z.id, ascii_N_embedding. Qed.

Lemma b64_val_char n : 0 <= n < 64 → b64_val (b64_char n) = Some n.
Proof.
  intros Hn.
  assert (forallb (λ i, bool_decide (b64_val (b64_char (Z.of_nat i)) = Some (Z.of_nat i))) (seq 0 64) = true) as Hall
    by by vm_compute.
  rewrite forallb_forall in Hall. specialize (Hall (Z.to_nat n)).
  rewrite Z2Nat.id in Hall by lia. apply bool_decide_eq_true in Hall; [done|].
  apply in_seq. lia.
Qed.

Definition b64_safe (c : ascii) : bool := match b64_val c with Some _ => true | None => false end.

Lemma b64_char_safe n : 0 <= n < 64 → b64_safe (b64_char n) = true.
Proof. intros. unfold b64_safe. by rewrite b64_val_char. Qed.

(** Recursion three bytes at a time. *)
Lemma str_ind3 (P : string → Prop) :
  P "" → (∀ a, P (String a "")) → (∀ a b, P (String a (String b ""))) →
  (∀ a b c s, P s → P (String a (String b (String c s)))) → ∀ s, P s.
Proof.
  intros H0 H1 H2 H3. apply str_len_ind. intros [|a [|b [|c s]]] IH; auto.
  apply H3, IH. simpl. lia.
Qed.

Ltac byte_bounds :=
  repeat match goal with
  | c : ascii |- _ => lazymatch goal with
    | H : 0 <= byte_val c < 256 |- _ => fail
    | _ => pose proof (byte_val_range c) end
  end.

Lemma encode_safe s : str_all b64_safe (encode s) = true.
Proof.
  revert s. apply (str_ind3 (λ s, str_all b64_safe (encode s) = true)); [done|..]; intros; cbn [encode str_all];
    rewrite !b64_char_safe; try done; byte_bounds; Z.to_euclidean_division_equations; lia.
Qed.

Lemma skip_breaks_safe s : str_all b64_safe s = true → skip_breaks s = s.
Proof.
  induction s as [|c s IH]; [done|]. cbn [str_all skip_breaks]. intros [Hc Hs]%andb_prop.
  destruct (byte_val c =? 10) eqn:E10; [|destruct (byte_val c =? 13) eqn:E13]; cbn [orb]; [..|by rewrite IH];
    bool_to_prop; unfold b64_safe, b64_val in Hc; [rewrite E10 in Hc|rewrite E13 in Hc]; done.
Qed.

Lemma chr_of n c : n = byte_val c → chr n = c.
Proof. intros ->. apply chr_byte_val. Qed.

Ltac b64_arith := byte_bounds; Z.to_euclidean_division_equations; lia.

Lemma decode_encode s : decode (encode s) = Some s.
Proof.
  unfold decode. rewrite skip_breaks_safe by apply encode_safe.
  revert s. apply (str_ind3 (λ s, decode_quads (encode s) = Some s)); [done|..].
  - intros a. cbn [encode decode_quads]. rewrite !b64_val_char by b64_arith.
    rewrite (chr_of _ a) by b64_arith. done.
  - intros a b. cbn [encode decode_quads]. rewrite !b64_val_char by b64_arith.
    rewrite (chr_of _ a), (chr_of _ b) by b64_arith. done.
  - intros a b c s IH. cbn [encode decode_quads]. rewrite !b64_val_char by b64_arith.
    rewrite IH, (chr_of _ a), (chr_of _ b), (chr_of _ c) by b64_arith. done.
Qed.

(** The separator of the tokens is not a letter of the alphabet. *)
Lemma encode_no_dot s : no_byte "."%char (encode s) = true.
Proof.
  unfold no_byte. eapply str_all_impl; [|apply encode_safe].
  intros c Hc. destruct (Ascii.eqb_spec c "."%char) as [->|]; [by vm_compute in Hc|done].
Qed.
