(* ===== verification/Json.v ===== *)
(** Go's encoding/json as the signed tokens use it: the encoder of flat structs, the
    decoder of arbitrary documents into a tree, and the assignment of an object's members
    to the fields of a struct. *)

From Stdlib Require Import Ascii.
From S2P Require Import Prelude GoNum GoStr Lines Utf8.
Local Open Scope Z_scope.

Inductive json :=
  | JNull
  | JBool (b : bool)
  | JNum (literal : string)
  | JStr (raw s : string)  (* as written between the quotes, and what it stands for *)
  | JArr (l : list json)
  | JObj (l : list (string * json)).

(** ** Encoding *)

Definition quote_char : ascii := chr 34.
Definition backslash : ascii := chr 92.

Definition u_escape (r : Z) : string :=
  String backslash (String "u" (String (hex_digit (r / 4096)) (String (hex_digit (r / 256 mod 16))
    (String (hex_digit (r / 16 mod 16)) (String (hex_digit (r mod 16)) ""))))).

(** A byte below 128; [html] is the encoder's EscapeHTML. *)
Definition escape_ascii (html : bool) (c : ascii) : string :=
  let b := byte_val c in
  if (b =? 92) || (b =? 34) then String backslash (String c "")
  else if b =? 8 then String backslash "b"
  else if b =? 12 then String backslash "f"
  else if b =? 10 then String backslash "n"
  else if b =? 13 then String backslash "r"
  else if b =? 9 then String backslash "t"
  else if (b <? 32) || (html && ((b =? 60) || (b =? 62) || (b =? 38))) then u_escape b
  else String c "".

(** One rune that does not start with an ASCII byte: [s] is the whole input, [rest] what
    follows the rune, [tail] what follows its first byte. An invalid byte becomes an
    escaped U+FFFD, the line separators of JavaScript are escaped, the rest is copied. *)
Definition escape_rune (r : Z) (s tail rest : string) : string :=
  if (r =? RuneError) && (String.length rest =? String.length tail)%nat then u_escape RuneError
  else if (r =? 8232) || (r =? 8233) then u_escape r
  else str_take (String.length s - String.length rest) s.

Fixpoint quote_body (html : bool) (fuel : nat) (s : string) : string :=
  match fuel, s with
  | S fuel, String c tail =>
      if byte_val c <? 128 then escape_ascii html c +:+ quote_body html fuel tail
      else
        let '(r, rest) := decode_rune (byte_val c) tail in
        escape_rune r s tail rest +:+ quote_body html fuel rest
  | _, _ => EmptyString
  end.

(** [appendString]; every rune takes at least a byte. *)
Definition quote (html : bool) (s : string) : string :=
  String quote_char (quote_body html (String.length s) s +:+ String quote_char "").

Inductive scalar := VStr (s : string) | VInt (z : Z).

Definition encode_scalar (html : bool) (v : scalar) : string :=
  match v with VStr s => quote html s | VInt z => itoa z end.

Definition encode_member (html : bool) (kv : string * scalar) : string :=
  String quote_char (kv.1 +:+ String quote_char (String ":" (encode_scalar html kv.2))).

(** [json.Marshal] of a struct whose fields are strings and integers, in order. *)
Definition encode_struct (html : bool) (l : list (string * scalar)) : string :=
  String "{" (join "," (map (encode_member html) l) +:+ "}").

(** ** Decoding *)

Definition is_ws (c : ascii) : bool :=
  let b := byte_val c in (b =? 32) || (b =? 9) || (b =? 13) || (b =? 10).
Definition skip_ws (s : string) : string := drop_while is_ws s.

Definition hex4 (s : string) : option (Z * string) :=
  match s with
  | String a (String b (String c (String d s))) =>
      match hex_val a, hex_val b, hex_val c, hex_val d with
      | Some a, Some b, Some c, Some d => Some (((a * 16 + b) * 16 + c) * 16 + d, s)
      | _, _, _, _ => None
      end
  | _ => None
  end.

(** What follows [\u]: a surrogate pair is one rune, a lone surrogate U+FFFD. *)
Definition unicode_escape (s : string) : option (Z * string) :=
  match hex4 s with
  | None => None
  | Some (r, rest) =>
      if between 55296 57343 r then
        match rest with
        | String c (String u rest2) =>
            if (byte_val c =? 92) && (byte_val u =? 117) then
              match hex4 rest2 with
              | Some (r2, rest3) =>
                  if between 55296 56319 r && between 56320 57343 r2
                  then Some ((r - 55296) * 1024 + (r2 - 56320) + 65536, rest3)
                  else Some (RuneError, rest)
              | None => Some (RuneError, rest)
              end
            else Some (RuneError, rest)
        | _ => Some (RuneError, rest)
        end
      else Some (r, rest)
  end.

(** What follows a backslash. *)
Definition escape_char (c : ascii) : option Z :=
  let b := byte_val c in
  if (b =? 34) || (b =? 92) || (b =? 47) then Some b
  else if b =? 98 then Some 8
  else if b =? 102 then Some 12
  else if b =? 110 then Some 10
  else if b =? 114 then Some 13
  else if b =? 116 then Some 9
  else None.

(** One rune of a string literal and what follows it. *)
Definition string_rune (s : string) : option (Z * string) :=
  match s with
  | EmptyString => None
  | String c r =>
      let b := byte_val c in
      if b =? 92 then
        match r with
        | EmptyString => None
        | String e r =>
            if byte_val e =? 117 then unicode_escape r
            else match escape_char e with Some v => Some (v, r) | None => None end
        end
      else if b <? 32 then None
      else Some (decode_rune b r)
  end.

(** A string literal after its opening quote. *)
Fixpoint parse_string (fuel : nat) (s : string) : option (string * string) :=
  match fuel with
  | O => None
  | S fuel =>
      match s with
      | EmptyString => None
      | String c r =>
          if byte_val c =? 34 then Some ("", r)
          else
            match string_rune s with
            | None => None
            | Some (v, rest) =>
                match parse_string fuel rest with
                | Some (t, rest) => Some (encode_rune v +:+ t, rest)
                | None => None
                end
            end
      end
  end.

Fixpoint take_digits (s : string) : string * string :=
  match s with
  | String c s' => if is_digit c then let '(d, r) := take_digits s' in (String c d, r) else ("", s)
  | EmptyString => ("", "")
  end.

(** An optional part of a number: its text and the rest, or a syntax error. *)
Definition number_frac (s : string) : option (string * string) :=
  match s with
  | String "." s' => match take_digits s' with (EmptyString, _) => None | (d, r) => Some (String "." d, r) end
  | _ => Some ("", s)
  end.
Definition number_exp (s : string) : option (string * string) :=
  match s with
  | String c s' =>
      if (byte_val c =? 101) || (byte_val c =? 69) then
        let '(sign, s') := match s' with
          | String "+" t => ("+", t) | String "-" t => ("-", t) | _ => ("", s') end in
        match take_digits s' with (EmptyString, _) => None | (d, r) => Some (String c (sign +:+ d), r) end
      else Some ("", s)
  | EmptyString => Some ("", s)
  end.
(** The integer part: no leading zero before another digit. *)
Definition number_int (s : string) : option (string * string) :=
  match s with
  | String c s' =>
      if byte_val c =? 48 then Some (String c "", s')
      else if is_digit c then Some (take_digits s) else None
  | EmptyString => None
  end.
Definition parse_number (s : string) : option (string * string) :=
  let '(sign, s) := match s with String "-" t => ("-", t) | _ => ("", s) end in
  match number_int s with
  | None => None
  | Some (i, s) =>
      match number_frac s with
      | None => None
      | Some (f, s) =>
          match number_exp s with
          | None => None
          | Some (e, s) => Some (sign +:+ i +:+ f +:+ e, s)
          end
      end
  end.

Definition maxNestingDepth : Z := 10000.

(** A value, the members of an object, the elements of an array, and what follows;
    every step consumes a byte, so the length of the text bounds the depth of the calls. *)
Fixpoint parse_value (fuel : nat) (depth : Z) (s : string) {struct fuel} : option (json * string) :=
  match fuel with
  | O => None
  | S fuel =>
      match skip_ws s with
      | EmptyString => None
      | String c r =>
          let b := byte_val c in
          if b =? 123 then
            if maxNestingDepth <=? depth then None
            else match skip_ws r with
              | String d r' =>
                  if byte_val d =? 125 then Some (JObj [], r')
                  else match parse_members fuel (depth + 1) r with
                    | Some (l, r) => Some (JObj l, r) | None => None end
              | EmptyString => None
              end
          else if b =? 91 then
            if maxNestingDepth <=? depth then None
            else match skip_ws r with
              | String d r' =>
                  if byte_val d =? 93 then Some (JArr [], r')
                  else match parse_elements fuel (depth + 1) r with
                    | Some (l, r) => Some (JArr l, r) | None => None end
              | EmptyString => None
              end
          else if b =? 34 then
            match parse_string fuel r with
            | Some (t, r') => Some (JStr (str_take (String.length r - String.length r' - 1) r) t, r')
            | None => None
            end
          else match strip_prefix "null" (String c r), strip_prefix "true" (String c r),
                     strip_prefix "false" (String c r) with
            | Some r, _, _ => Some (JNull, r)
            | _, Some r, _ => Some (JBool true, r)
            | _, _, Some r => Some (JBool false, r)
            | _, _, _ => match parse_number (String c r) with Some (t, r) => Some (JNum t, r) | None => None end
            end
      end
  end
with parse_members (fuel : nat) (depth : Z) (s : string) {struct fuel} : option (list (string * json) * string) :=
  match fuel with
  | O => None
  | S fuel =>
      match skip_ws s with
      | String c r =>
          if byte_val c =? 34 then
            match parse_string fuel r with
            | None => None
            | Some (k, r) =>
                match skip_ws r with
                | String c r =>
                    if byte_val c =? 58 then
                      match parse_value fuel depth r with
                      | None => None
                      | Some (v, r) =>
                          match skip_ws r with
                          | String c r =>
                              if byte_val c =? 125 then Some ([(k, v)], r)
                              else if byte_val c =? 44 then
                                match parse_members fuel depth r with
                                | Some (l, r) => Some ((k, v) :: l, r) | None => None end
                              else None
                          | EmptyString => None
                          end
                      end
                    else None
                | EmptyString => None
                end
            end
          else None
      | EmptyString => None
      end
  end
with parse_elements (fuel : nat) (depth : Z) (s : string) {struct fuel} : option (list json * string) :=
  match fuel with
  | O => None
  | S fuel =>
      match parse_value fuel depth s with
      | None => None
      | Some (v, r) =>
          match skip_ws r with
          | String c r =>
              if byte_val c =? 93 then Some ([v], r)
              else if byte_val c =? 44 then
                match parse_elements fuel depth r with Some (l, r) => Some (v :: l, r) | None => None end
              else None
          | EmptyString => None
          end
      end
  end.

(** The document read by [Decoder.Decode]: the first value; what follows it is not read. *)
Definition decode_first (s : string) : option json :=
  match parse_value (2 * String.length s + 2) 0 s with Some (v, _) => Some v | None => None end.
(** The document read by [json.Unmarshal]: nothing but white space follows. *)
Definition parse_document (s : string) : option json :=
  match parse_value (2 * String.length s + 2) 0 s with
  | Some (v, r) => match skip_ws r with EmptyString => Some v | _ => None end
  | None => None
  end.

(** ** Assigning members to fields *)

(** Keys match the names of the fields, which are ASCII, up to simple case folding: besides
    the two cases of a letter, the Kelvin sign folds to K and the long s to S. *)
Definition fold_rune (r : Z) : Z :=
  if between 97 122 r then r - 32 else if r =? 8490 then 75 else if r =? 383 then 83 else r.
Definition fold_name (s : string) : list Z := map fold_rune (runes s).
Definition name_matches (name key : string) : bool := bool_decide (fold_name name = fold_name key).

(** The field a member is assigned to: the one of its very name, or else the first whose
    name folds to the same runes. *)
Definition field_of (names : list string) (key : string) : option string :=
  match List.find (String.eqb key) names with
  | Some n => Some n
  | None => List.find (λ n, name_matches n key) names
  end.

(** A value assigned to a string or an integer field: null leaves the field alone. *)
Definition assign_string (v : json) (old : string) : option string :=
  match v with JNull => Some old | JStr _ s => Some s | _ => None end.
Definition assign_int64 (v : json) (old : Z) : option Z :=
  match v with JNull => Some old | JNum lit => parse_int lit | _ => None end.

(** [Unmarshal] into a struct: [assign name v st] is the assignment to one field, [None] a
    mismatch of types; [strict] is DisallowUnknownFields. The first error is the error of the
    whole, whatever is assigned after it. *)
Definition assign_members {A} (names : list string) (assign : string → json → A → option A) (strict : bool) :
    list (string * json) → A → option A :=
  fix go l st :=
    match l with
    | [] => Some st
    | (k, v) :: l =>
        match field_of names k with
        | Some n => match assign n v st with Some st => go l st | None => None end
        | None => if strict then None else go l st
        end
    end.

Definition into_struct {A} (names : list string) (assign : string → json → A → option A) (strict : bool)
    (v : json) (st : A) : option A :=
  match v with JObj l => assign_members names assign strict l st | JNull => Some st | _ => None end.


(** ** The parser consumes its input, and the fuel of [decode_first] is enough *)

Local Notation len := String.length.

Ltac inv_opt :=
  repeat match goal with
  | H : None = Some _ |- _ => discriminate H
  | H : Some _ = Some _ |- _ => injection H as H; subst
  | H : (_, _) = (_, _) |- _ => injection H as H; subst
  | H : context [match ?x with _ => _ end] |- _ => destruct x eqn:?
  end.

Lemma hex4_shorter s v rest : hex4 s = Some (v, rest) → (len rest < len s)%nat.
Proof. unfold hex4. intros Hs. inv_opt. simpl. lia. Qed.

Lemma string_rune_shorter s v rest : string_rune s = Some (v, rest) → (len rest < len s)%nat.
Proof.
  unfold string_rune, unicode_escape. destruct s as [|c s]; [done|]. cbn [len].
  destruct (byte_val c =? 92).
  - destruct s as [|e s]; [done|]. destruct (byte_val e =? 117).
    + intros Hs. inv_opt; repeat match goal with H : hex4 _ = Some _ |- _ => apply hex4_shorter in H end;
        simpl in *; lia.
    + intros Hs. inv_opt. simpl. lia.
  - destruct (byte_val c <? 32); [done|]. intros [= Hs]. apply decode_rune_shorter in Hs. lia.
Qed.

Lemma parse_string_shorter fuel s t r : parse_string fuel s = Some (t, r) → (len r < len s)%nat.
Proof.
  revert s t r. induction fuel as [|fuel IH]; intros s t r; [done|]. cbn [parse_string].
  destruct s as [|c s]; [done|]. destruct (byte_val c =? 34); [intros [= _ <-]; simpl; lia|].
  destruct (string_rune (String c s)) as [[v rest]|] eqn:Er; [|done].
  destruct (parse_string fuel rest) as [[t' r']|] eqn:Ep; [|done]. intros [= _ <-].
  apply IH in Ep. apply string_rune_shorter in Er. lia.
Qed.

Lemma parse_string_fuel f1 f2 s : (len s < f1)%nat → (len s < f2)%nat → parse_string f1 s = parse_string f2 s.
Proof.
  revert f2 s. induction f1 as [|f1 IH]; intros [|f2] s H1 H2; try lia. cbn [parse_string].
  destruct s as [|c s]; [done|]. destruct (byte_val c =? 34); [done|].
  destruct (string_rune (String c s)) as [[v rest]|] eqn:Er; [|done].
  apply string_rune_shorter in Er. by rewrite (IH f2) by lia.
Qed.

Lemma skip_ws_shorter s : (len (skip_ws s) <= len s)%nat.
Proof.
  unfold skip_ws. destruct (drop_while_suffix is_ws s) as (t&_&E). rewrite E at 2. rewrite slength_app. lia.
Qed.

Lemma take_digits_shorter s d r : take_digits s = (d, r) → (len d + len r = len s)%nat.
Proof.
  revert d r. induction s as [|c s IH]; intros d r; cbn [take_digits]; [by intros [= <- <-]|].
  destruct (is_digit c); [|by intros [= <- <-]]. destruct (take_digits s) as [d' r']. intros [= <- <-].
  simpl. rewrite (IH d' r') by done. done.
Qed.

Lemma number_int_shorter s i r : number_int s = Some (i, r) → (len r < len s)%nat.
Proof.
  destruct s as [|c s]; [done|]. cbn [number_int]. destruct (byte_val c =? 48); [intros [= _ <-]; simpl; lia|].
  destruct (is_digit c) eqn:Ec; [|done]. cbn [take_digits]. rewrite Ec.
  destruct (take_digits s) as [d' r'] eqn:Ed. intros [= <- <-]. apply take_digits_shorter in Ed. simpl. lia.
Qed.

Lemma number_frac_shorter s f r : number_frac s = Some (f, r) → (len r <= len s)%nat.
Proof.
  unfold number_frac. intros Hs. inv_opt; try lia;
    match goal with H : take_digits _ = _ |- _ => apply take_digits_shorter in H end; simpl in *; lia.
Qed.

Lemma number_exp_shorter s e r : number_exp s = Some (e, r) → (len r <= len s)%nat.
Proof.
  unfold number_exp. intros Hs. inv_opt; try lia;
    match goal with H : take_digits _ = _ |- _ => apply take_digits_shorter in H end; simpl in *; lia.
Qed.

Lemma parse_number_shorter s t r : parse_number s = Some (t, r) → (len r < len s)%nat.
Proof.
  unfold parse_number. destruct (match s with String "-" t => _ | _ => _ end) as [sign s'] eqn:Es.
  assert (len s' <= len s)%nat by (inv_opt; simpl; lia).
  destruct (number_int s') as [[i s1]|] eqn:Ei; [|done].
  destruct (number_frac s1) as [[f s2]|] eqn:Ef; [|done].
  destruct (number_exp s2) as [[e s3]|] eqn:Ee; [|done]. intros [= _ <-].
  apply number_int_shorter in Ei. apply number_frac_shorter in Ef. apply number_exp_shorter in Ee. lia.
Qed.

(** The cases of a value, once its first byte is known: the parser reads a container, a
    string, a word or a number. *)
Definition parse_word (s : string) : option (json * string) :=
  match strip_prefix "null" s, strip_prefix "true" s, strip_prefix "false" s with
  | Some r, _, _ => Some (JNull, r)
  | _, Some r, _ => Some (JBool true, r)
  | _, _, Some r => Some (JBool false, r)
  | _, _, _ => match parse_number s with Some (t, r) => Some (JNum t, r) | None => None end
  end.

Lemma parse_word_shorter s v r : parse_word s = Some (v, r) → (len r < len s)%nat.
Proof.
  unfold parse_word. intros Hs.
  repeat match goal with
  | H : match strip_prefix ?p ?s with _ => _ end = _ |- _ =>
      let E := fresh in destruct (strip_prefix p s) eqn:E; [apply strip_prefix_Some in E; subst|]
  end; try (injection Hs as <- <-; rewrite slength_app; simpl; lia).
  destruct (parse_number s) as [[t r']|] eqn:En; [|done]. injection Hs as <- <-.
  by eapply parse_number_shorter.
Qed.

Lemma parse_shorter fuel :
  (∀ d s v r, parse_value fuel d s = Some (v, r) → (len r < len s)%nat) ∧
  (∀ d s v r, parse_members fuel d s = Some (v, r) → (len r < len s)%nat) ∧
  (∀ d s v r, parse_elements fuel d s = Some (v, r) → (len r < len s)%nat).
Proof.
  induction fuel as [|fuel (IHv&IHm&IHe)]; [done|]. split_and!; intros d s v r.
  - cbn [parse_value]. pose proof (skip_ws_shorter s). destruct (skip_ws s) as [|c s']; [done|].
    fold (parse_word (String c s')). intros Hs. simpl in *. inv_opt;
      repeat match goal with
      | H : parse_members _ _ _ = Some _ |- _ => apply IHm in H
      | H : parse_elements _ _ _ = Some _ |- _ => apply IHe in H
      | H : parse_string _ _ = Some _ |- _ => apply parse_string_shorter in H
      | H : parse_word _ = Some _ |- _ => apply parse_word_shorter in H
      | H : skip_ws ?r = String _ _ |- _ => pose proof (skip_ws_shorter r); rewrite H in *; clear H
      end; simpl in *; lia.
  - cbn [parse_members]. pose proof (skip_ws_shorter s). intros Hs. inv_opt;
      repeat match goal with
      | H : parse_members _ _ _ = Some _ |- _ => apply IHm in H
      | H : parse_value _ _ _ = Some _ |- _ => apply IHv in H
      | H : parse_string _ _ = Some _ |- _ => apply parse_string_shorter in H
      | H : skip_ws ?r = String _ _ |- _ => pose proof (skip_ws_shorter r); rewrite H in *; clear H
      end; simpl in *; lia.
  - cbn [parse_elements]. intros Hs. inv_opt;
      repeat match goal with
      | H : parse_elements _ _ _ = Some _ |- _ => apply IHe in H
      | H : parse_value _ _ _ = Some _ |- _ => apply IHv in H
      | H : skip_ws ?r = String _ _ |- _ => pose proof (skip_ws_shorter r); rewrite H in *; clear H
      end; simpl in *; lia.
Qed.

(** Fuel beyond twice the length of the text changes nothing: the parser terminates. *)
Lemma parse_fuel f1 :
  (∀ f2 d s, (2 * len s + 2 <= f1)%nat → (2 * len s + 2 <= f2)%nat → parse_value f1 d s = parse_value f2 d s) ∧
  (∀ f2 d s, (2 * len s + 2 <= f1)%nat → (2 * len s + 2 <= f2)%nat → parse_members f1 d s = parse_members f2 d s) ∧
  (∀ f2 d s, (2 * len s + 3 <= f1)%nat → (2 * len s + 3 <= f2)%nat → parse_elements f1 d s = parse_elements f2 d s).
Proof.
  induction f1 as [|f1 (IHv&IHm&IHe)]; [split_and!; lia|]. split_and!; intros [|f2] d s H1 H2; try lia.
  - cbn [parse_value]. pose proof (skip_ws_shorter s). destruct (skip_ws s) as [|c s']; [done|]. simpl in *.
    rewrite (IHm f2), (IHe f2), (parse_string_fuel f1 f2) by lia. done.
  - cbn [parse_members]. pose proof (skip_ws_shorter s). destruct (skip_ws s) as [|c s']; [done|]. simpl in *.
    destruct (byte_val c =? 34); [|done]. rewrite (parse_string_fuel f1 f2) by lia.
    destruct (parse_string f2 s') as [[k r]|] eqn:Ek; [|done]. apply parse_string_shorter in Ek.
    pose proof (skip_ws_shorter r). destruct (skip_ws r) as [|c1 r1]; [done|]. simpl in *.
    destruct (byte_val c1 =? 58); [|done]. rewrite (IHv f2) by lia.
    destruct (parse_value f2 d r1) as [[v r2]|] eqn:Ev; [|done]. apply parse_shorter in Ev.
    pose proof (skip_ws_shorter r2). destruct (skip_ws r2) as [|c3 r3]; [done|]. simpl in *.
    by rewrite (IHm f2) by lia.
  - cbn [parse_elements]. rewrite (IHv f2) by lia.
    destruct (parse_value f2 d s) as [[v r2]|] eqn:Ev; [|done]. apply parse_shorter in Ev.
    pose proof (skip_ws_shorter r2). destruct (skip_ws r2) as [|c3 r3]; [done|]. simpl in *.
    by rewrite (IHe f2) by lia.
Qed.

(** ** Round trip *)

(** What a string becomes on the wire and back: invalid bytes are U+FFFD. *)
Definition to_valid_utf8 (s : string) : string := string_of_runes (runes s).

(** [e] spells one rune [v] of a string literal. *)
Definition spells (e : string) (v : Z) : Prop :=
  (∃ c t, e = String c t ∧ byte_val c ≠ 34) ∧ ∀ x, string_rune (e +:+ x) = Some (v, x).

Lemma escape_ascii_spells html c : byte_val c < 128 → spells (escape_ascii html c) (byte_val c).
Proof.
  intros Hc. split.
  - unfold escape_ascii, u_escape. repeat case_match; eexists _, _; (split; [done|]); bool_to_prop; try done.
  - intros x. all_bytes c; first [exfalso; clear -Hc; by vm_compute in Hc | destruct html; reflexivity].
Qed.

Lemma u_escape_spells r : r = RuneError ∨ r = 8232 ∨ r = 8233 → spells (u_escape r) r.
Proof.
  intros Hr. split; [unfold u_escape; eexists _, _; split; [done|by vm_compute]|].
  intros x. destruct_or! Hr; subst; reflexivity.
Qed.

Lemma str_take_app s t : str_take (len s) (s +:+ t) = s.
Proof. induction s as [|c s IH]; [by destruct t|]. rewrite sapp_cons. cbn [String.length str_take]. by rewrite IH. Qed.

Lemma escape_rune_spells c tail r rest : 128 <= byte_val c → decode_rune (byte_val c) tail = (r, rest) →
  spells (escape_rune r (String c tail) tail rest) r.
Proof.
  intros Hc Hd. unfold escape_rune.
  destruct (decide (rest = tail)) as [->|Hne].
  - apply decode_rune_invalid in Hd as ->; [|done].
    rewrite Z.eqb_refl, Nat.eqb_refl. apply u_escape_spells. by left.
  - destruct (decode_rune_extend _ _ _ _ Hd Hc Hne) as (t&->&_&Hx).
    assert (t ≠ "") by (intros ->; done).
    rewrite (proj2 (Nat.eqb_neq (len rest) _)), andb_false_r
      by (rewrite slength_app; destruct t; [done|simpl; lia]).
    destruct ((r =? 8232) || (r =? 8233)) eqn:Er; [apply u_escape_spells; bool_to_prop; lia|].
    replace (len (String c (t +:+ rest)) - len rest)%nat with (len (String c t))
      by (simpl; rewrite slength_app; lia).
    rewrite <-(sapp_cons c t rest). rewrite str_take_app.
    split; [eexists _, _; split; [done|lia]|]. intros x. rewrite sapp_cons. unfold string_rune.
    rewrite (proj2 (Z.eqb_neq _ 92)), (proj2 (Z.ltb_ge _ 32)) by lia. by rewrite Hx.
Qed.

Lemma parse_string_spelled fuel e v x : spells e v →
  parse_string (S fuel) (e +:+ x) =
  match parse_string fuel x with Some (t, r) => Some (encode_rune v +:+ t, r) | None => None end.
Proof.
  intros [(c&t&->&Hc) Hs]. specialize (Hs x). rewrite sapp_cons in *. cbn [parse_string].
  rewrite (proj2 (Z.eqb_neq _ _)) by done. by rewrite Hs.
Qed.

Lemma parse_quote_body html n s x : (len s <= n)%nat → ∀ fuel,
  (len (quote_body html n s +:+ String quote_char x) < fuel)%nat →
  parse_string fuel (quote_body html n s +:+ String quote_char x) = Some (string_of_runes (runes_fuel n s), x).
Proof.
  revert s. induction n as [|n IH]; intros s Hn fuel Hf.
  { destruct s; [|simpl in Hn; lia]. destruct fuel; [simpl in Hf; lia|]. done. }
  destruct s as [|c tail]; [destruct fuel; [simpl in Hf; lia|done]|].
  cbn [quote_body runes_fuel] in *. simpl in Hn.
  destruct (decode_rune (byte_val c) tail) as [r rest] eqn:Hd.
  assert (∃ e, spells e r ∧ (if byte_val c <? 128 then escape_ascii html c +:+ quote_body html n tail
    else escape_rune r (String c tail) tail rest +:+ quote_body html n rest) = e +:+ quote_body html n rest)
    as (e&He&E).
  { destruct (Z.ltb_spec (byte_val c) 128) as [Hlt|Hge].
    - unfold decode_rune in Hd. rewrite (proj2 (Z.ltb_lt _ _)) in Hd by lia. injection Hd as <- <-.
      eexists. split; [by apply escape_ascii_spells|done].
    - eexists. split; [by apply escape_rune_spells|done]. }
  rewrite E in *. clear E. apply decode_rune_shorter in Hd. rewrite <-sapp_assoc in *.
  destruct He as [(c0&t0&->&Hc0) Hr] eqn:He'. destruct fuel as [|fuel]; [lia|].
  rewrite (parse_string_spelled _ _ r) by (by split; [eauto|]).
  rewrite slength_app in Hf. simpl in Hf. by rewrite IH by lia.
Qed.

Lemma parse_quote html s x fuel : (len (quote html s +:+ x) <= fuel)%nat →
  ∃ r, quote html s +:+ x = String quote_char r ∧ parse_string fuel r = Some (to_valid_utf8 s, x) ∧
    str_take (len r - len x - 1) r = quote_body html (len s) s.
Proof.
  unfold quote. rewrite sapp_cons, <-sapp_assoc. intros Hf. eexists. split; [done|].
  rewrite sapp_cons. split; [apply parse_quote_body; [done|]; simpl in Hf; done|].
  replace (len _ - len x - 1)%nat with (len (quote_body html (len s) s)); [apply str_take_app|].
  rewrite slength_app. change (len (String quote_char ("" +:+ x))) with (S (len x)). lia.
Qed.

(** Where a number may stop. *)
Definition stops (x : string) : bool :=
  match x with
  | EmptyString => true
  | String c _ => let b := byte_val c in (b =? 44) || (b =? 125) || (b =? 93)
  end.

Definition no_digit (x : string) : bool := match x with String c _ => negb (is_digit c) | EmptyString => true end.

Lemma stops_no_digit x : stops x = true → no_digit x = true.
Proof.
  destruct x as [|c x]; [done|]. unfold stops, no_digit, is_digit. intros Hx.
  apply negb_true_iff, not_true_is_false. intros Hc. bool_to_prop. lia.
Qed.

Lemma take_digits_app d x : str_all is_digit d = true → no_digit x = true → take_digits (d +:+ x) = (d, x).
Proof.
  intros Hd Hx. induction d as [|c d IH].
  - destruct x as [|c x]; [done|]. change (take_digits (String c x) = ("", String c x)). cbn [take_digits].
    unfold no_digit in Hx. apply negb_true_iff in Hx. by rewrite Hx.
  - cbn [str_all] in Hd. apply andb_prop in Hd as [Hc Hd]. rewrite sapp_cons. cbn [take_digits].
    by rewrite Hc, IH.
Qed.

Lemma pretty_go_head x s : (0 < x)%N → ∃ c t, pretty_N_go x s = String c t ∧ byte_val c ≠ 48.
Proof.
  revert s. induction (N.lt_wf_0 x) as [x _ IH]; intros s Hx.
  rewrite pretty_N_go_step by lia. destruct (decide (x < 10)%N) as [Hlt|Hge].
  - rewrite N.div_small, N.mod_small by done. exists (pretty_N_char x), s. split; [done|].
    destruct (pretty_char_digit x Hlt) as [_ ->]. lia.
  - apply IH; [by apply N.div_lt; lia|]. apply N.div_str_pos. lia.
Qed.

Lemma itoa_head z : 0 < z → ∃ c t, itoa z = String c t ∧ byte_val c ≠ 48.
Proof.
  intros Hz. destruct z as [|p|p]; [lia| |lia]. unfold itoa, pretty, pretty_Z, pretty, pretty_positive, pretty, pretty_N.
  rewrite decide_False by done. by apply pretty_go_head.
Qed.

Lemma stops_end x : stops x = true → number_frac x = Some ("", x) ∧ number_exp x = Some ("", x).
Proof.
  destruct x as [|c x]; [done|]. unfold stops. intros Hx.
  assert (c = ","%char ∨ c = "}"%char ∨ c = "]"%char) as [-> |[-> | ->]]; [|done..].
  apply orb_prop in Hx as [[Hx|Hx]%orb_prop|Hx]; apply Z.eqb_eq in Hx; [left|right; left|right; right]; by apply byte_val_inj.
Qed.

Lemma number_int_itoa z x : 0 <= z → stops x = true → number_int (itoa z +:+ x) = Some (itoa z, x).
Proof.
  intros Hz Hx. destruct (decide (z = 0)) as [->|Hne]; [done|].
  destruct (itoa_head z) as (c&t&E&Hc); [lia|]. destruct (itoa_nonneg z Hz) as (Hd&_&_).
  pose proof (take_digits_app _ x Hd (stops_no_digit _ Hx)) as Ht. rewrite E in *. rewrite sapp_cons in *. cbn [number_int].
  cbn [str_all] in Hd. apply andb_prop in Hd as [Hc' _].
  rewrite (proj2 (Z.eqb_neq _ _)), Hc' by done. by rewrite Ht.
Qed.

Lemma itoa_first z : ∃ c t, itoa z = String c t ∧ (c = "-"%char ∨ is_digit c = true).
Proof.
  destruct (Z.lt_ge_cases z 0) as [Hz|Hz].
  - rewrite itoa_neg by done. eauto.
  - destruct (itoa_nonneg z Hz) as (Hd&Hne&_). destruct (itoa z) as [|c t]; [done|].
    cbn [str_all] in Hd. apply andb_prop in Hd as [Hc _]. eauto.
Qed.

Lemma parse_number_itoa z x : stops x = true → parse_number (itoa z +:+ x) = Some (itoa z, x).
Proof.
  intros Hx. destruct (stops_end _ Hx) as [Hf He].
  assert (∀ n, 0 <= n → parse_number (itoa n +:+ x) = Some (itoa n, x)) as Hpos.
  { intros n Hn. unfold parse_number.
    assert (match itoa n +:+ x with String "-" t => ("-", t) | _ => ("", itoa n +:+ x) end = ("", itoa n +:+ x)) as ->.
    { destruct (itoa_nonneg n Hn) as (Hd&Hne&_). destruct (itoa n) as [|c t]; [done|]. rewrite sapp_cons.
      cbn [str_all] in Hd. apply andb_prop in Hd as [Hc _]. all_bytes c; first [discriminate Hc|done]. }
    rewrite number_int_itoa, Hf, He by done. by rewrite !sapp_nil_r. }
  destruct (Z.lt_ge_cases z 0) as [Hz|Hz]; [|by apply Hpos].
  rewrite itoa_neg, sapp_cons by done. unfold parse_number.
  rewrite number_int_itoa, Hf, He by (done || lia). by rewrite !sapp_nil_r.
Qed.

Definition scalar_json (html : bool) (v : scalar) : json :=
  match v with VStr s => JStr (quote_body html (len s) s) (to_valid_utf8 s) | VInt z => JNum (itoa z) end.

Lemma skip_ws_stop c r : is_ws c = false → skip_ws (String c r) = String c r.
Proof. intros Hc. unfold skip_ws. cbn [drop_while]. by rewrite Hc. Qed.

Lemma parse_scalar html v x fuel d : stops x = true → (len (encode_scalar html v +:+ x) < fuel)%nat →
  parse_value fuel d (encode_scalar html v +:+ x) = Some (scalar_json html v, x).
Proof.
  intros Hx Hf. destruct fuel as [|fuel]; [lia|]. destruct v as [s|z]; cbn [encode_scalar scalar_json] in *.
  - destruct (parse_quote html s x fuel) as (r&E&Hp&Hr); [lia|]. rewrite E. cbn [parse_value].
    rewrite skip_ws_stop by done. change (byte_val quote_char =? 123) with false.
    change (byte_val quote_char =? 91) with false. change (byte_val quote_char =? 34) with true. cbv iota.
    by rewrite Hp, Hr.
  - pose proof (parse_number_itoa z x Hx) as Hn.
    destruct (itoa_first z) as (c&t&E&Hc). rewrite E in *. rewrite sapp_cons in *. cbn [parse_value].
    assert (is_ws c = false ∧ (byte_val c =? 123) = false ∧ (byte_val c =? 91) = false ∧ (byte_val c =? 34) = false ∧
      strip_prefix "null" (String c (t +:+ x)) = None ∧ strip_prefix "true" (String c (t +:+ x)) = None ∧
      strip_prefix "false" (String c (t +:+ x)) = None) as (Hw&H1&H2&H3&H4&H5&H6).
    { destruct Hc as [->|Hc]; [done|]. all_bytes c; first [discriminate Hc|done]. }
    rewrite skip_ws_stop by done. rewrite H1, H2, H3, H4, H5, H6. by rewrite Hn.
Qed.

(** The name of a field, written as it is. *)
Definition plain_byte (c : ascii) : bool :=
  let b := byte_val c in (32 <=? b) && (b <? 128) && negb (b =? 34) && negb (b =? 92).

Lemma plain_spells c : plain_byte c = true → spells (String c "") (byte_val c) ∧ encode_rune (byte_val c) = String c "".
Proof.
  intros Hc. split; [split|].
  - exists c, "". split; [done|]. unfold plain_byte in Hc. bool_to_prop. lia.
  - intros x. all_bytes c; first [discriminate Hc|done].
  - all_bytes c; first [discriminate Hc|done].
Qed.

Lemma parse_plain k x fuel : str_all plain_byte k = true → (len k < fuel)%nat →
  parse_string fuel (k +:+ String quote_char x) = Some (k, x).
Proof.
  revert fuel. induction k as [|c k IH]; intros [|fuel] Hk Hf; try (simpl in Hf; lia); [done|].
  cbn [str_all] in Hk. apply andb_prop in Hk as [Hc Hk]. apply plain_spells in Hc as [Hs He].
  rewrite sapp_cons. change (String c (k +:+ String quote_char x)) with (String c "" +:+ (k +:+ String quote_char x)).
  rewrite (parse_string_spelled _ _ _ _ Hs), IH, He by (done || (simpl in Hf; lia)). done.
Qed.

Definition member_json (html : bool) (kv : string * scalar) : string * json := (kv.1, scalar_json html kv.2).

Lemma parse_encoded_members html l x d : l ≠ [] → Forall (λ kv, str_all plain_byte kv.1 = true) l →
  ∀ fuel, (len (join "," (map (encode_member html) l) +:+ String "}" x) < fuel)%nat →
  parse_members fuel d (join "," (map (encode_member html) l) +:+ String "}" x) = Some (map (member_json html) l, x).
Proof.
  intros Hne Hl. induction Hl as [|[k v] l Hk Hl IH]; [done|]. clear Hne. intros fuel Hf.
  destruct fuel as [|fuel]; [lia|]. cbn [fst] in Hk.
  set (tail := match l with [] => String "}" x | _ => String "," (join "," (map (encode_member html) l) +:+ String "}" x) end).
  assert (join "," (map (encode_member html) ((k, v) :: l)) +:+ String "}" x =
    String quote_char (k +:+ String quote_char (String ":" (encode_scalar html v +:+ tail)))) as E.
  { cbn [map]. unfold encode_member at 1. cbn [fst snd]. unfold tail.
    destruct l as [|kv l]; cbn [map join]; rewrite ?sapp_cons, <-?sapp_assoc, ?sapp_cons, <-?sapp_assoc; done. }
  rewrite E in *. clear E. simpl in Hf. rewrite slength_app in Hf. simpl in Hf.
  cbn [parse_members]. rewrite skip_ws_stop by done. change (byte_val quote_char =? 34) with true. cbv iota.
  rewrite parse_plain by (done || lia). rewrite skip_ws_stop by done. change (byte_val ":" =? 58) with true. cbv iota.
  assert (stops tail = true) by (unfold tail; by destruct l).
  rewrite parse_scalar by (done || lia).
  unfold tail in *. destruct l as [|kv l].
  - rewrite skip_ws_stop by done. done.
  - rewrite skip_ws_stop by done. change (byte_val "," =? 125) with false. change (byte_val "," =? 44) with true. cbv iota.
    rewrite IH; [done|done|]. rewrite slength_app in Hf. simpl in Hf. simpl. lia.
Qed.

(** A struct of strings and integers comes back as its members, in order, its strings
    with the invalid bytes replaced. *)
Lemma parse_encode_struct html l : l ≠ [] → Forall (λ kv, str_all plain_byte kv.1 = true) l →
  parse_document (encode_struct html l) = Some (JObj (map (member_json html) l)).
Proof.
  intros Hne Hl. unfold parse_document. set (f := (2 * len (encode_struct html l) + 2)%nat).
  assert (len (encode_struct html l) < f)%nat as Hf by (unfold f; lia). clearbody f.
  unfold encode_struct in *. destruct f as [|f]; [lia|]. cbn [parse_value].
  rewrite skip_ws_stop by done. change (byte_val "{" =? 123) with true. change (maxNestingDepth <=? 0) with false. cbv iota.
  destruct l as [|[k v] l]; [done|]. simpl in Hf.
  assert (∃ r, join "," (map (encode_member html) ((k, v) :: l)) +:+ "}" = String quote_char r) as [r Er].
  { cbn [map]. destruct l; cbn [map join]; eexists; unfold encode_member; rewrite ?sapp_cons; reflexivity. }
  rewrite Er. rewrite skip_ws_stop by done. change (byte_val quote_char =? 125) with false. cbv iota. rewrite <-Er.
  rewrite parse_encoded_members; [done|done|done|]. simpl. lia.
Qed.

(** Text of ASCII bytes is valid. *)
Lemma ascii_valid s : str_all (λ c, byte_val c <? 128) s = true → to_valid_utf8 s = s.
Proof.
  unfold to_valid_utf8, runes. induction s as [|c s IH]; [done|]. cbn [str_all runes_fuel len].
  intros [Hc Hs]%andb_prop. unfold decode_rune at 1. rewrite Hc. cbn [string_of_runes foldr].
  change (foldr _ _ ?l) with (string_of_runes l). rewrite IH by done.
  assert (encode_rune (byte_val c) = String c "") as ->; [|done]. all_bytes c; first [discriminate Hc|done].
Qed.

Lemma decode_first_document s v : parse_document s = Some v → decode_first s = Some v.
Proof.
  unfold parse_document, decode_first. destruct (parse_value _ 0 s) as [[w r]|]; [|done].
  destruct (skip_ws r); [done|discriminate].
Qed.

(** Plain text is written as it is when HTML is not escaped. *)
Lemma quote_body_plain n s : str_all plain_byte s = true → (len s <= n)%nat → quote_body false n s = s.
Proof.
  revert n. induction s as [|c s IH]; intros [|n] Hs Hn; try (simpl in Hn; lia); try done.
  cbn [str_all quote_body] in *. apply andb_prop in Hs as [Hc Hs].
  assert (byte_val c <? 128 = true ∧ escape_ascii false c = String c "") as [-> ->]
    by (all_bytes c; first [discriminate Hc|done]).
  simpl in Hn. by rewrite IH by (done || lia).
Qed.

Lemma plain_valid s : str_all plain_byte s = true → to_valid_utf8 s = s.
Proof.
  intros Hs. apply ascii_valid. eapply str_all_impl; [|exact Hs]. intros c. unfold plain_byte. intros Hc. bool_to_prop. lia.
Qed.

(** Replacing invalid bytes keeps a text empty or not. *)
Lemma to_valid_nonempty s : s ≠ "" → to_valid_utf8 s ≠ "".
Proof.
  destruct s as [|c s]; [done|]. intros _. unfold to_valid_utf8, runes. cbn [len runes_fuel].
  destruct (decode_rune (byte_val c) s) as [r rest]. cbn [string_of_runes foldr].
  unfold encode_rune. repeat case_match; done.
Qed.
