(* ===== verification/Cluster.v ===== *)
(** The agent's readers over its informer caches
    (backend/internal/agent/cluster/events.go, hpa.go, policy.go, workloads.go, snapshot.go)
    with the types they fill (backend/internal/agent/k8s/k8s.go). The objects of the
    Kubernetes API are records of the fields the code reads; an element of a cache that is
    not of the expected type, or nil, is [None]. *)

From Stdlib Require Import Ascii.
From S2P Require Import Prelude GoNum GoStr Lines Utf8 GoTime Json.
Local Open Scope Z_scope.

(** A client-go indexer: all objects, and those of a namespace. *)
Record Indexer (A : Type) := mkIndexer {
  IList : list (option A); ByNamespace : string → result string (list (option A)) }.
Arguments mkIndexer {A}. Arguments IList {A}. Arguments ByNamespace {A}.

Definition objects {A} (items : list (option A)) : list A := omap id items.

Record WorkloadRef := mkRef { RClusterID : string; RNamespace : string; RKind : string; RName : string }.

(** [strings.EqualFold], exact when one side is ASCII, as the kinds of Kubernetes are. *)
Definition EqualFold (a b : string) : bool := bool_decide (fold_name a = fold_name b).

(** ** Events *)

Module Events.
Record object := mkObject {
  InvNamespace : string; InvKind : string; InvName : string;
  FirstTimestamp : Z; LastTimestamp : Z; EventTime : Z; CreationTimestamp : Z;
  OReason : string; OType : string; OCount : Z; OMessage : string }.

Record Event := mkEvent {
  Workload : WorkloadRef; Reason : string; Type_ : string; Count : Z;
  FirstSeen : Z; LastSeen : Z; Message : string }.

Record EventSummary := mkSummary {
  SNamespace : string; SPodName : string; SReason : string; SType : string; SCount : Z;
  SLastSeen : Z; SMessage : string }.

Definition last_seen (ev : object) : Z :=
  let last := LastTimestamp ev in
  let last := if time_IsZero last then EventTime ev else last in
  if time_IsZero last then CreationTimestamp ev else last.

Definition too_old (since : Z) (ev : object) : bool :=
  negb (time_IsZero since) && time_before (last_seen ev) since.

(** The text before the last dash, if there is some. *)
Definition strip_segment (s : string) : option string :=
  match cut_byte "-" (String.rev s) with
  | Some (_, before) => if String.eqb before "" then None else Some (String.rev before)
  | None => None
  end.

Fixpoint strip_rounds (n : nat) (stripped want : string) : bool :=
  match n with
  | O => false
  | S n =>
      match strip_segment stripped with
      | None => false
      | Some s => String.eqb s want || strip_rounds n s want
      end
  end.

Definition matchesWorkloadName (involved want : string) : bool :=
  String.eqb involved want || strip_rounds 2 involved want.

Definition concerns (w : WorkloadRef) (since : Z) (ev : object) : bool :=
  String.eqb (InvNamespace ev) (RNamespace w)
  && (String.eqb (RKind w) "" || EqualFold (InvKind ev) (RKind w))
  && (String.eqb (RName w) "" || matchesWorkloadName (InvName ev) (RName w))
  && negb (too_old since ev).

Definition event (w : WorkloadRef) (ev : object) : Event :=
  let last := last_seen ev in
  mkEvent w (OReason ev) (OType ev) (OCount ev)
    (if time_IsZero (FirstTimestamp ev) then last else FirstTimestamp ev) last (OMessage ev).

Definition Recent (idx : option (Indexer object)) (w : WorkloadRef) (since : Z) : list Event :=
  match idx with
  | None => []
  | Some idx => map (event w) (List.filter (concerns w since) (objects (IList idx)))
  end.

Definition summary (ev : object) : EventSummary :=
  mkSummary (InvNamespace ev) (InvName ev) (OReason ev) (OType ev) (OCount ev) (last_seen ev) (OMessage ev).

Fixpoint drain_loop (since limit : Z) (items : list object) (out : list EventSummary) : list EventSummary :=
  match items with
  | [] => out
  | ev :: items =>
      if too_old since ev then drain_loop since limit items out
      else
        let out := out ++ [summary ev] in
        if limit <=? Z.of_nat (length out) then out else drain_loop since limit items out
  end.

Definition DrainEvents (idx : option (Indexer object)) (since limit : Z) : list EventSummary :=
  match idx with
  | None => []
  | Some idx => drain_loop since (if limit <=? 0 then 100 else limit) (objects (IList idx)) []
  end.
End Events.

(** ** Horizontal autoscalers *)

Module Hpa.
(** A resource metric names its resource and may have a target in percent. *)
Record MetricSpec := mkMetric { MType : string; MResource : option (string * option Z) }.
Record object := mkObject {
  ONamespace : string; TargetKind : string; TargetName : string;
  SpecMinReplicas : option Z; SpecMaxReplicas : Z; StatusCurrentReplicas : Z;
  Metrics : list MetricSpec; Conditions : list (string * string) }.

Record HPAState := mkState {
  MinReplicas : Z; MaxReplicas : Z; CurrentReplicas : Z; TargetCPUUtil : Z; TargetMemoryUtil : Z;
  ConditionsHealthy : bool }.

Record HPASummary := mkSummary {
  SNamespace : string; SName : string; SMinReplicas : Z; SMaxReplicas : Z; SCurrentReplicas : Z }.

Definition intOrZero (p : option Z) : Z := default 0 p.

Fixpoint targetUtil (metrics : list MetricSpec) (kind name : string) : Z :=
  match metrics with
  | [] => 0
  | m :: ms =>
      match MResource m with
      | Some (n, Some util) =>
          if String.eqb (MType m) kind && String.eqb n name then util else targetUtil ms kind name
      | _ => targetUtil ms kind name
      end
  end.

Definition conditionsHealthy (conds : list (string * string)) : bool :=
  forallb (λ c, negb ((String.eqb c.1 "AbleToScale" || String.eqb c.1 "ScalingActive")
                      && negb (String.eqb c.2 "True"))) conds.

Definition state (hpa : object) : HPAState :=
  mkState (intOrZero (SpecMinReplicas hpa)) (SpecMaxReplicas hpa) (StatusCurrentReplicas hpa)
    (targetUtil (Metrics hpa) "Resource" "cpu") (targetUtil (Metrics hpa) "Resource" "memory")
    (conditionsHealthy (Conditions hpa)).

Definition targets (w : WorkloadRef) (hpa : object) : bool :=
  String.eqb (TargetKind hpa) (RKind w) && String.eqb (TargetName hpa) (RName w).

Definition Get (idx : option (Indexer object)) (w : WorkloadRef) : result string (option HPAState) :=
  match idx with
  | None => Ok None
  | Some idx =>
      let* items := ByNamespace idx (RNamespace w) in
      Ok (option_map state (List.find (targets w) (objects items)))
  end.

Definition ListHPAs (idx : option (Indexer object)) : list HPASummary :=
  match idx with
  | None => []
  | Some idx => map (λ hpa, mkSummary (ONamespace hpa) (TargetName hpa) (intOrZero (SpecMinReplicas hpa))
                                (SpecMaxReplicas hpa) (StatusCurrentReplicas hpa)) (objects (IList idx))
  end.
End Hpa.

(** ** Policies *)

Module Policies.
(** The two readings of a [resource.Quantity]; an absent one reads as zero. *)
Record Quantity := mkQuantity { MilliValue : Z; QValue : Z }.
Definition resources : Type := gmap string Quantity.
Definition resourceMillicores (m : resources) (name : string) : Z := default 0 (MilliValue <$> m !! name).
Definition resourceBytes (m : resources) (name : string) : Z := default 0 (QValue <$> m !! name).

Inductive IntOrString := IntVal (n : Z) | StrVal (s : string).
Record pdb_object := mkPdb {
  PdbNamespace : string; Selector : option (gmap string string);
  SpecMinAvailable : option IntOrString; SpecMaxUnavailable : option IntOrString; CurrentHealthy : Z }.
Record quota_object := mkQuotaObject { QuotaNamespace : string; Hard : resources; Used : resources }.
Record limit_item := mkItem { LType : string; Max : resources; Min : resources }.
Record limit_object := mkLimitObject { LimitNamespace : string; Limits : list limit_item }.

Record PDB := mkPDB { MinAvailable : Z; MaxUnavailable : Z; CurrentReplicas : Z }.
Record ResourceQuota := mkQuota { CPUMillicores : Z; MemoryBytes : Z; UsedCPUMilli : Z; UsedMemoryB : Z }.
Record LimitRange := mkLimit {
  MaxCPUMillicores : Z; MaxMemoryBytes : Z; MinCPUMillicores : Z; MinMemoryBytes : Z }.
Record PolicySnapshot := mkSnapshot {
  SPDB : option PDB; SQuota : option ResourceQuota; SLimitRange : option LimitRange }.
Record PolicySummary := mkSummary { SumNamespace : string; HasPDB : bool; HasQuota : bool; HasLimitRng : bool }.

Record PolicyR := mkPolicyR {
  pdbIdx : option (Indexer pdb_object); quotaIdx : option (Indexer quota_object);
  limitIdx : option (Indexer limit_object) }.

(** The label selectors of apimachinery. *)
Record Labels := mkLabels {
  selector : Type; Parse : string → option selector; Empty : selector → bool;
  Matches : selector → gmap string string → bool }.

Section Readers.
Context `{GoMapOrder} (L : Labels).

Definition formatSelector (m : gmap string string) : string :=
  foldl (λ out kv, (if String.eqb out "" then out else out +:+ ",") +:+ kv.1 +:+ "=" +:+ kv.2) "" (map_iter m).

Definition pdbSelectorAcceptsWorkload (pdb : pdb_object) (w : WorkloadRef) : bool :=
  match Selector pdb with
  | None => true
  | Some matchLabels =>
      match Parse L (formatSelector matchLabels) with
      | None => true
      | Some sel =>
          Empty L sel || Matches L sel (<["app" := RName w]> {["app.kubernetes.io/name" := RName w]})
      end
  end.

Definition int_value (v : option IntOrString) : Z := match v with Some (IntVal n) => n | _ => 0 end.

Definition firstPDBForWorkload (r : PolicyR) (w : WorkloadRef) : result string (option PDB) :=
  match pdbIdx r with
  | None => Ok None
  | Some idx =>
      let* items := ByNamespace idx (RNamespace w) in
      Ok (option_map (λ pdb, mkPDB (int_value (SpecMinAvailable pdb)) (int_value (SpecMaxUnavailable pdb))
                               (CurrentHealthy pdb))
            (List.find (λ pdb, pdbSelectorAcceptsWorkload pdb w) (objects items)))
  end.

Definition add_quota (agg : ResourceQuota) (q : quota_object) : ResourceQuota :=
  mkQuota (i64_add (CPUMillicores agg) (resourceMillicores (Hard q) "limits.cpu"))
    (i64_add (MemoryBytes agg) (resourceBytes (Hard q) "limits.memory"))
    (i64_add (UsedCPUMilli agg) (resourceMillicores (Used q) "limits.cpu"))
    (i64_add (UsedMemoryB agg) (resourceBytes (Used q) "limits.memory")).

Definition namespaceQuota (r : PolicyR) (ns : string) : result string (option ResourceQuota) :=
  match quotaIdx r with
  | None => Ok None
  | Some idx =>
      let* items := ByNamespace idx ns in
      match items with
      | [] => Ok None
      | _ => Ok (Some (foldl add_quota (mkQuota 0 0 0 0) (objects items)))
      end
  end.

(** [found] is whether the accumulator is there. *)
Definition narrow (out : option LimitRange) (item : limit_item) : option LimitRange :=
  let cpuMax := resourceMillicores (Max item) "cpu" in let memMax := resourceBytes (Max item) "memory" in
  let cpuMin := resourceMillicores (Min item) "cpu" in let memMin := resourceBytes (Min item) "memory" in
  match out with
  | None => Some (mkLimit cpuMax memMax cpuMin memMin)
  | Some o =>
      Some (mkLimit
        (if (0 <? cpuMax) && (cpuMax <? MaxCPUMillicores o) then cpuMax else MaxCPUMillicores o)
        (if (0 <? memMax) && (memMax <? MaxMemoryBytes o) then memMax else MaxMemoryBytes o)
        (if MinCPUMillicores o <? cpuMin then cpuMin else MinCPUMillicores o)
        (if MinMemoryBytes o <? memMin then memMin else MinMemoryBytes o))
  end.

Definition container_items (l : list limit_object) : list limit_item :=
  List.filter (λ i, String.eqb (LType i) "Container") (l ≫= Limits).

Definition namespaceLimitRange (r : PolicyR) (ns : string) : result string (option LimitRange) :=
  match limitIdx r with
  | None => Ok None
  | Some idx =>
      let* items := ByNamespace idx ns in
      Ok (foldl narrow None (container_items (objects items)))
  end.

Definition Snapshot (r : PolicyR) (w : WorkloadRef) : result string PolicySnapshot :=
  let* pdb := firstPDBForWorkload r w in
  let* quota := namespaceQuota r (RNamespace w) in
  let* limit := namespaceLimitRange r (RNamespace w) in
  Ok (mkSnapshot pdb quota limit).

(** The digest per namespace; the rows come in the order of a map. *)
Definition mark (set_ : PolicySummary → PolicySummary) (m : gmap string PolicySummary) (ns : string) :
    gmap string PolicySummary :=
  <[ns := set_ (default (mkSummary ns false false false) (m !! ns))]> m.
Definition set_pdb (p : PolicySummary) := mkSummary (SumNamespace p) true (HasQuota p) (HasLimitRng p).
Definition set_quota (p : PolicySummary) := mkSummary (SumNamespace p) (HasPDB p) true (HasLimitRng p).
Definition set_limit (p : PolicySummary) := mkSummary (SumNamespace p) (HasPDB p) (HasQuota p) true.
Definition listed {A} (idx : option (Indexer A)) : list A :=
  match idx with None => [] | Some idx => objects (IList idx) end.

Definition ListPolicySummary (r : PolicyR) : list PolicySummary :=
  let m := foldl (mark set_pdb) ∅ (map PdbNamespace (listed (pdbIdx r))) in
  let m := foldl (mark set_quota) m (map QuotaNamespace (listed (quotaIdx r))) in
  let m := foldl (mark set_limit) m (map LimitNamespace (listed (limitIdx r))) in
  (map_iter m).*2.
End Readers.
End Policies.

(** ** Workloads *)

Module Workloads.
Record OwnerReference := mkOwner { Controller : option bool; OwnerKind : string; OwnerName : string }.
Record object := mkObject { Namespace : string; Name : string; OwnerReferences : list OwnerReference }.
Record WorkloadIndex := mkIndex {
  deployments : option (Indexer object); statefulSets : option (Indexer object);
  daemonSets : option (Indexer object); replicaSets : option (Indexer object);
  pods : option (Indexer object) }.

Record Ref := mkRef { RefNamespace : string; RefKind : string; RefName : string }.
#[global] Instance Ref_eq_dec : EqDecision Ref.
Proof. solve_decision. Defined.

Definition refs (kind : string) (idx : option (Indexer object)) : list Ref :=
  map (λ o, mkRef (Namespace o) kind (Name o)) (Policies.listed idx).

Definition ListWorkloads (idx : option WorkloadIndex) : list Ref :=
  match idx with
  | None => []
  | Some idx => refs "Deployment" (deployments idx) ++ refs "StatefulSet" (statefulSets idx)
                ++ refs "DaemonSet" (daemonSets idx)
  end.

Definition controls (o : OwnerReference) : bool := default false (Controller o).
Definition slash (a b : string) : string := a +:+ "/" +:+ b.

(** The deployment that controls a replica set, under the set's namespace and name. *)
Definition add_replicaset (m : gmap string string) (rs : object) : gmap string string :=
  match List.find (λ o, controls o && String.eqb (OwnerKind o) "Deployment") (OwnerReferences rs) with
  | Some owner => <[slash (Namespace rs) (Name rs) := OwnerName owner]> m
  | None => m
  end.

(** The workload behind the first controlling owner of a pod. *)
Definition pod_workload (rsByName : gmap string string) (pod : object) : option Ref :=
  match List.find controls (OwnerReferences pod) with
  | None => None
  | Some owner =>
      if str_mem (OwnerKind owner) ["StatefulSet"; "DaemonSet"]
      then Some (mkRef (Namespace pod) (OwnerKind owner) (OwnerName owner))
      else if String.eqb (OwnerKind owner) "ReplicaSet" then
        match rsByName !! slash (Namespace pod) (OwnerName owner) with
        | Some deploy => Some (mkRef (Namespace pod) "Deployment" deploy)
        | None => Some (mkRef (Namespace pod) "ReplicaSet" (OwnerName owner))
        end
      else None
  end.

Definition add_pod (rsByName : gmap string string) (out : gmap (string * string) Ref) (pod : object) :
    gmap (string * string) Ref :=
  match pod_workload rsByName pod with
  | Some w => <[(Namespace pod, Name pod) := w]> out
  | None => out
  end.

Definition PodOwners (idx : option WorkloadIndex) : gmap (string * string) Ref :=
  match idx with
  | None => ∅
  | Some idx =>
      match pods idx with
      | None => ∅
      | Some _ =>
          let rsByName := foldl add_replicaset ∅ (Policies.listed (replicaSets idx)) in
          foldl (add_pod rsByName) ∅ (Policies.listed (pods idx))
      end
  end.
End Workloads.

(** ** Facts: events *)

Import Events.

Lemma strip_segment_app want h : want ≠ "" → no_byte "-" h = true →
  strip_segment (want +:+ "-" +:+ h) = Some want.
Proof.
  intros Hw Hh. unfold strip_segment.
  replace (String.rev (want +:+ "-" +:+ h)) with (String.rev h +:+ String "-" (String.rev want)).
  - rewrite cut_byte_app by (unfold no_byte in *; by rewrite str_all_rev).
    destruct (String.eqb_spec (String.rev want) "") as [E|_]; [|by rewrite rev_involutive].
    apply (f_equal String.rev) in E. rewrite rev_involutive in E. done.
  - rewrite !rev_sapp, <-sapp_assoc. done.
Qed.

Lemma cut_byte_inv c s a b : cut_byte c s = Some (a, b) → s = a +:+ String c b ∧ no_byte c a = true.
Proof.
  revert a b. induction s as [|x s IH]; intros a b; simpl; [done|].
  destruct (Ascii.eqb_spec x c) as [->|Hx]; [by intros [= <- <-]|].
  destruct (cut_byte c s) as [[a' b']|]; [|done]. intros [= <- <-].
  destruct (IH a' b' eq_refl) as [-> Ha]. split; [done|].
  unfold no_byte in *. simpl. rewrite Ha. by destruct (Ascii.eqb_spec x c).
Qed.

Lemma strip_segment_Some s w : strip_segment s = Some w →
  w ≠ "" ∧ ∃ h, no_byte "-" h = true ∧ s = w +:+ "-" +:+ h.
Proof.
  unfold strip_segment. destruct (cut_byte _ _) as [[a b]|] eqn:E; [|done].
  destruct (String.eqb_spec b "") as [|Hb]; [done|]. intros [= <-].
  apply cut_byte_inv in E as [E Ha]. split.
  - intros Hr. apply Hb. rewrite <-(rev_involutive b), Hr. done.
  - exists (String.rev a). split; [unfold no_byte in *; by rewrite str_all_rev|].
    rewrite <-(rev_involutive s), E, rev_sapp, rev_cons, <-sapp_assoc. done.
Qed.

(** An object's name matches a workload's exactly when it is that name, or that name followed
    by one or two segments, each a dash and text without a dash: a name alone does not tell a
    pod of the workload from one of a workload whose name extends it. *)
Lemma name_matches_spec involved want :
  matchesWorkloadName involved want = true ↔
  involved = want ∨ want ≠ "" ∧ ∃ h, no_byte "-" h = true ∧
    (involved = want +:+ "-" +:+ h ∨
     ∃ h', no_byte "-" h' = true ∧ involved = (want +:+ "-" +:+ h) +:+ "-" +:+ h').
Proof.
  assert (∀ w h, w +:+ "-" +:+ h ≠ "") as Hne by (intros [] ?; discriminate).
  unfold matchesWorkloadName. rewrite orb_true_iff, String.eqb_eq. simpl. split.
  - intros [->|Hs]; [by left|]. right.
    destruct (strip_segment involved) as [s|] eqn:E1; [|done].
    apply strip_segment_Some in E1 as (Hs0 & h1 & Hh1 & ->).
    apply orb_true_iff in Hs as [->%String.eqb_eq|Hs]; [by eauto 6|].
    destruct (strip_segment s) as [s'|] eqn:E2; [|done]. rewrite orb_false_r in Hs.
    apply String.eqb_eq in Hs as ->. apply strip_segment_Some in E2 as (Hw & h2 & Hh2 & ->). eauto 10.
  - intros [->|(Hw & h & Hh & [->|(h' & Hh' & ->)])]; [by left|right..].
    + rewrite strip_segment_app by done. by rewrite String.eqb_refl.
    + rewrite strip_segment_app by done. rewrite strip_segment_app by done.
      rewrite String.eqb_refl. by rewrite orb_true_r.
Qed.

Lemma drain_loop_take since limit items : ∀ out, 0 < limit → Z.of_nat (length out) < limit →
  drain_loop since limit items out =
  take (Z.to_nat limit) (out ++ map summary (List.filter (λ ev, negb (too_old since ev)) items)).
Proof.
  induction items as [|ev items IH]; intros out Hl Ho; simpl.
  { rewrite app_nil_r, take_ge; [done|lia]. }
  destruct (too_old since ev); simpl; [by apply IH|].
  destruct (Z.leb_spec limit (Z.of_nat (length (out ++ [summary ev])))) as [Hle|Hlt].
  - rewrite length_app in Hle. simpl in Hle.
    rewrite (cons_middle _ out (map _ _)), app_assoc.
    replace (Z.to_nat limit) with (length (out ++ [summary ev])) by (rewrite length_app; simpl; lia).
    by rewrite take_app_length.
  - rewrite IH by done. by rewrite <-app_assoc.
Qed.

(** What is drained: the first events of the cache, in its order, that are not older than
    [since] - at most [limit] of them, 100 if none is given. *)
Lemma drain_events_spec idx since limit :
  DrainEvents (Some idx) since limit =
  take (Z.to_nat (if limit <=? 0 then 100 else limit))
    (map summary (List.filter (λ ev, negb (too_old since ev)) (objects (IList idx)))).
Proof. unfold DrainEvents. destruct (Z.leb_spec limit 0); by rewrite drain_loop_take by (simpl; lia). Qed.

Definition demo_event (name : string) (at_ : Z) : object :=
  mkObject "shop" "Pod" name 0 at_ 0 0 "OOMKilled" "Warning" 1 "".

(** The events of pods carry the kind Pod, so a reference to a Deployment never sees them, the
    OOM kills of its own pods among them; without a kind a workload also gets the events of the
    pods of one whose name extends its name; and of more events than the limit the oldest may be
    the ones that are shipped. *)
Lemma events_divergences :
  (let cache := mkIndexer [Some (demo_event "api-7d9-x2" 5)] (λ _, Ok []) in
   Recent (Some cache) (mkRef "c" "shop" "Deployment" "api") 0 = [] ∧
   length (Recent (Some cache) (mkRef "c" "shop" "" "api") 0) = 1%nat) ∧
  matchesWorkloadName "api-worker-0" "api" = true ∧
  (let cache := mkIndexer [Some (demo_event "old" 1); Some (demo_event "new" 9)] (λ _, Ok []) in
   map SPodName (DrainEvents (Some cache) 0 1) = ["old"]).
Proof. vm_compute. auto. Qed.

(** ** Facts: autoscalers *)

(** An autoscaler is reported unhealthy also when one of the two conditions is unknown, not
    only when it is false; and the first metric with a target decides. *)
Lemma hpa_divergences :
  Hpa.conditionsHealthy [("ScalingActive", "Unknown")] = false ∧
  Hpa.conditionsHealthy [("ScalingLimited", "False")] = true ∧
  Hpa.targetUtil [Hpa.mkMetric "Pods" (Some ("cpu", Some 10)); Hpa.mkMetric "Resource" (Some ("cpu", None));
    Hpa.mkMetric "Resource" (Some ("cpu", Some 70)); Hpa.mkMetric "Resource" (Some ("cpu", Some 50))] "Resource" "cpu" = 70.
Proof. by vm_compute. Qed.

(** ** Facts: policies *)

Import Policies.

Definition cpu_max (i : limit_item) : Z := resourceMillicores (Max i) "cpu".
Definition mem_max (i : limit_item) : Z := resourceBytes (Max i) "memory".
Definition cpu_min (i : limit_item) : Z := resourceMillicores (Min i) "cpu".
Definition mem_min (i : limit_item) : Z := resourceBytes (Min i) "memory".

Definition tighten (acc v : Z) : Z := if (0 <? v) && (v <? acc) then v else acc.
Definition raise_ (acc v : Z) : Z := if acc <? v then v else acc.

Lemma narrow_fold items o :
  foldl narrow (Some o) items = Some (mkLimit
    (foldl tighten (MaxCPUMillicores o) (map cpu_max items)) (foldl tighten (MaxMemoryBytes o) (map mem_max items))
    (foldl raise_ (MinCPUMillicores o) (map cpu_min items)) (foldl raise_ (MinMemoryBytes o) (map mem_min items))).
Proof. revert o. induction items as [|i items IH]; intros []; simpl; [done|]. by rewrite IH. Qed.

Lemma foldl_raise vs : ∀ a, (∀ v, v ∈ a :: vs → v <= foldl raise_ a vs) ∧ foldl raise_ a vs ∈ a :: vs.
Proof.
  induction vs as [|v vs IH]; intros a; simpl.
  { split; [intros v ->%list_elem_of_singleton; lia|by apply list_elem_of_singleton]. }
  destruct (IH (raise_ a v)) as [Hle Hin]. split.
  - assert (a <= raise_ a v ∧ v <= raise_ a v) as [] by (unfold raise_; destruct (Z.ltb_spec a v); lia).
    assert (raise_ a v <= foldl raise_ (raise_ a v) vs) by (apply Hle; left).
    intros x [->|[->|Hx]%elem_of_cons]%elem_of_cons; [lia..|]. apply Hle. by right.
  - apply elem_of_cons in Hin as [->|Hin]; [|by do 2 right].
    unfold raise_. destruct (a <? v); [right; left|left].
Qed.

Lemma foldl_tighten vs : ∀ a, Forall (λ v, 0 < v) vs →
  (∀ v, v ∈ a :: vs → foldl tighten a vs <= v) ∧ foldl tighten a vs ∈ a :: vs.
Proof.
  induction vs as [|v vs IH]; intros a Hpos; simpl.
  { split; [intros v ->%list_elem_of_singleton; lia|by apply list_elem_of_singleton]. }
  apply Forall_cons in Hpos as [Hv Hpos]. destruct (IH (tighten a v) Hpos) as [Hle Hin]. split.
  - assert (tighten a v <= a ∧ tighten a v <= v) as []
      by (unfold tighten; destruct (Z.ltb_spec 0 v), (Z.ltb_spec v a); simpl; lia).
    assert (foldl tighten (tighten a v) vs <= tighten a v) by (apply Hle; left).
    intros x [->|[->|Hx]%elem_of_cons]%elem_of_cons; [lia..|]. apply Hle. by right.
  - apply elem_of_cons in Hin as [->|Hin]; [|by do 2 right].
    unfold tighten. destruct (_ && _); [right; left|left].
Qed.

Definition largest (m : Z) (vs : list Z) : Prop := (∀ v, v ∈ vs → v <= m) ∧ m ∈ vs.
Definition smallest (m : Z) (vs : list Z) : Prop := (∀ v, v ∈ vs → m <= v) ∧ m ∈ vs.

(** The limit range of a namespace is the narrowest envelope of its container limits: each
    minimum is the largest one, and each maximum the smallest one if every item has it. There
    is none exactly when no item limits containers. *)
Lemma limit_range_envelope r idx ns items :
  limitIdx r = Some idx → ByNamespace idx ns = Ok items →
  let its := container_items (objects items) in
  match namespaceLimitRange r ns with
  | Err _ => False
  | Ok None => its = []
  | Ok (Some lr) =>
      largest (MinCPUMillicores lr) (map cpu_min its) ∧ largest (MinMemoryBytes lr) (map mem_min its) ∧
      (Forall (λ v, 0 < v) (map cpu_max its) → smallest (MaxCPUMillicores lr) (map cpu_max its)) ∧
      (Forall (λ v, 0 < v) (map mem_max its) → smallest (MaxMemoryBytes lr) (map mem_max its))
  end.
Proof.
  intros Hidx Hit its. unfold namespaceLimitRange. rewrite Hidx, Hit. cbn [rbind]. fold its.
  destruct its as [|i rest]; [done|]. cbn [foldl narrow]. rewrite narrow_fold.
  split_and!; try apply foldl_raise; intros [_ Hp]%Forall_cons; by apply foldl_tighten.
Qed.

Definition only_cpu_max (n : Z) : limit_item := mkItem "Container" {["cpu" := mkQuantity n 1]} ∅.
Definition limit_reader (items : list limit_item) : PolicyR :=
  mkPolicyR None None (Some (mkIndexer [] (λ _, Ok [Some (mkLimitObject "shop" items)]))).

(** "The narrowest": when the first item has no maximum the others are never looked at, so the
    result depends on the order of the cache. *)
Lemma limit_range_divergence :
  let bounded := limit_reader [only_cpu_max 500; mkItem "Container" ∅ ∅] in
  let unbounded := limit_reader [mkItem "Container" ∅ ∅; only_cpu_max 500] in
  namespaceLimitRange bounded "shop" = Ok (Some (mkLimit 500 0 0 0)) ∧
  namespaceLimitRange unbounded "shop" = Ok (Some (mkLimit 0 0 0 0)).
Proof. by vm_compute. Qed.

(** ** Facts: the digest of policies *)

Lemma mark_lookup (set_ : PolicySummary → PolicySummary) l : (∀ p, set_ (set_ p) = set_ p) → ∀ m ns,
  foldl (mark set_) m l !! ns =
  if decide (ns ∈ l) then Some (set_ (default (mkSummary ns false false false) (m !! ns))) else m !! ns.
Proof.
  intros Hidem. induction l as [|x l IH]; intros m ns; simpl.
  { reflexivity. }
  rewrite IH. unfold mark. destruct (decide (x = ns)) as [->|Hne].
  - rewrite lookup_insert_eq. simpl. rewrite Hidem. rewrite (decide_True (P := ns ∈ ns :: l)) by set_solver.
    by case_decide.
  - rewrite lookup_insert_ne by done. repeat case_decide; set_solver.
Qed.

Definition digest (r : PolicyR) (ns : string) : option PolicySummary :=
  let pdb := bool_decide (ns ∈ map PdbNamespace (listed (pdbIdx r))) in
  let quota := bool_decide (ns ∈ map QuotaNamespace (listed (quotaIdx r))) in
  let limit := bool_decide (ns ∈ map LimitNamespace (listed (limitIdx r))) in
  if pdb || quota || limit then Some (mkSummary ns pdb quota limit) else None.

(** One row for each namespace with a policy, whose flags say which ones it has. *)
Lemma policy_summary_spec `{GoMapOrder} r :
  NoDup (map SumNamespace (ListPolicySummary r)) ∧
  ∀ p, p ∈ ListPolicySummary r ↔ digest r (SumNamespace p) = Some p.
Proof.
  unfold ListPolicySummary.
  set (m := foldl (mark set_limit) _ _).
  assert (∀ ns, m !! ns = digest r ns) as Hm.
  { intros ns. unfold m. rewrite !mark_lookup by by intros []. rewrite lookup_empty. unfold digest.
    repeat case_decide; repeat case_bool_decide; done. }
  clearbody m.
  assert (∀ ns p, m !! ns = Some p → SumNamespace p = ns) as Hns.
  { intros ns p. rewrite Hm. unfold digest. destruct (_ || _); [by intros [= <-]|done]. }
  assert (map SumNamespace (map_iter m).*2 ≡ₚ (map_to_list m).*1) as Hperm.
  { rewrite (map_iter_perm m). apply Permutation_refl'.
    change (SumNamespace <$> (map_to_list m).*2 = (map_to_list m).*1). rewrite <-list_fmap_compose.
    apply list_fmap_ext. intros i [k p] Hi. simpl. apply list_elem_of_lookup_2, elem_of_map_to_list in Hi. eauto. }
  split.
  - rewrite Hperm. apply NoDup_fst_map_to_list.
  - intros p. rewrite <-Hm, (map_iter_perm m), list_elem_of_fmap. split.
    + intros ([k q] & -> & Hk%elem_of_map_to_list). simpl. by rewrite (Hns _ _ Hk).
    + intros Hp. exists (SumNamespace p, p). split; [done|]. by apply elem_of_map_to_list.
Qed.

(** ** Facts: workloads *)

Import Workloads.

Definition deployment_owner (rs : object) : option string :=
  option_map OwnerName (List.find (λ o, controls o && String.eqb (OwnerKind o) "Deployment") (OwnerReferences rs)).

(** The deployment behind the replica set of that namespace and name. *)
Definition deployment_of (rss : list object) (ns name : string) : option string :=
  match List.find (λ rs, String.eqb (Namespace rs) ns && String.eqb (Name rs) name) rss with
  | Some rs => deployment_owner rs
  | None => None
  end.

(** The workload that runs a pod, told without any table of keys. *)
Definition workload_of (rss : list object) (pod : object) : option Ref :=
  match List.find controls (OwnerReferences pod) with
  | Some o =>
      if str_mem (OwnerKind o) ["StatefulSet"; "DaemonSet"]
      then Some (mkRef (Namespace pod) (OwnerKind o) (OwnerName o))
      else if String.eqb (OwnerKind o) "ReplicaSet" then
        Some (match deployment_of rss (Namespace pod) (OwnerName o) with
              | Some d => mkRef (Namespace pod) "Deployment" d
              | None => mkRef (Namespace pod) "ReplicaSet" (OwnerName o)
              end)
      else None
  | None => None
  end.

Definition key (o : object) : string * string := (Namespace o, Name o).
Definition namespaced (o : object) : Prop := no_byte "/" (Namespace o) = true.

Lemma slash_inj a b a' b' : no_byte "/" a = true → no_byte "/" a' = true →
  slash a b = slash a' b' → a = a' ∧ b = b'.
Proof.
  intros Ha Ha' E. apply (f_equal (cut_byte "/")) in E. unfold slash in E.
  change (a +:+ "/" +:+ b) with (a +:+ String "/" b) in E. change (a' +:+ "/" +:+ b') with (a' +:+ String "/" b') in E.
  rewrite !cut_byte_app in E by done. by simplify_eq.
Qed.

Lemma replicasets_lookup rss ns name : no_byte "/" ns = true → Forall namespaced rss → NoDup (map key rss) →
  ∀ m, foldl add_replicaset m rss !! slash ns name =
    match deployment_of rss ns name with Some d => Some d | None => m !! slash ns name end.
Proof.
  intros Hns. induction rss as [|rs rss IH]; intros Hf Hnd m; [done|].
  apply Forall_cons in Hf as [Hrs Hf]. apply NoDup_cons in Hnd as [Hnew Hnd].
  cbn [foldl]. rewrite IH by done. unfold deployment_of at 2. cbn [List.find].
  destruct (String.eqb_spec (Namespace rs) ns) as [<-|Hd]; simpl.
  - destruct (String.eqb_spec (Name rs) name) as [<-|Hd].
    + assert (deployment_of rss (Namespace rs) (Name rs) = None) as ->.
      { unfold deployment_of. destruct (List.find _ rss) as [rs'|] eqn:E; [|done].
        apply List.find_some in E as [Hin [E1%String.eqb_eq E2%String.eqb_eq]%andb_prop].
        destruct Hnew. apply list_elem_of_fmap. exists rs'. split; [unfold key; congruence|by apply list_elem_of_In]. }
      unfold add_replicaset, deployment_owner.
      destruct (List.find _ (OwnerReferences rs)); simpl; [by rewrite lookup_insert_eq|done].
    + fold (deployment_of rss (Namespace rs) name). destruct (deployment_of _ _ _); [done|].
      unfold add_replicaset. destruct (List.find _ (OwnerReferences rs)); [|done].
      apply lookup_insert_ne. intros [_ ?]%slash_inj; done.
  - fold (deployment_of rss ns name). destruct (deployment_of _ _ _); [done|].
    unfold add_replicaset. destruct (List.find _ (OwnerReferences rs)); [|done].
    apply lookup_insert_ne. intros [? _]%slash_inj; done.
Qed.

Lemma pods_lookup rsByName pods k : NoDup (map key pods) → ∀ m,
  foldl (add_pod rsByName) m pods !! k =
  match List.find (λ p, bool_decide (key p = k)) pods with
  | Some p => match pod_workload rsByName p with Some w => Some w | None => m !! k end
  | None => m !! k
  end.
Proof.
  induction pods as [|p pods IH]; intros Hnd m; [done|]. apply NoDup_cons in Hnd as [Hnew Hnd].
  cbn [foldl List.find]. rewrite IH by done. unfold add_pod. case_bool_decide as Hk.
  - destruct (List.find _ pods) as [q|] eqn:E.
    + apply List.find_some in E as [Hin Hq%bool_decide_eq_true_1].
      destruct Hnew. apply list_elem_of_fmap. exists q. split; [congruence|by apply list_elem_of_In].
    + destruct (pod_workload rsByName p); [|done]. rewrite <-Hk. apply lookup_insert_eq.
  - assert (∀ w, <[(Namespace p, Name p) := w]> m !! k = m !! k) as Hskip
      by (intros w; by apply lookup_insert_ne).
    destruct (List.find _ pods) as [q|]; destruct (pod_workload rsByName p); try done; by rewrite Hskip.
Qed.

(** In a cluster whose objects have a namespace and a name of their own, every pod is mapped
    to the workload that runs it: through its replica set to a deployment, directly to a
    stateful or daemon set, and to nothing if something else or nothing controls it. *)
Lemma pod_owners_resolved idx ps : pods idx = Some ps →
  NoDup (map key (listed (pods idx))) → NoDup (map key (listed (replicaSets idx))) →
  Forall namespaced (listed (pods idx)) → Forall namespaced (listed (replicaSets idx)) →
  (∀ pod, pod ∈ listed (pods idx) →
     PodOwners (Some idx) !! key pod = workload_of (listed (replicaSets idx)) pod) ∧
  (∀ k, k ∉ map key (listed (pods idx)) → PodOwners (Some idx) !! k = None).
Proof.
  intros Hps Hnd Hndr Hf Hfr. unfold PodOwners. rewrite Hps, <-Hps. split.
  - intros pod Hin. rewrite pods_lookup by done.
    destruct (List.find _ _) as [q|] eqn:E.
    + apply List.find_some in E as [Hq Hk%bool_decide_eq_true_1]. apply list_elem_of_In in Hq.
      assert (q = pod) as ->.
      { apply list_elem_of_lookup in Hq as [i Hi], Hin as [j Hj].
        assert (map key (listed (pods idx)) !! i = Some (key pod)) as H1
          by (etrans; [apply list_lookup_fmap|]; rewrite Hi; simpl; congruence).
        assert (map key (listed (pods idx)) !! j = Some (key pod)) as H2
          by (etrans; [apply list_lookup_fmap|]; by rewrite Hj).
        pose proof (NoDup_lookup _ _ _ _ Hnd H1 H2). congruence. }
      unfold pod_workload, workload_of. destruct (List.find controls _) as [o|]; [|done].
      destruct (str_mem _ _); [done|]. destruct (String.eqb _ _); [|done].
      rewrite Forall_forall in Hf. rewrite replicasets_lookup by (done || by apply (Hf pod)). rewrite lookup_empty.
      by destruct (deployment_of _ _ _).
    + apply list_elem_of_In in Hin. pose proof (List.find_none _ _ E _ Hin) as Hk. simpl in Hk. by case_bool_decide.
  - intros k Hk. rewrite pods_lookup by done. destruct (List.find _ _) as [q|] eqn:E; [|apply lookup_empty].
    apply List.find_some in E as [Hq <-%bool_decide_eq_true_1].
    destruct Hk. apply list_elem_of_fmap. exists q. split; [done|by apply list_elem_of_In].
Qed.

(** "Sorted by namespace, kind and name": the list is in the order of the caches. *)
Lemma workloads_unsorted :
  let idx := mkIndex (Some (mkIndexer [Some (mkObject "z" "z" []); Some (mkObject "a" "a" [])] (λ _, Ok []))) None None None None in
  ListWorkloads (Some idx) = [mkRef "z" "Deployment" "z"; mkRef "a" "Deployment" "a"].
Proof. by vm_compute. Qed.
