(* ===== verification/Rfc3339.v ===== *)
(** RFC 3339 timestamps of Go's time package: parsing (with the leniencies of [time.Parse])
    and the form with fractional seconds that encoding/json writes. Instants are UTC. *)

From Stdlib Require Import Ascii.
From S2P Require Import Prelude GoNum GoStr Lines Utf8 GoTime Json.
Local Open Scope Z_scope.

(** ** From dates to days *)

Definition is_leap (y : Z) : bool := (y mod 4 =? 0) && (negb (y mod 100 =? 0) || (y mod 400 =? 0)).

(** Days from 1 January of year 1 to 1 January of year [y]. *)
Definition days_before_year (y : Z) : Z := let n := y - 1 in 365 * n + n / 4 - n / 100 + n / 400.

Definition days_in (leap : bool) (month : Z) : Z := nth (Z.to_nat (month - 1)) (month_lengths leap) 0.
Definition days_before_month (leap : bool) (month : Z) : Z := Zsum (take (Z.to_nat (month - 1)) (month_lengths leap)).

(** ** Parsing *)

Definition expect (c : ascii) (s : string) : option string :=
  match s with String c' r => if Ascii.eqb c c' then Some r else None | EmptyString => None end.

Definition digit2 (a b : ascii) : option Z :=
  match digit_val a, digit_val b with Some x, Some y => Some (10 * x + y) | _, _ => None end.

Definition num2 (s : string) : option (Z * string) :=
  match s with
  | String a (String b r) => match digit2 a b with Some v => Some (v, r) | None => None end
  | _ => None
  end.

Definition num4 (s : string) : option (Z * string) :=
  match num2 s with
  | Some (hi, r) => match num2 r with Some (lo, r) => Some (100 * hi + lo, r) | None => None end
  | None => None
  end.

(** The hour may have a single digit. *)
Definition num_hour (s : string) : option (Z * string) :=
  match s with
  | String a r =>
      match digit_val a with
      | None => None
      | Some x => match num2 s with Some v => Some v | None => Some (x, r) end
      end
  | EmptyString => None
  end.

(** Fractional seconds after a point or a comma: digits beyond the ninth are dropped. *)
Definition nanoseconds (s : string) : Z * string :=
  match s with
  | String c r =>
      if (byte_val c =? 46) || (byte_val c =? 44) then
        match take_digits r with
        | (EmptyString, _) => (0, s)
        | (d, rest) =>
            let d := str_take 9 d in
            (default 0 (digits_val 0 d) * 10 ^ Z.of_nat (9 - String.length d), rest)
        end
      else (0, s)
  | EmptyString => (0, s)
  end.

(** The zone, which ends the text: its offset in seconds. *)
Definition zone (s : string) : option Z :=
  match s with
  | String c r =>
      if byte_val c =? 90 then match r with EmptyString => Some 0 | _ => None end
      else if (byte_val c =? 43) || (byte_val c =? 45) then
        match num2 r with
        | Some (h, r) =>
            match expect ":" r with
            | Some r =>
                match num2 r with
                | Some (m, EmptyString) =>
                    if (h <=? 24) && (m <=? 60)
                    then Some ((if byte_val c =? 45 then -1 else 1) * (h * 3600 + m * 60)) else None
                | _ => None
                end
            | None => None
            end
        | None => None
        end
      else None
  | EmptyString => None
  end.

(** [time.Parse(time.RFC3339, s)]: nanoseconds since year 1. *)
Definition parse_rfc3339 (s : string) : option Z :=
  '(year, s) ← num4 s;
  s ← expect "-" s;
  '(month, s) ← num2 s;
  if negb ((1 <=? month) && (month <=? 12)) then None else
  s ← expect "-" s;
  '(day, s) ← num2 s;
  s ← expect "T" s;
  '(hour, s) ← num_hour s;
  if 24 <=? hour then None else
  s ← expect ":" s;
  '(min, s) ← num2 s;
  if 60 <=? min then None else
  s ← expect ":" s;
  '(sec, s) ← num2 s;
  if 60 <=? sec then None else
  let '(nsec, s) := nanoseconds s in
  offset ← zone s;
  let leap := is_leap year in
  if negb ((1 <=? day) && (day <=? days_in leap month)) then None else
  let days := days_before_year year + days_before_month leap month + (day - 1) in
  Some ((days * 86400 + hour * 3600 + min * 60 + sec - offset) * Second + nsec).

(** ** Formatting with fractional seconds *)

Definition is_zero_digit (c : ascii) : bool := byte_val c =? 48.

Definition format_frac (nsec : Z) : string :=
  if nsec =? 0 then "" else "." +:+ trim_right is_zero_digit (pad_left 9 (itoa nsec)).

(** [t.UTC().Format(time.RFC3339Nano)]. *)
Definition format_rfc3339_nano (t : Z) : string :=
  let secs := t / Second in
  let '(year, yday, leap) := civil_year (secs / 86400) in
  let '(month, day) := civil_month 1 (month_lengths leap) yday in
  let sod := secs mod 86400 in
  append_int 4 year +:+ "-" +:+ append_int 2 month +:+ "-" +:+ append_int 2 day +:+ "T" +:+
  append_int 2 (sod / 3600) +:+ ":" +:+ append_int 2 (sod / 60 mod 60) +:+ ":" +:+ append_int 2 (sod mod 60) +:+
  format_frac (t mod Second) +:+ "Z".

Definition year_of (t : Z) : Z := (civil_year (t / Second / 86400)).1.1.

Example rfc3339_parse_examples :
  parse_rfc3339 "2025-12-31T23:59:59.5Z" = Some ((62135596800 + 1767225599) * Second + 500000000) ∧
  parse_rfc3339 "2024-02-29T01:00:00+02:30" = Some ((62135596800 + 1709159400) * Second) ∧
  parse_rfc3339 "2023-02-29T00:00:00Z" = None ∧
  format_rfc3339_nano ((62135596800 + 1767225599) * Second + 500000000) = "2025-12-31T23:59:59.5Z".
Proof. vm_compute. auto. Qed.

(** ** Dates and days are inverse *)

Lemma civil_year_spec days y r leap : 0 <= days → civil_year days = (y, r, leap) →
  1 <= y ∧ leap = is_leap y ∧ 0 <= r < (if leap then 366 else 365) ∧ days_before_year y + r = days.
Proof.
  intros Hd. unfold civil_year. intros [= Hy Hr Hl].
  set (a := days / 146097) in *. set (r1 := days mod 146097) in *.
  assert (days = 146097 * a + r1 ∧ 0 <= r1 < 146097 ∧ 0 <= a) as (Ha&Hr1&Ha0)
    by (subst a r1; Z.to_euclidean_division_equations; lia).
  clearbody a r1. set (b := Z.min 3 (r1 / 36524)) in *.
  assert (0 <= b <= 3 ∧ 36524 * b <= r1 ∧ (b < 3 → r1 < 36524 * b + 36524)) as (Hb&Hbl&Hbu)
    by (subst b; Z.to_euclidean_division_equations; lia).
  clearbody b. set (r2 := r1 - b * 36524) in *. set (c := r2 / 1461) in *.
  assert (0 <= c <= 24 ∧ 1461 * c <= r2 < 1461 * c + 1461) as (Hc&Hcl)
    by (subst c r2; Z.to_euclidean_division_equations; lia).
  clearbody c. set (r3 := r2 - c * 1461) in *. set (d := Z.min 3 (r3 / 365)) in *.
  assert (0 <= d <= 3 ∧ 365 * d <= r3 ∧ (d < 3 → r3 < 365 * d + 365)) as (Hd3&Hdl&Hdu)
    by (subst d r3; Z.to_euclidean_division_equations; lia).
  clearbody d. subst y r. split; [lia|].
  assert (is_leap (400 * a + 100 * b + 4 * c + d + 1) = (d =? 3) && (negb (c =? 24) || (b =? 3))) as Hleap.
  { unfold is_leap.
    assert (((400 * a + 100 * b + 4 * c + d + 1) mod 4 =? 0) = (d =? 3)) as ->
      by (apply eq_true_iff_eq; rewrite !Z.eqb_eq; Z.to_euclidean_division_equations; lia).
    destruct (d =? 3) eqn:Ed; [|done]. apply Z.eqb_eq in Ed. cbn [andb].
    assert (((400 * a + 100 * b + 4 * c + d + 1) mod 100 =? 0) = (c =? 24)) as ->
      by (apply eq_true_iff_eq; rewrite !Z.eqb_eq; Z.to_euclidean_division_equations; lia).
    destruct (c =? 24) eqn:Ec; [|done]. apply Z.eqb_eq in Ec. cbn [negb orb].
    apply eq_true_iff_eq; rewrite !Z.eqb_eq; Z.to_euclidean_division_equations; lia. }
  split; [by rewrite Hleap|]. split.
  - subst leap. destruct (Z.eqb_spec d 3), (Z.eqb_spec c 24), (Z.eqb_spec b 3); cbn [negb orb andb]; subst r2 r3; lia.
  - unfold days_before_year. replace (400 * a + 100 * b + 4 * c + d + 1 - 1) with (400 * a + 100 * b + 4 * c + d) by lia.
    assert ((400 * a + 100 * b + 4 * c + d) / 4 = 100 * a + 25 * b + c) as -> by (Z.to_euclidean_division_equations; lia).
    assert ((400 * a + 100 * b + 4 * c + d) / 100 = 4 * a + b) as -> by (Z.to_euclidean_division_equations; lia).
    assert ((400 * a + 100 * b + 4 * c + d) / 400 = a) as -> by (Z.to_euclidean_division_equations; lia).
    subst r2 r3. lia.
Qed.

Lemma civil_month_spec (leap : bool) yday m d : 0 <= yday < (if leap then 366 else 365) →
  civil_month 1 (month_lengths leap) yday = (m, d) →
  1 <= m <= 12 ∧ 1 <= d <= days_in leap m ∧ days_before_month leap m + (d - 1) = yday.
Proof.
  intros Hy. destruct leap; cbn [month_lengths civil_month];
    repeat match goal with |- context [if ?a <? ?b then _ else _] => destruct (Z.ltb_spec a b) end;
    intros [= <- <-];
    match goal with |- context [days_in ?l ?m] =>
      let v := eval vm_compute in (days_in l m) in change (days_in l m) with v;
      let v := eval vm_compute in (days_before_month l m) in change (days_before_month l m) with v end; lia.
Qed.

(** ** Fixed-width digits *)

Lemma digits_val_app acc s t v : digits_val acc s = Some v → digits_val acc (s +:+ t) = digits_val v t.
Proof.
  revert acc. induction s as [|c s IH]; intros acc; [by intros [= ->]|]. rewrite sapp_cons. cbn [digits_val].
  destruct (digit_val c); [apply IH|done].
Qed.

Lemma digits_val_zeros acc n : digits_val acc (zeros n) = Some (acc * 10 ^ Z.of_nat n).
Proof.
  revert acc. induction n as [|n IH]; intros acc; [cbn; f_equal; lia|].
  change (digits_val acc (zeros (S n))) with (digits_val (acc * 10 + 0) (zeros n)). rewrite IH, Nat2Z.inj_succ, Z.pow_succ_r by lia.
  f_equal. lia.
Qed.

Lemma digits_val_lower acc s v : 0 <= acc → digits_val acc s = Some v → acc * 10 ^ Z.of_nat (String.length s) <= v.
Proof.
  revert acc. induction s as [|c s IH]; intros acc Ha; cbn [digits_val String.length]; [intros [= <-]; cbn; lia|].
  destruct (digit_val c) as [d|] eqn:Ed; [|done]. intros Hv. apply IH in Hv.
  - rewrite Nat2Z.inj_succ, Z.pow_succ_r by lia.
    assert (0 <= d) by (unfold digit_val in Ed; destruct (_ && _) eqn:Eb; [injection Ed as <-; bool_to_prop; lia|done]).
    pose proof (Z.pow_pos_nonneg 10 (Z.of_nat (String.length s)) ltac:(lia) ltac:(lia)). nia.
  - assert (0 <= d) by (unfold digit_val in Ed; destruct (_ && _) eqn:Eb; [injection Ed as <-; bool_to_prop; lia|done]). lia.
Qed.

Lemma itoa_length z w : 0 <= z < 10 ^ Z.of_nat w → (0 < w)%nat → (String.length (itoa z) <= w)%nat.
Proof.
  intros Hz Hw. destruct (decide (z = 0)) as [->|Hne]; [simpl; lia|].
  destruct (itoa_head z) as (c&t&E&Hc); [lia|]. destruct (itoa_nonneg z) as (Hd&_&Hv); [lia|].
  rewrite E in *. cbn [str_all digits_val String.length] in *. apply andb_prop in Hd as [Hd _].
  rewrite digit_val_spec in Hv by done. unfold is_digit in Hd. bool_to_prop.
  apply digits_val_lower in Hv; [|lia].
  pose proof (Z.pow_pos_nonneg 10 (Z.of_nat (String.length t)) ltac:(lia) ltac:(lia)).
  assert (10 ^ Z.of_nat (String.length t) < 10 ^ Z.of_nat w) as Hlt by nia.
  apply Z.pow_lt_mono_r_iff in Hlt; lia.
Qed.

Lemma zeros_digits n : str_all is_digit (zeros n) = true ∧ String.length (zeros n) = n.
Proof. induction n as [|n [H1 H2]]; [done|]. cbn. by rewrite H1, H2. Qed.

(** A number padded to a width it fits in: that many digits, with its value. *)
Lemma pad_digits w z : 0 <= z < 10 ^ Z.of_nat w → (0 < w)%nat →
  String.length (pad_left w (itoa z)) = w ∧ str_all is_digit (pad_left w (itoa z)) = true ∧
  digits_val 0 (pad_left w (itoa z)) = Some z.
Proof.
  intros Hz Hw. pose proof (itoa_length z w Hz Hw) as Hl. destruct (itoa_nonneg z) as (Hd&_&Hv); [lia|].
  unfold pad_left. destruct (zeros_digits (w - String.length (itoa z))) as [Hzd Hzl].
  rewrite slength_app, Hzl, str_all_app, Hzd, Hd. split; [lia|]. split; [done|].
  erewrite digits_val_app by apply digits_val_zeros. by rewrite Z.mul_0_l.
Qed.

Lemma append_int_pad w x : 0 <= x → append_int w x = pad_left w (itoa x).
Proof. intros Hx. unfold append_int. rewrite (proj2 (Z.ltb_ge _ _)), Z.abs_eq by lia. done. Qed.

Lemma append_int2 x : 0 <= x < 100 → ∃ a b, append_int 2 x = String a (String b "") ∧ digit2 a b = Some x.
Proof.
  intros Hx. rewrite append_int_pad by lia. destruct (pad_digits 2 x) as (Hl&_&Hv); [lia..|].
  destruct (pad_left 2 (itoa x)) as [|a [|b [|]]]; try done. exists a, b. split; [done|].
  unfold digit2. cbn [digits_val] in Hv. destruct (digit_val a); [|done]. destruct (digit_val b); [|done].
  injection Hv as <-. f_equal. lia.
Qed.

Lemma append_int4 x : 0 <= x < 10000 → ∃ a b c d, append_int 4 x = String a (String b (String c (String d ""))) ∧
  ∃ hi lo, digit2 a b = Some hi ∧ digit2 c d = Some lo ∧ 100 * hi + lo = x.
Proof.
  intros Hx. rewrite append_int_pad by lia. destruct (pad_digits 4 x) as (Hl&_&Hv); [lia..|].
  destruct (pad_left 4 (itoa x)) as [|a [|b [|c [|d [|]]]]]; try done. exists a, b, c, d. split; [done|].
  unfold digit2. cbn [digits_val] in Hv. destruct (digit_val a); [|done]. destruct (digit_val b); [|done].
  destruct (digit_val c); [|done]. destruct (digit_val d); [|done].
  injection Hv as <-. eexists _, _. split_and!; [done..|lia].
Qed.

Lemma num2_append x s : 0 <= x < 100 → num2 (append_int 2 x +:+ s) = Some (x, s).
Proof.
  intros Hx. destruct (append_int2 x Hx) as (a&b&->&E). rewrite !sapp_cons. cbn [num2]. by rewrite E.
Qed.

Lemma num_hour_append x s : 0 <= x < 100 → num_hour (append_int 2 x +:+ s) = Some (x, s).
Proof.
  intros Hx. pose proof (num2_append x s Hx) as H2. destruct (append_int2 x Hx) as (a&b&E&Hd).
  rewrite E in *. rewrite !sapp_cons in *. cbn [num_hour]. unfold digit2 in Hd.
  destruct (digit_val a); [|done]. by rewrite H2.
Qed.

Lemma num4_append x s : 0 <= x < 10000 → num4 (append_int 4 x +:+ s) = Some (x, s).
Proof.
  intros Hx. destruct (append_int4 x Hx) as (a&b&c&d&->&hi&lo&E1&E2&E). rewrite !sapp_cons.
  unfold num4. cbn [num2]. rewrite E1. cbn [num2]. rewrite E2. by subst.
Qed.

(** ** Round trip *)

Lemma all_zeros s : str_all is_zero_digit s = true → s = zeros (String.length s).
Proof.
  induction s as [|c s IH]; [done|]. cbn [str_all String.length zeros]. intros [Hc Hs]%andb_prop.
  f_equal; [|by apply IH]. apply byte_val_inj. by apply Z.eqb_eq in Hc.
Qed.

Lemma str_take_short n s : (String.length s <= n)%nat → str_take n s = s.
Proof.
  revert n. induction s as [|c s IH]; intros [|n] Hn; try done; simpl in *; [lia|]. by rewrite IH by lia.
Qed.

Lemma str_all_app_l P s t : str_all P (s +:+ t) = true → str_all P s = true.
Proof. rewrite str_all_app. by intros [? _]%andb_prop. Qed.

Lemma nanoseconds_format n : 0 <= n < 10 ^ 9 → nanoseconds (format_frac n +:+ "Z") = (n, "Z").
Proof.
  intros Hn. unfold format_frac. destruct (Z.eqb_spec n 0) as [->|Hne]; [done|].
  destruct (pad_digits 9 n) as (Hl&Hd&Hv); [lia..|].
  destruct (trim_right_prefix is_zero_digit (pad_left 9 (itoa n))) as (t&Ht&E).
  set (d := trim_right is_zero_digit (pad_left 9 (itoa n))) in *. rewrite E in Hl, Hd, Hv. clear E.
  apply str_all_app_l in Hd. rewrite (all_zeros t Ht) in Hv. rewrite slength_app in Hl.
  assert (∃ v, digits_val 0 d = Some v) as [v Hdv].
  { clear -Hd. assert (∀ acc, ∃ v, digits_val acc d = Some v); [|eauto].
    induction d as [|c d IH]; intros acc; [eexists; reflexivity|].
    cbn [str_all digits_val] in *. apply andb_prop in Hd as [Hc Hd]. rewrite digit_val_spec by done. eauto. }
  rewrite (digits_val_app _ _ _ _ Hdv), digits_val_zeros in Hv. injection Hv as Hv.
  assert (d ≠ "") as Hne' by (intros E; rewrite E in Hdv; cbn in Hdv; injection Hdv as <-; lia).
  clearbody d. change (nanoseconds (String "." (d +:+ "Z")) = (n, "Z")). unfold nanoseconds.
  change ((byte_val "." =? 46) || (byte_val "." =? 44)) with true. cbv iota.
  rewrite take_digits_app by done. destruct d as [|c d]; [done|]. cbv iota.
  rewrite str_take_short, Hdv by lia. cbn [default].
  replace (9 - String.length (String c d))%nat with (String.length t) by lia. by rewrite <-Hv.
Qed.

Lemma expect_lit c s : expect c (String c "" +:+ s) = Some s.
Proof. change (String c "" +:+ s) with (String c s). unfold expect. by rewrite Ascii.eqb_refl. Qed.

Lemma days_in_31 leap month : days_in leap month <= 31.
Proof.
  unfold days_in. generalize (Z.to_nat (month - 1)). intros k.
  assert (Forall (λ x, x <= 31) (month_lengths leap)) as Hall by (destruct leap; repeat constructor; lia).
  destruct (nth_in_or_default k (month_lengths leap) 0) as [Hin| ->]; [|lia].
  rewrite Forall_forall in Hall. apply Hall. by apply list_elem_of_In.
Qed.

(** What both formats share: date and time, then a suffix that reads as a fraction. *)
Lemma parse_parts t suffix n year yday leap month day : 0 <= t →
  civil_year (t / Second / 86400) = (year, yday, leap) → year <= 9999 →
  civil_month 1 (month_lengths leap) yday = (month, day) →
  nanoseconds suffix = (n, "Z") →
  let sod := t / Second mod 86400 in
  parse_rfc3339 (append_int 4 year +:+ "-" +:+ append_int 2 month +:+ "-" +:+ append_int 2 day +:+ "T" +:+
    append_int 2 (sod / 3600) +:+ ":" +:+ append_int 2 (sod / 60 mod 60) +:+ ":" +:+ append_int 2 (sod mod 60) +:+
    suffix) = Some (t / Second * Second + n).
Proof.
  intros Ht Hy Hmax Hm Hn sod.
  apply civil_year_spec in Hy as (Hy1&->&Hr&Hdays); [|unfold Second; Z.to_euclidean_division_equations; lia].
  apply civil_month_spec in Hm as (Hm12&Hd&Hmd); [|done].
  assert (0 <= sod < 86400) as Hsod by (apply Z.mod_pos_bound; lia).
  assert (0 <= sod / 3600 < 24 ∧ 0 <= sod / 60 mod 60 < 60 ∧ 0 <= sod mod 60 < 60) as (Hh&Hmi&Hs)
    by (Z.to_euclidean_division_equations; lia).
  pose proof (days_in_31 (is_leap year) month) as H31.
  unfold parse_rfc3339.
  rewrite num4_append by lia. cbn [mbind option_bind]. rewrite expect_lit. cbn [mbind option_bind].
  rewrite num2_append by lia. cbn [mbind option_bind].
  rewrite (proj2 (Z.leb_le 1 month)), (proj2 (Z.leb_le month 12)) by lia. cbn [negb andb].
  rewrite expect_lit. cbn [mbind option_bind].
  rewrite num2_append by lia. cbn [mbind option_bind]. rewrite expect_lit. cbn [mbind option_bind].
  rewrite num_hour_append by lia. cbn [mbind option_bind].
  rewrite (proj2 (Z.leb_gt 24 _)) by lia. rewrite expect_lit. cbn [mbind option_bind].
  rewrite num2_append by lia. cbn [mbind option_bind].
  rewrite (proj2 (Z.leb_gt 60 _)) by lia. rewrite expect_lit. cbn [mbind option_bind].
  rewrite num2_append by lia. cbn [mbind option_bind].
  rewrite (proj2 (Z.leb_gt 60 _)) by lia. rewrite Hn. change (zone "Z") with (Some 0). cbn [mbind option_bind].
  rewrite (proj2 (Z.leb_le 1 day)), (proj2 (Z.leb_le day _)) by lia. cbn [negb andb].
  replace (days_before_year year + days_before_month (is_leap year) month + (day - 1))
    with (t / Second / 86400) by lia. f_equal. subst sod.
  unfold Second. Z.to_euclidean_division_equations. lia.
Qed.

(** Formatting with fractions, then parsing, gives the instant back; formatting without
    them gives the second it is in. *)
Lemma parse_format_nano t : 0 <= t → year_of t <= 9999 → parse_rfc3339 (format_rfc3339_nano t) = Some t.
Proof.
  intros Ht Hy. unfold format_rfc3339_nano, year_of in *.
  destruct (civil_year (t / Second / 86400)) as [[year yday] leap] eqn:Ey. cbn [fst] in Hy.
  destruct (civil_month 1 (month_lengths leap) yday) as [month day] eqn:Em.
  etrans; [eapply (parse_parts t _ (t mod Second)); [done|exact Ey|done|exact Em|]|].
  - apply nanoseconds_format. apply Z.mod_pos_bound. done.
  - f_equal. pose proof (Z.div_mod t Second ltac:(done)). lia.
Qed.

Lemma parse_format t : 0 <= t → year_of t <= 9999 → parse_rfc3339 (format_rfc3339 t) = Some (t / Second * Second).
Proof.
  intros Ht Hy. unfold format_rfc3339, year_of in *.
  destruct (civil_year (t / Second / 86400)) as [[year yday] leap] eqn:Ey. cbn [fst] in Hy.
  destruct (civil_month 1 (month_lengths leap) yday) as [month day] eqn:Em.
  etrans; [eapply (parse_parts t _ 0); [done|exact Ey|done|exact Em|done]|]. f_equal. lia.
Qed.

(** A timestamp is plain text: JSON writes it as it is. *)
Lemma digits_plain s : str_all is_digit s = true → str_all plain_byte s = true.
Proof. apply str_all_impl. intros c. unfold is_digit, plain_byte. intros. bool_to_prop. lia. Qed.

Lemma append_int_plain w x : 0 <= x < 10 ^ Z.of_nat w → (0 < w)%nat → str_all plain_byte (append_int w x) = true.
Proof. intros Hx Hw. rewrite append_int_pad by lia. apply digits_plain. by apply pad_digits. Qed.

Lemma format_frac_plain n : 0 <= n < 10 ^ 9 → str_all plain_byte (format_frac n) = true.
Proof.
  intros Hn. unfold format_frac. destruct (n =? 0); [done|]. change (str_all plain_byte (trim_right is_zero_digit (pad_left 9 (itoa n))) = true).
  destruct (pad_digits 9 n) as (_&Hd&_); [lia..|].
  destruct (trim_right_prefix is_zero_digit (pad_left 9 (itoa n))) as (t&_&E). rewrite E in Hd.
  apply str_all_app_l in Hd. by apply digits_plain.
Qed.

Lemma format_nano_plain t : 0 <= t → year_of t <= 9999 → str_all plain_byte (format_rfc3339_nano t) = true.
Proof.
  intros Ht Hy. unfold format_rfc3339_nano, year_of in *.
  destruct (civil_year (t / Second / 86400)) as [[year yday] leap] eqn:Ey. cbn [fst] in Hy.
  destruct (civil_month 1 (month_lengths leap) yday) as [month day] eqn:Em.
  apply civil_year_spec in Ey as (Hy1&->&Hr&Hdays); [|unfold Second; Z.to_euclidean_division_equations; lia].
  apply civil_month_spec in Em as (Hm12&Hd&Hmd); [|done]. pose proof (days_in_31 (is_leap year) month) as H31.
  assert (0 <= t / Second mod 86400 < 86400) as Hsod by (apply Z.mod_pos_bound; lia).
  set (sod := t / Second mod 86400) in *.
  assert (0 <= sod / 3600 < 24 ∧ 0 <= sod / 60 mod 60 < 60 ∧ 0 <= sod mod 60 < 60) as (Hh&Hmi&Hs)
    by (Z.to_euclidean_division_equations; lia).
  pose proof (Z.mod_pos_bound t Second ltac:(done)).
  rewrite !str_all_app, !append_int_plain, format_frac_plain by (done || lia). done.
Qed.
