(* ===== verification/Csv.v ===== *)
(** encoding/csv as [csv.NewReader] sets it up: comma, no comments, strict quotes, every
    record with as many fields as the first. *)

From Stdlib Require Import Ascii.
From S2P Require Import Prelude GoNum GoStr Lines Utf8.

Inductive csv_error := ErrBareQuote | ErrQuote | ErrFieldCount | OutOfFuel.

Definition dquote : ascii := chr 34.

(** Up to and with the next line feed, and what follows. *)
Fixpoint to_newline (s : string) : string * string :=
  match s with
  | EmptyString => ("", "")
  | String c s =>
      if Ascii.eqb c newline then (String c "", s)
      else let '(l, r) := to_newline s in (String c l, r)
  end.

Definition ends_nl (line : string) : bool := has_suffix line (String newline "").
Definition drop_nl (line : string) : string := trim_suffix line (String newline "").

(** [readLine]: CR LF reads as LF; a CR before the end of the input is dropped. *)
Definition read_line (s : string) : string * string :=
  let '(line, rest) := to_newline s in
  let cr := String (chr 13) "" in
  (if ends_nl line
   then (if has_suffix (drop_nl line) cr then trim_suffix (drop_nl line) cr +:+ String newline "" else line)
   else trim_suffix line cr, rest).

Definition blank (line : string) : bool := String.eqb line "" || String.eqb line (String newline "").

(** The fields of a record from the start of one, and the rest of a quoted field whose text
    so far is [acc]; a quoted field may go on to the next lines. *)
Fixpoint record_fields (fuel : nat) (line rest : string) {struct fuel} : result csv_error (list string * string) :=
  match fuel with
  | O => Err OutOfFuel
  | S fuel =>
      let plain :=
        match cut_byte "," line with
        | Some (field, line) =>
            if negb (no_byte dquote field) then Err ErrBareQuote
            else rbind (record_fields fuel line rest) (λ '(fs, rest), Ok (field :: fs, rest))
        | None =>
            if negb (no_byte dquote (drop_nl line)) then Err ErrBareQuote else Ok ([drop_nl line], rest)
        end in
      match line with
      | String c l => if Ascii.eqb c dquote then quoted_field fuel "" l rest else plain
      | EmptyString => plain
      end
  end
with quoted_field (fuel : nat) (acc line rest : string) {struct fuel} : result csv_error (list string * string) :=
  match fuel with
  | O => Err OutOfFuel
  | S fuel =>
      match cut_byte dquote line with
      | Some (pre, line) =>
          match line with
          | String c l =>
              if Ascii.eqb c dquote then quoted_field fuel (acc +:+ pre +:+ String dquote "") l rest
              else if Ascii.eqb c "," then
                rbind (record_fields fuel l rest) (λ '(fs, rest), Ok ((acc +:+ pre) :: fs, rest))
              else if blank line then Ok ([acc +:+ pre], rest) else Err ErrQuote
          | EmptyString => Ok ([acc +:+ pre], rest)
          end
      | None =>
          match line with
          | EmptyString => Err ErrQuote
          | _ => let '(next, rest) := read_line rest in quoted_field fuel (acc +:+ line) next rest
          end
      end
  end.

(** Every step takes at least a byte. *)
Definition record_fuel (line rest : string) : nat := String.length line + String.length rest + 1.

(** [Reader.Read]: [None] at the end of the input; blank lines are skipped. *)
Fixpoint read_record (fuel : nat) (s : string) : option (result csv_error (list string * string)) :=
  match fuel with
  | O => None
  | S fuel =>
      match s with
      | EmptyString => None
      | _ =>
          let '(line, rest) := read_line s in
          if blank line then read_record fuel rest else Some (record_fields (record_fuel line rest) line rest)
      end
  end.
Definition Read (s : string) : option (result csv_error (list string * string)) :=
  read_record (S (String.length s)) s.


(** ** The reader terminates on every input *)

Lemma to_newline_length s l r : to_newline s = (l, r) → (String.length l + String.length r = String.length s)%nat.
Proof.
  revert l r. induction s as [|c s IH]; intros l r; cbn [to_newline]; [by intros [= <- <-]|].
  destruct (Ascii.eqb c newline); [by intros [= <- <-]|].
  destruct (to_newline s) as [l' r']. intros [= <- <-]. simpl. by rewrite (IH l' r').
Qed.

Lemma rev_slength s : String.length (String.rev s) = String.length s.
Proof. induction s as [|c s IH]; [done|]. rewrite rev_cons, slength_app, IH. simpl. lia. Qed.

Lemma trim_suffix_length s suf :
  (String.length (trim_suffix s suf) + (if has_suffix s suf then String.length suf else 0) = String.length s)%nat.
Proof.
  unfold trim_suffix, has_suffix, strip_suffix. destruct (strip_prefix _ _) as [r|] eqn:E; simpl;
    [|lia].
  apply strip_prefix_Some, (f_equal String.length) in E. rewrite slength_app, !rev_slength in E.
  rewrite rev_slength. lia.
Qed.

Lemma read_line_length s l r : read_line s = (l, r) →
  (String.length l + String.length r <= String.length s)%nat ∧ (s ≠ "" → String.length r < String.length s)%nat.
Proof.
  unfold read_line. destruct (to_newline s) as [line rest] eqn:E. intros [= <- <-].
  assert (s ≠ "" → line ≠ "") as Hne.
  { destruct s as [|c s]; [done|]. intros _. cbn [to_newline] in E.
    destruct (Ascii.eqb c newline); [by injection E as <- <-|]. destruct (to_newline s). by injection E as <- <-. }
  apply to_newline_length in E. split.
  - set (cr := String (chr 13) ""). unfold ends_nl, drop_nl.
    pose proof (trim_suffix_length line (String newline "")) as H1.
    pose proof (trim_suffix_length (trim_suffix line (String newline "")) cr) as H2.
    pose proof (trim_suffix_length line cr) as H3.
    destruct (has_suffix line (String newline "")); [|lia].
    destruct (has_suffix _ cr); rewrite ?slength_app; simpl in *; lia.
  - intros Hs. specialize (Hne Hs). destruct line; [done|]. simpl in E. lia.
Qed.

Lemma cut_byte_length c s l r : cut_byte c s = Some (l, r) → (String.length l + String.length r < String.length s)%nat.
Proof.
  revert l r. induction s as [|a s IH]; intros l r; cbn [cut_byte]; [done|].
  destruct (Ascii.eqb a c); [intros [= <- <-]; simpl; lia|].
  destruct (cut_byte c s) as [[l' r']|]; [|done]. intros [= <- <-]. specialize (IH l' r' eq_refl). simpl. lia.
Qed.

Definition no_fuel_error {A} (r : result csv_error A) : Prop := r ≠ Err OutOfFuel.

Lemma record_fuel_enough fuel :
  (∀ line rest, (String.length line + String.length rest < fuel)%nat → no_fuel_error (record_fields fuel line rest)) ∧
  (∀ acc line rest, (String.length line + String.length rest < fuel)%nat → no_fuel_error (quoted_field fuel acc line rest)).
Proof.
  induction fuel as [|fuel (IHr&IHq)]; [split; intros; lia|].
  assert (∀ line rest (k : list string → list string), (String.length line + String.length rest < fuel)%nat →
    no_fuel_error (rbind (record_fields fuel line rest) (λ '(fs, r), Ok (k fs, r)))) as IHb.
  { intros line rest k Hf. specialize (IHr line rest Hf). unfold no_fuel_error in *.
    destruct (record_fields fuel line rest) as [[fs r]|e]; [done|]. cbn. congruence. }
  split.
  - intros line rest Hf. cbn [record_fields].
    assert (no_fuel_error match cut_byte "," line with
        | Some (field, line) =>
            if negb (no_byte dquote field) then Err ErrBareQuote
            else rbind (record_fields fuel line rest) (λ '(fs, rest), Ok (field :: fs, rest))
        | None => if negb (no_byte dquote (drop_nl line)) then Err ErrBareQuote else Ok ([drop_nl line], rest) end) as Hp.
    { destruct (cut_byte "," line) as [[f l]|] eqn:Ec; [|by destruct (negb _)].
      destruct (negb _); [done|]. apply cut_byte_length in Ec. apply (IHb l rest (cons f)). lia. }
    destruct line as [|c l]; [done|]. destruct (Ascii.eqb c dquote); [|done].
    apply IHq. simpl in Hf. lia.
  - intros acc line rest Hf. cbn [quoted_field].
    destruct (cut_byte dquote line) as [[pre l]|] eqn:Ec.
    + apply cut_byte_length in Ec. destruct l as [|c l]; [done|]. simpl in Ec.
      destruct (Ascii.eqb c dquote); [apply IHq; lia|].
      destruct (Ascii.eqb c ","); [apply (IHb l rest (cons (acc +:+ pre))); lia|]. by destruct (blank _).
    + destruct line as [|c l]; [done|]. destruct (read_line rest) as [next r] eqn:Er.
      apply read_line_length in Er as [Hl _]. apply IHq. simpl in Hf. lia.
Qed.

Lemma read_record_fuel f1 f2 s : (String.length s < f1)%nat → (String.length s < f2)%nat →
  read_record f1 s = read_record f2 s.
Proof.
  revert f2 s. induction f1 as [|f1 IH]; intros [|f2] s H1 H2; try lia. cbn [read_record].
  destruct s as [|c s]; [done|]. destruct (read_line (String c s)) as [line rest] eqn:Er.
  apply read_line_length in Er as [_ Hr]. specialize (Hr ltac:(done)). destruct (blank line); [|done].
  apply IH; simpl in *; lia.
Qed.

Lemma Read_no_fuel_error s r : Read s = Some r → no_fuel_error r.
Proof.
  unfold Read. generalize (S (String.length s)). intros f. revert s. induction f as [|f IH]; intros s; [done|].
  cbn [read_record]. destruct s as [|c s]; [done|]. destruct (read_line (String c s)) as [line rest].
  destruct (blank line); [apply IH|]. intros [= <-]. apply record_fuel_enough. unfold record_fuel. lia.
Qed.

(** What [Read] leaves is shorter than what it was given. *)
Lemma record_rest fuel :
  (∀ line rest fs r, record_fields fuel line rest = Ok (fs, r) → (String.length r <= String.length rest)%nat) ∧
  (∀ acc line rest fs r, quoted_field fuel acc line rest = Ok (fs, r) → (String.length r <= String.length rest)%nat).
Proof.
  induction fuel as [|fuel (IHr&IHq)]; [done|].
  assert (∀ line rest (k : list string → list string) fs r,
    rbind (record_fields fuel line rest) (λ '(fs, r), Ok (k fs, r)) = Ok (fs, r) →
    (String.length r <= String.length rest)%nat) as IHb.
  { intros line rest k fs r. destruct (record_fields fuel line rest) as [[fs' r']|] eqn:E; [|done].
    cbn. intros [= _ <-]. by eapply IHr. }
  split.
  - intros line rest fs r. cbn [record_fields].
    destruct (cut_byte "," line) as [[f l]|];
      (destruct line as [|c l']; [|destruct (Ascii.eqb c dquote); [apply IHq|]]);
      (destruct (negb _); [done|]);
      first [apply (IHb _ _ (cons f)) | by intros [= _ <-]].
  - intros acc line rest fs r. cbn [quoted_field]. destruct (cut_byte dquote line) as [[pre l]|].
    + destruct l as [|c l]; [by intros [= _ <-]|]. destruct (Ascii.eqb c dquote); [apply IHq|].
      destruct (Ascii.eqb c ","); [apply (IHb _ _ (cons (acc +:+ pre)))|]. destruct (blank _); [by intros [= _ <-]|done].
    + destruct line as [|c l]; [done|]. destruct (read_line rest) as [next r'] eqn:Er.
      apply read_line_length in Er as [Hl _]. intros Hq%IHq. lia.
Qed.

Lemma Read_shorter s fs r : Read s = Some (Ok (fs, r)) → (String.length r < String.length s)%nat.
Proof.
  unfold Read. generalize (S (String.length s)). intros f. revert s. induction f as [|f IH]; intros s; [done|].
  cbn [read_record]. destruct s as [|c s]; [done|]. destruct (read_line (String c s)) as [line rest] eqn:Er.
  apply read_line_length in Er as [_ Hr]. specialize (Hr ltac:(done)).
  destruct (blank line); [intros Hs%IH; lia|]. intros [= Hs%record_rest]. lia.
Qed.

Example csv_example :
  Read (String newline ("a," +:+ String dquote ("b" +:+ String dquote (String dquote (",c" +:+ String dquote
    (String (chr 13) (String newline "x,y"))))))) =
  Some (Ok (["a"; "b" +:+ String dquote ",c"], "x,y")).
Proof. vm_compute. reflexivity. Qed.
