(* ===== verification/Token.v ===== *)
(** The two HS256 tokens: the one the service presents to the agent
    (backend/internal/applyfix/token/token.go, Module [ApplyFixToken]) and the one the agent
    presents to the service (backend/internal/agent/ident/ident.go, Module [Ident]). *)

From Stdlib Require Import Ascii.
From S2P Require Import Prelude GoNum GoStr Lines Utf8 GoTime Sha256 Base64 Json.
Local Open Scope Z_scope.

(** ** The wire form both share: [base64url(payload).base64url(mac)] *)

Definition mac (payload secret : string) : string := hmac_sha256 secret payload.

Definition seal (secret payload : string) : string :=
  encode payload +:+ String "." (encode (mac payload secret)).

Inductive unseal_error := NoSeparator | PayloadDecode | SignatureDecode | MacMismatch.

(** The authenticated payload; [ConstantTimeCompare] is the equality of the bytes. *)
Definition unseal (secret wire : string) : result unseal_error string :=
  match cut_byte "."%char wire with
  | None => Err NoSeparator
  | Some (payloadB64, sigB64) =>
      match decode payloadB64 with
      | None => Err PayloadDecode
      | Some payload =>
          match decode sigB64 with
          | None => Err SignatureDecode
          | Some sig => if String.eqb sig (mac payload secret) then Ok payload else Err MacMismatch
          end
      end
  end.

Lemma unseal_seal secret payload : unseal secret (seal secret payload) = Ok payload.
Proof.
  unfold unseal, seal. rewrite cut_byte_app by apply encode_no_dot.
  by rewrite !decode_encode, String.eqb_refl.
Qed.

Lemma unseal_Ok secret wire payload : unseal secret wire = Ok payload →
  ∃ p s, cut_byte "."%char wire = Some (p, s) ∧ decode p = Some payload ∧ decode s = Some (mac payload secret).
Proof.
  unfold unseal. destruct (cut_byte _ _) as [[p s]|]; [|done]. destruct (decode p) as [q|] eqn:Ep; [|done].
  destruct (decode s) as [sig|] eqn:Es; [|done]. destruct (String.eqb_spec sig (mac q secret)) as [->|]; [|done].
  intros [= ->]. eauto.
Qed.

Definition min_secret : nat := 32.

(** ** The token of Apply Fix calls *)

Module ApplyFixToken.

Record Token := mkToken {
  TenantID : string; ApplyFixID : string; Audience : string; IssuedAt : Z; ExpiresAt : Z }.

Definition zero_token : Token := mkToken "" "" "" 0 0.

Inductive error :=
  | ErrShortSecret (length : nat)
  | ErrTTL
  | ErrFieldsRequired
  | ErrMalformed
  | ErrPayloadDecode
  | ErrSignatureDecode
  | ErrSignature
  | ErrUnmarshal
  | ErrAudience (got want : string)
  | ErrExpired
  | ErrFuture.

Record Issuer := mkIssuer { secret : string; ttl : Z }.

Definition NewIssuer (key : string) (ttl : Z) : result error Issuer :=
  if (String.length key <? min_secret)%nat then Err (ErrShortSecret (String.length key))
  else if ttl <=? 0 then Err ErrTTL
  else Ok (mkIssuer key ttl).

Definition NewVerifier (key : string) : result error string :=
  if (String.length key <? min_secret)%nat then Err (ErrShortSecret (String.length key)) else Ok key.

Definition fields (t : Token) : list (string * scalar) :=
  [("tenant_id", VStr (TenantID t)); ("apply_fix_id", VStr (ApplyFixID t)); ("aud", VStr (Audience t));
   ("iat", VInt (IssuedAt t)); ("exp", VInt (ExpiresAt t))].

Definition canonical (t : Token) : string := encode_struct true (fields t).

(** The clock is read once, at [now]. *)
Definition Issue (i : Issuer) (now : Z) (tenantID applyFixID audience : string) : result error string :=
  if String.eqb tenantID "" || String.eqb applyFixID "" || String.eqb audience "" then Err ErrFieldsRequired
  else
    let tok := mkToken tenantID applyFixID audience (unix_seconds now) (unix_seconds (time_add now (ttl i))) in
    Ok (seal (secret i) (canonical tok)).

Definition names : list string := ["tenant_id"; "apply_fix_id"; "aud"; "iat"; "exp"].

Definition assign (name : string) (v : json) (t : Token) : option Token :=
  let 'mkToken tn af au ia ex := t in
  if String.eqb name "tenant_id" then option_map (λ s, mkToken s af au ia ex) (assign_string v tn)
  else if String.eqb name "apply_fix_id" then option_map (λ s, mkToken tn s au ia ex) (assign_string v af)
  else if String.eqb name "aud" then option_map (λ s, mkToken tn af s ia ex) (assign_string v au)
  else if String.eqb name "iat" then option_map (λ z, mkToken tn af au z ex) (assign_int64 v ia)
  else option_map (λ z, mkToken tn af au ia z) (assign_int64 v ex).

Definition unmarshal (payload : string) : option Token :=
  match parse_document payload with
  | Some v => into_struct names assign false v zero_token
  | None => None
  end.

Definition unseal_err (e : unseal_error) : error :=
  match e with
  | NoSeparator => ErrMalformed | PayloadDecode => ErrPayloadDecode
  | SignatureDecode => ErrSignatureDecode | MacMismatch => ErrSignature
  end.

(** The checks on an authenticated token. *)
Definition check_claims (now : Z) (expectedAudience : string) (tok : Token) : result error Token :=
  if negb (String.eqb expectedAudience "") && negb (String.eqb (Audience tok) expectedAudience)
  then Err (ErrAudience (Audience tok) expectedAudience)
  else if ExpiresAt tok <=? unix_seconds now then Err ErrExpired
  else if i64_add (unix_seconds now) 60 <? IssuedAt tok then Err ErrFuture
  else Ok tok.

Definition Verify (key : string) (now : Z) (signed expectedAudience : string) : result error Token :=
  match unseal key signed with
  | Err e => Err (unseal_err e)
  | Ok payload =>
      match unmarshal payload with
      | None => Err ErrUnmarshal
      | Some tok => check_claims now expectedAudience tok
      end
  end.

(** ** Facts *)

(** A token as its reader sees it: the invalid bytes of its strings replaced. *)
Definition as_read (t : Token) : Token :=
  mkToken (to_valid_utf8 (TenantID t)) (to_valid_utf8 (ApplyFixID t)) (to_valid_utf8 (Audience t))
    (IssuedAt t) (ExpiresAt t).

Lemma unmarshal_claims t : in_i64 (IssuedAt t) → in_i64 (ExpiresAt t) →
  unmarshal (canonical t) = Some (as_read t).
Proof.
  intros Hi He. unfold unmarshal, canonical. rewrite parse_encode_struct by (done || by repeat constructor).
  cbn [fields map member_json fst snd scalar_json into_struct].
  unfold as_read. cbn -[parse_int itoa to_valid_utf8]. unfold assign_int64.
  rewrite parse_int_itoa by done. cbn -[parse_int itoa to_valid_utf8]. by rewrite parse_int_itoa by done.
Qed.


(** C27 A token that was issued is verified by whoever holds the secret exactly while it
    should be: asked for its audience (or for none), it gives back the very claims it was
    issued with, up to the second it expires and from a minute before it was issued; another
    audience, an expired token and one from the future have each their error; and under any
    other secret whose authentication code differs it is a signature error. *)
Theorem issued_token_verifies (key : string) (ttl now : Z) (i : Issuer) (tenant fix_ aud wire : string) :
  NewIssuer key ttl = Ok i → Issue i now tenant fix_ aud = Ok wire →
  in_i64 (unix_seconds now) → in_i64 (unix_seconds (now + ttl)) →
  let tok := mkToken tenant fix_ aud (unix_seconds now) (unix_seconds (now + ttl)) in
  (∀ now' want, in_i64 (unix_seconds now' + 60) →
    Verify key now' wire want =
      if negb (String.eqb want "") && negb (String.eqb (to_valid_utf8 aud) want)
      then Err (ErrAudience (to_valid_utf8 aud) want)
      else if unix_seconds (now + ttl) <=? unix_seconds now' then Err ErrExpired
      else if unix_seconds now' + 60 <? unix_seconds now then Err ErrFuture
      else Ok (as_read tok)) ∧
  (∀ key' now' want, mac (canonical tok) key ≠ mac (canonical tok) key' →
    Verify key' now' wire want = Err ErrSignature).
Proof.
  intros Hi Hw Hn He tok. unfold NewIssuer in Hi. repeat case_match; try done. injection Hi as <-.
  unfold Issue in Hw. case_match; [done|]. injection Hw as <-. cbn [secret ApplyFixToken.ttl] in *.
  fold tok. split.
  - intros now' want Hn'. unfold Verify. rewrite unseal_seal, unmarshal_claims by done.
    unfold check_claims, i64_add. by rewrite (wrap64_id (unix_seconds now' + 60)) by done.
  - intros key' now' want Hmac. unfold Verify, unseal, seal.
    rewrite cut_byte_app by apply encode_no_dot. rewrite !decode_encode.
    by rewrite (proj2 (String.eqb_neq _ _)) by done.
Qed.

Definition demo_secret : string := "0123456789abcdef0123456789abcdef".
Definition demo_now : Z := 63902000000 * Second.

Lemma issued_token_verifies_witness :
  ∃ i wire, NewIssuer demo_secret (5 * Minute) = Ok i ∧
    Issue i demo_now "t-1" "fix-9" "dryrun" = Ok wire ∧
    Verify demo_secret (demo_now + Minute) wire "dryrun" =
      Ok (mkToken "t-1" "fix-9" "dryrun" 1766403200 1766403500) ∧
    Verify demo_secret (demo_now + 5 * Minute) wire "dryrun" = Err ErrExpired.
Proof.
  eexists _, _. split; [reflexivity|]. split; [reflexivity|].
  destruct (issued_token_verifies demo_secret (5 * Minute) demo_now _ "t-1" "fix-9" "dryrun" _
    eq_refl eq_refl) as [Hv _]; [by vm_compute..|].
  split; (rewrite Hv by by vm_compute); vm_compute; reflexivity.
Defined.

(** What verification accepts: precisely the wires whose two parts are base64 of a
    payload and of its authentication code under the secret, where the payload reads as a
    token for the expected audience, not yet expired and issued at most a minute ahead. *)
Theorem verify_accepts (key : string) (now : Z) (wire want : string) (tok : Token) :
  Verify key now wire want = Ok tok ↔
  ∃ p s payload, cut_byte "."%char wire = Some (p, s) ∧ decode p = Some payload ∧
    decode s = Some (mac payload key) ∧ unmarshal payload = Some tok ∧
    (want = "" ∨ Audience tok = want) ∧
    unix_seconds now < ExpiresAt tok ∧ IssuedAt tok <= i64_add (unix_seconds now) 60.
Proof.
  split.
  - unfold Verify. destruct (unseal key wire) as [payload|e] eqn:Eu; [|done].
    destruct (unmarshal payload) as [t|] eqn:Em; [|done]. unfold check_claims.
    destruct (String.eqb_spec want ""), (String.eqb_spec (Audience t) want); cbn [negb andb]; try done;
      (destruct (Z.leb_spec (ExpiresAt t) (unix_seconds now)); [done|]);
      (destruct (Z.ltb_spec (i64_add (unix_seconds now) 60) (IssuedAt t)); [done|]); intros [= <-];
      apply unseal_Ok in Eu as (p&s&?&?&?); exists p, s, payload; split_and!; auto.
  - intros (p&s&payload&Hc&Hp&Hs&Hm&Hw&He&Hi). unfold Verify, unseal.
    rewrite Hc, Hp, Hs, String.eqb_refl, Hm. unfold check_claims.
    assert (negb (String.eqb want "") && negb (String.eqb (Audience tok) want) = false) as ->.
    { destruct Hw as [-> | ->]; [done|]. by rewrite String.eqb_refl, andb_false_r. }
    rewrite (proj2 (Z.leb_gt _ _)), (proj2 (Z.ltb_ge _ _)) by done. done.
Qed.

(** "Verification re-marshals to compare bytes": it does not, so a payload with its fields
    in another order verifies, and so does a wire broken over two lines. *)
Definition reordered : string :=
  encode_struct true [("aud", VStr "dryrun"); ("exp", VInt 2000000000); ("tenant_id", VStr "t-1")].
Lemma token_divergences :
  Verify demo_secret demo_now (seal demo_secret reordered) "dryrun" =
    Ok (mkToken "t-1" "" "dryrun" 0 2000000000) ∧
  (∃ wire wire', wire ≠ wire' ∧ Verify demo_secret demo_now wire "" = Verify demo_secret demo_now wire' "" ∧
    Verify demo_secret demo_now wire "" = Ok (mkToken "t-1" "" "dryrun" 0 2000000000)).
Proof.
  split; [vm_compute; reflexivity|].
  exists (seal demo_secret reordered), (String (chr 10) (seal demo_secret reordered)).
  split; [by vm_compute|]. split; vm_compute; reflexivity.
Qed.

End ApplyFixToken.

(** ** The token of the agent's snapshots *)

Module Ident.

Definition MaxTTL : Z := 15 * Minute.
(** The allowance for clock skew, in seconds. *)
Definition skew : Z := 30.

Record Token := mkToken {
  TenantID : string; ClusterID : string; BatchID : string; Audience : string; IssuedAt : Z; ExpiresAt : Z }.

Definition zero_token : Token := mkToken "" "" "" "" 0 0.

Inductive error :=
  | ErrMalformedToken
  | ErrBadSignature
  | ErrExpired
  | ErrNotYetValid
  | ErrShortSecret
  | ErrAudience
  | ErrTTL
  | ErrFieldsRequired.

Record Issuer := mkIssuer { secret : string; ttl : Z }.

Definition NewIssuer (key : string) (ttl : Z) : result error Issuer :=
  if (String.length key <? min_secret)%nat then Err ErrShortSecret
  else if (ttl <=? 0) || (MaxTTL <? ttl) then Err ErrTTL
  else Ok (mkIssuer key ttl).

Definition NewVerifier (key : string) : result error string :=
  if (String.length key <? min_secret)%nat then Err ErrShortSecret else Ok key.

Definition fields (t : Token) : list (string * scalar) :=
  [("tenant_id", VStr (TenantID t)); ("cluster_id", VStr (ClusterID t)); ("batch_id", VStr (BatchID t));
   ("aud", VStr (Audience t)); ("iat", VInt (IssuedAt t)); ("exp", VInt (ExpiresAt t))].

Definition Issue (i : Issuer) (now : Z) (tenantID clusterID batchID audience : string) : result error string :=
  if String.eqb tenantID "" || String.eqb audience "" then Err ErrFieldsRequired
  else
    let tok := mkToken tenantID clusterID batchID audience (unix_seconds now) (unix_seconds (time_add now (ttl i))) in
    Ok (seal (secret i) (encode_struct true (fields tok))).

Definition names : list string := ["tenant_id"; "cluster_id"; "batch_id"; "aud"; "iat"; "exp"].

Definition assign (name : string) (v : json) (t : Token) : option Token :=
  let 'mkToken tn cl ba au ia ex := t in
  if String.eqb name "tenant_id" then option_map (λ s, mkToken s cl ba au ia ex) (assign_string v tn)
  else if String.eqb name "cluster_id" then option_map (λ s, mkToken tn s ba au ia ex) (assign_string v cl)
  else if String.eqb name "batch_id" then option_map (λ s, mkToken tn cl s au ia ex) (assign_string v ba)
  else if String.eqb name "aud" then option_map (λ s, mkToken tn cl ba s ia ex) (assign_string v au)
  else if String.eqb name "iat" then option_map (λ z, mkToken tn cl ba au z ex) (assign_int64 v ia)
  else option_map (λ z, mkToken tn cl ba au ia z) (assign_int64 v ex).

Definition unmarshal (payload : string) : option Token :=
  match parse_document payload with
  | Some v => into_struct names assign false v zero_token
  | None => None
  end.

Definition unseal_err (e : unseal_error) : error :=
  match e with MacMismatch => ErrBadSignature | _ => ErrMalformedToken end.

Definition check_claims (now : Z) (expectedAudience : string) (tok : Token) : result error Token :=
  if negb (String.eqb expectedAudience "") && negb (String.eqb (Audience tok) expectedAudience) then Err ErrAudience
  else if i64_add (unix_seconds now) skew <? IssuedAt tok then Err ErrNotYetValid
  else if i64_add (ExpiresAt tok) skew <? unix_seconds now then Err ErrExpired
  else Ok tok.

Definition Verify (key : string) (now : Z) (wire expectedAudience : string) : result error Token :=
  match unseal key wire with
  | Err e => Err (unseal_err e)
  | Ok body =>
      match unmarshal body with
      | None => Err ErrMalformedToken
      | Some tok => check_claims now expectedAudience tok
      end
  end.

(** ** Facts *)

Definition as_read (t : Token) : Token :=
  mkToken (to_valid_utf8 (TenantID t)) (to_valid_utf8 (ClusterID t)) (to_valid_utf8 (BatchID t))
    (to_valid_utf8 (Audience t)) (IssuedAt t) (ExpiresAt t).

Lemma unmarshal_fields t : in_i64 (IssuedAt t) → in_i64 (ExpiresAt t) →
  unmarshal (encode_struct true (fields t)) = Some (as_read t).
Proof.
  intros Hi He. unfold unmarshal. rewrite parse_encode_struct by (done || by repeat constructor).
  cbn [fields map member_json fst snd scalar_json into_struct].
  unfold as_read. cbn -[parse_int itoa to_valid_utf8]. unfold assign_int64.
  rewrite parse_int_itoa by done. cbn -[parse_int itoa to_valid_utf8]. by rewrite parse_int_itoa by done.
Qed.

Lemma Verify_Ok key now wire want tok : Verify key now wire want = Ok tok →
  (want = "" ∨ Audience tok = want) ∧ IssuedAt tok <= i64_add (unix_seconds now) skew ∧
  unix_seconds now <= i64_add (ExpiresAt tok) skew.
Proof.
  unfold Verify, check_claims. destruct (unseal key wire) as [body|]; [|done].
  destruct (unmarshal body) as [t|]; [|done].
  destruct (String.eqb_spec want ""), (String.eqb_spec (Audience t) want); cbn [negb andb]; try done;
    (destruct (Z.ltb_spec (i64_add (unix_seconds now) skew) (IssuedAt t)); [done|]);
    (destruct (Z.ltb_spec (i64_add (ExpiresAt t) skew) (unix_seconds now)); [done|]); intros [= <-]; auto.
Qed.

(** What an issuer gives is verified, for the endpoint it was issued for, within its window. *)
Lemma verify_issued (key : string) (ttl now now' : Z) (i : Issuer) (tenant cluster batch aud want wire : string) :
  NewIssuer key ttl = Ok i → Issue i now tenant cluster batch aud = Ok wire →
  want = "" ∨ to_valid_utf8 aud = want →
  0 <= unix_seconds now < 2^62 → 0 <= unix_seconds now' < 2^62 →
  let tok := mkToken tenant cluster batch aud (unix_seconds now) (unix_seconds (now + ttl)) in
  0 < ttl <= MaxTTL ∧ unix_seconds now <= unix_seconds (now + ttl) <= unix_seconds now + 901 ∧
  Verify key now' wire want =
    (if unix_seconds now' + 30 <? unix_seconds now then Err ErrNotYetValid
     else if unix_seconds (now + ttl) + 30 <? unix_seconds now' then Err ErrExpired
     else Ok (as_read tok)).
Proof.
  intros Hi Hw Hwant Hn Hn' tok. unfold NewIssuer in Hi.
  destruct (_ <? min_secret)%nat; [done|]. destruct ((ttl <=? 0) || (MaxTTL <? ttl)) eqn:Et; [done|]. injection Hi as <-.
  unfold Issue in Hw. destruct (String.eqb tenant "" || _); [done|]. injection Hw as <-. cbn [secret Ident.ttl] in *.
  assert (0 < ttl <= MaxTTL) as Httl by (bool_to_prop; lia).
  assert (unix_seconds now <= unix_seconds (now + ttl) <= unix_seconds now + 901) as He.
  { unfold unix_seconds, MaxTTL, Minute, Second in *. Z.to_euclidean_division_equations. lia. }
  assert (in_i64 (unix_seconds (now + ttl))) by (unfold in_i64 in *; lia).
  assert (in_i64 (unix_seconds now' + skew)) by (unfold in_i64, skew in *; lia).
  assert (in_i64 (unix_seconds now)) by (unfold in_i64; lia).
  split; [done|]. split; [done|].
  unfold Verify. rewrite unseal_seal, unmarshal_fields by done. change (as_read _) with (as_read tok). unfold check_claims, i64_add.
  assert (negb (String.eqb want "") && negb (String.eqb (Audience (as_read tok)) want) = false) as ->.
  { destruct Hwant as [->| <-]; [done|]. cbn [as_read Audience tok]. rewrite String.eqb_refl. by rewrite andb_false_r. }
  cbn [as_read IssuedAt ExpiresAt tok].
  rewrite (wrap64_id (unix_seconds now' + skew)), (wrap64_id (unix_seconds (now + ttl) + skew))
    by (done || unfold in_i64, skew in *; lia). done.
Qed.

(** The life of a snapshot token: an issuer only exists with a secret of 32 bytes and a
    lifetime of at most a quarter of an hour, and what it issues at [now] is verified, with the
    claims it was issued for, from half a minute before that moment to half a minute after the
    end of the lifetime - so never more than fifteen and a half minutes (and the fraction of a
    second the clock is cut to) later, whatever the caller asked for. *)
Theorem ident_window (key : string) (ttl now now' : Z) (i : Issuer) (tenant cluster batch aud wire : string) :
  NewIssuer key ttl = Ok i → Issue i now tenant cluster batch aud = Ok wire →
  0 <= unix_seconds now < 2^62 → 0 <= unix_seconds now' < 2^62 →
  let tok := mkToken tenant cluster batch aud (unix_seconds now) (unix_seconds (now + ttl)) in
  0 < ttl <= MaxTTL ∧
  Verify key now' wire "" =
    (if unix_seconds now' + 30 <? unix_seconds now then Err ErrNotYetValid
     else if unix_seconds (now + ttl) + 30 <? unix_seconds now' then Err ErrExpired
     else Ok (as_read tok)) ∧
  (Verify key now' wire "" = Ok (as_read tok) → unix_seconds now' <= unix_seconds now + 931).
Proof.
  intros Hi Hw Hn Hn' tok.
  destruct (verify_issued key ttl now now' i tenant cluster batch aud "" wire Hi Hw) as (Httl & He & HV); [by left|done..|].
  split; [done|]. split; [exact HV|].
  intros Hok. pose proof (eq_trans (eq_sym HV) Hok) as Hif. revert Hif.
  destruct (Z.ltb_spec (unix_seconds now' + 30) (unix_seconds now)); [done|].
  destruct (Z.ltb_spec (unix_seconds (now + ttl) + 30) (unix_seconds now')); [done|]. intros _. lia.
Qed.

Definition demo_secret : string := "agent-secret-agent-secret-agent-".
Definition demo_now : Z := 63902000000 * Second.

Lemma ident_window_witness : ∃ i wire, NewIssuer demo_secret MaxTTL = Ok i ∧
  Issue i demo_now "t-1" "c-1" "b-1" "agent-snapshot" = Ok wire ∧
  Verify demo_secret (demo_now + MaxTTL + 30 * Second) wire "" =
    Ok (mkToken "t-1" "c-1" "b-1" "agent-snapshot" 1766403200 1766404100) ∧
  Verify demo_secret (demo_now + MaxTTL + 31 * Second) wire "" = Err ErrExpired.
Proof.
  eexists _, _. split; [reflexivity|]. split; [reflexivity|].
  split.
  - destruct (ident_window demo_secret MaxTTL demo_now (demo_now + MaxTTL + 30 * Second) _
      "t-1" "c-1" "b-1" "agent-snapshot" _ eq_refl eq_refl) as (_&->&_); [by vm_compute..|]. vm_compute. reflexivity.
  - destruct (ident_window demo_secret MaxTTL demo_now (demo_now + MaxTTL + 31 * Second) _
      "t-1" "c-1" "b-1" "agent-snapshot" _ eq_refl eq_refl) as (_&->&_); [by vm_compute..|]. vm_compute. reflexivity.
Defined.

End Ident.
