(* ===== verification/Ingest.v ===== *)
(** What reaches the service from a cluster: the snapshot endpoint of the agent
    (backend/internal/ingestion/agent_snapshot.go), the ingest endpoint (handler.go) and the
    Prometheus matrices it is sent (ingestion.go), with the error responses of
    backend/internal/platform/httperr. A handler is a function of the request and of its
    collaborators; its result is the response and the calls it made on its sinks. *)

From Stdlib Require Import Ascii.
From S2P Require Import Prelude GoNum GoStr Utf8 GoTime Tenancy Json Rfc3339 Csv Token.
Local Open Scope Z_scope.

(** ** Error responses: the status and the code of the envelope *)

Record Error := mkError { StatusCode : Z; Code : string }.

Definition Unauthorized : Error := mkError 401 "UNAUTHORIZED".
Definition MethodNotAllowed : Error := mkError 405 "METHOD_NOT_ALLOWED".
Definition InvalidJSON : Error := mkError 400 "INVALID_JSON".
Definition MissingField : Error := mkError 400 "MISSING_FIELD".
Definition BadRequest : Error := mkError 400 "BAD_REQUEST".
Definition BodyTooLarge : Error := mkError 413 "REQUEST_BODY_TOO_LARGE".
Definition Internal : Error := mkError 500 "INTERNAL_ERROR".

(** How reading the body failed: over the size cap, or not the JSON of the type asked for. *)
Inductive body_error := TooLarge | NotJSON.
Definition body_response (e : body_error) : Error :=
  match e with TooLarge => BodyTooLarge | NotJSON => InvalidJSON end.

(** ** The agent's snapshot *)

Record WorkloadSnap := mkWorkloadSnap { WSNamespace : string; WSKind : string; WSName : string }.
Record EventSnap := mkEventSnap {
  EvNamespace : string; EvPodName : string; EvReason : string; EvType : string; EvCount : Z;
  EvLastSeen : Z; EvMessage : string }.
Record HPASnap := mkHPASnap {
  HNamespace : string; HName : string; HMinReplicas : Z; HMaxReplicas : Z; HCurrentReplicas : Z }.
Record PromSampleSnap := mkPromSampleSnap {
  PSNamespace : string; PSKind : string; PSName : string; CPUUsageCores : float64; MemoryWorking : Z;
  OOMKilledCount : Z; PSAt : Z }.

Record PolicySnap := mkPolicySnap {
  PolNamespace : string; HasPDB : bool; HasQuota : bool; HasLimitRng : bool }.
Record NodePoolSnap := mkNodePoolSnap {
  NPName : string; NodeCountCurrent : Z; ConsolidationMode : string;
  Requirements : gmap string (list string) }.
Record AgentHealthSnap := mkHealthSnap { HealthVersion : string; DataFreshnessSeconds : Z }.

Record AgentSnapshot := mkSnapshot {
  BatchID : string; CapturedAt : Z; SnapClusterID : string; AgentVersion : string;
  Workloads : list WorkloadSnap; Events : list EventSnap; HPAs : list HPASnap;
  Policies : list PolicySnap; NodePools : list NodePoolSnap; ProvisionerClass : string;
  PromSamples : list PromSampleSnap; Health : option AgentHealthSnap }.

Record AgentSnapshotResponse := mkResponse {
  RespBatchID : string; WorkloadsObs : Z; EventsObs : Z; HPAsObs : Z; PromObs : Z }.

Definition AgentSnapshotAudience : string := "agent-snapshot".

(** What the handler sees of a request: its method, the tenant the middleware put in the
    context, the token header and the body once read and decoded. *)
Record request (A : Type) := mkRequest {
  Method : string; Ctx : go_context; TokenHeader : string; Body : result body_error A }.
Arguments mkRequest {A}. Arguments Method {A}. Arguments Ctx {A}. Arguments TokenHeader {A}. Arguments Body {A}.

(** The verifier's secret if one is configured, and the sink: whether it persists. *)
Record AgentSnapshotHandler := mkHandler {
  Verifier : option string;
  Sink : option (TenantContext → AgentSnapshot → bool) }.

(** The response, and the call made on the sink if there was one. *)
Definition outcome : Type := result Error AgentSnapshotResponse * option (TenantContext * AgentSnapshot).

Definition reply (snap : AgentSnapshot) : AgentSnapshotResponse :=
  mkResponse (BatchID snap) (Z.of_nat (length (Workloads snap))) (Z.of_nat (length (Events snap)))
    (Z.of_nat (length (HPAs snap))) (Z.of_nat (length (PromSamples snap))).

Definition with_cluster (t : TenantContext) (c : string) : TenantContext :=
  mkTenant (TenantID t) (WorkspaceID t) c (Namespace t).

Definition Snapshot (h : AgentSnapshotHandler) (now : Z) (r : request AgentSnapshot) : outcome :=
  if negb (String.eqb (Method r) "POST") then (Err MethodNotAllowed, None)
  else match FromContext (Ctx r) with
  | Err _ => (Err Unauthorized, None)
  | Ok t =>
      if String.eqb (TokenHeader r) "" then (Err Unauthorized, None)
      else match Verifier h with
      | None => (Err Internal, None)
      | Some key =>
          match Ident.Verify key now (TokenHeader r) AgentSnapshotAudience with
          | Err _ => (Err Unauthorized, None)
          | Ok tok =>
              if negb (String.eqb (Ident.TenantID tok) (TenantID t)) then (Err Unauthorized, None)
              else match Body r with
              | Err e => (Err (body_response e), None)
              | Ok snap =>
                  if String.eqb (SnapClusterID snap) "" || String.eqb (BatchID snap) ""
                  then (Err MissingField, None)
                  else if negb (String.eqb (Ident.ClusterID tok) "") &&
                          negb (String.eqb (Ident.ClusterID tok) (SnapClusterID snap))
                  then (Err (mkError 400 "CLUSTER_MISMATCH"), None)
                  else match Sink h with
                  | None => (Ok (reply snap), None)
                  | Some persist =>
                      let t := with_cluster t (SnapClusterID snap) in
                      (if persist t snap then Ok (reply snap) else Err Internal, Some (t, snap))
                  end
              end
          end
      end
  end.

(** ** Prometheus matrices *)

Record PromSample := mkSample { At : Z; Value : float64 }.
Record PromSeries := mkSeries { Metric : gmap string string; Samples : list PromSample }.

Inductive prom_error := ErrDecode | ErrPromBadStatus (got : string) | ErrPromUnsupportedType (got : string)
  | ErrMatrix (i : nat) | ErrPair (i j : nat).

(** The wire shape; an entry of [result] stays undecoded. *)
Record promResponse := mkPromResponse { Status : string; ResultType : string; Results : list json }.

Definition assign_data (name : string) (v : json) (p : promResponse) : option promResponse :=
  if String.eqb name "resultType"
  then option_map (λ s, mkPromResponse (Status p) s (Results p)) (assign_string v (ResultType p))
  else match v with
       | JNull => Some (mkPromResponse (Status p) (ResultType p) [])
       | JArr l => Some (mkPromResponse (Status p) (ResultType p) l)
       | _ => None
       end.
Definition assign_response (name : string) (v : json) (p : promResponse) : option promResponse :=
  if String.eqb name "status"
  then option_map (λ s, mkPromResponse s (ResultType p) (Results p)) (assign_string v (Status p))
  else into_struct ["resultType"; "result"] assign_data false v p.
Definition read_response (v : json) : option promResponse :=
  into_struct ["status"; "data"] assign_response false v (mkPromResponse "" "" []).

(** A value read into [any]: every number of it must be a float64. *)
Fixpoint any_ok (v : json) : bool :=
  match v with
  | JNum lit => match parse_float lit with Some _ => true | None => false end
  | JArr l => forallb any_ok l
  | JObj l => forallb (λ kv, any_ok kv.2) l
  | _ => true
  end.

(** A value read into a [map[string]string]: members are added to the map. *)
Definition read_labels (v : json) (old : gmap string string) : option (gmap string string) :=
  match v with
  | JNull => Some ∅
  | JObj l => foldl (λ m kv, match m with
      | None => None
      | Some m => option_map (λ s, <[kv.1 := s]> m) (assign_string kv.2 "") end) (Some old) l
  | _ => None
  end.

(** A value read into a [[2]any]: missing elements stay null, extra ones are dropped. *)
Definition read_pair (v : json) : option (json * json) :=
  match v with
  | JNull => Some (JNull, JNull)
  | JArr l =>
      if forallb any_ok (take 2 l) then Some (nth 0 l JNull, nth 1 l JNull) else None
  | _ => None
  end.

Record promMatrixEntry := mkEntry { EMetric : gmap string string; Values : list (json * json) }.
Definition assign_entry (name : string) (v : json) (e : promMatrixEntry) : option promMatrixEntry :=
  if String.eqb name "metric" then option_map (λ m, mkEntry m (Values e)) (read_labels v (EMetric e))
  else match v with
       | JNull => Some (mkEntry (EMetric e) [])
       | JArr l => option_map (mkEntry (EMetric e)) (mapM read_pair l)
       | _ => None
       end.
Definition read_entry (v : json) : option promMatrixEntry :=
  into_struct ["metric"; "values"] assign_entry false v (mkEntry ∅ []).

Section Prom.
Context `{!GoPlatform}.

(** [time.Unix(sec, nsec)], in nanoseconds since year 1; the seconds wrap. *)
Definition unix_time (sec nsec : Z) : Z :=
  let sec := if (nsec <? 0) || (1000000000 <=? nsec) then i64_add sec (nsec / 1000000000) else sec in
  i64_add sec 62135596800 * Second + nsec mod 1000000000.

Definition promPairToSample (p : json * json) : option PromSample :=
  match p with
  | (JNum ts, JStr _ val) =>
      match parse_float ts, parse_float val with
      | Some tsRaw, Some v =>
          let sec := f_to_i64 tsRaw in
          let nsec := f_to_i64 (f_mul (f_sub tsRaw (f_of_Z sec)) (f_of_Z 1000000000)) in
          Some (mkSample (unix_time sec nsec) v)
      | _, _ => None
      end
  | _ => None
  end.

(** The samples of one entry, in order; the index of the first that is not one. *)
Fixpoint read_samples (j : nat) (ps : list (json * json)) : result nat (list PromSample) :=
  match ps with
  | [] => Ok []
  | p :: ps =>
      match promPairToSample p with
      | None => Err j
      | Some s => let* rest := read_samples (S j) ps in Ok (s :: rest)
      end
  end.

Definition earlier (a b : PromSample) : bool := time_before (At a) (At b).

Definition read_series (i : nat) (v : json) : result prom_error PromSeries :=
  match read_entry v with
  | None => Err (ErrMatrix i)
  | Some e =>
      match read_samples 0 (Values e) with
      | Err j => Err (ErrPair i j)
      | Ok samples => Ok (mkSeries (EMetric e) (sort_stable earlier samples))
      end
  end.

Fixpoint read_matrix (i : nat) (l : list json) : result prom_error (list PromSeries) :=
  match l with
  | [] => Ok []
  | v :: l => let* s := read_series i v in let* rest := read_matrix (S i) l in Ok (s :: rest)
  end.

Definition ParsePrometheusMatrix (body : string) : result prom_error (list PromSeries) :=
  match decode_first body with
  | None => Err ErrDecode
  | Some v =>
      match read_response v with
      | None => Err ErrDecode
      | Some raw =>
          if negb (String.eqb (Status raw) "success") then Err (ErrPromBadStatus (Status raw))
          else if negb (String.eqb (ResultType raw) "matrix") then Err (ErrPromUnsupportedType (ResultType raw))
          else read_matrix 0 (Results raw)
      end
  end.
End Prom.

(** ** Cost and usage rows *)

Record CURRow := mkRow {
  UsageStartUTC : Z; UsageEndUTC : Z; ServiceCode : string; UsageType : string; Region : string;
  ResourceID : string; UsageQuantity : float64; UnblendedCostUSD : float64 }.

Inductive cur_error :=
  | ErrHeader (e : csv_error) | ErrMissing (column : string) | ErrRow (row : nat) (e : csv_error)
  | ErrStart (row : nat) | ErrEnd (row : nat) | ErrUsage (row : nat) | ErrCost (row : nat).

Definition requiredCURColumns : list string :=
  ["lineItem/UsageStartDate"; "lineItem/UsageEndDate"; "lineItem/ProductCode"; "lineItem/UsageType";
   "lineItem/UsageAmount"; "lineItem/UnblendedCost"; "product/region"].

Record curIndex := mkIndex {
  start : nat; end_ : nat; service : nat; usageType : nat; region : nat; resourceID : option nat;
  usage : nat; unblendedCost : nat }.

(** The last column of that name, spaces around it trimmed. *)
Fixpoint column (c : string) (i : nat) (header : list string) : option nat :=
  match header with
  | [] => None
  | h :: hs =>
      match column c (S i) hs with
      | Some j => Some j
      | None => if String.eqb (trim_space h) c then Some i else None
      end
  end.

Definition indexCURHeader (header : list string) : result cur_error curIndex :=
  let have c := column c 0 header in
  match List.find (λ c, match have c with None => true | Some _ => false end) requiredCURColumns with
  | Some c => Err (ErrMissing c)
  | None =>
      let at_ c := default 0%nat (have c) in
      Ok (mkIndex (at_ "lineItem/UsageStartDate") (at_ "lineItem/UsageEndDate") (at_ "lineItem/ProductCode")
        (at_ "lineItem/UsageType") (at_ "product/region") (have "lineItem/ResourceId")
        (at_ "lineItem/UsageAmount") (at_ "lineItem/UnblendedCost"))
  end.

(** A record has as many fields as the header, so every index is in range. *)
Definition decodeCURRow (rec : list string) (idx : curIndex) (row : nat) : result cur_error CURRow :=
  let f i := nth i rec "" in
  match parse_rfc3339 (f (start idx)) with
  | None => Err (ErrStart row)
  | Some s =>
      match parse_rfc3339 (f (end_ idx)) with
      | None => Err (ErrEnd row)
      | Some e =>
          match parse_float (f (usage idx)) with
          | None => Err (ErrUsage row)
          | Some u =>
              match parse_float (f (unblendedCost idx)) with
              | None => Err (ErrCost row)
              | Some c =>
                  Ok (mkRow s e (f (service idx)) (f (usageType idx)) (f (region idx))
                    (match resourceID idx with Some i => f i | None => "" end) u c)
              end
          end
      end
  end.

(** The rows after the header; every record takes at least a byte. *)
Fixpoint read_rows (fuel width : nat) (idx : curIndex) (row : nat) (s : string) : result cur_error (list CURRow) :=
  match fuel with
  | O => Ok []
  | S fuel =>
      match Read s with
      | None => Ok []
      | Some (Err e) => Err (ErrRow row e)
      | Some (Ok (rec, rest)) =>
          if negb (length rec =? width)%nat then Err (ErrRow row ErrFieldCount)
          else
            let* r := decodeCURRow rec idx row in
            let* rs := read_rows fuel width idx (S row) rest in
            Ok (r :: rs)
      end
  end.

Definition ParseCURRows (body : string) : result cur_error (list CURRow) :=
  match Read body with
  | None => Ok []
  | Some (Err e) => Err (ErrHeader e)
  | Some (Ok (header, rest)) =>
      let* idx := indexCURHeader header in
      read_rows (S (String.length rest)) (length header) idx 0 rest
  end.

(** ** The ingest endpoint *)

Record IngestRequest := mkIngest {
  Tenant : string; ReqClusterID : string; PrometheusJSON : string; CURRowsCSV : string }.

Record IngestResponse := mkIngestResponse { RespPromSeries : Z; RespCURRows : Z }.

Record Handler := mkIngestHandler {
  PromSink : option (TenantContext → list PromSeries → bool);
  CURSink : option (TenantContext → list CURRow → bool) }.

(** What was handed to the sinks, in order. *)
Inductive persisted := PersistedProm (t : TenantContext) (s : list PromSeries) | PersistedCUR (t : TenantContext) (r : list CURRow).

Section Ingest.
Context `{!GoPlatform}.

Definition prom_part (h : Handler) (t : TenantContext) (body : string) : result Error Z * list persisted :=
  if String.eqb body "" then (Ok 0, [])
  else match ParsePrometheusMatrix body with
  | Err _ => (Err (mkError 400 "PROMETHEUS_PARSE_ERROR"), [])
  | Ok series =>
      match PromSink h with
      | None => (Ok (Z.of_nat (length series)), [])
      | Some sink =>
          (if sink t series then Ok (Z.of_nat (length series)) else Err Internal, [PersistedProm t series])
      end
  end.

Definition cur_part (h : Handler) (t : TenantContext) (body : string) : result Error Z * list persisted :=
  if String.eqb body "" then (Ok 0, [])
  else match ParseCURRows body with
  | Err _ => (Err (mkError 400 "CUR_PARSE_ERROR"), [])
  | Ok rows =>
      match CURSink h with
      | None => (Ok (Z.of_nat (length rows)), [])
      | Some sink => (if sink t rows then Ok (Z.of_nat (length rows)) else Err Internal, [PersistedCUR t rows])
      end
  end.

(** The response and what was handed to the sinks before it. *)
Definition Ingest (h : Handler) (r : request IngestRequest) : result Error IngestResponse * list persisted :=
  if negb (String.eqb (Method r) "POST") then (Err MethodNotAllowed, [])
  else match FromContext (Ctx r) with
  | Err _ => (Err Unauthorized, [])
  | Ok t =>
      match Body r with
      | Err e => (Err (body_response e), [])
      | Ok req =>
          if negb (String.eqb (Tenant req) "") && negb (String.eqb (Tenant req) (TenantID t))
          then (Err (mkError 400 "TENANT_MISMATCH"), [])
          else
            let t := if String.eqb (ReqClusterID req) "" then t else with_cluster t (ReqClusterID req) in
            if String.eqb (PrometheusJSON req) "" && String.eqb (CURRowsCSV req) "" then (Err BadRequest, [])
            else
              let '(p, log) := prom_part h t (PrometheusJSON req) in
              match p with
              | Err e => (Err e, log)
              | Ok n =>
                  let '(c, log') := cur_part h t (CURRowsCSV req) in
                  match c with
                  | Err e => (Err e, log ++ log')
                  | Ok m => (Ok (mkIngestResponse n m), log ++ log')
                  end
              end
      end
  end.
End Ingest.

(** ** Facts *)

(** A request the snapshot endpoint admits: of this tenant, with this token, for this snapshot. *)
Definition admitted (h : AgentSnapshotHandler) (now : Z) (r : request AgentSnapshot)
    (t : TenantContext) (tok : Ident.Token) (snap : AgentSnapshot) : Prop :=
  Method r = "POST" ∧ FromContext (Ctx r) = Ok t ∧ TokenHeader r ≠ "" ∧
  (∃ key, Verifier h = Some key ∧ Ident.Verify key now (TokenHeader r) AgentSnapshotAudience = Ok tok) ∧
  Ident.TenantID tok = TenantID t ∧ Body r = Ok snap ∧ SnapClusterID snap ≠ "" ∧ BatchID snap ≠ "" ∧
  (Ident.ClusterID tok = "" ∨ Ident.ClusterID tok = SnapClusterID snap).

(** Either some check fails, with an error and no call on the sink, or the request is
    admitted and the sink decides. *)
Local Ltac refuse :=
  left; split; [by eexists|];
  intros ? ? ? (?&?&?&(?&?&?)&?&?&?&?&Hcl); try congruence; destruct Hcl; congruence.

Lemma snapshot_cases h now r :
  ((∃ e, Snapshot h now r = (Err e, None)) ∧ ∀ t tok snap, ¬ admitted h now r t tok snap) ∨
  ∃ t tok snap, admitted h now r t tok snap ∧
    Snapshot h now r = match Sink h with
      | None => (Ok (reply snap), None)
      | Some persist =>
          let t := with_cluster t (SnapClusterID snap) in
          (if persist t snap then Ok (reply snap) else Err Internal, Some (t, snap))
      end.
Proof.
  unfold Snapshot, admitted.
  destruct (String.eqb_spec (Method r) "POST"); cbn [negb]; [|refuse].
  destruct (FromContext (Ctx r)) as [t|]; [|refuse].
  destruct (String.eqb_spec (TokenHeader r) ""); [refuse|].
  destruct (Verifier h) as [key|]; [|refuse].
  destruct (Ident.Verify key now (TokenHeader r) AgentSnapshotAudience) as [tok|] eqn:Ev; [|refuse].
  destruct (String.eqb_spec (Ident.TenantID tok) (TenantID t)); cbn [negb]; [|refuse].
  destruct (Body r) as [snap|]; [|refuse].
  destruct (String.eqb_spec (SnapClusterID snap) ""); cbn [orb]; [refuse|].
  destruct (String.eqb_spec (BatchID snap) ""); [refuse|].
  destruct (String.eqb_spec (Ident.ClusterID tok) ""); cbn [negb andb].
  - right. exists t, tok, snap. split; [split_and!; eauto|done].
  - destruct (String.eqb_spec (Ident.ClusterID tok) (SnapClusterID snap)); cbn [negb]; [|refuse].
    right. exists t, tok, snap. split; [split_and!; eauto|done].
Qed.

(** C10 The gate of the snapshot endpoint. The sink is only ever handed a snapshot whose
    request passed every check - posted, with a tenant from its certificate, with a token
    that verifies at this moment for this endpoint and names the same tenant and, if it names
    one, the same cluster, and with both ids - and it is handed it under the tenant of the
    certificate and the cluster of the snapshot; the request is accepted exactly when it
    passed the checks and the sink, if there is one, kept it; an accepted one is answered
    with the counts of what it carried. *)
Theorem snapshot_gate (h : AgentSnapshotHandler) (now : Z) (r : request AgentSnapshot) :
  (∀ t' snap, (Snapshot h now r).2 = Some (t', snap) → ∃ t tok, admitted h now r t tok snap ∧
    TenantID t' = Ident.TenantID tok ∧ TenantID t' = TenantID t ∧ TenantID t' ≠ "" ∧
    ClusterID t' = SnapClusterID snap ∧ unix_seconds now <= i64_add (Ident.ExpiresAt tok) Ident.skew) ∧
  (∀ resp, (Snapshot h now r).1 = Ok resp ↔ ∃ t tok snap, admitted h now r t tok snap ∧ resp = reply snap ∧
    match Sink h with None => True | Some persist => persist (with_cluster t (SnapClusterID snap)) snap = true end).
Proof.
  destruct (snapshot_cases h now r) as [[[e ->] Hno]|(t&tok&snap&Ha&->)].
  - cbn. split; [done|]. intros resp. split; [done|]. intros (t&tok&snap&Ha&_). by destruct (Hno t tok snap).
  - pose proof Ha as (Hm&Hctx&Htok&(key&Hk&Hv)&Hten&Hb&Hc&Hbat&Hcl). split.
    + destruct (Sink h) as [persist|]; [|done]. cbn. intros t' snap' [= <- <-].
      exists t, tok. split; [done|]. cbn. split; [done|]. split; [done|]. split; [|split; [done|]].
      * unfold FromContext in Hctx. destruct (Ctx r) as [v|]; [|done].
        destruct (TenantContext_Validate v) eqn:Eva; [done|]. injection Hctx as ->. by apply validate_iff.
      * by apply Ident.Verify_Ok in Hv as (_&_&?).
    + intros resp. split.
      * intros Hr. exists t, tok, snap. split; [done|].
        destruct (Sink h) as [persist|]; cbn in Hr; [|by injection Hr as <-].
        destruct (persist _ snap); [by injection Hr as <-|done].
      * intros (t2&tok2&snap2&(_&Hctx2&_&_&_&Hb2&_)&->&Hp). rewrite Hctx in Hctx2. rewrite Hb in Hb2.
        injection Hctx2 as <-. injection Hb2 as <-. destruct (Sink h) as [persist|]; cbn in *; [|done]. by rewrite Hp.
Qed.

#[export] Instance earlier_sw : StrictWeak earlier.
Proof. apply (Z_less_sw At). Qed.

Section Facts.
Context `{!GoPlatform}.

Lemma read_series_sorted i v s : read_series i v = Ok s → sorted_by earlier (Samples s).
Proof.
  unfold read_series. destruct (read_entry v) as [e|]; [|done]. destruct (read_samples 0 (Values e)); [|done].
  intros [= <-]. apply sort_stable_sorted, _.
Qed.

Lemma read_matrix_sorted i l ss : read_matrix i l = Ok ss →
  length ss = length l ∧ Forall (λ s, sorted_by earlier (Samples s)) ss.
Proof.
  revert i ss. induction l as [|v l IH]; intros i ss; cbn [read_matrix]; [by intros [= <-]|].
  destruct (read_series i v) as [s|] eqn:Es; [|done]. cbn [rbind].
  destruct (read_matrix (S i) l) as [rest|] eqn:Er; [|done]. intros [= <-].
  apply IH in Er as [Hl Hs]. split; [cbn; by rewrite Hl|]. constructor; [by eapply read_series_sorted|done].
Qed.

Definition persisted_tenant (p : persisted) : TenantContext :=
  match p with PersistedProm t _ | PersistedCUR t _ => t end.
Definition persisted_ok (p : persisted) : Prop :=
  match p with PersistedProm _ ss => Forall (λ s, sorted_by earlier (Samples s)) ss | PersistedCUR _ _ => True end.

Lemma matrix_chronological body ss : ParsePrometheusMatrix body = Ok ss →
  Forall (λ s, sorted_by earlier (Samples s)) ss.
Proof.
  unfold ParsePrometheusMatrix. destruct (decode_first body); [|done]. destruct (read_response _) as [raw|]; [|done].
  destruct (negb (String.eqb (Status raw) _)); [done|]. destruct (negb (String.eqb (ResultType raw) _)); [done|].
  by intros [_ ?]%read_matrix_sorted.
Qed.

Lemma prom_part_log h t body p : p ∈ (prom_part h t body).2 → persisted_tenant p = t ∧ persisted_ok p.
Proof.
  unfold prom_part. destruct (String.eqb body ""); [by intros []%not_elem_of_nil|].
  destruct (ParsePrometheusMatrix body) as [ss|] eqn:Ep; [|by intros []%not_elem_of_nil].
  destruct (PromSink h); [|by intros []%not_elem_of_nil].
  intros ->%list_elem_of_singleton. split; [done|]. by eapply matrix_chronological.
Qed.

Lemma cur_part_log h t body p : p ∈ (cur_part h t body).2 → persisted_tenant p = t ∧ persisted_ok p.
Proof.
  unfold cur_part. destruct (String.eqb body ""); [by intros []%not_elem_of_nil|].
  destruct (ParseCURRows body) as [ss|] eqn:Ep; [|by intros []%not_elem_of_nil].
  destruct (CURSink h); [|by intros []%not_elem_of_nil]. by intros ->%list_elem_of_singleton.
Qed.

(** C39 Whatever the ingest endpoint hands to its sinks belongs to the authenticated tenant,
    never to the one a body names, under the cluster of the body if it names one; the samples
    of a series are handed over in the order of time; and a body that names another tenant, or
    carries neither kind of data, is refused with nothing handed over. *)
Theorem ingest_isolated (h : Handler) (r : request IngestRequest) :
  (∀ p, p ∈ (Ingest h r).2 → ∃ t req, FromContext (Ctx r) = Ok t ∧ Body r = Ok req ∧
    TenantID (persisted_tenant p) = TenantID t ∧ (Tenant req = "" ∨ Tenant req = TenantID t) ∧
    ClusterID (persisted_tenant p) = (if String.eqb (ReqClusterID req) "" then ClusterID t else ReqClusterID req) ∧
    persisted_ok p) ∧
  (∀ t req, Method r = "POST" → FromContext (Ctx r) = Ok t → Body r = Ok req →
    (Tenant req ≠ "" ∧ Tenant req ≠ TenantID t → Ingest h r = (Err (mkError 400 "TENANT_MISMATCH"), [])) ∧
    (Tenant req = "" → PrometheusJSON req = "" → CURRowsCSV req = "" → Ingest h r = (Err BadRequest, []))).
Proof.
  split.
  - intros p. unfold Ingest. destruct (negb (String.eqb (Method r) "POST")); [by intros []%not_elem_of_nil|].
    destruct (FromContext (Ctx r)) as [t|]; [|by intros []%not_elem_of_nil].
    destruct (Body r) as [req|]; [|by intros []%not_elem_of_nil].
    destruct (negb (String.eqb (Tenant req) "") && negb (String.eqb (Tenant req) (TenantID t))) eqn:Et;
      [by intros []%not_elem_of_nil|].
    set (t' := if String.eqb (ReqClusterID req) "" then t else _).
    destruct (String.eqb (PrometheusJSON req) "" && String.eqb (CURRowsCSV req) ""); [by intros []%not_elem_of_nil|].
    assert (Tenant req = "" ∨ Tenant req = TenantID t) as Hten.
    { apply andb_false_iff in Et as [Et|Et]; apply negb_false_iff, String.eqb_eq in Et; auto. }
    intros Hp. exists t, req. split; [done|]. split; [done|].
    enough (persisted_tenant p = t' ∧ persisted_ok p) as [-> Hok].
    { subst t'. by destruct (String.eqb_spec (ReqClusterID req) ""). }
    destruct (prom_part h t' (PrometheusJSON req)) as [pr log] eqn:Epr.
    assert (∀ p, p ∈ log → persisted_tenant p = t' ∧ persisted_ok p) as Hlog
      by (intros q; pose proof (prom_part_log h t' (PrometheusJSON req) q) as Hq; by rewrite Epr in Hq).
    destruct pr as [n|e]; [|by apply Hlog].
    destruct (cur_part h t' (CURRowsCSV req)) as [cr log'] eqn:Ecr.
    assert (∀ p, p ∈ log' → persisted_tenant p = t' ∧ persisted_ok p) as Hlog'
      by (intros q; pose proof (cur_part_log h t' (CURRowsCSV req) q) as Hq; by rewrite Ecr in Hq).
    destruct cr; cbn in Hp; apply elem_of_app in Hp as [Hp|Hp]; auto.
  - intros t req Hm Hc Hb. unfold Ingest. rewrite Hm, Hc, Hb. cbn [String.eqb negb]. split.
    + intros [H1 H2]. rewrite (proj2 (String.eqb_neq _ _) H1), (proj2 (String.eqb_neq _ _) H2). done.
    + intros -> -> ->. done.
Qed.
End Facts.

(** ** Where the code and its comments part *)

Definition demo_ctx : go_context := Some (mkTenant "t-1" "" "c-1" "").
Definition keep_all : Handler := mkIngestHandler (Some (λ _ _, true)) (Some (λ _ _, true)).
Definition one_series : string :=
  let q := String dquote "" in
  "{" +:+ q +:+ "status" +:+ q +:+ ":" +:+ q +:+ "success" +:+ q +:+ "," +:+ q +:+ "data" +:+ q +:+ ":{" +:+
  q +:+ "resultType" +:+ q +:+ ":" +:+ q +:+ "matrix" +:+ q +:+ "," +:+ q +:+ "result" +:+ q +:+ ":[]}}".

(** "They must match the context, or the request is rejected": the cluster of the body is
    not compared but replaces the authenticated one; and a request that is answered with an
    error for its second part has already had its first part persisted. *)
Lemma ingest_divergences `{GoPlatform} :
  let r cl cur := mkRequest "POST" demo_ctx "" (Ok (mkIngest "t-1" cl one_series cur)) in
  Ingest keep_all (r "c-2" "") =
    (Ok (mkIngestResponse 0 0), [PersistedProm (mkTenant "t-1" "" "c-2" "") []]) ∧
  Ingest keep_all (r "" "no,header") =
    (Err (mkError 400 "CUR_PARSE_ERROR"), [PersistedProm (mkTenant "t-1" "" "c-1" "") []]).
Proof. split; vm_compute; reflexivity. Qed.
