(* ===== verification/Receipts.v ===== *)
(** Verified Receipts: the canonical payload, its signature and verification
    (backend/internal/receipts/receipts.go, canonical.go), the KMS signer
    (backend/internal/receipts/kms/kms.go), the workflow that issues a receipt
    (backend/internal/worker/workflows/receipt_issue.go) and the endpoint that shows it
    (backend/internal/receipts/handler.go). Instants are UTC. *)

From Stdlib Require Import Ascii.
From S2P Require Import Prelude GoNum GoStr Lines Utf8 GoTime Tenancy Sha256 Base64 Json Rfc3339 Csv Ingest.
Local Open Scope Z_scope.

(** The signature schemes of crypto/ed25519 and crypto/ecdsa, with the law the service
    relies on: what a private key signs, its public key verifies. *)
Class Signatures := {
  ed25519_public : string → string;
  ed25519_sign : string → string → string;
  ed25519_verify : string → string → string → bool;
  ed25519_correct priv m : String.length priv = 64%nat →
    ed25519_verify (ed25519_public priv) m (ed25519_sign priv m) = true;
  ed25519_public_length priv : String.length priv = 64%nat → String.length (ed25519_public priv) = 32%nat;
  ecdsa_verify : string → string → string → bool;
}.

Record Receipt := mkReceipt {
  ID : string; RTenantID : string; Workload : string; ApplyFixID : string;
  ObservedFromUTC : Z; ObservedToUTC : Z;
  PredictedSavingsUSDCents : Z; RealisedSavingsUSDCents : Z;
  CloudBillSource : string; IssuerKeyID : string; IssuedAtUTC : Z }.

Definition zero_receipt : Receipt := mkReceipt "" "" "" "" 0 0 0 0 "" "" 0.

Inductive error :=
  | MissingID | MissingTenant | MissingApplyFix | MissingIssuerKey | WindowUnset | WindowEmpty | IssuedUnset
  | EmptyKeyID | KeySize (n : nat) | ErrYear
  | Malformed | SignatureDecode | PayloadDecode | PayloadUnmarshal
  | NoAlgoRegistry | NotECDSA | UnknownKey | ErrSignature
  | PublicKeyPanic  (* ed25519.Verify panics on a public key of another length *)
  | KeyIDAlgorithm | KMSSign.

Definition Validate (r : Receipt) : option error :=
  if String.eqb (ID r) "" then Some MissingID
  else if String.eqb (RTenantID r) "" then Some MissingTenant
  else if String.eqb (ApplyFixID r) "" then Some MissingApplyFix
  else if String.eqb (IssuerKeyID r) "" then Some MissingIssuerKey
  else if time_IsZero (ObservedFromUTC r) || time_IsZero (ObservedToUTC r) then Some WindowUnset
  else if negb (time_after (ObservedToUTC r) (ObservedFromUTC r)) then Some WindowEmpty
  else if time_IsZero (IssuedAtUTC r) then Some IssuedUnset
  else None.

(** ** The canonical payload *)

Definition receipt_fields (r : Receipt) : list (string * scalar) :=
  [("id", VStr (ID r)); ("tenant_id", VStr (RTenantID r)); ("workload", VStr (Workload r));
   ("apply_fix_id", VStr (ApplyFixID r));
   ("observed_from_utc", VStr (format_rfc3339_nano (ObservedFromUTC r)));
   ("observed_to_utc", VStr (format_rfc3339_nano (ObservedToUTC r)));
   ("predicted_savings_usd_cents", VInt (PredictedSavingsUSDCents r));
   ("realised_savings_usd_cents", VInt (RealisedSavingsUSDCents r));
   ("cloud_bill_source", VStr (CloudBillSource r)); ("issuer_key_id", VStr (IssuerKeyID r));
   ("issued_at_utc", VStr (format_rfc3339_nano (IssuedAtUTC r)))].

(** [Time.MarshalJSON] refuses years that do not have four digits. *)
Definition year_ok (t : Z) : bool := between 0 9999 (year_of t).

Definition Canonical (r : Receipt) : result error string :=
  if year_ok (ObservedFromUTC r) && year_ok (ObservedToUTC r) && year_ok (IssuedAtUTC r)
  then Ok (encode_struct false (receipt_fields r)) else Err ErrYear.

Definition receipt_names : list string := map fst (receipt_fields zero_receipt).

(** [Time.UnmarshalJSON] reads the text between the quotes as it is written. *)
Definition assign_time (v : json) (old : Z) : option Z :=
  match v with JNull => Some old | JStr raw _ => parse_rfc3339 raw | _ => None end.

Definition assign_receipt (name : string) (v : json) (r : Receipt) : option Receipt :=
  let 'mkReceipt i t w a f o p s c k u := r in
  if String.eqb name "id" then option_map (λ x, mkReceipt x t w a f o p s c k u) (assign_string v i)
  else if String.eqb name "tenant_id" then option_map (λ x, mkReceipt i x w a f o p s c k u) (assign_string v t)
  else if String.eqb name "workload" then option_map (λ x, mkReceipt i t x a f o p s c k u) (assign_string v w)
  else if String.eqb name "apply_fix_id" then option_map (λ x, mkReceipt i t w x f o p s c k u) (assign_string v a)
  else if String.eqb name "observed_from_utc" then option_map (λ x, mkReceipt i t w a x o p s c k u) (assign_time v f)
  else if String.eqb name "observed_to_utc" then option_map (λ x, mkReceipt i t w a f x p s c k u) (assign_time v o)
  else if String.eqb name "predicted_savings_usd_cents"
    then option_map (λ x, mkReceipt i t w a f o x s c k u) (assign_int64 v p)
  else if String.eqb name "realised_savings_usd_cents"
    then option_map (λ x, mkReceipt i t w a f o p x c k u) (assign_int64 v s)
  else if String.eqb name "cloud_bill_source" then option_map (λ x, mkReceipt i t w a f o p s x k u) (assign_string v c)
  else if String.eqb name "issuer_key_id" then option_map (λ x, mkReceipt i t w a f o p s c x u) (assign_string v k)
  else option_map (λ x, mkReceipt i t w a f o p s c k x) (assign_time v u).

(** [unmarshal]: the first document of the bytes, unknown fields refused. *)
Definition unmarshal (payload : string) : option Receipt :=
  match decode_first payload with
  | Some v => into_struct receipt_names assign_receipt true v zero_receipt
  | None => None
  end.

(** ** Signing and verifying *)

Record Issuer := mkIssuer { keyID : string; privateKey : string }.

Definition NewIssuer (key priv : string) : result error Issuer :=
  if String.eqb key "" then Err EmptyKeyID
  else if negb (String.length priv =? 64)%nat then Err (KeySize (String.length priv))
  else Ok (mkIssuer key priv).

Definition with_key (r : Receipt) (key : string) : Receipt :=
  mkReceipt (ID r) (RTenantID r) (Workload r) (ApplyFixID r) (ObservedFromUTC r) (ObservedToUTC r)
    (PredictedSavingsUSDCents r) (RealisedSavingsUSDCents r) (CloudBillSource r) key (IssuedAtUTC r).

Definition StaticRegistry : Type := gmap string string.
Definition Add (s : StaticRegistry) (key pub : string) : StaticRegistry := <[key := pub]> s.

(** A registry looks a key id up; one that dispatches on algorithms also gives keys of
    either kind. *)
Inductive public_key := ECDSAKey (k : string) | OtherKey.
Record Registry := mkRegistry {
  PublicKey : string → option string;
  PublicKeyAny : option (string → option public_key) }.
Definition static (s : StaticRegistry) : Registry := mkRegistry (λ k, s !! k) None.

Definition wire (sig payload : string) : string := encode sig +:+ String "." (encode payload).

Section Signing.
Context `{!Signatures}.

Definition Sign (i : Issuer) (r : Receipt) : result error string :=
  let r := with_key r (keyID i) in
  match Validate r with
  | Some e => Err e
  | None => let* payload := Canonical r in Ok (wire (ed25519_sign (privateKey i) payload) payload)
  end.

(** The signature check of the algorithm the key id names. *)
Definition check_signature (reg : Registry) (r : Receipt) (payload sig : string) : result error Receipt :=
  if str_contains (IssuerKeyID r) "ecdsa-p256" then
    match PublicKeyAny reg with
    | None => Err NoAlgoRegistry
    | Some any =>
        match any (IssuerKeyID r) with
        | None => Err UnknownKey
        | Some OtherKey => Err NotECDSA
        | Some (ECDSAKey k) => if ecdsa_verify k (sha256 payload) sig then Ok r else Err ErrSignature
        end
    end
  else
    match PublicKey reg (IssuerKeyID r) with
    | None => Err UnknownKey
    | Some pub =>
        if negb (String.length pub =? 32)%nat then Err PublicKeyPanic
        else if ed25519_verify pub payload sig then Ok r else Err ErrSignature
    end.

Definition Verify (signed : string) (reg : Registry) : result error Receipt :=
  match cut_byte "." signed with
  | None => Err Malformed
  | Some (sigB64, payloadB64) =>
      match decode sigB64 with
      | None => Err SignatureDecode
      | Some sig =>
          match decode payloadB64 with
          | None => Err PayloadDecode
          | Some payload =>
              match unmarshal payload with
              | None => Err PayloadUnmarshal
              | Some r =>
                  match Validate r with
                  | Some e => Err e
                  | None => check_signature reg r payload sig
                  end
              end
          end
      end
  end.
End Signing.

(** ** The KMS signer *)

Record Signer := mkSigner { KeyID : string; Client : string → string → option string }.

Definition NewSigner (key : string) (client : option (string → string → option string)) : result error Signer :=
  if String.eqb key "" then Err EmptyKeyID
  else match client with
  | None => Err KMSSign
  | Some c => if negb (str_contains key "ecdsa-p256") then Err KeyIDAlgorithm else Ok (mkSigner key c)
  end.

Definition SignContext (s : Signer) (r : Receipt) : result error string :=
  let r := with_key r (KeyID s) in
  match Validate r with
  | Some e => Err e
  | None =>
      let* payload := Canonical r in
      match Client s (KeyID s) (sha256 payload) with
      | None => Err KMSSign
      | Some sig => Ok (wire sig payload)
      end
  end.

(** ** Facts *)

(** A receipt as its reader sees it: the invalid bytes of its strings replaced. *)
Definition as_read (r : Receipt) : Receipt :=
  mkReceipt (to_valid_utf8 (ID r)) (to_valid_utf8 (RTenantID r)) (to_valid_utf8 (Workload r))
    (to_valid_utf8 (ApplyFixID r)) (ObservedFromUTC r) (ObservedToUTC r)
    (PredictedSavingsUSDCents r) (RealisedSavingsUSDCents r) (to_valid_utf8 (CloudBillSource r))
    (to_valid_utf8 (IssuerKeyID r)) (IssuedAtUTC r).

Definition time_ok (t : Z) : Prop := 0 <= t ∧ year_of t <= 9999.

Lemma assign_formatted t old : time_ok t →
  assign_time (scalar_json false (VStr (format_rfc3339_nano t))) old = Some t.
Proof.
  intros [Ht Hy]. cbn [scalar_json assign_time]. rewrite quote_body_plain by (done || by apply format_nano_plain).
  by apply parse_format_nano.
Qed.

(** The eleven members in their order, each assigned to its field. *)
Lemma read_members ji jt jw ja jf jo jp js jc jk ju i t w a f o p s c k u :
  (∀ old, assign_string ji old = Some i) → (∀ old, assign_string jt old = Some t) →
  (∀ old, assign_string jw old = Some w) → (∀ old, assign_string ja old = Some a) →
  (∀ old, assign_time jf old = Some f) → (∀ old, assign_time jo old = Some o) →
  (∀ old, assign_int64 jp old = Some p) → (∀ old, assign_int64 js old = Some s) →
  (∀ old, assign_string jc old = Some c) → (∀ old, assign_string jk old = Some k) →
  (∀ old, assign_time ju old = Some u) →
  into_struct receipt_names assign_receipt true
    (JObj [("id", ji); ("tenant_id", jt); ("workload", jw); ("apply_fix_id", ja); ("observed_from_utc", jf);
      ("observed_to_utc", jo); ("predicted_savings_usd_cents", jp); ("realised_savings_usd_cents", js);
      ("cloud_bill_source", jc); ("issuer_key_id", jk); ("issued_at_utc", ju)]) zero_receipt =
  Some (mkReceipt i t w a f o p s c k u).
Proof.
  intros Hi Ht Hw Ha Hf Ho Hp Hs Hc Hk Hu. change receipt_names with
    ["id"; "tenant_id"; "workload"; "apply_fix_id"; "observed_from_utc"; "observed_to_utc";
     "predicted_savings_usd_cents"; "realised_savings_usd_cents"; "cloud_bill_source"; "issuer_key_id"; "issued_at_utc"].
  unfold into_struct, zero_receipt.
  repeat (cbn -[assign_string assign_time assign_int64];
    first [rewrite Hi|rewrite Ht|rewrite Hw|rewrite Ha|rewrite Hf|rewrite Ho|rewrite Hp|rewrite Hs|rewrite Hc|rewrite Hk|rewrite Hu]).
  done.
Qed.

Lemma unmarshal_canonical r payload : Canonical r = Ok payload →
  time_ok (ObservedFromUTC r) → time_ok (ObservedToUTC r) → time_ok (IssuedAtUTC r) →
  in_i64 (PredictedSavingsUSDCents r) → in_i64 (RealisedSavingsUSDCents r) →
  unmarshal payload = Some (as_read r).
Proof.
  unfold Canonical. destruct (_ && _); [|done]. intros [= <-] Hf Ht Hi Hp Hr. unfold unmarshal.
  erewrite decode_first_document by (apply parse_encode_struct; [done|by repeat constructor]).
  assert (∀ html z old, in_i64 z → assign_int64 (scalar_json html (VInt z)) old = Some z) as Eint
    by (intros; cbn [scalar_json assign_int64]; by apply parse_int_itoa).
  apply read_members; intros old; cbn [fst snd]; first [done | by apply assign_formatted | by apply Eint].
Qed.

Lemma Validate_as_read r : Validate r = None → Validate (as_read r) = None.
Proof.
  unfold Validate, as_read. cbn [ID RTenantID ApplyFixID IssuerKeyID ObservedFromUTC ObservedToUTC IssuedAtUTC].
  repeat match goal with |- context [String.eqb (to_valid_utf8 ?s) ""] =>
    let Hne := fresh "Hne" in destruct (String.eqb_spec s "") as [|Hne];
      [|rewrite (proj2 (String.eqb_neq _ _) (to_valid_nonempty _ Hne))]; [done|] end.
  done.
Qed.

Section Facts.
Context `{!Signatures}.

Lemma cut_wire sig payload : cut_byte "." (wire sig payload) = Some (encode sig, encode payload).
Proof. unfold wire. apply cut_byte_app, encode_no_dot. Qed.

Lemma year_ok_time t : 0 <= t → year_ok t = true → time_ok t.
Proof. unfold year_ok, between, time_ok. intros Ht Hy. bool_to_prop. lia. Qed.

(** C4 A receipt that was signed is verified by anyone who knows the issuer's public key: it
    reads back as the receipt that was signed, under the issuer's key id whatever id the
    caller had put in it, to the nanosecond of its three instants and the cent of its two
    amounts; against a registry that does not know the key, or whose key does not verify it,
    it is refused. *)
Theorem receipt_roundtrip (key priv signed : string) (i : Issuer) (r : Receipt) :
  NewIssuer key priv = Ok i → Sign i r = Ok signed →
  to_valid_utf8 key = key → str_contains key "ecdsa-p256" = false →
  0 <= ObservedFromUTC r → 0 <= ObservedToUTC r → 0 <= IssuedAtUTC r →
  in_i64 (PredictedSavingsUSDCents r) → in_i64 (RealisedSavingsUSDCents r) →
  ∃ payload, Canonical (with_key r key) = Ok payload ∧ Validate (as_read (with_key r key)) = None ∧
    ∀ reg, match PublicKey reg key with
      | None => Verify signed reg = Err UnknownKey
      | Some pub =>
          (pub = ed25519_public priv → Verify signed reg = Ok (as_read (with_key r key))) ∧
          (String.length pub = 32%nat → ed25519_verify pub payload (ed25519_sign priv payload) = false →
            Verify signed reg = Err ErrSignature)
      end.
Proof.
  intros Hi Hs Hkey Hec Hf Ht Hat Hp Hr. unfold NewIssuer in Hi.
  destruct (String.eqb key ""); [done|]. destruct (Nat.eqb_spec (String.length priv) 64) as [Hlen|]; [|done].
  injection Hi as <-. unfold Sign in Hs. cbn [keyID privateKey] in Hs.
  destruct (Validate (with_key r key)) eqn:Ev; [done|].
  destruct (Canonical (with_key r key)) as [payload|] eqn:Ec; [|done]. injection Hs as <-.
  pose proof (Validate_as_read _ Ev) as Ev'. exists payload. split; [done|]. split; [done|]. intros reg.
  assert (unmarshal payload = Some (as_read (with_key r key))) as Eu.
  { pose proof Ec as Hc. unfold Canonical in Hc. destruct (_ && _) eqn:Ey in Hc; [|done].
    apply andb_prop in Ey as [[Y1 Y2]%andb_prop Y3].
    apply unmarshal_canonical; try done; by apply year_ok_time. }
  assert (Verify (wire (ed25519_sign priv payload) payload) reg =
    check_signature reg (as_read (with_key r key)) payload (ed25519_sign priv payload)) as EV.
  { unfold Verify. by rewrite cut_wire, !decode_encode, Eu, Ev'. }
  unfold check_signature in EV. cbn [as_read IssuerKeyID with_key] in EV. rewrite Hkey, Hec in EV.
  destruct (PublicKey reg key) as [pub|]; [|done]. split.
  - intros ->. rewrite EV, ed25519_public_length, ed25519_correct by done. done.
  - intros Hl Hv. by rewrite EV, Hl, Hv.
Qed.

(** What the verifier trusts: it accepts only a signature and a payload in base64 of which
    the payload is a valid receipt, and the signature verifies that very payload under the key
    the registry has for the key id of the receipt, with the algorithm that key id names. *)
Theorem receipt_trusted (signed : string) (reg : Registry) (r : Receipt) :
  Verify signed reg = Ok r ↔
  ∃ s p sig payload, cut_byte "." signed = Some (s, p) ∧ decode s = Some sig ∧ decode p = Some payload ∧
    unmarshal payload = Some r ∧ Validate r = None ∧
    if str_contains (IssuerKeyID r) "ecdsa-p256"
    then ∃ any k, PublicKeyAny reg = Some any ∧ any (IssuerKeyID r) = Some (ECDSAKey k) ∧
      ecdsa_verify k (sha256 payload) sig = true
    else ∃ pub, PublicKey reg (IssuerKeyID r) = Some pub ∧ String.length pub = 32%nat ∧
      ed25519_verify pub payload sig = true.
Proof.
  split.
  - unfold Verify. destruct (cut_byte "." signed) as [[s p]|]; [|done]. destruct (decode s) as [sig|] eqn:Es; [|done].
    destruct (decode p) as [payload|] eqn:Ep; [|done]. destruct (unmarshal payload) as [r'|] eqn:Eu; [|done].
    destruct (Validate r') eqn:Ev; [done|]. unfold check_signature.
    destruct (str_contains (IssuerKeyID r') "ecdsa-p256") eqn:Ec.
    + destruct (PublicKeyAny reg) as [any|] eqn:Ea; [|done]. destruct (any (IssuerKeyID r')) as [[k|]|] eqn:Ek; try done.
      destruct (ecdsa_verify _ _ _) eqn:Evf; [|done]. intros [= <-]. exists s, p, sig, payload. rewrite Ec.
      split_and!; eauto.
    + destruct (PublicKey reg (IssuerKeyID r')) as [pub|] eqn:Ek; [|done].
      destruct (Nat.eqb_spec (String.length pub) 32); [|done]. cbn [negb].
      destruct (ed25519_verify _ _ _) eqn:Evf; [|done]. intros [= <-]. exists s, p, sig, payload. rewrite Ec.
      split_and!; eauto.
  - intros (s&p&sig&payload&Hc&Hs&Hp&Hu&Hv&Hk). unfold Verify. rewrite Hc, Hs, Hp, Hu, Hv. unfold check_signature.
    destruct (str_contains (IssuerKeyID r) "ecdsa-p256").
    + destruct Hk as (any&k&->&->&->). done.
    + destruct Hk as (pub&->&->&->). done.
Qed.
End Facts.

(** ** The workflow that issues a receipt, the store and the endpoint *)

Definition Store : Type := gmap string (string * Receipt).

(** [InMemoryStore.Save] and [Get]. *)
Definition Save (st : Store) (id signed : string) (r : Receipt) : option Store :=
  if String.eqb id "" then None else Some (<[id := (signed, r)]> st).
Definition Load (st : Store) (id : string) : option (string * Receipt) := st !! id.

Inductive workflow_error := NilIssuer | NilStore | Decode | SignErr (e : error) | SaveErr.

Definition read_payload (raw : string) : option Receipt :=
  match parse_document raw with
  | Some v => into_struct ["receipt"]
      (λ _ v r, into_struct receipt_names assign_receipt false v r) false v zero_receipt
  | None => None
  end.

Definition issued_at (r : Receipt) (now : Z) : Receipt :=
  if time_IsZero (IssuedAtUTC r) then
    mkReceipt (ID r) (RTenantID r) (Workload r) (ApplyFixID r) (ObservedFromUTC r) (ObservedToUTC r)
      (PredictedSavingsUSDCents r) (RealisedSavingsUSDCents r) (CloudBillSource r) (IssuerKeyID r) now
  else r.

Record VerifyResponse := mkVerifyResponse {
  RespReceipt : Receipt; RespSigned : string; Verified : bool; RespIssuerKeyID : string }.

Section Workflow.
Context `{!Signatures}.

Definition Execute (issuer : option Issuer) (store : option Store) (now : Z) (t : TenantContext) (raw : string) :
    result workflow_error Store :=
  match issuer, store with
  | None, _ => Err NilIssuer
  | _, None => Err NilStore
  | Some i, Some st =>
      match read_payload raw with
      | None => Err Decode
      | Some r =>
          let r := issued_at r now in
          match Sign i r with
          | Err e => Err (SignErr e)
          | Ok signed => match Save st (ID r) signed r with None => Err SaveErr | Some st => Ok st end
          end
      end
  end.

(** [GET /v1/receipts/{id}]. *)
Definition Get (st : Store) (reg : option Registry) (method id : string) : result Ingest.Error VerifyResponse :=
  if negb (String.eqb method "GET") then Err MethodNotAllowed
  else if String.eqb id "" then Err MissingField
  else match Load st id with
  | None => Err (mkError 404 "NOT_FOUND")
  | Some (signed, parsed) =>
      let verified := match reg with
        | Some reg => match Verify signed reg with Ok _ => true | Err _ => false end
        | None => false end in
      Ok (mkVerifyResponse parsed signed verified (IssuerKeyID parsed))
  end.
End Workflow.

(** ** Amounts on the verifier page *)

(** [withCommas]: groups of three from the right; the first has the odd digits. *)
Fixpoint comma_groups (fuel : nat) (s : string) : string :=
  match fuel with
  | O => EmptyString
  | S fuel =>
      if (String.length s <=? 3)%nat then s else str_take 3 s +:+ "," +:+ comma_groups fuel (str_drop 3 s)
  end.
Definition withCommas (n : Z) : string :=
  let s := itoa n in
  if (String.length s <=? 3)%nat then s
  else
    let r := Nat.modulo (String.length s) 3 in
    if (r =? 0)%nat then comma_groups (String.length s) s
    else str_take r s +:+ "," +:+ comma_groups (String.length s) (str_drop r s).

Definition fmtCentsUSD (cents : Z) : string :=
  let neg := cents <? 0 in
  let cents := if neg then i64_neg cents else cents in
  (if neg then "-" else "") +:+ "$" +:+ withCommas (Z.quot cents 100) +:+ "." +:+
  append_int 2 (Z.rem cents 100).

Example fmtCentsUSD_examples :
  fmtCentsUSD 123456789 = "$1,234,567.89" ∧ fmtCentsUSD (-5) = "-$0.05" ∧ fmtCentsUSD 12345600 = "$123,456.00".
Proof. vm_compute. auto. Qed.

(** ** An instance of the schemes, and where the code and its comments part *)

(** Tags stand in for signatures: the law of the class holds of them. *)
Program Definition tag_signatures : Signatures := {|
  ed25519_public priv := str_take 32 priv;
  ed25519_sign priv m := str_take 32 priv +:+ m;
  ed25519_verify pub m sig := String.eqb sig (pub +:+ m);
  ecdsa_verify k d sig := String.eqb sig (k +:+ d);
|}.
Next Obligation. intros. apply String.eqb_refl. Qed.
Next Obligation. intros priv Hl. rewrite str_take_length, Hl. done. Qed.

Definition demo_priv : string := "0123456789abcdef0123456789abcdefFEDCBA9876543210FEDCBA9876543210".
Definition demo_from : Z := 63900000000 * Second.
Definition demo_receipt : Receipt :=
  mkReceipt "rcpt-1" "t-1" "web" "fix-9" demo_from (demo_from + 30 * Day) 120000 98000 "aws-cur" "" (demo_from + 31 * Day + 5).

Lemma receipt_roundtrip_witness : ∃ i signed,
  NewIssuer "optiqor-receipt-2026" demo_priv = Ok i ∧
  @Sign tag_signatures i demo_receipt = Ok signed ∧
  @Verify tag_signatures signed (static {["optiqor-receipt-2026" := str_take 32 demo_priv]}) =
    Ok (with_key demo_receipt "optiqor-receipt-2026").
Proof.
  eexists _, _. split; [reflexivity|]. split; [vm_compute; reflexivity|].
  destruct (@receipt_roundtrip tag_signatures "optiqor-receipt-2026" demo_priv _ _ demo_receipt
    eq_refl ltac:(vm_compute; reflexivity) eq_refl eq_refl) as (payload&_&_&Hv); [by vm_compute..|].
  specialize (Hv (static {["optiqor-receipt-2026" := str_take 32 demo_priv]})).
  cbn [PublicKey static] in Hv.
  assert (({["optiqor-receipt-2026" := str_take 32 demo_priv]} : StaticRegistry) !! "optiqor-receipt-2026" =
    Some (str_take 32 demo_priv)) as E by by vm_compute.
  rewrite E in Hv. by apply Hv.
Defined.

(** The workflow stores the receipt as it was submitted, not as it was signed: the signer
    fills in the key id of a copy, so the stored receipt, which the endpoint shows as
    verified, has none; nor is the tenant of the receipt compared with the tenant of the
    workflow. *)
Lemma issued_receipt_divergences :
  let q s := String dquote (s +:+ String dquote "") in
  let raw := "{" +:+ q "receipt" +:+ ":{" +:+
    join "," [q "id" +:+ ":" +:+ q "rcpt-1"; q "tenant_id" +:+ ":" +:+ q "t-1"; q "apply_fix_id" +:+ ":" +:+ q "fix-9";
      q "observed_from_utc" +:+ ":" +:+ q "2026-01-01T00:00:00Z"; q "observed_to_utc" +:+ ":" +:+ q "2026-02-01T00:00:00Z"]
    +:+ "}}" in
  ∃ st resp, @Execute tag_signatures (Some (mkIssuer "k1" demo_priv)) (Some ∅) demo_from
      (mkTenant "another-tenant" "" "" "") raw = Ok st ∧
    @Get tag_signatures st (Some (static {["k1" := str_take 32 demo_priv]})) "GET" "rcpt-1" = Ok resp ∧
    Verified resp = true ∧ RespIssuerKeyID resp = "" ∧ IssuerKeyID (RespReceipt resp) = "" ∧
    RTenantID (RespReceipt resp) = "t-1".
Proof. eexists _, _. split; [vm_compute; reflexivity|]. split; [vm_compute; reflexivity|]. vm_compute. auto. Qed.
