(* ===== verification/Attribution.v ===== *)
(** What happens when an Apply Fix pull request is merged: the webhook
    (backend/internal/applyfix/attribution/event.go) and the handler that comments and marks
    the fix as merged (backend/internal/applyfix/attribution/attribution.go). *)

From Stdlib Require Import Ascii.
From S2P Require Import Prelude GoNum GoStr GoTime Tenancy Json Rfc3339 Csv Receipts.
Local Open Scope Z_scope.

Record MergedEvent := mkEvent {
  Provider : string; InstallationID : Z; RepoOwner : string; RepoName : string; PRNumber : Z; MergedAt : Z }.

Record Row := mkRow {
  RowID : string; RowTenantID : string; PRURL : string; RowWorkload : string; RowTitle : string;
  MonthlySavingsUSDCents : Z }.

(** ** The webhook *)

Record Payload := mkPayload {
  Action : string; Number : Z; Merged : bool; PMergedAt : Z; HTMLURL : string; RName : string; Login : string;
  InstID : Z }.

Definition assign_bool (v : json) (old : bool) : option bool :=
  match v with JNull => Some old | JBool b => Some b | _ => None end.

Definition assign_pull (name : string) (v : json) (p : Payload) : option Payload :=
  let 'mkPayload a n m t h r l i := p in
  if String.eqb name "number" then option_map (λ n, mkPayload a n m t h r l i) (assign_int64 v n)
  else if String.eqb name "merged" then option_map (λ m, mkPayload a n m t h r l i) (assign_bool v m)
  else if String.eqb name "merged_at" then option_map (λ t, mkPayload a n m t h r l i) (assign_time v t)
  else option_map (λ h, mkPayload a n m t h r l i) (assign_string v h).
Definition assign_owner (name : string) (v : json) (p : Payload) : option Payload :=
  let 'mkPayload a n m t h r l i := p in option_map (λ l, mkPayload a n m t h r l i) (assign_string v l).
Definition assign_repository (name : string) (v : json) (p : Payload) : option Payload :=
  let 'mkPayload a n m t h r l i := p in
  if String.eqb name "name" then option_map (λ r, mkPayload a n m t h r l i) (assign_string v r)
  else into_struct ["login"] assign_owner false v p.
Definition assign_installation (name : string) (v : json) (p : Payload) : option Payload :=
  let 'mkPayload a n m t h r l i := p in option_map (λ i, mkPayload a n m t h r l i) (assign_int64 v i).
Definition assign_payload (name : string) (v : json) (p : Payload) : option Payload :=
  let 'mkPayload a n m t h r l i := p in
  if String.eqb name "action" then option_map (λ a, mkPayload a n m t h r l i) (assign_string v a)
  else if String.eqb name "pull_request" then into_struct ["number"; "merged"; "merged_at"; "html_url"] assign_pull false v p
  else if String.eqb name "repository" then into_struct ["name"; "owner"] assign_repository false v p
  else into_struct ["id"] assign_installation false v p.

Definition read_payload (body : string) : option Payload :=
  match parse_document body with
  | Some v => into_struct ["action"; "pull_request"; "repository"; "installation"] assign_payload false v
      (mkPayload "" 0 false 0 "" "" "" 0)
  | None => None
  end.

Inductive webhook_error := ErrParse | ErrNotMerged | ErrMissingFields.

Definition ParseGitHub (body : string) : result webhook_error MergedEvent :=
  match read_payload body with
  | None => Err ErrParse
  | Some p =>
      if negb (String.eqb (Action p) "closed") || negb (Merged p) then Err ErrNotMerged
      else if String.eqb (Login p) "" || String.eqb (RName p) "" || (Number p =? 0) then Err ErrMissingFields
      else Ok (mkEvent "github" (InstID p) (Login p) (RName p) (Number p) (PMergedAt p))
  end.

(** ** The comment *)

Definition nl : string := String Lines.newline "".
(** The middle dot and the em dash of the text, in UTF-8. *)
Definition middle_dot : string := bytes [194; 183]%nat.
Definition em_dash : string := bytes [226; 128; 148]%nat.
Definition backtick : string := "`".

Definition fmtUSD (cents : Z) : string :=
  if cents =? 0 then "$0"
  else
    let d := Z.quot cents 100 in let c := Z.rem cents 100 in
    if c =? 0 then "$" +:+ itoa d else "$" +:+ itoa d +:+ "." +:+ append_int 2 c.

Definition FormatComment (r : Row) (mergedAt : Z) : string :=
  "## Apply Fix merged" +:+ nl +:+ nl +:+
  (if 0 <? MonthlySavingsUSDCents r then
     "Expected savings: **" +:+ fmtUSD (MonthlySavingsUSDCents r) +:+ " / month** " +:+ middle_dot +:+ " ~" +:+
     fmtUSD (i64_mul (MonthlySavingsUSDCents r) 12) +:+ " / year." +:+ nl +:+ nl
   else "Expected savings: pending Receipt issuance." +:+ nl +:+ nl) +:+
  (if String.eqb (RowWorkload r) "" then "" else "Workload: " +:+ backtick +:+ RowWorkload r +:+ backtick +:+ nl) +:+
  (if String.eqb (RowTitle r) "" then "" else "Finding: " +:+ RowTitle r +:+ nl) +:+
  "Merged at: " +:+ format_rfc3339 mergedAt +:+ nl +:+ nl +:+
  "A signed Receipt comparing predicted vs realised savings against your AWS bill arrives 30 days from merge. " +:+
  "If post-merge metrics breach the 7-day baseline, the Auto-Rollback watchdog opens a revert PR." +:+ nl +:+ nl +:+
  "<sub>optiqor.dev " +:+ em_dash +:+ " cost attribution follow-up</sub>" +:+ nl.

(** ** The handler *)

(** The three dependencies; each may fail. *)
Record Handler := mkHandler {
  ResolveInstallation : string → Z → option string;
  LookupByRepoPR : TenantContext → string → Z → option Row;
  Post : TenantContext → string → string → Z → string → bool;
  MarkMerged : TenantContext → string → Z → bool }.

Inductive merge_error := ErrIncomplete | ErrResolve | ErrTenant | ErrLookup | ErrPost | ErrMark.

(** The calls with an effect, in order. *)
Inductive effect :=
  | Posted (t : TenantContext) (owner repo : string) (pr : Z) (body : string)
  | Marked (t : TenantContext) (id : string) (mergedAt : Z).

Definition tenant_only (id : string) : TenantContext := mkTenant id "" "" "".

Definition OnMerged (h : Handler) (now : Z) (ev : MergedEvent) : result merge_error unit * list effect :=
  if (PRNumber ev <=? 0) || String.eqb (RepoOwner ev) "" || String.eqb (RepoName ev) "" then (Err ErrIncomplete, [])
  else match ResolveInstallation h (Provider ev) (InstallationID ev) with
  | None => (Err ErrResolve, [])
  | Some tenantID =>
      let t := tenant_only tenantID in
      match TenantContext_Validate t with
      | Some _ => (Err ErrTenant, [])
      | None =>
          match LookupByRepoPR h t (RepoOwner ev +:+ "/" +:+ RepoName ev) (PRNumber ev) with
          | None => (Err ErrLookup, [])
          | Some row =>
              let mergedAt := if time_IsZero (MergedAt ev) then now else MergedAt ev in
              let body := FormatComment row mergedAt in
              let posted := Posted t (RepoOwner ev) (RepoName ev) (PRNumber ev) body in
              if negb (Post h t (RepoOwner ev) (RepoName ev) (PRNumber ev) body) then (Err ErrPost, [posted])
              else
                let marked := Marked t (RowID row) mergedAt in
                if negb (MarkMerged h t (RowID row) mergedAt) then (Err ErrMark, [posted; marked])
                else (Ok tt, [posted; marked])
          end
      end
  end.

(** The route: parse, then handle. *)
Definition on_webhook (h : Handler) (now : Z) (body : string) : list effect :=
  match ParseGitHub body with Err _ => [] | Ok ev => (OnMerged h now ev).2 end.

(** ** Facts *)

Lemma ParseGitHub_Ok body ev : ParseGitHub body = Ok ev → ∃ p, read_payload body = Some p ∧
  Action p = "closed" ∧ Merged p = true ∧
  ev = mkEvent "github" (InstID p) (Login p) (RName p) (Number p) (PMergedAt p) ∧
  Login p ≠ "" ∧ RName p ≠ "" ∧ Number p ≠ 0.
Proof.
  unfold ParseGitHub. destruct (read_payload body) as [p|]; [|done].
  destruct (String.eqb_spec (Action p) "closed"); [|done]. destruct (Merged p) eqn:Em; [|done]. cbn [negb orb].
  destruct (String.eqb_spec (Login p) ""); [done|]. destruct (String.eqb_spec (RName p) ""); [done|].
  destruct (Z.eqb_spec (Number p) 0); [done|]. intros [= <-]. eauto 10.
Qed.

(** A webhook has an effect only if it reports a merged pull request of an installation
    that resolves to a tenant with a fix for that very repository and number: then the comment
    is posted on that pull request as that tenant, once and first, and the fix is marked merged
    - as the same tenant, with the same instant the comment shows - only once the comment is
    posted; the handler succeeds exactly when both calls do. *)
Theorem webhook_effects (h : Handler) (now : Z) (body : string) :
  (∀ e, e ∈ on_webhook h now body → ∃ p tenant row, read_payload body = Some p ∧
    Action p = "closed" ∧ Merged p = true ∧ 0 < Number p ∧
    ResolveInstallation h "github" (InstID p) = Some tenant ∧ tenant ≠ "" ∧
    LookupByRepoPR h (tenant_only tenant) (Login p +:+ "/" +:+ RName p) (Number p) = Some row ∧
    let mergedAt := if time_IsZero (PMergedAt p) then now else PMergedAt p in
    let posted := Posted (tenant_only tenant) (Login p) (RName p) (Number p) (FormatComment row mergedAt) in
    (e = posted ∨ e = Marked (tenant_only tenant) (RowID row) mergedAt ∧
      Post h (tenant_only tenant) (Login p) (RName p) (Number p) (FormatComment row mergedAt) = true) ∧
    head (on_webhook h now body) = Some posted ∧ (length (on_webhook h now body) <= 2)%nat) ∧
  (∀ ev, ParseGitHub body = Ok ev → (OnMerged h now ev).1 = Ok tt ↔
    ∃ t owner repo pr text id at_, (OnMerged h now ev).2 = [Posted t owner repo pr text; Marked t id at_] ∧
      Post h t owner repo pr text = true ∧ MarkMerged h t id at_ = true).
Proof.
  unfold on_webhook. split.
  - intros e. destruct (ParseGitHub body) as [ev|] eqn:Ep; [|by intros []%not_elem_of_nil].
    apply ParseGitHub_Ok in Ep as (p&Hp&Ha&Hm&->&Hl&Hr&Hn). unfold OnMerged.
    cbn [PRNumber RepoOwner RepoName Provider InstallationID MergedAt].
    rewrite (proj2 (String.eqb_neq _ _) Hl), (proj2 (String.eqb_neq _ _) Hr), !orb_false_r.
    destruct (Z.leb_spec (Number p) 0); [by intros []%not_elem_of_nil|].
    destruct (ResolveInstallation h "github" (InstID p)) as [tenant|] eqn:Et; [|by intros []%not_elem_of_nil].
    destruct (TenantContext_Validate (tenant_only tenant)) eqn:Ev; [by intros []%not_elem_of_nil|].
    apply validate_iff in Ev. cbn in Ev.
    destruct (LookupByRepoPR h _ _ _) as [row|] eqn:El; [|by intros []%not_elem_of_nil].
    set (at_ := if time_IsZero (PMergedAt p) then now else PMergedAt p).
    destruct (Post h (tenant_only tenant) (Login p) (RName p) (Number p) (FormatComment row at_)) eqn:Epo; cbn [negb].
    + destruct (MarkMerged h (tenant_only tenant) (RowID row) at_); cbn [negb snd];
        intros He; exists p, tenant, row; (split_and!; [done..| |done|cbn; lia]);
        (apply elem_of_cons in He as [->|He]; [by left|]; apply list_elem_of_singleton in He as ->; by right).
    + intros ->%list_elem_of_singleton. exists p, tenant, row. split_and!; try done; [by left|cbn; lia].
  - intros ev _. unfold OnMerged. destruct (_ || _); [split; [done|naive_solver]|].
    destruct (ResolveInstallation _ _ _) as [tenant|]; [|split; [done|naive_solver]].
    destruct (TenantContext_Validate _); [split; [done|naive_solver]|].
    destruct (LookupByRepoPR h _ _ _) as [row|]; [|split; [done|naive_solver]].
    set (at_ := if time_IsZero (MergedAt ev) then now else MergedAt ev).
    destruct (Post h _ _ _ _ _) eqn:Epo; cbn [negb]; [|split; [done|naive_solver]].
    destruct (MarkMerged h _ _ _) eqn:Emk; cbn [negb fst snd]; split; try done.
    + intros _. do 7 eexists. split; [reflexivity|]. done.
    + intros (t&owner&repo&pr&text&id&at2&E&_&Hmk). exfalso. injection E. intros. subst. congruence.
Qed.

Definition demo_row : Row := mkRow "fix-9" "t-1" "" "web" "Over-provisioned CPU" 123456.
Definition demo_handler : Handler :=
  mkHandler (λ _ i, if i =? 7 then Some "t-1" else None) (λ _ repo n, if (n =? 42) && String.eqb repo "acme/shop" then Some demo_row else None)
    (λ _ _ _ _ _, true) (λ _ _ _, true).
Definition quoted (s : string) : string := String dquote (s +:+ String dquote "").
Definition merged_webhook : string :=
  "{" +:+ quoted "action" +:+ ":" +:+ quoted "closed" +:+ "," +:+ quoted "pull_request" +:+ ":{" +:+ quoted "number" +:+ ":42," +:+
  quoted "merged" +:+ ":true," +:+ quoted "merged_at" +:+ ":null}," +:+ quoted "repository" +:+ ":{" +:+ quoted "name" +:+ ":" +:+
  quoted "shop" +:+ "," +:+ quoted "owner" +:+ ":{" +:+ quoted "login" +:+ ":" +:+ quoted "acme" +:+ "}}," +:+
  quoted "installation" +:+ ":{" +:+ quoted "id" +:+ ":7}}".

(** "Rerunning the handler produces byte-identical output": not for an event without the
    instant of the merge, which is read off the clock. *)
Lemma attribution_divergences :
  let t1 := 63900000000 * Second in let t2 := t1 + Minute in
  (∃ a b, on_webhook demo_handler t1 merged_webhook = [Posted (tenant_only "t-1") "acme" "shop" 42 a; Marked (tenant_only "t-1") "fix-9" t1] ∧
    on_webhook demo_handler t2 merged_webhook = [Posted (tenant_only "t-1") "acme" "shop" 42 b; Marked (tenant_only "t-1") "fix-9" t2] ∧
    a ≠ b).
Proof. eexists _, _. split; [vm_compute; reflexivity|]. split; [vm_compute; reflexivity|]. discriminate. Qed.
