(* ===== verification/PrLabels.v ===== *)
(** The policy in a pull request's labels (backend/internal/prwriter/labels/labels.go), with
    [time.ParseDuration], and the two-sentence summary of a change
    (backend/internal/prwriter/narrative/narrative.go). *)

From Stdlib Require Import Ascii.
From S2P Require Import Prelude GoNum GoStr Lines Utf8 GoTime.
Local Open Scope Z_scope.

(** ** [time.ParseDuration] *)

(** Leading digits; [None] when the value passes 2^63. *)
Fixpoint leading_int (x : Z) (s : string) : option (Z * string) :=
  match s with
  | String c r =>
      match digit_val c with
      | None => Some (x, s)
      | Some d =>
          if 2^63 / 10 <? x then None
          else let x := x * 10 + d in if 2^63 <? x then None else leading_int x r
      end
  | EmptyString => Some (x, s)
  end.

(** Digits after the point: those that do not fit are dropped; [scale] is 10 to the number of
    those kept, in float64. *)
Fixpoint leading_fraction (x : Z) (scale : float64) (overflow : bool) (s : string) : Z * float64 * string :=
  match s with
  | String c r =>
      match digit_val c with
      | None => (x, scale, s)
      | Some d =>
          if overflow || ((2^63 - 1) / 10 <? x) then leading_fraction x scale true r
          else
            let y := x * 10 + d in
            if 2^63 <? y then leading_fraction x scale true r
            else leading_fraction y (f_mul scale (f_of_Z 10)) false r
      end
  | EmptyString => (x, scale, s)
  end.

(** The unit runs to the next digit or point. *)
Fixpoint take_unit (s : string) : string * string :=
  match s with
  | String c r =>
      match digit_val c with
      | Some _ => ("", s)
      | None => if byte_val c =? 46 then ("", s) else let '(u, t) := take_unit r in (String c u, t)
      end
  | EmptyString => ("", "")
  end.

Definition unit_ns (u : string) : option Z :=
  if String.eqb u "ns" then Some 1
  else if String.eqb u "us" || String.eqb u (bytes [194; 181; 115]%nat) || String.eqb u (bytes [206; 188; 115]%nat)
  then Some 1000
  else if String.eqb u "ms" then Some 1000000
  else if String.eqb u "s" then Some Second
  else if String.eqb u "m" then Some Minute
  else if String.eqb u "h" then Some Hour
  else None.

Section Duration.
Context `{!GoPlatform}.

(** One "digits unit" of the duration: nanoseconds and the rest. *)
Definition duration_part (s : string) : option (Z * string) :=
  match s with
  | EmptyString => None
  | String c _ =>
      if negb ((byte_val c =? 46) || match digit_val c with Some _ => true | None => false end) then None else
      match leading_int 0 s with
      | None => None
      | Some (v, s1) =>
          let pre := negb (String.length s1 =? String.length s)%nat in
          let '(f, scale, s2, post) :=
            match s1 with
            | String "." t =>
                let '(f, scale, t') := leading_fraction 0 (f_of_Z 1) false t in
                (f, scale, t', negb (String.length t' =? String.length t)%nat)
            | _ => (0, f_of_Z 1, s1, false)
            end in
          if negb (pre || post) then None else
          let '(u, s3) := take_unit s2 in
          match unit_ns u with
          | None => None
          | Some unit =>
              if 2^63 / unit <? v then None
              else
                let v := v * unit in
                let v := if 0 <? f then v + f_to_i64 (f_mul (f_of_Z f) (f_div (f_of_Z unit) scale)) else v in
                if (0 <? f) && (2^63 <? v) then None else Some (v, s3)
          end
      end
  end.

(** The parts add up; every part takes at least a digit and a unit. *)
Fixpoint duration_parts (fuel : nat) (d : Z) (s : string) : option Z :=
  match s with
  | EmptyString => Some d
  | _ =>
      match fuel with
      | O => None
      | S fuel =>
          match duration_part s with
          | None => None
          | Some (v, s) => let d := d + v in if 2^63 <? d then None else duration_parts fuel d s
          end
      end
  end.

Definition ParseDuration (s : string) : option Z :=
  let '(neg, s) := match s with String "-" t => (true, t) | String "+" t => (false, t) | _ => (false, s) end in
  if String.eqb s "0" then Some 0
  else if String.eqb s "" then None
  else match duration_parts (String.length s) 0 s with
  | None => None
  | Some d => if neg then Some (wrap64 (- d)) else if 2^63 - 1 <? d then None else Some d
  end.

(** ** Labels *)

Record Policy := mkPolicy {
  Skip : bool; BudgetUSDSet : bool; BudgetUSD : float64; WaitForProm : Z; UnknownLabels : list string }.
Definition no_policy : Policy := mkPolicy false false (f_zero false) 0 [].

Definition splitKV (label : string) : string * string * bool :=
  let body := trim_prefix label "optiqor:" in
  match cut_byte "=" body with Some (k, v) => (k, v, true) | None => (body, "", false) end.

Inductive label_error := ErrBudgetEmpty | ErrBudgetNumber | ErrBudgetNegative
  | ErrWaitEmpty | ErrWaitDays | ErrWaitNegative | ErrWaitDuration.

Definition parseBudget (s : string) : result label_error float64 :=
  let s := trim_space (trim_prefix (trim_space s) "$") in
  if String.eqb s "" then Err ErrBudgetEmpty
  else match parse_float s with
  | None => Err ErrBudgetNumber
  | Some n => if f_lt n (f_zero false) then Err ErrBudgetNegative else Ok n
  end.

Definition parseDuration (s : string) : result label_error Z :=
  let s := trim_space s in
  if String.eqb s "" then Err ErrWaitEmpty
  else if has_suffix s "d" then
    match parse_int (trim_suffix s "d") with
    | None => Err ErrWaitDays
    | Some days => if days <? 0 then Err ErrWaitNegative else Ok (i64_mul (i64_mul days 24) Hour)
    end
  else match ParseDuration s with None => Err ErrWaitDuration | Some d => Ok d end.

(** One label folded into the policy; the error comes with the policy so far. *)
Definition parse_label (p : Policy) (raw : string) : result label_error Policy :=
  let l := trim_space raw in
  if negb (has_prefix l "optiqor:") then Ok p
  else
    let '(key, value, ok) := splitKV l in
    if String.eqb key "skip" && negb ok then
      Ok (mkPolicy true (BudgetUSDSet p) (BudgetUSD p) (WaitForProm p) (UnknownLabels p))
    else if String.eqb key "budget" && ok then
      let* n := parseBudget value in Ok (mkPolicy (Skip p) true n (WaitForProm p) (UnknownLabels p))
    else if String.eqb key "wait-for-prom" && ok then
      let* d := parseDuration value in Ok (mkPolicy (Skip p) (BudgetUSDSet p) (BudgetUSD p) d (UnknownLabels p))
    else Ok (mkPolicy (Skip p) (BudgetUSDSet p) (BudgetUSD p) (WaitForProm p) (UnknownLabels p ++ [raw])).

Fixpoint parse_labels (p : Policy) (raw : list string) : result (Policy * label_error) Policy :=
  match raw with
  | [] => Ok p
  | l :: raw => match parse_label p l with Err e => Err (p, e) | Ok p => parse_labels p raw end
  end.
Definition Parse (raw : list string) : result (Policy * label_error) Policy := parse_labels no_policy raw.
End Duration.

(** ** Facts about labels *)

(** What a label is: another tool's, ours to skip, ours with a value, or one of ours that is
    not known. *)
Definition ours (raw : string) : bool := has_prefix (trim_space raw) "optiqor:".
Definition is_kv (key : string) (with_value : bool) (raw : string) : bool :=
  ours raw && (let '(k, _, ok) := splitKV (trim_space raw) in String.eqb k key && Bool.eqb ok with_value).
Definition unknown (raw : string) : bool :=
  ours raw && negb (is_kv "skip" false raw) && negb (is_kv "budget" true raw) && negb (is_kv "wait-for-prom" true raw).
Definition value_of (raw : string) : string := (splitKV (trim_space raw)).1.2.

Section Labels.
Context `{!GoPlatform}.

(** The four kinds of label and what each does to the policy. *)
Lemma parse_label_cases p raw :
  (ours raw = false ∧ parse_label p raw = Ok p) ∨
  (is_kv "skip" false raw = true ∧ unknown raw = false ∧
    parse_label p raw = Ok (mkPolicy true (BudgetUSDSet p) (BudgetUSD p) (WaitForProm p) (UnknownLabels p))) ∨
  (is_kv "skip" false raw = false ∧ is_kv "budget" true raw = true ∧ unknown raw = false ∧
    parse_label p raw = rbind (parseBudget (value_of raw)) (λ n, Ok (mkPolicy (Skip p) true n (WaitForProm p) (UnknownLabels p)))) ∨
  (is_kv "skip" false raw = false ∧ is_kv "wait-for-prom" true raw = true ∧ unknown raw = false ∧
    parse_label p raw = rbind (parseDuration (value_of raw)) (λ d, Ok (mkPolicy (Skip p) (BudgetUSDSet p) (BudgetUSD p) d (UnknownLabels p)))) ∨
  (is_kv "skip" false raw = false ∧ unknown raw = true ∧
    parse_label p raw = Ok (mkPolicy (Skip p) (BudgetUSDSet p) (BudgetUSD p) (WaitForProm p) (UnknownLabels p ++ [raw]))).
Proof.
  unfold parse_label, unknown, is_kv, ours, value_of.
  destruct (has_prefix (trim_space raw) "optiqor:"); cbn [negb andb]; [|by left]. right.
  destruct (splitKV (trim_space raw)) as [[k v] ok]. cbn [fst snd].
  destruct (String.eqb_spec k "skip") as [->|H1], ok; cbn [negb andb orb Bool.eqb String.eqb]; try (left; by split_and!);
    try (right; right; right; by split_and!).
  - destruct (String.eqb_spec k "budget") as [->|H2]; cbn; [right; left; by split_and!|].
    destruct (String.eqb_spec k "wait-for-prom") as [->|H3]; cbn; [right; right; left; by split_and!|].
    right; right; right; by split_and!.
  - destruct (String.eqb_spec k "budget"), (String.eqb_spec k "wait-for-prom"); cbn; right; right; right; by split_and!.
Qed.

Lemma parse_labels_app p a b :
  parse_labels p (a ++ b) = match parse_labels p a with Ok q => parse_labels q b | Err e => Err e end.
Proof. revert p. induction a as [|l a IH]; intros p; cbn; [done|]. destruct (parse_label p l); [apply IH|done]. Qed.

Lemma parse_labels_Ok p raw q : parse_labels p raw = Ok q →
  UnknownLabels q = UnknownLabels p ++ List.filter unknown raw ∧
  Skip q = Skip p || existsb (is_kv "skip" false) raw.
Proof.
  revert p. induction raw as [|l raw IH]; intros p; cbn [parse_labels List.filter existsb].
  { intros [= <-]. by rewrite app_nil_r, orb_false_r. }
  assert (ours l = false → unknown l = false ∧ is_kv "skip" false l = false) as Hours
    by (unfold unknown, is_kv; by intros ->).
  destruct (parse_label_cases p l) as [(Ho&->)|[(Hs&Hu&->)|[(Hs&_&Hu&E)|[(Hs&_&Hu&E)|(Hs&Hu&->)]]]].
  - destruct (Hours Ho) as [-> ->]. apply IH.
  - rewrite Hs, Hu. intros [H1 H2]%IH. cbn in *. rewrite H1, H2. by destruct (Skip p).
  - rewrite Hs, Hu, E. destruct (parseBudget _); [|done]. cbn. by intros [H1 H2]%IH.
  - rewrite Hs, Hu, E. destruct (parseDuration _); [|done]. cbn. by intros [H1 H2]%IH.
  - rewrite Hs, Hu. intros [H1 H2]%IH. cbn in *. by rewrite H1, H2, <-app_assoc.
Qed.

(** The policy in the labels of a pull request. Labels of other tools change nothing,
    wherever they stand; a policy that is read skips exactly if some label says so, and names
    the unknown labels of ours, in order and as they were written; an error is that of the
    first label that cannot be read, with the policy of those before it; and a wait of a number
    of days up to the 106,751 that a duration can hold is that many days. *)
Theorem labels_policy (raw : list string) :
  Parse raw = Parse (List.filter ours raw) ∧
  (∀ p, Parse raw = Ok p → Skip p = existsb (is_kv "skip" false) raw ∧ UnknownLabels p = List.filter unknown raw) ∧
  (∀ p e, Parse raw = Err (p, e) ↔ ∃ before l after, raw = before ++ l :: after ∧
    Parse before = Ok p ∧ parse_label p l = Err e) ∧
  (∀ n, 0 <= n <= 106751 → parseDuration (itoa n +:+ "d") = Ok (n * Day)).
Proof.
  split_and!.
  - unfold Parse. generalize no_policy. induction raw as [|l raw IH]; intros p; [done|]. cbn [parse_labels List.filter].
    destruct (ours l) eqn:Ho; [cbn [parse_labels]; destruct (parse_label p l); [apply IH|done]|].
    unfold parse_label. unfold ours in Ho. rewrite Ho. cbn [negb]. apply IH.
  - intros p [H1 H2]%parse_labels_Ok. done.
  - intros p e. split.
    + unfold Parse. generalize no_policy. induction raw as [|l raw IH]; intros q; [done|]. cbn [parse_labels].
      destruct (parse_label q l) as [q'|e'] eqn:El.
      * intros (before&l'&after&->&Hb&He)%IH. exists (l :: before), l', after. split; [done|]. cbn [parse_labels]. by rewrite El.
      * intros [= <- <-]. exists [], l, raw. by split.
    + intros (before&l&after&->&Hb&He). unfold Parse in *. rewrite parse_labels_app, Hb. cbn [parse_labels]. by rewrite He.
  - intros n Hn. destruct (itoa_nonneg n) as (Hd&Hne&_); [lia|].
    assert (str_all is_graph (itoa n +:+ "d") = true) as Hg.
    { rewrite str_all_app. apply andb_true_intro. split; [|done].
      eapply str_all_impl; [|exact Hd]. apply is_digit_graph. }
    unfold parseDuration. rewrite trim_space_graph by done.
    assert (String.eqb (itoa n +:+ "d") "" = false) as -> by (by destruct (itoa n)).
    unfold has_suffix, trim_suffix. rewrite strip_suffix_app. cbn [default from_option id].
    rewrite parse_int_itoa by (unfold in_i64; lia). rewrite (proj2 (Z.ltb_ge n 0)) by lia.
    unfold i64_mul. rewrite (wrap64_id (n * 24)) by (unfold in_i64; lia).
    unfold Day, Hour, Minute, Second. rewrite wrap64_id by (unfold in_i64; lia). f_equal. lia.
Qed.
End Labels.

(** "Must be non-negative": negative hours are accepted, a number of days past what a
    duration holds wraps to a negative one, and NaN is a budget. *)
Lemma labels_divergences :
  let p raw := match @Parse amd64 raw with Ok p => Some (WaitForProm p, BudgetUSD p) | Err _ => None end in
  p ["optiqor:wait-for-prom=-1h"] = Some (- Hour, f_zero false) ∧
  p ["optiqor:wait-for-prom=-1d"] = None ∧
  p ["optiqor:wait-for-prom=150000d"] = Some (wrap64 (150000 * Day), f_zero false) ∧ wrap64 (150000 * Day) < 0 ∧
  p ["optiqor:budget=nan"] = Some (0, F_nan) ∧
  p ["bug"; "optiqor:wait-for-prom=1h30.5m"; "optiqor:budget=$ 12"] = Some (90 * Minute + 30 * Second, f_of_Z 12).
Proof. vm_compute. auto 10. Qed.

(** ** The narrative *)

Record Request := mkRequest {
  NWorkload : string; BeforeCPUMilli : Z; AfterCPUMilli : Z; BeforeMemoryBytes : Z; AfterMemoryBytes : Z;
  P95CPUMilli : Z; NConfidence : string; NMonthlyUSDCents : Z }.

Definition formatCPU (milli : Z) : string :=
  if (1000 <=? milli) && (Z.rem milli 1000 =? 0) then itoa (Z.quot milli 1000) +:+ " vCPU"
  else if 1000 <=? milli then fmt_fixed 1 (f_div (f_of_Z milli) (f_of_Z 1000)) +:+ " vCPU"
  else itoa milli +:+ "m".

Definition formatMemory (b : Z) : string :=
  if 2^30 <=? b then itoa (Z.quot b (2^30)) +:+ "Gi" else itoa (Z.quot b (2^20)) +:+ "Mi".

Definition strNoEmpty (s fallback : string) : string := if String.eqb s "" then fallback else s.

Definition buildSecond (r : Request) : string :=
  if 0 <? P95CPUMilli r then
    "Observed P95 over 30d sat at " +:+ formatCPU (P95CPUMilli r) +:+ "; we recommend the trimmed value with " +:+
    to_lower (strNoEmpty (NConfidence r) "medium") +:+ " confidence"
  else if negb (String.eqb (NConfidence r) "") then "Detector confidence: " +:+ to_lower (NConfidence r)
  else "Apply to recover the savings shown below".

Definition saving (r : Request) : string :=
  if NMonthlyUSDCents r <=? 0 then "." else ", saving ~$" +:+ itoa (Z.quot (NMonthlyUSDCents r) 100) +:+ "/mo.".

Definition first_sentence (r : Request) : string :=
  if (0 <? AfterCPUMilli r) && (AfterCPUMilli r <? BeforeCPUMilli r) then
    "This PR trims " +:+ NWorkload r +:+ "'s CPU request from " +:+ formatCPU (BeforeCPUMilli r) +:+ " to " +:+
    formatCPU (AfterCPUMilli r) +:+ "."
  else if (0 <? AfterMemoryBytes r) && (AfterMemoryBytes r <? BeforeMemoryBytes r) then
    "This PR trims " +:+ NWorkload r +:+ "'s memory request from " +:+ formatMemory (BeforeMemoryBytes r) +:+ " to " +:+
    formatMemory (AfterMemoryBytes r) +:+ "."
  else "This PR proposes a configuration change on " +:+ NWorkload r +:+ ".".

Definition Generate (r : Request) : option string :=
  if String.eqb (NWorkload r) "" then None
  else Some (trim_space (first_sentence r +:+ " " +:+ buildSecond r) +:+ saving r).

(** Every narrative ends in a period. *)
Lemma narrative_period r s : Generate r = Some s → has_suffix s "." = true.
Proof.
  unfold Generate. destruct (String.eqb (NWorkload r) ""); [done|]. intros [= <-]. unfold has_suffix, saving.
  destruct (_ <=? 0).
  - by rewrite strip_suffix_app.
  - rewrite !sapp_assoc. 
    assert (∀ x : string, x +:+ "/mo." = (x +:+ "/mo") +:+ ".") as E by (intros; by rewrite <-sapp_assoc).
    rewrite E. by rewrite strip_suffix_app.
Qed.

(** "Contains no markdown": the name of the workload is copied as it is. *)
Lemma narrative_divergence :
  Generate (mkRequest "`web`" 0 0 0 0 0 "" 0) =
    Some "This PR proposes a configuration change on `web`. Apply to recover the savings shown below.".
Proof. by vm_compute. Qed.
