(* ===== verification/Coalesce.v ===== *)
(** The pull request coalescer (backend/internal/ingestion/coalesce/coalesce.go):
    the first pull request of a chart within a window is analysed, the others
    refer to it. Its calls hold one mutex, so a run is a sequence of them. *)

From S2P Require Import Prelude GoNum GoTime.
Local Open Scope Z_scope.

Record Key := mkKey { TenantID : string; RepoOwner : string; RepoName : string; ChartPath : string }.
#[export] Instance Key_eq_dec : EqDecision Key.
Proof. solve_decision. Defined.
#[export] Program Instance Key_countable : Countable Key :=
  inj_countable' (λ k, (TenantID k, RepoOwner k, RepoName k, ChartPath k))
    (λ '(a, b, c, d), mkKey a b c d) _.
Next Obligation. by intros []. Qed.

Definition valid (k : Key) : bool :=
  negb (String.eqb (TenantID k) "") && negb (String.eqb (RepoOwner k) "")
  && negb (String.eqb (RepoName k) "") && negb (String.eqb (ChartPath k) "").

Record Decision := mkDecision { Dispatch : bool; CoalesceTo : string; ExistingPRNumber : Z }.
Record entry := mkEntry { PRNumber : Z; PRURL : string; At : Z }.
Record Coalescer := mkCoalescer { ttl : Z; seen : gmap Key entry }.

Inductive error := ErrIncompleteKey.

Definition New (window : Z) : Coalescer :=
  mkCoalescer (if window <=? 0 then 24 * Hour else window) ∅.

Definition Observe (now : Z) (c : Coalescer) (k : Key) (prNumber : Z) (prURL : string)
  : Coalescer * result error Decision :=
  if negb (valid k) then (c, Err ErrIncompleteKey)
  else
    let fresh := (mkCoalescer (ttl c) (<[k := mkEntry prNumber prURL now]> (seen c)),
                  Ok (mkDecision true "" 0)) in
    match seen c !! k with
    | Some e => if time_sub now (At e) <? ttl c
                then (c, Ok (mkDecision false (PRURL e) (PRNumber e))) else fresh
    | None => fresh
    end.

Definition expired (c : Coalescer) (now : Z) (e : entry) : bool := ttl c <=? time_sub now (At e).

Definition Sweep (now : Z) (c : Coalescer) : Coalescer * Z :=
  let kept := filter (λ kv : Key * entry, expired c now kv.2 = false) (seen c) in
  (mkCoalescer (ttl c) kept, Z.of_nat (size (seen c)) - Z.of_nat (size kept)).

Definition Len (c : Coalescer) : Z := Z.of_nat (size (seen c)).

(** ** Runs *)

Inductive call :=
| CObserve (now : Z) (k : Key) (prNumber : Z) (prURL : string)
| CSweep (now : Z).
Definition call_time (c : call) : Z := match c with CObserve now _ _ _ => now | CSweep now => now end.

(** The answers to the observations of a run. *)
Fixpoint run (c : Coalescer) (calls : list call) : list (result error Decision) :=
  match calls with
  | [] => []
  | CObserve now k n u :: calls => let r := Observe now c k n u in r.2 :: run r.1 calls
  | CSweep now :: calls => run (Sweep now c).1 calls
  end.

(** ** Specification: the past observations, newest first, decide *)

Definition observation : Type := Z * Key * Z * string.

(** The last pull request of the key that was dispatched, by its time. *)
Fixpoint last_dispatch (window : Z) (past : list observation) (k : Key) : option entry :=
  match past with
  | [] => None
  | (now, k', n, u) :: past =>
      if bool_decide (k' = k) && valid k then
        match last_dispatch window past k with
        | Some e => if now - At e <? window then Some e else Some (mkEntry n u now)
        | None => Some (mkEntry n u now)
        end
      else last_dispatch window past k
  end.

Definition spec_answer (window : Z) (past : list observation) (now : Z) (k : Key) : result error Decision :=
  if negb (valid k) then Err ErrIncompleteKey
  else match last_dispatch window past k with
       | Some e => if now - At e <? window then Ok (mkDecision false (PRURL e) (PRNumber e))
                   else Ok (mkDecision true "" 0)
       | None => Ok (mkDecision true "" 0)
       end.

Fixpoint spec_run (window : Z) (past : list observation) (calls : list call) : list (result error Decision) :=
  match calls with
  | [] => []
  | CObserve now k n u :: calls => spec_answer window past now k :: spec_run window ((now, k, n, u) :: past) calls
  | CSweep _ :: calls => spec_run window past calls
  end.

(** The memory holds the last dispatch of each key, except that an entry that is
    past the window may have been swept. *)
Definition represents (c : Coalescer) (now : Z) (past : list observation) : Prop :=
  ∀ k, seen c !! k = last_dispatch (ttl c) past k ∨
       (seen c !! k = None ∧ ∃ e, last_dispatch (ttl c) past k = Some e ∧ ttl c <= now - At e).

Lemma represents_later c now now' past : now <= now' → represents c now past → represents c now' past.
Proof.
  intros Hle H k. destruct (H k) as [E|(E&e&Ee&Hd)]; [by left|right]. split; [done|].
  exists e. split; [done|lia].
Qed.

Lemma sweep_represents c now past : 0 < ttl c <= maxDuration →
  represents c now past → represents (Sweep now c).1 now past.
Proof.
  intros Ht H k. cbn [Sweep fst seen ttl]. destruct (H k) as [E|(E&Hd)].
  - destruct (last_dispatch (ttl c) past k) as [e|] eqn:El.
    + destruct (expired c now e) eqn:Ex.
      * right. split.
        { apply map_lookup_filter_None. right. intros x Hx. rewrite E in Hx. injection Hx as <-. cbn. by rewrite Ex. }
        exists e. split; [done|]. unfold expired in Ex. apply Z.leb_le in Ex.
        destruct (Z.lt_ge_cases (now - At e) (ttl c)) as [Hlt|]; [|lia].
        apply time_sub_lt in Hlt; [lia|lia].
      * left. by apply map_lookup_filter_Some.
    + left. apply map_lookup_filter_None. by left.
  - right. split; [|done]. apply map_lookup_filter_None. by left.
Qed.

Lemma observe_represents c now past k n u : 0 < ttl c <= maxDuration → represents c now past →
  (Observe now c k n u).2 = spec_answer (ttl c) past now k ∧
  ttl (Observe now c k n u).1 = ttl c ∧
  represents (Observe now c k n u).1 now ((now, k, n, u) :: past).
Proof.
  intros Ht H. unfold Observe, spec_answer. destruct (valid k) eqn:Hv; cbn [negb].
  2: { split_and!; [done..|]. intros k'. cbn [last_dispatch fst].
       destruct (bool_decide_reflect (k = k')) as [<-|]; cbn [andb]; [rewrite Hv|]; apply H. }
  assert (∀ e, (time_sub now (At e) <? ttl c) = (now - At e <? ttl c)) as Hsub.
  { intros e. apply Bool.eq_iff_eq_true. rewrite !Z.ltb_lt. apply time_sub_lt. lia. }
  assert (represents (mkCoalescer (ttl c) (<[k := mkEntry n u now]> (seen c))) now ((now, k, n, u) :: past) ↔
    last_dispatch (ttl c) ((now, k, n, u) :: past) k = Some (mkEntry n u now)) as Hins.
  { split.
    - intros Hr. destruct (Hr k) as [E|(E&_)]; cbn [seen ttl] in E; rewrite lookup_insert_eq in E; [by rewrite E|done].
    - intros E k'. cbn [seen ttl]. destruct (decide (k = k')) as [<-|Hne].
      + left. by rewrite lookup_insert_eq.
      + rewrite lookup_insert_ne by done. cbn [last_dispatch]. rewrite bool_decide_false by done. apply H. }
  assert (∀ e, seen c !! k = Some e → last_dispatch (ttl c) past k = Some e ∧
    represents c now ((now, k, n, u) :: past) = represents c now ((now, k, n, u) :: past)) as Hlook.
  { intros e E. destruct (H k) as [E'|[E' _]]; [by rewrite E in E'|congruence]. }
  destruct (seen c !! k) as [e|] eqn:Es.
  - destruct (Hlook e eq_refl) as [El _]. rewrite El, Hsub. destruct (Z.ltb_spec (now - At e) (ttl c)) as [Hlt|Hge].
    + split_and!; [done..|]. intros k'. cbn [last_dispatch fst].
      destruct (bool_decide_reflect (k = k')) as [<-|]; cbn [andb]; [|apply H].
      rewrite Hv, El. destruct (Z.ltb_spec (now - At e) (ttl c)); [|lia]. left. by rewrite Es.
    + split_and!; [done..|]. apply Hins. cbn [last_dispatch].
      rewrite bool_decide_true, Hv, El by done. cbn [andb]. by destruct (Z.ltb_spec (now - At e) (ttl c)); [lia|].
  - cbn [fst snd]. destruct (H k) as [E|(_&e&El&Hd)].
    + rewrite <-E, Es. split_and!; [done..|]. apply Hins. cbn [last_dispatch].
      by rewrite bool_decide_true, Hv, <-E, Es.
    + rewrite El. destruct (Z.ltb_spec (now - At e) (ttl c)); [lia|]. split_and!; [done..|].
      apply Hins. cbn [last_dispatch]. rewrite bool_decide_true, Hv, El by done. cbn [andb].
      by destruct (Z.ltb_spec (now - At e) (ttl c)); [lia|].
Qed.

Lemma coalescer_run_spec calls : ∀ c now past, 0 < ttl c <= maxDuration → represents c now past →
  StronglySorted Z.le (now :: map call_time calls) → run c calls = spec_run (ttl c) past calls.
Proof.
  induction calls as [|call calls IH]; intros c now past Ht Hr Hs; [done|].
  apply StronglySorted_inv in Hs as [Hs Hle]. rewrite map_cons in Hs, Hle.
  apply Forall_cons in Hle as [Hle _]. apply (represents_later _ _ _ _ Hle) in Hr.
  destruct call as [now' k n u|now']; cbn [run spec_run call_time] in *.
  - destruct (observe_represents c now' past k n u Ht Hr) as (Ea&Et&Hr'). rewrite Ea. f_equal.
    rewrite <-Et. apply (IH _ now'); [by rewrite Et|done|done].
  - change (ttl c) with (ttl (Sweep now' c).1). apply (IH _ now'); [done|by apply sweep_represents|done].
Qed.

Lemma New_represents window now : represents (New window) now [].
Proof. intros k. left. apply lookup_empty. Qed.

Lemma New_ttl window : in_i64 window → 0 < ttl (New window) <= maxDuration.
Proof. unfold in_i64, New, maxDuration. cbn [ttl]. destruct (Z.leb_spec window 0); [done|lia]. Qed.

(** ** What the specification promises *)

(** The dispatched pull requests of a key, newest first. *)
Fixpoint dispatches (window : Z) (past : list observation) (k : Key) : list entry :=
  match past with
  | [] => []
  | (now, k', n, u) :: past =>
      match spec_answer window past now k with
      | Ok d => if bool_decide (k' = k) && Dispatch d then mkEntry n u now :: dispatches window past k
                else dispatches window past k
      | Err _ => dispatches window past k
      end
  end.

Lemma dispatches_head window past k : valid k = true → last_dispatch window past k = head (dispatches window past k).
Proof.
  intros Hv. induction past as [|[[[now k'] n] u] past IH]; [done|]. cbn [last_dispatch dispatches].
  unfold spec_answer. rewrite Hv, !andb_true_r. cbn [negb].
  destruct (bool_decide (k' = k)); cbn [andb].
  - destruct (last_dispatch window past k) as [e|]; [|done]. by destruct (now - At e <? window).
  - rewrite IH. destruct (dispatches window past k) as [|e l]; cbn; [done|]. by destruct (now - At e <? window).
Qed.

Lemma dispatches_spaced window past k : 0 <= window → StronglySorted (λ e e', At e' + window <= At e) (dispatches window past k).
Proof.
  intros Hw. induction past as [|[[[now k'] n] u] past IH]; [constructor|]. cbn [dispatches].
  unfold spec_answer. destruct (valid k) eqn:Hv; cbn [negb]; [|done].
  rewrite dispatches_head by done. destruct (dispatches window past k) as [|e l] eqn:Ed; cbn [head].
  { destruct (bool_decide _); cbn; [|done]. repeat constructor. }
  destruct (Z.ltb_spec (now - At e) window) as [|Hge]; cbn [Dispatch]; [by rewrite andb_false_r|].
  destruct (bool_decide _); cbn [andb]; [|done]. constructor; [done|]. cbn [At].
  apply StronglySorted_inv in IH as [_ Hl]. constructor; [lia|].
  eapply Forall_impl; [exact Hl|]. intros x Hx. cbn in *. lia.
Qed.

Definition is_observation (c : call) : bool := match c with CObserve _ _ _ _ => true | CSweep _ => false end.

Lemma spec_run_sweeps window calls : ∀ past,
  spec_run window past (List.filter is_observation calls) = spec_run window past calls.
Proof.
  induction calls as [|[now k n u|now] calls IH]; intros past; cbn; [done| |apply IH]. by rewrite IH.
Qed.

Lemma observations_sorted calls : StronglySorted Z.le (map call_time calls) →
  StronglySorted Z.le (map call_time (List.filter is_observation calls)).
Proof.
  induction calls as [|c l IH]; [constructor|]. cbn [map List.filter].
  intros [Hs Hl]%StronglySorted_inv. destruct (is_observation c); [|by apply IH]. cbn [map].
  constructor; [by apply IH|]. apply Forall_forall. intros y Hy. rewrite Forall_forall in Hl. apply Hl.
  apply list_elem_of_In. apply list_elem_of_In, in_map_iff in Hy as (x&<-&[Hx _]%filter_In).
  by apply in_map.
Qed.

(** C8 In a run whose clock does not go back the coalescer gives the answers of
    its specification, which only looks at the past observations: sweeping, at any
    time, changes no answer. There a key's dispatches are at least one window
    apart, and a pull request that is not dispatched refers to the key's newest
    dispatch, less than a window old; an incomplete key is refused and forgotten. *)
Theorem coalesce_refines (window : Z) (calls : list call)
    (Hwindow : in_i64 window) (Hclock : StronglySorted Z.le (map call_time calls)) :
  let W := ttl (New window) in
  run (New window) calls = spec_run W [] calls ∧
  run (New window) (List.filter is_observation calls) = run (New window) calls ∧
  ∀ past now k,
    StronglySorted (λ e e', At e' + W <= At e) (dispatches W past k) ∧
    match spec_answer W past now k with
    | Err _ => valid k = false
    | Ok d =>
        valid k = true ∧
        (if Dispatch d then ∀ e, e ∈ dispatches W past k → At e + W <= now
         else ∃ e, head (dispatches W past k) = Some e ∧ now < At e + W ∧
              CoalesceTo d = PRURL e ∧ ExistingPRNumber d = PRNumber e)
    end.
Proof.
  intros W. pose proof (New_ttl window Hwindow) as HW. fold W in HW.
  assert (∀ calls, StronglySorted Z.le (map call_time calls) → run (New window) calls = spec_run W [] calls) as Hrun.
  { intros [|c l] Hs; [done|]. apply (coalescer_run_spec _ _ (call_time c)); [done|apply New_represents|].
    constructor; [done|]. cbn [map] in *. apply StronglySorted_inv in Hs as [_ Hl].
    constructor; [done|done]. }
  split; [by apply Hrun|]. split.
  - rewrite (Hrun calls), (Hrun (List.filter _ _)); [apply spec_run_sweeps|by apply observations_sorted|done].
  - intros past now k. pose proof (dispatches_spaced W past k ltac:(lia)) as Hsp. split; [done|].
    unfold spec_answer. destruct (valid k) eqn:Hv; cbn [negb]; [|done]. rewrite dispatches_head by done.
    destruct (dispatches W past k) as [|e l]; cbn [head]; [split; [done|]; by intros e ?%elem_of_nil|].
    destruct (Z.ltb_spec (now - At e) W); (split; [done|]); cbn [Dispatch]; [exists e; split_and!; [done|lia|done|done]|].
    apply StronglySorted_inv in Hsp as [_ Hl]. rewrite Forall_forall in Hl.
    intros e' [->|Hin]%elem_of_cons; [lia|]. specialize (Hl e' Hin). lia.
Qed.

Definition sample_key : Key := mkKey "t" "acme" "shop" "values.yaml".
Definition sample_calls : list call :=
  [CObserve 0 sample_key 1 "pr/1"; CObserve 5 sample_key 2 "pr/2"; CSweep 9;
   CObserve 12 sample_key 3 "pr/3"; CSweep 30; CObserve 30 sample_key 4 "pr/4"].

Lemma coalesce_refines_witness :
  run (New 10) sample_calls =
    [Ok (mkDecision true "" 0); Ok (mkDecision false "pr/1" 1); Ok (mkDecision true "" 0); Ok (mkDecision true "" 0)] ∧
  run (New 10) sample_calls = spec_run 10 [] sample_calls.
Proof.
  split; [by vm_compute|].
  apply (coalesce_refines 10 sample_calls); [unfold in_i64; lia|]. cbn. repeat constructor; lia.
Defined.

