(* ===== verification/PromCache.v ===== *)
(** The caching Prometheus client (backend/internal/agent/prom/cache.go): a TTL
    cache with one flight per key, used from any number of goroutines. [acquire]
    and [release] hold the mutex and are one step each; a goroutine leads a
    flight, waits for one, or has returned. *)

From S2P Require Import Prelude GoNum GoStr GoTime.
Local Open Scope Z_scope.

(** ** Keys *)

(** [bucketKey]; [None] is the panic of a division by zero. *)
Definition bucketKey (at_ ttl : Z) : option string :=
  if ttl <=? 0 then Some (format_rfc3339 at_)
  else
    let secs := f_trunc (duration_seconds ttl) in
    if secs =? 0 then None
    else Some (format_rfc3339 ((unix_seconds at_ - Z.rem (unix_seconds at_) secs + 62135596800) * Second)).

Definition query_key (promql : string) (at_ ttl : Z) : option string :=
  (λ b, "q:" +:+ promql +:+ "@" +:+ b) <$> bucketKey at_ ttl.

Section Cache.
(** What a query yields: the samples or series, and the error. *)
Context {V : Type} `{!GoMapOrder} (MaxEntries : Z).

Record cacheEntry := mkEntry { expiresAt : Z; value : V }.

(** The fields under the mutex; a flight is known by a number. *)
Record cache := mkCache { entries : gmap string cacheEntry; inflight : gmap string nat; next_call : nat }.

Definition empty_cache : cache := mkCache ∅ ∅ 0.

Inductive acquired := Hit (v : V) | Join (call : nat) | Lead (call : nat).

Definition acquire (now : Z) (c : cache) (key : string) : cache * acquired :=
  let lookup_flight c :=
    match inflight c !! key with
    | Some existing => (c, Join existing)
    | None => (mkCache (entries c) (<[key := next_call c]> (inflight c)) (S (next_call c)), Lead (next_call c))
    end in
  match entries c !! key with
  | Some e => if negb (time_after now (expiresAt e)) then (c, Hit (value e))
              else lookup_flight (mkCache (delete key (entries c)) (inflight c) (next_call c))
  | None => lookup_flight c
  end.

(** The entry that expires first, in the order the map is iterated. *)
Definition oldest (m : gmap string cacheEntry) : string * Z :=
  foldl (λ '(oldestKey, old) kv,
           if String.eqb oldestKey "" || time_before (expiresAt kv.2) old then (kv.1, expiresAt kv.2)
           else (oldestKey, old)) ("", 0) (map_iter m).

Definition storeLocked (m : gmap string cacheEntry) (key : string) (e : cacheEntry) : gmap string cacheEntry :=
  let m := if MaxEntries <=? Z.of_nat (size m) then
             (if negb (String.eqb (oldest m).1 "") then delete (oldest m).1 m else m) else m in
  <[key := e]> m.

Definition release (c : cache) (key : string) (e : cacheEntry) : cache :=
  mkCache (storeLocked (entries c) key e) (delete key (inflight c)) (next_call c).

(** ** Goroutines *)

Inductive thread :=
| Leading (key : string) (call : nat)
| Waiting (key : string) (call : nat)
| Returned (key : string) (v : V).

(** [finished] holds what a released flight left for its waiters, [upstream] the
    answers of the wrapped client. *)
Record system := mkSystem {
  state : cache; threads : gmap nat thread; finished : gmap nat V; upstream : list (string * V) }.

Definition initial : system := mkSystem empty_cache ∅ ∅ [].

Definition enter (key : string) (a : acquired) : thread :=
  match a with Hit v => Returned key v | Join call => Waiting key call | Lead call => Leading key call end.

Inductive step : system → system → Prop :=
(** a new goroutine asks for [key] *)
| step_acquire s tid now key :
    threads s !! tid = None → key ≠ "" →
    step s (mkSystem (acquire now (state s) key).1
              (<[tid := enter key (acquire now (state s) key).2]> (threads s)) (finished s) (upstream s))
(** the wrapped client answers a leader *)
| step_release s tid key call v now ttl :
    threads s !! tid = Some (Leading key call) →
    step s (mkSystem (release (state s) key (mkEntry (now + ttl) v))
              (<[tid := Returned key v]> (threads s)) (<[call := v]> (finished s)) (upstream s ++ [(key, v)]))
(** a waiter sees the flight done *)
| step_wake s tid key call v :
    threads s !! tid = Some (Waiting key call) → finished s !! call = Some v →
    step s (mkSystem (state s) (<[tid := Returned key v]> (threads s)) (finished s) (upstream s)).

Definition reachable : system → Prop := rtc step initial.

(** ** The invariant *)

Record invariant (s : system) : Prop := {
  (** a flight is in the air exactly while its leader has not been answered *)
  inv_leader key call : inflight (state s) !! key = Some call → ∃ tid, threads s !! tid = Some (Leading key call);
  inv_flight tid key call : threads s !! tid = Some (Leading key call) → inflight (state s) !! key = Some call;
  inv_unique tid tid' key call call' : threads s !! tid = Some (Leading key call) →
    threads s !! tid' = Some (Leading key call') → tid = tid';
  (** flights are numbered once, for one key *)
  inv_fresh key call : inflight (state s) !! key = Some call → (call < next_call (state s))%nat;
  inv_number key key' call : inflight (state s) !! key = Some call → inflight (state s) !! key' = Some call → key = key';
  inv_done call v : finished s !! call = Some v → (call < next_call (state s))%nat;
  inv_pending key call : inflight (state s) !! key = Some call → finished s !! call = None;
  (** a waiter's flight is in the air for its key, or has left an answer for it *)
  inv_waiter tid key call : threads s !! tid = Some (Waiting key call) →
    inflight (state s) !! key = Some call ∨ ∃ v, finished s !! call = Some v ∧ (key, v) ∈ upstream s;
  (** values come from the wrapped client, for the same key *)
  inv_entry key e : entries (state s) !! key = Some e → (key, value e) ∈ upstream s;
  inv_result tid key v : threads s !! tid = Some (Returned key v) → (key, v) ∈ upstream s;
  (** an entry and a flight never coexist, keys are not empty, the size is bounded *)
  inv_disjoint key call : inflight (state s) !! key = Some call → entries (state s) !! key = None;
  inv_keys key : is_Some (entries (state s) !! key) ∨ is_Some (inflight (state s) !! key) → key ≠ "";
  inv_size : Z.of_nat (size (entries (state s))) <= Z.max 1 MaxEntries;
}.

(** ** The operations on the cache *)

Lemma acquire_cases now c key : let r := acquire now c key in
  (∃ e, entries c !! key = Some e ∧ now <= expiresAt e ∧ r = (c, Hit (value e))) ∨
  (entries r.1 = delete key (entries c) ∧ (∀ e, entries c !! key = Some e → expiresAt e < now) ∧
   ((∃ call, inflight c !! key = Some call ∧ inflight r.1 = inflight c ∧ next_call r.1 = next_call c ∧ r.2 = Join call) ∨
    (inflight c !! key = None ∧ inflight r.1 = <[key := next_call c]> (inflight c) ∧
     next_call r.1 = S (next_call c) ∧ r.2 = Lead (next_call c)))).
Proof.
  cbn zeta. unfold acquire, time_after. destruct (entries c !! key) as [e|] eqn:Ee.
  - destruct (Z.ltb_spec (expiresAt e) now); cbn [negb]; [|left; eauto].
    right. cbn [inflight entries next_call].
    destruct (inflight c !! key) as [call|]; cbn [fst snd entries inflight next_call];
      (split; [done|]; split; [by intros ? [= <-]|]); [left; eauto|by right].
  - right. destruct (inflight c !! key) as [call|]; cbn [fst snd entries inflight next_call];
      (split; [by rewrite delete_id|]; split; [done|]); [left; eauto|by right].
Qed.

Lemma oldest_in m : m ≠ ∅ → (∀ k, is_Some (m !! k) → k ≠ "") → is_Some (m !! (oldest m).1).
Proof.
  intros Hne Hk. unfold oldest.
  assert (∀ l acc, (∀ kv, kv ∈ l → is_Some (m !! kv.1)) →
    (l = [] → is_Some (m !! acc.1)) → (acc.1 ≠ "" → is_Some (m !! acc.1)) →
    is_Some (m !! (foldl (λ '(oldestKey, old) kv,
      if String.eqb oldestKey "" || time_before (expiresAt kv.2) old then (kv.1, expiresAt kv.2)
      else (oldestKey, old)) acc l).1)) as Hfold.
  { induction l as [|kv l IH]; intros [ok old] Hl Hnil Hacc; cbn [foldl]; [by apply Hnil|].
    assert (is_Some (m !! kv.1)) as Hkv by (apply Hl; by left).
    apply IH.
    - intros kv' Hin. apply Hl. by right.
    - intros _. cbn [fst] in Hacc. destruct (String.eqb_spec ok ""); cbn [orb]; [done|].
      destruct (time_before _ _); [done|]. by apply Hacc.
    - intros _. cbn [fst] in Hacc. destruct (String.eqb_spec ok ""); cbn [orb]; [done|].
      destruct (time_before _ _); [done|]. by apply Hacc. }
  apply Hfold; [|intros E|done].
  - intros [k e] Hin. rewrite map_iter_perm in Hin. apply elem_of_map_to_list in Hin. by exists e.
  - destruct Hne. apply map_to_list_empty_iff. apply Permutation_nil. by rewrite <-E, map_iter_perm.
Qed.

Lemma storeLocked_lookup m key e k e' : storeLocked m key e !! k = Some e' →
  (k = key ∧ e' = e) ∨ (k ≠ key ∧ m !! k = Some e').
Proof.
  unfold storeLocked. intros [[<- <-]|[Hne Hm]]%lookup_insert_Some; [by left|]. right. split; [done|].
  destruct (MaxEntries <=? _); [|done]. destruct (negb _); [|done]. by apply lookup_delete_Some in Hm as [_ Hm].
Qed.

Lemma storeLocked_size m key e : (∀ k, is_Some (m !! k) → k ≠ "") →
  Z.of_nat (size m) <= Z.max 1 MaxEntries → Z.of_nat (size (storeLocked m key e)) <= Z.max 1 MaxEntries.
Proof.
  intros Hk Hs. unfold storeLocked.
  assert (∀ m' : gmap string cacheEntry, (size (<[key := e]> m') <= S (size m'))%nat) as Hins.
  { intros m'. destruct (m' !! key) eqn:E.
    - rewrite map_size_insert_Some by eauto. lia.
    - rewrite map_size_insert_None by done. lia. }
  destruct (Z.leb_spec MaxEntries (Z.of_nat (size m))) as [Hle|Hlt]; [|pose proof (Hins m); lia].
  destruct (decide (m = ∅)) as [->|Hne].
  { pose proof (Hins (if negb (String.eqb (oldest ∅).1 "") then delete (oldest ∅).1 ∅ else ∅)).
    rewrite delete_empty in *. destruct (negb _); rewrite map_size_empty in *; lia. }
  pose proof (oldest_in m Hne Hk) as Hin. destruct (String.eqb_spec (oldest m).1 ""); [by apply Hk in Hin|]. cbn [negb].
  pose proof (Hins (delete (oldest m).1 m)). rewrite map_size_delete_Some in * by done.
  apply map_size_non_empty_iff in Hne. lia.
Qed.

Lemma invariant_initial : invariant initial.
Proof.
  split; cbn [initial state threads finished upstream empty_cache entries inflight next_call];
    try (intros *; rewrite ?lookup_empty; done).
  - intros key [[? Hx]|[? Hx]]; by rewrite lookup_empty in Hx.
  - rewrite map_size_empty. lia.
Qed.

(** A goroutine other than the one that acts keeps its state. *)
Ltac other_thread H :=
  apply lookup_insert_Some in H as [[<- H]|[? H]].

(** A goroutine that does not lead enters; entries may be dropped. *)
Lemma invariant_enter s tid c th : threads s !! tid = None → invariant s →
  entries c ⊆ entries (state s) → inflight c = inflight (state s) → next_call c = next_call (state s) →
  (∀ key v, th = Returned key v → (key, v) ∈ upstream s) →
  (∀ key call, th = Waiting key call → inflight (state s) !! key = Some call) →
  (∀ key call, th ≠ Leading key call) →
  invariant (mkSystem c (<[tid := th]> (threads s)) (finished s) (upstream s)).
Proof.
  intros Htid [I1 I2 I3 I4 I5 I6 I7 I8 I9 I10 I11 I12 I13] Hent Einf Enext Hret Hwait Hlead.
  assert (∀ tid' th, threads s !! tid' = Some th → tid ≠ tid') as Hother by congruence.
  assert (∀ k e, entries c !! k = Some e → entries (state s) !! k = Some e) as Hlook.
  { intros k e He. by eapply lookup_weaken. }
  split; cbn [state threads finished upstream]; rewrite ?Einf, ?Enext; try done.
  - intros k cl Hf. destruct (I1 _ _ Hf) as [tid' Ht]. exists tid'. rewrite lookup_insert_ne by eauto. done.
  - intros tid' k cl Ht. other_thread Ht; [by destruct (Hlead k cl)|eauto].
  - intros t1 t2 k c1 c2 H1 H2. other_thread H1; [by edestruct Hlead|]. other_thread H2; [by edestruct Hlead|eauto].
  - intros t1 k cl Ht. other_thread Ht; [left; by apply Hwait|eauto].
  - intros k e He. apply Hlook in He. eauto.
  - intros t1 k v Ht. other_thread Ht; [by apply Hret|eauto].
  - intros k cl Hf. destruct (entries c !! k) as [e|] eqn:E; [|done]. apply Hlook in E. by rewrite (I11 _ _ Hf) in E.
  - intros k [[e He]|Hf]; apply I12; [left; apply Hlook in He; by eexists|by right].
  - apply subseteq_dom, subseteq_size in Hent. rewrite !size_dom in Hent. lia.
Qed.

(** A goroutine enters as the leader of a new flight. *)
Lemma invariant_lead s tid key c : threads s !! tid = None → key ≠ "" → invariant s →
  entries c = delete key (entries (state s)) → inflight (state s) !! key = None →
  inflight c = <[key := next_call (state s)]> (inflight (state s)) → next_call c = S (next_call (state s)) →
  invariant (mkSystem c (<[tid := Leading key (next_call (state s))]> (threads s)) (finished s) (upstream s)).
Proof.
  intros Htid Hkey [I1 I2 I3 I4 I5 I6 I7 I8 I9 I10 I11 I12 I13] Eent Hnone Einf Enext.
  assert (∀ tid' th, threads s !! tid' = Some th → tid ≠ tid') as Hother by congruence.
  assert (∀ k e, entries c !! k = Some e → k ≠ key ∧ entries (state s) !! k = Some e) as Hent.
  { intros k e. rewrite Eent. intros [? ?]%lookup_delete_Some. done. }
  assert (∀ k cl, inflight c !! k = Some cl →
    (k = key ∧ cl = next_call (state s)) ∨ (k ≠ key ∧ inflight (state s) !! k = Some cl)) as Hinf.
  { intros k cl. rewrite Einf. intros [[<- <-]|[? ?]]%lookup_insert_Some; [by left|by right]. }
  split; cbn [state threads finished upstream]; rewrite ?Enext.
  - intros k cl [[-> ->]|[_ Hf]]%Hinf; [exists tid; by rewrite lookup_insert_eq|].
    destruct (I1 _ _ Hf) as [tid' Ht]. exists tid'. rewrite lookup_insert_ne by eauto. done.
  - intros tid' k cl Ht. rewrite Einf. other_thread Ht; [injection Ht as <- <-; by rewrite lookup_insert_eq|].
    apply I2 in Ht. rewrite lookup_insert_ne by congruence. done.
  - intros t1 t2 k c1 c2 H1 H2. other_thread H1; other_thread H2; [done|..|eauto].
    + injection H1 as <- <-. apply I2 in H2. congruence.
    + injection H2 as <- <-. apply I2 in H1. congruence.
  - intros k cl [[-> ->]|[_ Hf]]%Hinf; [lia|]. apply I4 in Hf. lia.
  - intros k k' cl [[-> ->]|[_ Hf]]%Hinf [[-> E]|[_ Hf']]%Hinf; [done| | |by eapply I5].
    + apply I4 in Hf'. lia.
    + subst cl. apply I4 in Hf. lia.
  - intros cl v Hv. apply I6 in Hv. lia.
  - intros k cl [[-> ->]|[_ Hf]]%Hinf; [|eauto].
    destruct (finished s !! next_call (state s)) eqn:E; [|done]. apply I6 in E. lia.
  - intros t1 k cl Ht. other_thread Ht; [done|]. destruct (I8 _ _ _ Ht) as [Hf|?]; [left|by right].
    rewrite Einf, lookup_insert_ne by congruence. done.
  - intros k e He. apply Hent in He as [_ He]. eauto.
  - intros t1 k v Ht. other_thread Ht; [done|eauto].
  - intros k cl [[-> ->]|[Hne Hf]]%Hinf; rewrite Eent; [apply lookup_delete_eq|].
    apply lookup_delete_None. right. eauto.
  - intros k [[e He]|[cl Hf]]; [apply Hent in He as [_ He]; apply I12; left; by eexists|].
    apply Hinf in Hf as [[-> _]|[_ Hf]]; [done|]. apply I12. right. by eexists.
  - assert (entries c ⊆ entries (state s)) as Hsub by (rewrite Eent; apply delete_subseteq).
    apply subseteq_dom, subseteq_size in Hsub. rewrite !size_dom in Hsub. lia.
Qed.

Lemma invariant_acquire s tid now key : threads s !! tid = None → key ≠ "" → invariant s →
  invariant (mkSystem (acquire now (state s) key).1
    (<[tid := enter key (acquire now (state s) key).2]> (threads s)) (finished s) (upstream s)).
Proof.
  intros Htid Hkey Hinv. pose proof (acquire_cases now (state s) key) as Hc. cbn zeta in Hc.
  destruct (acquire now (state s) key) as [c a]. cbn [fst snd] in *.
  destruct Hc as [(e&He&_&[= -> ->])|(Eent&_&[(call&Hcall&Einf&Enext&->)|(Hnone&Einf&Enext&->)])]; cbn [enter].
  - apply invariant_enter; try done. intros k v [= <- <-]. by eapply inv_entry.
  - apply invariant_enter; try done; [rewrite Eent; apply delete_subseteq|]. by intros k cl [= <- <-].
  - by apply invariant_lead.
Qed.

Lemma invariant_release s tid key call v now ttl : threads s !! tid = Some (Leading key call) → invariant s →
  invariant (mkSystem (release (state s) key (mkEntry (now + ttl) v))
    (<[tid := Returned key v]> (threads s)) (<[call := v]> (finished s)) (upstream s ++ [(key, v)])).
Proof.
  intros Htid [I1 I2 I3 I4 I5 I6 I7 I8 I9 I10 I11 I12 I13].
  pose proof (I2 _ _ _ Htid) as Hfl.
  assert (∀ kv, kv ∈ upstream s → kv ∈ upstream s ++ [(key, v)]) as Hup by (intros; apply elem_of_app; by left).
  assert ((key, v) ∈ upstream s ++ [(key, v)]) as Hnew by (apply elem_of_app; right; by left).
  split; cbn [state threads finished upstream release entries inflight next_call].
  - intros k cl [Hne Hf]%lookup_delete_Some. destruct (I1 _ _ Hf) as [t Ht]. exists t.
    rewrite lookup_insert_ne by congruence. done.
  - intros t k cl Ht. other_thread Ht; [done|]. pose proof (I2 _ _ _ Ht) as Hf.
    rewrite lookup_delete_ne; [done|]. intros <-. by pose proof (I3 _ _ _ _ _ Htid Ht).
  - intros t1 t2 k c1 c2 H1 H2. other_thread H1; [done|]. other_thread H2; [done|eauto].
  - intros k cl [_ Hf]%lookup_delete_Some. eauto.
  - intros k k' cl [_ Hf]%lookup_delete_Some [_ Hf']%lookup_delete_Some. eauto.
  - intros cl w [[<- <-]|[_ Hw]]%lookup_insert_Some; eauto.
  - intros k cl [Hne Hf]%lookup_delete_Some. rewrite lookup_insert_ne; [eauto|]. intros <-. by apply Hne, (I5 _ _ call).
  - intros t k cl Ht. other_thread Ht; [done|]. destruct (decide (cl = call)) as [->|Hne].
    + right. exists v. rewrite lookup_insert_eq. split; [done|].
      destruct (I8 _ _ _ Ht) as [Hf|(w&Hw&_)]; [by rewrite (I5 _ _ _ Hf Hfl)|].
      by rewrite (I7 _ _ Hfl) in Hw.
    + destruct (I8 _ _ _ Ht) as [Hf|(w&Hw&?)]; [left|right; exists w; rewrite lookup_insert_ne by done; eauto].
      rewrite lookup_delete_ne; [done|]. intros <-. congruence.
  - intros k e [[-> ->]|[_ He]]%storeLocked_lookup; [done|eauto].
  - intros t k w Ht. other_thread Ht; [by injection Ht as <- <-|eauto].
  - intros k cl [Hne Hf]%lookup_delete_Some. destruct (storeLocked _ _ _ !! k) as [e|] eqn:E; [|done].
    apply storeLocked_lookup in E as [[-> _]|[_ He]]; [done|]. by rewrite (I11 _ _ Hf) in He.
  - intros k [[e He]|[cl Hf]].
    + apply storeLocked_lookup in He as [[-> _]|[_ He]]; apply I12; [right|left]; by eexists.
    + apply lookup_delete_Some in Hf as [_ Hf]. apply I12. right. by eexists.
  - apply storeLocked_size; [|done]. intros k Hk. apply I12. by left.
Qed.

Lemma invariant_wake s tid key call v : threads s !! tid = Some (Waiting key call) → finished s !! call = Some v →
  invariant s → invariant (mkSystem (state s) (<[tid := Returned key v]> (threads s)) (finished s) (upstream s)).
Proof.
  intros Htid Hv [I1 I2 I3 I4 I5 I6 I7 I8 I9 I10 I11 I12 I13].
  split; cbn [state threads finished upstream]; try done.
  - intros k cl Hf. destruct (I1 _ _ Hf) as [t Ht]. exists t. rewrite lookup_insert_ne by congruence. done.
  - intros t k cl Ht. other_thread Ht; [done|eauto].
  - intros t1 t2 k c1 c2 H1 H2. other_thread H1; [done|]. other_thread H2; [done|eauto].
  - intros t k cl Ht. other_thread Ht; [done|eauto].
  - intros t k w Ht. other_thread Ht; [|eauto]. injection Ht as <- <-.
    destruct (I8 _ _ _ Htid) as [Hf|(w&Hw&?)]; [by rewrite (I7 _ _ Hf) in Hv|congruence].
Qed.

Lemma reachable_invariant s : reachable s → invariant s.
Proof.
  revert s. apply rtc_ind_r; [apply invariant_initial|]. intros s s' _ Hstep Hinv.
  destruct Hstep as [s tid now key Htid Hkey|s tid key call v now ttl Htid|s tid key call v Htid Hv].
  - by apply invariant_acquire.
  - by apply invariant_release.
  - by eapply invariant_wake.
Qed.

(** A goroutine that waits can return: at once if its flight is done, else when
    the wrapped client answers the leader, with that answer. *)
Lemma waiter_returns s tid key call v : invariant s → threads s !! tid = Some (Waiting key call) →
  ∃ s' w, rtc step s s' ∧ threads s' !! tid = Some (Returned key w) ∧ (finished s !! call = None → w = v).
Proof.
  intros Hinv Hw. destruct (inv_waiter _ Hinv _ _ _ Hw) as [Hf|(w&Hv&_)].
  - destruct (inv_leader _ Hinv _ _ Hf) as [leader Hl]. eexists _, v. split; [|split; [|done]].
    + eapply rtc_l; [apply (step_release s leader key call v 0 0 Hl)|].
      eapply rtc_once, (step_wake _ tid key call); cbn [threads finished].
      * rewrite lookup_insert_ne by congruence. done.
      * apply lookup_insert_eq.
    + cbn [threads]. apply lookup_insert_eq.
  - eexists _, w. split; [by eapply rtc_once, (step_wake _ tid key call)|].
    split; [cbn [threads]; apply lookup_insert_eq|congruence].
Qed.

(** C6 In every interleaving of the goroutines: a key has at most one query at the
    wrapped client at a time, a call for a fresh entry makes none and returns the
    entry, and any other call joins the flight there is or starts the only one;
    whatever a goroutine returns for a key is an answer the wrapped client gave
    for that key; the cache never holds more than its limit (one, if that is
    less); and no waiter is stranded: as soon as its flight is answered it can
    return, with that answer. *)
Theorem prom_cache_safe (s : system) (Hs : reachable s) :
  (∀ tid tid' key call call', threads s !! tid = Some (Leading key call) →
     threads s !! tid' = Some (Leading key call') → tid = tid' ∧ call = call') ∧
  (∀ now key, match (acquire now (state s) key).2 with
     | Hit v => ∃ e, entries (state s) !! key = Some e ∧ now <= expiresAt e ∧ v = value e
     | Join call => ∃ leader, threads s !! leader = Some (Leading key call)
     | Lead call => (∀ tid call', threads s !! tid ≠ Some (Leading key call')) ∧
                    (∀ e, entries (state s) !! key = Some e → expiresAt e < now)
     end) ∧
  (∀ tid key v, threads s !! tid = Some (Returned key v) → (key, v) ∈ upstream s) ∧
  Z.of_nat (size (entries (state s))) <= Z.max 1 MaxEntries ∧
  (∀ tid key call v, threads s !! tid = Some (Waiting key call) →
     ∃ s' w, rtc step s s' ∧ threads s' !! tid = Some (Returned key w) ∧ (finished s !! call = None → w = v)).
Proof.
  apply reachable_invariant in Hs. split_and!.
  - intros tid tid' key call call' H1 H2. assert (tid = tid') as <- by (by eapply inv_unique).
    split; [done|congruence].
  - intros now key. pose proof (acquire_cases now (state s) key) as Hc. cbn zeta in Hc.
    destruct Hc as [(e&He&Hle&->)|(_&Hold&[(call&Hcall&_&_&->)|(Hnone&_&_&->)])].
    + by exists e.
    + by apply (inv_leader _ Hs).
    + split; [|done]. intros tid call' Ht. apply (inv_flight _ Hs) in Ht. congruence.
  - apply (inv_result _ Hs).
  - apply (inv_size _ Hs).
  - intros tid key call v Hw. by apply waiter_returns.
Qed.
End Cache.

Arguments system : clear implicits.
Arguments initial {V}.

(** Two goroutines ask for one key; the first leads, the second waits. *)
Definition sample_system : system nat :=
  mkSystem (mkCache ∅ {["q:up" := 0%nat]} 1) {[0%nat := Leading "q:up" 0; 1%nat := Waiting "q:up" 0]} ∅ [].

Lemma prom_cache_safe_witness :
  @reachable nat canonical_order 2 sample_system ∧
  ∃ s' w, rtc (@step nat canonical_order 2) sample_system s' ∧
    threads s' !! 1%nat = Some (Returned "q:up" w) ∧ (finished sample_system !! 0%nat = None → w = 42%nat).
Proof.
  assert (@reachable nat canonical_order 2 sample_system) as H.
  { eapply rtc_l; [apply (step_acquire 2 initial 0 5 "q:up"); done|].
    eapply rtc_l; [apply (step_acquire 2 _ 1 6 "q:up"); done|].
    match goal with |- rtc _ ?s _ => replace s with sample_system by (by vm_compute) end. apply rtc_refl. }
  split; [exact H|].
  apply (proj2 (proj2 (proj2 (proj2 (@prom_cache_safe nat canonical_order 2 sample_system H)))) 1%nat "q:up" 0%nat 42%nat).
  by vm_compute.
Defined.

(** A positive time to live below a second divides by zero. A failed query is kept
    like any other: its error answers every call until the entry expires, up to a
    day for a range query. *)
Theorem prom_cache_divergences :
  bucketKey (62135596800 * Second) (500 * 1000000) = None ∧
  (let c := @release (result string nat) canonical_order 1024 empty_cache "qr:up" (mkEntry (24 * Hour) (Err "context canceled")) in
   (acquire (24 * Hour) c "qr:up").2 = Hit (Err "context canceled")).
Proof. split; by vm_compute. Qed.
