(* ===== verification/Graph.v ===== *)
(** The workload graph of a cluster (backend/internal/agent/graph/graph.go): which
    services select which workloads, and which workloads have live traffic. *)

From S2P Require Import Prelude GoNum GoStr.
Local Open Scope Z_scope.

Record WorkloadKey := mkWorkloadKey { Namespace : string; Kind : string; Name : string }.
#[export] Instance WorkloadKey_eq_dec : EqDecision WorkloadKey.
Proof. solve_decision. Defined.
#[export] Program Instance WorkloadKey_countable : Countable WorkloadKey :=
  inj_countable' (λ k, (Namespace k, Kind k, Name k)) (λ '(a, b, c), mkWorkloadKey a b c) _.
Next Obligation. by intros []. Qed.

Definition labels : Type := gmap string string.

Record Service := mkService { SvcNamespace : string; SvcName : string; Selector : labels }.
Record EndpointSlice := mkEndpoint { EpNamespace : string; EpService : string; ReadyAddresses : Z }.
Record Edge := mkEdge { From : WorkloadKey; To : WorkloadKey; Via : string }.
Record Snapshot := mkSnapshot {
  CapturedAt : Z; Workloads : list WorkloadKey; Edges : list Edge; Liveness : gmap WorkloadKey bool }.

(** The three lists of the cluster; each may be an error. *)
Record Reader := mkReader {
  RLabels : result string (gmap WorkloadKey labels);
  RServices : result string (list Service);
  REndpoints : result string (list EndpointSlice) }.

(** Iteration over the map of labels: a new order for every loop, numbered. *)
Class LabelOrder := {
  label_range : nat → gmap WorkloadKey labels → list (WorkloadKey * labels);
  label_range_perm i m : label_range i m ≡ₚ map_to_list m }.

(** [have[k] != v]: a missing key reads as the empty string. The order of the
    loop over [want] does not matter to the answer. *)
Definition matchAll (have want : labels) : bool :=
  forallb (λ kv, String.eqb (default "" (have !! kv.1)) kv.2) (map_to_list want).

Definition workloadLess (a b : WorkloadKey) : bool :=
  if negb (String.eqb (Namespace a) (Namespace b)) then String.ltb (Namespace a) (Namespace b)
  else if negb (String.eqb (Kind a) (Kind b)) then String.ltb (Kind a) (Kind b)
  else String.ltb (Name a) (Name b).

Definition edgeLess (a b : Edge) : bool :=
  if negb (String.eqb (Namespace (From a)) (Namespace (From b)))
  then String.ltb (Namespace (From a)) (Namespace (From b))
  else if negb (String.eqb (Name (From a)) (Name (From b))) then String.ltb (Name (From a)) (Name (From b))
  else String.ltb (Via a) (Via b).

Definition service_key (ns name : string) : string := ns +:+ "/" +:+ name.

(** One pass of the loop over the endpoint slices. *)
Definition mark_endpoint (m : gmap string bool) (e : EndpointSlice) : gmap string bool :=
  let key := service_key (EpNamespace e) (EpService e) in
  if 0 <? ReadyAddresses e then <[key := true]> m
  else match m !! key with Some _ => m | None => <[key := false]> m end.

Definition liveByNamespaceService (eps : list EndpointSlice) : gmap string bool :=
  foldl mark_endpoint ∅ eps.

Definition selects (svc : Service) (wl : WorkloadKey * labels) : bool :=
  String.eqb (Namespace wl.1) (SvcNamespace svc) && matchAll wl.2 (Selector svc).

Definition edge (svc : Service) (w : WorkloadKey) : Edge :=
  mkEdge w (mkWorkloadKey (SvcNamespace svc) "Service" (SvcName svc)) (SvcName svc).

Section Build.
Context `{!GoSort, !LabelOrder}.

(** The loop over one service's candidates: liveness and edges so far. *)
Definition service_loop (live : bool) (svc : Service) (ws : list (WorkloadKey * labels))
    (acc : gmap WorkloadKey bool * list Edge) : gmap WorkloadKey bool * list Edge :=
  foldl (λ '(liveness, edges) wl,
    if selects svc wl
    then (if live then <[wl.1 := true]> liveness else liveness, edges ++ [edge svc wl.1])
    else (liveness, edges)) acc ws.

Definition services_loop (lbs : gmap WorkloadKey labels) (lives : gmap string bool) :
    nat → list Service → gmap WorkloadKey bool * list Edge → gmap WorkloadKey bool * list Edge :=
  fix go i svcs acc :=
    match svcs with
    | [] => acc
    | svc :: svcs =>
        if decide (Selector svc = ∅) then go (S i) svcs acc
        else
          let live := default false (lives !! service_key (SvcNamespace svc) (SvcName svc)) in
          go (S i) svcs (service_loop live svc (label_range i lbs) acc)
    end.

Definition Build (r : Reader) (capturedAt : Z) : result string Snapshot :=
  let* lbs := RLabels r in
  let* svcs := RServices r in
  let* eps := REndpoints r in
  let workloads := (label_range 0 lbs).*1 in
  let '(liveness, edges) := services_loop lbs (liveByNamespaceService eps) 1 svcs ((λ _, false) <$> lbs, []) in
  Ok (mkSnapshot capturedAt (sort_slice workloadLess workloads) (sort_slice edgeLess edges) liveness).

(** ** Facts *)

Lemma matchAll_spec have want : matchAll have want = true ↔
  ∀ k v, want !! k = Some v → default "" (have !! k) = v.
Proof.
  unfold matchAll. rewrite forallb_forall. split.
  - intros Hm k v Hk. apply String.eqb_eq, (Hm (k, v)). by apply list_elem_of_In, elem_of_map_to_list.
  - intros Hm [k v] Hin. apply list_elem_of_In, elem_of_map_to_list in Hin. apply String.eqb_eq. by apply Hm.
Qed.

#[export] Instance workloadLess_sw : StrictWeak workloadLess.
Proof.
  eapply (StrictWeak_ext (lex_less (λ a b, String.ltb (Namespace a) (Namespace b))
    (lex_less (λ a b, String.ltb (Kind a) (Kind b)) (λ a b, String.ltb (Name a) (Name b))))).
  - intros a b. unfold workloadLess, lex_less. by rewrite <-!lex_string.
  - repeat apply lex_less_sw; apply string_less_sw.
Qed.

#[export] Instance edgeLess_sw : StrictWeak edgeLess.
Proof.
  eapply (StrictWeak_ext (lex_less (λ a b, String.ltb (Namespace (From a)) (Namespace (From b)))
    (lex_less (λ a b, String.ltb (Name (From a)) (Name (From b))) (λ a b, String.ltb (Via a) (Via b))))).
  - intros a b. unfold edgeLess, lex_less. by rewrite <-!lex_string.
  - repeat apply lex_less_sw; try apply (string_less_sw (λ a, Namespace (From a)));
      try apply (string_less_sw (λ a, Name (From a))); apply string_less_sw.
Qed.

(** A service's traffic: some slice under its key has a ready address. *)
Definition has_ready (eps : list EndpointSlice) (key : string) : Prop :=
  Exists (λ e, service_key (EpNamespace e) (EpService e) = key ∧ 0 < ReadyAddresses e) eps.

Lemma live_spec eps key : default false (liveByNamespaceService eps !! key) = true ↔ has_ready eps key.
Proof.
  unfold liveByNamespaceService, has_ready.
  induction eps as [|e eps IH] using rev_ind; [by rewrite Exists_nil|].
  rewrite foldl_snoc, Exists_app, Exists_cons, Exists_nil, <-IH. clear IH.
  generalize (foldl mark_endpoint ∅ eps). intros m. unfold mark_endpoint. cbv zeta.
  set (k := service_key _ _).
  destruct (Z.ltb_spec 0 (ReadyAddresses e)) as [Hr|Hr]; [|assert (¬ 0 < ReadyAddresses e) by lia; destruct (m !! k) eqn:Ek].
  - destruct (decide (k = key)) as [->|Hne]; [rewrite lookup_insert_eq|rewrite lookup_insert_ne by done];
      simpl; tauto.
  - tauto.
  - destruct (decide (k = key)) as [<-|Hne]; [rewrite lookup_insert_eq, Ek|rewrite lookup_insert_ne by done];
      simpl; intuition congruence.
Qed.

Definition selected (svc : Service) (wl : WorkloadKey * labels) : bool :=
  negb (bool_decide (Selector svc = ∅)) && selects svc wl.

Lemma service_loop_edges live svc ws lv es :
  (service_loop live svc ws (lv, es)).2 =
  es ++ (edge svc ∘ fst <$> List.filter (selects svc) ws).
Proof.
  unfold service_loop. revert lv es. induction ws as [|wl ws IH]; intros lv es; simpl; [by rewrite app_nil_r|].
  destruct (selects svc wl); rewrite IH; [by rewrite <-app_assoc|done].
Qed.

Lemma service_loop_live live svc ws lv es w :
  (service_loop live svc ws (lv, es)).1 !! w =
  if live && existsb (λ wl, bool_decide (wl.1 = w) && selects svc wl) ws then Some true else lv !! w.
Proof.
  unfold service_loop. revert lv es. induction ws as [|wl ws IH]; intros lv es; cbn [foldl existsb].
  { by rewrite andb_false_r. }
  destruct (selects svc wl) eqn:Es; rewrite IH; [|by rewrite andb_false_r].
  rewrite andb_true_r. destruct live; cbn [andb]; [|done].
  destruct (bool_decide_reflect (wl.1 = w)) as [<-|Hne]; cbn [orb]; [rewrite lookup_insert_eq; by destruct (existsb _ _)|].
  by rewrite lookup_insert_ne by done.
Qed.

(** What one service contributes once its candidates are walked in some order. *)
Definition service_edges (lbs : gmap WorkloadKey labels) (svc : Service) : list Edge :=
  if bool_decide (Selector svc = ∅) then []
  else edge svc ∘ fst <$> List.filter (selects svc) (map_to_list lbs).

Definition exposes (lbs : gmap WorkloadKey labels) (lives : gmap string bool) (w : WorkloadKey) (svc : Service) : bool :=
  negb (bool_decide (Selector svc = ∅)) &&
  default false (lives !! service_key (SvcNamespace svc) (SvcName svc)) &&
  match lbs !! w with Some l => selects svc (w, l) | None => false end.

Lemma range_existsb i lbs svc w :
  existsb (λ wl, bool_decide (wl.1 = w) && selects svc wl) (label_range i lbs) =
  match lbs !! w with Some l => selects svc (w, l) | None => false end.
Proof.
  apply eq_true_iff_eq. rewrite existsb_exists. split.
  - intros ([w' l] & Hin & Hb). apply list_elem_of_In in Hin.
    rewrite label_range_perm in Hin. apply elem_of_map_to_list in Hin.
    apply andb_prop in Hb as [Hw Hs]. apply bool_decide_eq_true in Hw. simpl in Hw. subst w'. by rewrite Hin.
  - intros Hs. destruct (lbs !! w) as [l|] eqn:El; [|done]. exists (w, l). split.
    + apply list_elem_of_In. rewrite label_range_perm. by apply elem_of_map_to_list.
    + by rewrite bool_decide_eq_true_2.
Qed.

Lemma filter_Permutation {A} (p : A → bool) (l k : list A) : l ≡ₚ k → List.filter p l ≡ₚ List.filter p k.
Proof. induction 1; simpl; repeat case_match; try done; solve [by constructor|by etrans|constructor]. Qed.

Lemma services_loop_edges lbs lives i svcs lv es :
  (services_loop lbs lives i svcs (lv, es)).2 ≡ₚ es ++ (svcs ≫= service_edges lbs).
Proof.
  revert i lv es. induction svcs as [|svc svcs IH]; intros i lv es; [by rewrite app_nil_r|].
  cbn [services_loop]. rewrite bind_cons. unfold service_edges at 1.
  destruct (decide (Selector svc = ∅)) as [Hs|Hs].
  - rewrite bool_decide_eq_true_2 by done. apply IH.
  - rewrite bool_decide_eq_false_2 by done.
    destruct (service_loop _ _ _ _) as [lv' es'] eqn:El.
    assert (es' = (service_loop (default false (lives !! service_key (SvcNamespace svc) (SvcName svc))) svc
      (label_range i lbs) (lv, es)).2) as -> by by rewrite El.
    rewrite IH, service_loop_edges, <-app_assoc. apply Permutation_app_head, Permutation_app_tail.
    apply fmap_Permutation, filter_Permutation, label_range_perm.
Qed.

Lemma services_loop_live lbs lives i svcs lv es w :
  (services_loop lbs lives i svcs (lv, es)).1 !! w =
  if existsb (exposes lbs lives w) svcs then Some true else lv !! w.
Proof.
  revert i lv es. induction svcs as [|svc svcs IH]; intros i lv es; [done|].
  cbn [services_loop existsb]. unfold exposes at 1.
  destruct (decide (Selector svc = ∅)) as [Hs|Hs].
  - rewrite bool_decide_eq_true_2 by done. apply IH.
  - rewrite bool_decide_eq_false_2 by done. cbn [negb andb].
    destruct (service_loop _ _ _ _) as [lv' es'] eqn:El. rewrite IH.
    assert (lv' = (service_loop (default false (lives !! service_key (SvcNamespace svc) (SvcName svc))) svc
      (label_range i lbs) (lv, es)).1) as -> by by rewrite El.
    rewrite service_loop_live, range_existsb.
    by destruct (existsb _ svcs), (default _ _ && _).
Qed.

(** A live workload: some service with a selector, in its namespace, whose selector its
    labels satisfy, has a ready endpoint. *)
Definition live_workload (svcs : list Service) (eps : list EndpointSlice) (w : WorkloadKey) (l : labels) : Prop :=
  Exists (λ svc, Selector svc ≠ ∅ ∧ Namespace w = SvcNamespace svc ∧
    (∀ k v, Selector svc !! k = Some v → default "" (l !! k) = v) ∧
    has_ready eps (service_key (SvcNamespace svc) (SvcName svc))) svcs.

Lemma exposes_spec lbs eps svcs w l : lbs !! w = Some l →
  existsb (exposes lbs (liveByNamespaceService eps) w) svcs = true ↔ live_workload svcs eps w l.
Proof.
  intros Hl. unfold live_workload. rewrite existsb_exists, Exists_exists. unfold exposes, selects. rewrite Hl.
  split; intros (svc & Hin & Hb); exists svc; rewrite <-?list_elem_of_In in *; split; try done.
  - rewrite !andb_true_iff, negb_true_iff, bool_decide_eq_false, String.eqb_eq, matchAll_spec, live_spec in Hb. naive_solver.
  - rewrite !andb_true_iff, negb_true_iff, bool_decide_eq_false, String.eqb_eq, matchAll_spec, live_spec. naive_solver.
Qed.

(** The workload graph of the three lists of a cluster. An error of any of them is the
    error of the build; otherwise the snapshot lists every labelled workload once, in order;
    its edges are, in order, one for every service with a selector and every workload of its
    namespace whose labels satisfy it; and a workload is marked live exactly when one of
    those services has an endpoint slice with a ready address - whatever the order in which
    the map of labels is ranged over in each of the loops. *)
Theorem build_joins (r : Reader) (capturedAt : Z) :
  match RLabels r, RServices r, REndpoints r with
  | Err e, _, _ | Ok _, Err e, _ | Ok _, Ok _, Err e => Build r capturedAt = Err e
  | Ok lbs, Ok svcs, Ok eps => ∃ s, Build r capturedAt = Ok s ∧ CapturedAt s = capturedAt ∧
      sorted_by workloadLess (Workloads s) ∧ Workloads s ≡ₚ (map_to_list lbs).*1 ∧
      sorted_by edgeLess (Edges s) ∧ Edges s ≡ₚ (svcs ≫= service_edges lbs) ∧
      ∀ w, match lbs !! w with
        | None => Liveness s !! w = None
        | Some l => ∃ b : bool, Liveness s !! w = Some b ∧ (b = true ↔ live_workload svcs eps w l)
        end
  end.
Proof.
  unfold Build. destruct (RLabels r) as [lbs|], (RServices r) as [svcs|], (REndpoints r) as [eps|]; cbn [rbind]; try done.
  destruct (services_loop _ _ _ _ _) as [lv es] eqn:El.
  eexists. split; [done|]. cbn [CapturedAt Workloads Edges Liveness]. split_and!; try done.
  - apply sort_slice_sorted, _.
  - by rewrite sort_slice_perm, label_range_perm.
  - apply sort_slice_sorted, _.
  - rewrite sort_slice_perm. change es with (lv, es).2. by rewrite <-El, services_loop_edges.
  - intros w. change lv with (lv, es).1. rewrite <-El, services_loop_live.
    destruct (lbs !! w) as [l|] eqn:Ew.
    + exists (existsb (exposes lbs (liveByNamespaceService eps) w) svcs).
      split; [|by apply exposes_spec]. destruct (existsb _ _); [done|]. etrans; [apply lookup_fmap|]. by rewrite Ew.
    + destruct (existsb _ _) eqn:Ee; [|etrans; [apply lookup_fmap|]; by rewrite Ew].
      apply existsb_exists in Ee as (svc & _ & Hb). unfold exposes in Hb. by rewrite Ew, andb_false_r in Hb.
Qed.

End Build.

(** ** Where the code and its comments part *)

Definition key_order : LabelOrder :=
  {| label_range := λ _ m, map_to_list m; label_range_perm := λ _ _, reflexivity _ |}.
Definition reverse_order : LabelOrder :=
  {| label_range := λ _ m, rev (map_to_list m); label_range_perm := λ _ m, symmetry (Permutation_rev (map_to_list m)) |}.

Definition web (kind : string) : WorkloadKey := mkWorkloadKey "shop" kind "web".
Definition two_kinds : Reader :=
  mkReader (Ok (<[web "Deployment" := {["app" := "web"]}]> {[web "StatefulSet" := {["app" := "web"]}]}))
    (Ok [mkService "shop" "front" {["app" := "web"]}]) (Ok []).

(** "Sorts are total-ordered": the order on edges leaves out the kind of the workload, so the
    edges of a Deployment and a StatefulSet of one name come in the order of the map; and a
    selector that asks for an empty value is satisfied by a workload without the label. *)
Lemma graph_divergences :
  (@Build stable_GoSort key_order two_kinds 0 ≠ @Build stable_GoSort reverse_order two_kinds 0) ∧
  matchAll ∅ {["canary" := ""]} = true.
Proof.
  split; [|by vm_compute]. intros E.
  apply (f_equal (λ s, match s with Ok s => map (λ e, Kind (From e)) (Edges s) | Err _ => [] end)) in E.
  vm_compute in E. discriminate E.
Qed.
