(* ===== verification/Rollback.v ===== *)
(** The auto-rollback watchdog (backend/internal/rollback/watchdog.go) and its
    workflow (worker/workflows/rollback_watchdog.go). *)

From S2P Require Import Prelude GoNum GoTime Tenancy.
Local Open Scope Z_scope.

Definition Window : Z := 7 * 24 * Hour.

Definition SignalLatencyP95 : string := "latency_p95_ms".
Definition SignalErrorRate : string := "error_rate_bps".
Definition SignalCPUSaturation : string := "cpu_throttle_ratio".

Record Snapshot := mkSnapshot { SnapKind : string; SnapValue : float64; ObservedAt : Z }.
Record Bound := mkBound { BoundKind : string; RealMax : float64; Baseline : float64 }.

Inductive Action := ActionContinue | ActionRollback | ActionClose.
#[export] Instance Action_eq_dec : EqDecision Action.
Proof. solve_decision. Defined.

Record Decision := mkDecision { DAction : Action; DReason : string; Trigger : option Snapshot }.

Record State := mkState { ApplyFixID : string; MergedAt : Z; Bounds : list Bound; Closed : bool }.

Inductive error := ErrMissingID | ErrMissingMergedAt | ErrNoBounds.

Definition Validate (s : State) : option error :=
  if String.eqb (ApplyFixID s) "" then Some ErrMissingID
  else if time_IsZero (MergedAt s) then Some ErrMissingMergedAt
  else match Bounds s with [] => Some ErrNoBounds | _ => None end.

(** [snap.Value > b.RealMax] for a bound of the snapshot's kind. *)
Definition crosses (snap : Snapshot) (b : Bound) : bool :=
  String.eqb (BoundKind b) (SnapKind snap) && f_lt (RealMax b) (SnapValue snap).

(** [Trigger] is the zero snapshot when the action is not a rollback. *)
Definition Decide (s : State) (snap : Snapshot) (now : Z) : result error Decision :=
  match Validate s with
  | Some e => Err e
  | None =>
      if Closed s then Ok (mkDecision ActionClose "watchdog already closed" None)
      else if negb (time_before now (time_add (MergedAt s) Window)) then
        Ok (mkDecision ActionClose "watchdog window expired" None)
      else match List.find (crosses snap) (Bounds s) with
           | Some _ => Ok (mkDecision ActionRollback "metric crossed the predicted upper bound" (Some snap))
           | None => Ok (mkDecision ActionContinue "within bounds" None)
           end
  end.

Definition Close (s : State) : State := mkState (ApplyFixID s) (MergedAt s) (Bounds s) true.
Definition Elapsed (s : State) (now : Z) : Z := time_sub now (MergedAt s).

(** ** The workflow *)

Record RollbackWatchdogPayload := mkPayload { PState : State; PSnapshot : Snapshot; PNow : Z }.

Inductive workflow_error :=
| ENilInitiator | EDecode (e : string) | EDecide (e : error) | EInitiator (e : string).

(** [initiator] is what OpenRollback answers to an id and a reason; the calls are
    the list. *)
Definition Execute (initiator : option (TenantContext → string → string → option string)) (clock : Z)
    (t : TenantContext) (raw : result string RollbackWatchdogPayload)
  : list (string * string) * option workflow_error :=
  match initiator with
  | None => ([], Some ENilInitiator)
  | Some open =>
      match raw with
      | Err e => ([], Some (EDecode e))
      | Ok p =>
          let now := if time_IsZero (PNow p) then clock else PNow p in
          match Decide (PState p) (PSnapshot p) now with
          | Err e => ([], Some (EDecide e))
          | Ok d =>
              if decide (DAction d = ActionRollback) then
                ([(ApplyFixID (PState p), DReason d)],
                 EInitiator <$> open t (ApplyFixID (PState p)) (DReason d))
              else ([], None)
          end
      end
  end.

(** ** Facts *)

Lemma Validate_None s : Validate s = None ↔ ApplyFixID s ≠ "" ∧ MergedAt s ≠ 0 ∧ Bounds s ≠ [].
Proof.
  unfold Validate, time_IsZero. destruct (String.eqb_spec (ApplyFixID s) ""); [naive_solver|].
  destruct (Z.eqb_spec (MergedAt s) 0); [naive_solver|]. destruct (Bounds s); naive_solver.
Qed.

(** A bound of the snapshot's kind is exceeded; no comparison with a NaN is. *)
Definition breached (s : State) (snap : Snapshot) : Prop :=
  ∃ b, b ∈ Bounds s ∧ BoundKind b = SnapKind snap ∧ f_lt (RealMax b) (SnapValue snap) = true.

Lemma find_crosses s snap : breached s snap ↔ ∃ b, List.find (crosses snap) (Bounds s) = Some b.
Proof.
  unfold breached. split.
  - intros (b&Hin&Hk&Hv). destruct (List.find _ _) as [b'|] eqn:E; [by exists b'|].
    apply list_elem_of_In in Hin. apply (find_none _ _ E) in Hin. unfold crosses in Hin.
    rewrite Hk, String.eqb_refl, Hv in Hin. done.
  - intros [b Hb]. apply find_some in Hb as [Hin Hc]. unfold crosses in Hc. apply andb_prop in Hc as [Hk Hv].
    exists b. by rewrite list_elem_of_In, <-String.eqb_eq.
Qed.

(** The watch is over: closed, or a week after the merge. *)
Definition over (s : State) (now : Z) : Prop := Closed s = true ∨ MergedAt s + Window <= now.

Definition action (s : State) (snap : Snapshot) (now : Z) : option Action :=
  match Decide s snap now with Ok d => Some (DAction d) | Err _ => None end.

Lemma over_dec s now : over s now ↔ Closed s || negb (time_before now (time_add (MergedAt s) Window)) = true.
Proof.
  unfold over, time_before, time_add. rewrite orb_true_iff, negb_true_iff, Z.ltb_ge. done.
Qed.

Lemma action_cases s snap now : Validate s = None →
  (over s now ∧ action s snap now = Some ActionClose) ∨
  (¬ over s now ∧ breached s snap ∧ Decide s snap now =
     Ok (mkDecision ActionRollback "metric crossed the predicted upper bound" (Some snap))) ∨
  (¬ over s now ∧ ¬ breached s snap ∧ action s snap now = Some ActionContinue).
Proof.
  intros Hv. unfold action, Decide. rewrite Hv, over_dec, find_crosses.
  destruct (Closed s); [by left|]. destruct (negb _); [by left|]. cbn [orb]. right.
  destruct (List.find _ _) as [b|]; [left|right]; (split; [done|]); (split; [|done]); naive_solver.
Qed.

(** The watchdog's verdict on a valid state: it rolls back exactly when the
    watch is not over and some bound of the snapshot's signal is exceeded, and
    names that snapshot; it closes exactly when the watch is closed or a week old;
    otherwise it continues, so a signal without a bound never rolls back. An over
    watch stays over: whatever is observed later is answered by a close, as it is
    from the moment the state is closed. The workflow opens a rollback for the
    state's fix exactly on a rollback verdict, and at most one. *)
Theorem watchdog_decides (s : State) (snap : Snapshot) (now : Z) :
  (Validate s ≠ None → action s snap now = None) ∧
  (Validate s = None →
     (action s snap now = Some ActionRollback ↔ ¬ over s now ∧ breached s snap) ∧
     (action s snap now = Some ActionClose ↔ over s now) ∧
     (action s snap now = Some ActionContinue ↔ ¬ over s now ∧ ¬ breached s snap) ∧
     (∀ snap' now', now <= now' → action s snap now = Some ActionClose → action s snap' now' = Some ActionClose) ∧
     (∀ snap' now', action (Close s) snap' now' = Some ActionClose)) ∧
  (∀ open t, now ≠ 0 → (Execute (Some open) 0 t (Ok (mkPayload s snap now))).1
     = (if decide (action s snap now = Some ActionRollback)
        then [(ApplyFixID s, "metric crossed the predicted upper bound")] else [])).
Proof.
  split_and!.
  - unfold action, Decide. by destruct (Validate s).
  - intros Hv. pose proof (action_cases s snap now Hv) as Hc.
    assert (∀ snap' now', over s now' → action s snap' now' = Some ActionClose) as Hover.
    { intros snap' now' Ho. by destruct (action_cases s snap' now' Hv) as [[_ ?]|[[? _]|[? _]]]. }
    split_and!.
    1-3: unfold action in *; destruct Hc as [[? ->]|[(?&?&->)|(?&?&->)]]; naive_solver.
    + intros snap' now' Hle Ha. apply Hover.
      destruct Hc as [[Ho _]|[(_&_&E)|(_&_&E)]]; [|unfold action in Ha; by rewrite E in Ha|congruence].
      destruct Ho as [Ho|Ho]; [by left|right; lia].
    + intros snap' now'. unfold action, Decide. change (Validate (Close s)) with (Validate s). by rewrite Hv.
  - intros open t Hn. unfold Execute, time_IsZero. cbn [PState PSnapshot PNow].
    destruct (Z.eqb_spec now 0); [done|]. unfold action.
    destruct (Validate s) eqn:Hv; [by unfold Decide; rewrite Hv|].
    destruct (action_cases s snap now Hv) as [[_ Ha]|[(_&_&->)|(_&_&Ha)]]; [|done|];
      unfold action in Ha; destruct (Decide s snap now) as [d|]; try done; by injection Ha as ->.
Qed.

(** The workflow does not close the watch it acts on: each further poll of the
    same state that sees the breach opens a rollback again. *)
Theorem watchdog_repeats (open : TenantContext → string → string → option string) (t : TenantContext) :
  let s := mkState "fix-1" 1 [mkBound SignalErrorRate (f_of_Z 50) (f_of_Z 10)] false in
  let poll now := Execute (Some open) 0 t (Ok (mkPayload s (mkSnapshot SignalErrorRate (f_of_Z 80) now) now)) in
  (poll 2).1 = [("fix-1", "metric crossed the predicted upper bound")] ∧
  (poll (Hour + 2)).1 = [("fix-1", "metric crossed the predicted upper bound")].
Proof. vm_compute. auto. Qed.
