(* ===== verification/Onboarding.v ===== *)
(** Tenant onboarding (backend/internal/onboarding/state.go, store.go), the nudge
    workflow (worker/workflows/onboarding_nudge.go) and the activation metrics
    (metrics/activation/activation.go).

    The in-memory store hands out states that share their Reached map with the
    stored one. [Advance] writes it only after its checks, and the service puts
    the state back right after, so a value per state is the same to every caller
    that goes through the service. *)

From Stdlib Require Import QArith.
From S2P Require Import Prelude GoNum GoTime Tenancy.
Local Open Scope Z_scope.

(** ** Stages *)

Definition Stage : Type := string.
Definition StageSignedUp : Stage := "signed_up".
Definition StageVCSConnected : Stage := "vcs_connected".
Definition StageRepoSelected : Stage := "repo_selected".
Definition StageFirstPRAnalyzed : Stage := "first_pr_analyzed".
Definition StageAgentInstalled : Stage := "agent_installed".
Definition StageFirstApplyFix : Stage := "first_apply_fix".
Definition StageFirstReceipt : Stage := "first_receipt_issued".

Definition Stages : list Stage :=
  [StageSignedUp; StageVCSConnected; StageRepoSelected; StageFirstPRAnalyzed; StageAgentInstalled;
   StageFirstApplyFix; StageFirstReceipt].

Fixpoint index_from (i : Z) (l : list Stage) (s : Stage) : Z :=
  match l with [] => -1 | v :: l => if String.eqb v s then i else index_from (i + 1) l s end.
Definition Index (s : Stage) : Z := index_from 0 Stages s.

Definition SLOInstallToFirstReceipt : Z := 35 * 24 * Hour.
Definition SLOActivationWindow : Z := 14 * 24 * Hour.

(** ** State *)

(** A nil Reached is the empty map. *)
Record State := mkState { Current : Stage; Reached : gmap Stage Z }.

Definition New (t : Z) : State := mkState StageSignedUp {[StageSignedUp := t]}.

Inductive error :=
| ErrUnknownStage (next : Stage)
| ErrRewind (from to : Stage)
| ErrTenantNotFound
| ErrEmptyTenant.

Definition Advance (s : State) (next : Stage) (t : Z) : result error State :=
  if Index next <? 0 then Err (ErrUnknownStage next)
  else if Index next <? Index (Current s) then Err (ErrRewind (Current s) next)
  else Ok (mkState next (match Reached s !! next with
                         | Some _ => Reached s
                         | None => <[next := t]> (Reached s)
                         end)).

Definition Activated (s : State) (window : Z) : bool :=
  match Reached s !! StageSignedUp, Reached s !! StageFirstApplyFix with
  | Some signup, Some apply => time_sub apply signup <=? window
  | _, _ => false
  end.

Definition TimeToFirstReceipt (s : State) : option Z :=
  match Reached s !! StageAgentInstalled, Reached s !! StageFirstReceipt with
  | Some install, Some receipt => Some (time_sub receipt install)
  | _, _ => None
  end.

Definition HealthyTimeToFirstReceipt (s : State) : bool :=
  match TimeToFirstReceipt s with Some d => d <=? SLOInstallToFirstReceipt | None => false end.

Definition ProgressPercent (s : State) : Z :=
  let idx := Index (Current s) in
  if idx <? 0 then 0 else Z.quot (idx * 100) (Z.of_nat (length Stages) - 1).

(** ** Store and service *)

Definition store : Type := gmap string State.

Definition store_Get (st : store) (tenantID : string) : result error State :=
  match st !! tenantID with Some v => Ok v | None => Err ErrTenantNotFound end.
Definition store_Put (st : store) (tenantID : string) (s : State) : result error store :=
  if String.eqb tenantID "" then Err ErrEmptyTenant else Ok (<[tenantID := s]> st).

(** The store after the call comes with the result, errors included. *)
Definition Service_Get (now : Z) (st : store) (tenantID : string) : store * result error State :=
  if String.eqb tenantID "" then (st, Err ErrEmptyTenant)
  else match store_Get st tenantID with
       | Err ErrTenantNotFound =>
           match store_Put st tenantID (New now) with
           | Err e => (st, Err e)
           | Ok st' => (st', Ok (New now))
           end
       | r => (st, r)
       end.

Definition Transition (now : Z) (st : store) (tenantID : string) (next : Stage) : store * result error State :=
  match Service_Get now st tenantID with
  | (st, Err e) => (st, Err e)
  | (st, Ok s) =>
      match Advance s next now with
      | Err e => (st, Err e)
      | Ok s' => match store_Put st tenantID s' with
                 | Err e => (st, Err e)
                 | Ok st' => (st', Ok s')
                 end
      end
  end.

(** ** Nudges *)

Definition NudgeReason24hNoVCS : string := "24h_no_vcs".
Definition NudgeReason72hNoAgent : string := "72h_no_agent".
Definition NudgeReason7dNoApplyFix : string := "7d_no_apply_fix".
Definition NudgeChannelEmail : string := "email".
Definition NudgeChannelInApp : string := "in_app".
Definition NudgeChannelCSMSlack : string := "csm_slack".

(** The stage, since when, and the channel, when the nudge fires. *)
Definition shouldFire (reason : string) (st : State) (now : Z) : option (Stage * Z * string) :=
  if String.eqb reason NudgeReason24hNoVCS then
    if negb (String.eqb (Current st) StageSignedUp) then None
    else match Reached st !! StageSignedUp with
         | None => None
         | Some signup => if time_sub now signup <? 24 * Hour then None
                          else Some (StageSignedUp, signup, NudgeChannelEmail)
         end
  else if String.eqb reason NudgeReason72hNoAgent then
    if negb (String.eqb (Current st) StageRepoSelected) && negb (String.eqb (Current st) StageFirstPRAnalyzed)
    then None
    else match Reached st !! Current st with
         | None => None
         | Some t => if time_sub now t <? 72 * Hour then None
                     else Some (Current st, t, NudgeChannelInApp)
         end
  else if String.eqb reason NudgeReason7dNoApplyFix then
    if negb (String.eqb (Current st) StageAgentInstalled) then None
    else match Reached st !! StageAgentInstalled with
         | None => None
         | Some t => if time_sub now t <? 7 * 24 * Hour then None
                     else Some (StageAgentInstalled, t, NudgeChannelCSMSlack)
         end
  else None.

Record NudgeEvent := mkNudge {
  NTenant : TenantContext; NReason : string; NChannel : string; NStage : Stage; StuckSince : Z; NNow : Z;
  DashboardURL : string }.

Record OnboardingNudgePayload := mkNudgePayload { PReason : string; PDashboardURL : string; PNow : Z }.

Inductive nudge_error := ENilSource | ENilNotifier | EDecode (e : string) | ELoad (e : string) | ENotify (e : string).

(** The notifications sent, and the error. *)
Definition Nudge_Execute (source : option (string → result string State)) (notifier : option (NudgeEvent → option string))
    (clock : Z) (t : TenantContext) (raw : result string OnboardingNudgePayload)
  : list NudgeEvent * option nudge_error :=
  match source with
  | None => ([], Some ENilSource)
  | Some get =>
      match notifier with
      | None => ([], Some ENilNotifier)
      | Some notify =>
          match raw with
          | Err e => ([], Some (EDecode e))
          | Ok p =>
              let now := if time_IsZero (PNow p) then clock else PNow p in
              match get (TenantID t) with
              | Err e => ([], Some (ELoad e))
              | Ok st =>
                  match shouldFire (PReason p) st now with
                  | None => ([], None)
                  | Some (stage, since, channel) =>
                      let ev := mkNudge t (PReason p) channel stage since now (PDashboardURL p) in
                      ([ev], ENotify <$> notify ev)
                  end
              end
          end
      end
  end.

(** ** Activation metrics *)

Record TenantSnapshot := mkSnapshot { SnapTenantID : string; SnapState : State; CreatedAt : Z }.
Record Rate := mkRate { RateWindow : Z; Sample : Z; ActivatedCount : Z; Percent : float64 }.
Record TTFR := mkTTFR { TSample : Z; P50 : Z; P90 : Z; TMax : Z; HealthyP50 : bool }.
Record Report := mkReport { ComputedAt : Z; RRate : Rate; RTTFR : TTFR }.

Definition signup_of (s : TenantSnapshot) : Z :=
  match Reached (SnapState s) !! StageSignedUp with Some t => t | None => CreatedAt s end.

Definition in_cohort (window now : Z) (s : TenantSnapshot) : bool :=
  negb (time_before (signup_of s) (time_add now (- window)) || time_after (signup_of s) now).

Definition ActivationRate (snapshots : list TenantSnapshot) (window now : Z) : Rate :=
  let window := if window <=? 0 then SLOActivationWindow else window in
  let '(sample, activated) :=
    foldl (λ '(sample, activated) s,
             if in_cohort window now s
             then (sample + 1, if Activated (SnapState s) SLOActivationWindow then activated + 1 else activated)
             else (sample, activated)) (0, 0) snapshots in
  {| RateWindow := window; Sample := sample; ActivatedCount := activated;
     Percent := if 0 <? sample then f_mul (f_div (f_of_Z activated) (f_of_Z sample)) (f_of_Z 100)
                else f_zero false |}.

Section Percentiles.
Context `{!GoPlatform, !GoSort}.

Definition percentile (sorted : list Z) (p : float64) : Z :=
  match sorted with
  | [] => 0
  | first :: _ =>
      if f_le p (f_zero false) then first
      else if f_le (f_of_Z 1) p then List.last sorted first
      else
        let n := Z.of_nat (length sorted) in
        let rank := f_to_i64 (f_add (f_mul p (f_of_Z n)) (f_const (1 # 2)%Q)) in
        let rank := if rank <=? 0 then 1 else rank in
        let rank := if n <? rank then n else rank in
        nth (Z.to_nat (rank - 1)) sorted 0
  end.

Definition TimeToFirstReceipts (snapshots : list TenantSnapshot) : TTFR :=
  let durs := omap (λ s, TimeToFirstReceipt (SnapState s)) snapshots in
  match durs with
  | [] => mkTTFR 0 0 0 0 false
  | _ =>
      let durs := sort_slice Z.ltb durs in
      let p50 := percentile durs (f_const (1 # 2)%Q) in
      {| TSample := Z.of_nat (length durs); P50 := p50; P90 := percentile durs (f_const (9 # 10)%Q);
         TMax := List.last durs 0; HealthyP50 := p50 <=? SLOInstallToFirstReceipt |}
  end.

Definition Compute (snapshots : list TenantSnapshot) (now : Z) : Report :=
  mkReport now (ActivationRate snapshots 0 now) (TimeToFirstReceipts snapshots).
End Percentiles.

(** ** The order of the stages *)

Lemma index_from_bounds l i s : 0 <= i → index_from i l s = -1 ∨ i <= index_from i l s < i + Z.of_nat (length l).
Proof.
  revert i. induction l as [|v l IH]; intros i Hi; cbn [index_from length]; [by left|].
  destruct (String.eqb v s); [right; lia|]. destruct (IH (i + 1)); lia.
Qed.
Lemma index_from_known l i s : 0 <= i → s ∈ l ↔ 0 <= index_from i l s.
Proof.
  revert i. induction l as [|v l IH]; intros i Hi; cbn [index_from].
  { rewrite elem_of_nil. lia. }
  rewrite elem_of_cons. destruct (String.eqb_spec v s) as [->|Hne]; [split; [lia|by left]|].
  rewrite <-IH by lia. split; [by intros [->|?]|by right].
Qed.
Lemma index_from_inj l i s s' : 0 <= i → 0 <= index_from i l s → index_from i l s = index_from i l s' → s = s'.
Proof.
  revert i. induction l as [|v l IH]; intros i Hi; cbn [index_from]; [lia|].
  destruct (String.eqb_spec v s) as [E|E], (String.eqb_spec v s') as [E'|E']; [congruence|..].
  - pose proof (index_from_bounds l (i + 1) s'). lia.
  - pose proof (index_from_bounds l (i + 1) s). lia.
  - apply IH. lia.
Qed.

Lemma Index_bounds s : -1 <= Index s <= 6.
Proof. pose proof (index_from_bounds Stages 0 s) as H. unfold Index. change (length Stages) with 7%nat in H. lia. Qed.
Lemma Index_known s : s ∈ Stages ↔ 0 <= Index s.
Proof. by apply index_from_known. Qed.
Lemma Index_inj s s' : 0 <= Index s → Index s = Index s' → s = s'.
Proof. by apply index_from_inj. Qed.

Lemma Advance_ok s next t s' : Advance s next t = Ok s' ↔
  0 <= Index next ∧ Index (Current s) <= Index next ∧ s' = mkState next
    (match Reached s !! next with Some _ => Reached s | None => <[next := t]> (Reached s) end).
Proof.
  unfold Advance. destruct (Z.ltb_spec (Index next) 0); [split; [done|lia]|].
  destruct (Z.ltb_spec (Index next) (Index (Current s))); [split; [done|lia]|]. naive_solver.
Qed.

(** ** Histories *)

(** The states a tenant can be in: advanced from a new one, at times that do not
    go back; [t] is the time of the last step. *)
Inductive history : State → Z → Prop :=
| H_new t : history (New t) t
| H_step s t next t' s' : history s t → t <= t' → Advance s next t' = Ok s' → history s' t'.

(** What is invariant. *)
Record well_formed (s : State) (t : Z) : Prop := {
  wf_current : is_Some (Reached s !! Current s);
  wf_signup : is_Some (Reached s !! StageSignedUp);
  wf_known : ∀ st u, Reached s !! st = Some u → 0 <= Index st <= Index (Current s) ∧ u <= t;
  wf_order : ∀ st st' u u', Reached s !! st = Some u → Reached s !! st' = Some u' →
    Index st <= Index st' → u <= u';
}.

Lemma advance_well_formed s t next t' s' : well_formed s t → t <= t' → Advance s next t' = Ok s' →
  well_formed s' t'.
Proof.
  intros [Hc Hs Hk Ho] Ht (Hn&Hle&->)%Advance_ok. destruct (Reached s !! next) as [u|] eqn:En.
  - split; cbn [Current Reached]; [by exists u|done| |done].
    intros st v Hv. destruct (Hk _ _ Hv). lia.
  - split; cbn [Current Reached].
    + rewrite lookup_insert_eq. by eexists.
    + destruct Hs as [u Hu]. destruct (decide (next = StageSignedUp)) as [->|Hne];
        [rewrite lookup_insert_eq; by eexists|rewrite lookup_insert_ne by done; by eexists].
    + intros st v [[<- <-]|[Hne Hv]]%lookup_insert_Some; [lia|]. destruct (Hk _ _ Hv). lia.
    + intros st st' u u' [[<- <-]|[Hne Hu]]%lookup_insert_Some [[<- <-]|[Hne' Hu']]%lookup_insert_Some Hi.
      * lia.
      * destruct (Hk _ _ Hu') as [[_ Hi'] _]. assert (Index next = Index st') as E by lia.
        apply Index_inj in E; [|done]. congruence.
      * destruct (Hk _ _ Hu). lia.
      * by eapply Ho.
Qed.

Lemma history_well_formed s t : history s t → well_formed s t.
Proof.
  induction 1 as [t|s t next t' s' _ IH Ht Ha]; [|by eapply advance_well_formed].
  split; cbn [New Current Reached].
  - rewrite lookup_singleton_eq. by eexists.
  - rewrite lookup_singleton_eq. by eexists.
  - intros st u [<- <-]%lookup_singleton_Some. cbn. lia.
  - intros st st' u u' [<- <-]%lookup_singleton_Some [<- <-]%lookup_singleton_Some. lia.
Qed.

Lemma ProgressPercent_mono s s' : 0 <= Index (Current s) <= Index (Current s') →
  0 <= ProgressPercent s <= ProgressPercent s' ∧ ProgressPercent s' <= 100.
Proof.
  intros H. pose proof (Index_bounds (Current s')). unfold ProgressPercent.
  destruct (Z.ltb_spec (Index (Current s)) 0), (Z.ltb_spec (Index (Current s')) 0); try lia.
  change (Z.of_nat (length Stages) - 1) with 6. div_lia.
Qed.


Definition sample_history : State :=
  mkState StageAgentInstalled (<[StageAgentInstalled := 7]> {[StageSignedUp := 5]}).


(** A skipped stage can never be recorded afterwards: a tenant whose fix came
    before the agent was recorded has no time to the first receipt; and a stage
    already passed is not revisited. *)
Theorem skipped_stage_lost (s : State) (skipped : Stage) : 0 <= Index skipped < Index (Current s) →
  ∀ t, Advance s skipped t = Err (ErrRewind (Current s) skipped).
Proof.
  intros H t. unfold Advance. destruct (Z.ltb_spec (Index skipped) 0); [lia|].
  by destruct (Z.ltb_spec (Index skipped) (Index (Current s))); [|lia].
Qed.

(** A transition touches one tenant only. On success it returns the state it
    stored, advanced from the stored one or from a new one; on an error the
    tenant keeps its state, or is left with the new one its first read made. *)
Theorem transition_isolated (now : Z) (st : store) (tenantID : string) (next : Stage) :
  let r := Transition now st tenantID next in
  (∀ other, other ≠ tenantID → r.1 !! other = st !! other) ∧
  match r.2 with
  | Ok s' => r.1 !! tenantID = Some s' ∧ Advance (default (New now) (st !! tenantID)) next now = Ok s'
  | Err e => (tenantID = "" ∧ r.1 = st) ∨
      (tenantID ≠ "" ∧ Advance (default (New now) (st !! tenantID)) next now = Err e ∧
       r.1 !! tenantID = Some (default (New now) (st !! tenantID)))
  end.
Proof.
  cbn zeta. unfold Transition, Service_Get, store_Put, store_Get.
  destruct (String.eqb_spec tenantID "") as [->|Hne]; [by split; [|left]|].
  destruct (st !! tenantID) as [s|] eqn:Es.
  - change (default (New now) (Some s)) with s. destruct (Advance s next now) as [s'|e]; cbn [fst snd].
    + split; [intros o Ho; by apply lookup_insert_ne|]. split; [apply lookup_insert_eq|done].
    + split; [done|]. right. by rewrite Es.
  - change (default (New now) None) with (New now). cbn -[Advance New].
    destruct (Advance (New now) next now) as [s'|e]; cbn [fst snd].
    + split; [intros o Ho; etrans; by apply lookup_insert_ne|]. split; [apply lookup_insert_eq|done].
    + split; [intros o Ho; by apply lookup_insert_ne|]. right. split_and!; [done..|apply lookup_insert_eq].
Qed.

(** ** When a nudge fires *)

Definition stuck_stages (reason : string) : list Stage :=
  if String.eqb reason NudgeReason24hNoVCS then [StageSignedUp]
  else if String.eqb reason NudgeReason72hNoAgent then [StageRepoSelected; StageFirstPRAnalyzed]
  else if String.eqb reason NudgeReason7dNoApplyFix then [StageAgentInstalled] else [].
Definition patience (reason : string) : Z :=
  if String.eqb reason NudgeReason24hNoVCS then Day
  else if String.eqb reason NudgeReason72hNoAgent then 3 * Day else 7 * Day.
Definition nudge_channel (reason : string) : string :=
  if String.eqb reason NudgeReason24hNoVCS then NudgeChannelEmail
  else if String.eqb reason NudgeReason72hNoAgent then NudgeChannelInApp else NudgeChannelCSMSlack.

Lemma wait_over (get : option Z) (now d : Z) (stage : Stage) (channel : string) r :
  - 2^63 < d <= maxDuration →
  match get with
  | None => None
  | Some t => if time_sub now t <? d then None else Some (stage, t, channel)
  end = Some r ↔ ∃ since, get = Some since ∧ since + d <= now ∧ r = (stage, since, channel).
Proof.
  intros Hd. destruct get as [t|]; [|naive_solver].
  pose proof (time_sub_lt now t d Hd). destruct (Z.ltb_spec (time_sub now t) d).
  - split; [done|]. intros (?&[= <-]&?&_). lia.
  - split; [|naive_solver]. intros [= <-]. exists t. split; [done|]. split; [lia|done].
Qed.

Lemma shouldFire_spec reason st now r : shouldFire reason st now = Some r ↔
  Current st ∈ stuck_stages reason ∧
  ∃ since, Reached st !! Current st = Some since ∧ since + patience reason <= now ∧
    r = (Current st, since, nudge_channel reason).
Proof.
  unfold shouldFire, stuck_stages, patience, nudge_channel.
  destruct (String.eqb_spec reason NudgeReason24hNoVCS) as [->|].
  { rewrite list_elem_of_singleton. destruct (String.eqb_spec (Current st) StageSignedUp) as [->|]; cbn [negb];
      [rewrite wait_over by done; naive_solver|naive_solver]. }
  destruct (String.eqb_spec reason NudgeReason72hNoAgent) as [->|].
  { rewrite elem_of_cons, list_elem_of_singleton.
    destruct (String.eqb_spec (Current st) StageRepoSelected), (String.eqb_spec (Current st) StageFirstPRAnalyzed);
      cbn [negb andb]; try (rewrite wait_over by done); naive_solver. }
  destruct (String.eqb_spec reason NudgeReason7dNoApplyFix) as [->|].
  { rewrite list_elem_of_singleton. destruct (String.eqb_spec (Current st) StageAgentInstalled) as [->|]; cbn [negb];
      [rewrite wait_over by done; naive_solver|naive_solver]. }
  rewrite elem_of_nil. naive_solver.
Qed.

(** A nudge fires exactly when the tenant's current stage is one its reason
    waits at and the tenant reached it at least the reason's time ago (a day at
    sign-up, three days without an agent, a week without a fix): it names that
    stage, the time of arrival and the reason's channel. So it never fires for an
    unknown reason or for a tenant that has moved on, keeps firing while nothing
    changes, and one state never fires for two reasons. *)
Theorem nudge_fires (st : State) (now : Z) (reason : string) :
  (∀ stage since channel, shouldFire reason st now = Some (stage, since, channel) ↔
     stage = Current st ∧ stage ∈ stuck_stages reason ∧ Reached st !! stage = Some since ∧
     since + patience reason <= now ∧ channel = nudge_channel reason) ∧
  (∀ now', now <= now' → is_Some (shouldFire reason st now) → shouldFire reason st now' = shouldFire reason st now) ∧
  (∀ reason' now', is_Some (shouldFire reason st now) → is_Some (shouldFire reason' st now') → reason = reason').
Proof.
  split_and!.
  - intros stage since channel. rewrite shouldFire_spec. naive_solver.
  - intros now' Hle [r Hr]. rewrite Hr. apply shouldFire_spec in Hr as (Hin&since&H1&H2&->).
    apply shouldFire_spec. split; [done|]. exists since. split_and!; [done|lia|done].
  - intros reason' now' [r (H1&_)%shouldFire_spec] [r' (H2&_)%shouldFire_spec]. revert H1 H2. unfold stuck_stages.
    destruct (String.eqb_spec reason NudgeReason24hNoVCS), (String.eqb_spec reason NudgeReason72hNoAgent),
      (String.eqb_spec reason NudgeReason7dNoApplyFix), (String.eqb_spec reason' NudgeReason24hNoVCS),
      (String.eqb_spec reason' NudgeReason72hNoAgent), (String.eqb_spec reason' NudgeReason7dNoApplyFix);
      rewrite ?elem_of_cons, ?elem_of_nil; try congruence; intros Ha Hb;
      destruct_or?; try done;
      match goal with E1 : Current st = _, E2 : Current st = _ |- _ => by rewrite E1 in E2 end.
Qed.

(** ** The metrics *)

Lemma rate_counts window now snapshots : ∀ n m,
  foldl (λ '(sample, activated) s,
           if in_cohort window now s
           then (sample + 1, if Activated (SnapState s) SLOActivationWindow then activated + 1 else activated)
           else (sample, activated)) (n, m) snapshots
  = (n + Z.of_nat (length (List.filter (in_cohort window now) snapshots)),
     m + Z.of_nat (length (List.filter (λ s, in_cohort window now s && Activated (SnapState s) SLOActivationWindow) snapshots))).
Proof.
  induction snapshots as [|s l IH]; intros n m; cbn [foldl List.filter].
  { cbn. f_equal; lia. }
  destruct (in_cohort window now s); cbn [andb]; [|apply IH].
  destruct (Activated (SnapState s) SLOActivationWindow); rewrite IH; cbn [length]; f_equal; lia.
Qed.

Lemma percentile_in `{!GoPlatform} l p : l ≠ [] → percentile l p ∈ l.
Proof.
  destruct l as [|x l]; [done|]. intros _. unfold percentile.
  destruct (f_le p (f_zero false)); [by left|].
  destruct (f_le (f_of_Z 1) p).
  { destruct (exists_last (l := x :: l) ltac:(done)) as (l'&y&->). rewrite List.last_last. set_solver. }
  apply list_elem_of_In, nth_In. cbn [length].
  set (rank := f_to_i64 _). set (n := Z.of_nat (S (length l))).
  destruct (Z.leb_spec rank 0), (Z.ltb_spec n 1), (Z.ltb_spec n rank); lia.
Qed.

(** The activation report counts what it says: the sample is the number of
    tenants whose sign-up falls in the window, the activated ones are those of
    them whose fix came within two weeks, so never more; the receipt summary is
    over exactly the tenants with both stages, each percentile is the time of one
    of them and none exceeds the maximum, and the health flag is the 35 day test
    of the median. *)
Theorem activation_report `{!GoPlatform, !GoSort} (snapshots : list TenantSnapshot) (window now : Z) :
  let r := ActivationRate snapshots window now in
  let t := TimeToFirstReceipts snapshots in
  let durs := omap (λ s, TimeToFirstReceipt (SnapState s)) snapshots in
  Sample r = Z.of_nat (length (List.filter (in_cohort (RateWindow r) now) snapshots)) ∧
  ActivatedCount r = Z.of_nat (length (List.filter (λ s, Activated (SnapState s) SLOActivationWindow)
                                         (List.filter (in_cohort (RateWindow r) now) snapshots))) ∧
  0 <= ActivatedCount r <= Sample r ∧
  TSample t = Z.of_nat (length durs) ∧
  (durs = [] → t = mkTTFR 0 0 0 0 false) ∧
  (durs ≠ [] → P50 t ∈ durs ∧ P90 t ∈ durs ∧ TMax t ∈ durs ∧ (∀ d, d ∈ durs → d <= TMax t) ∧
     HealthyP50 t = (P50 t <=? SLOInstallToFirstReceipt)).
Proof.
  cbn zeta. unfold ActivationRate. rewrite rate_counts. cbn [Sample ActivatedCount RateWindow].
  set (w := if window <=? 0 then SLOActivationWindow else window).
  assert (List.filter (λ s, in_cohort w now s && Activated (SnapState s) SLOActivationWindow) snapshots
    = List.filter (λ s, Activated (SnapState s) SLOActivationWindow) (List.filter (in_cohort w now) snapshots)) as ->.
  { induction snapshots as [|s l IH]; [done|]. cbn [List.filter].
    destruct (in_cohort w now s); cbn [andb List.filter]; [|done]. by destruct (Activated _ _); rewrite IH. }
  pose proof (List.filter_length_le (λ s, Activated (SnapState s) SLOActivationWindow) (List.filter (in_cohort w now) snapshots)).
  split; [lia|]. split; [lia|]. split; [lia|].
  unfold TimeToFirstReceipts. destruct (omap _ snapshots) as [|d durs] eqn:Ed; [done|].
  set (sorted := sort_slice Z.ltb (d :: durs)).
  assert (sorted ≡ₚ d :: durs) as Hp by apply sort_slice_perm.
  assert (sorted ≠ []) as Hne by (intros E; rewrite E in Hp; by apply Permutation_nil_cons in Hp).
  cbn [TSample P50 P90 TMax HealthyP50].
  split; [by rewrite Hp|]. split; [done|]. intros _.
  split; [rewrite <-Hp; by apply percentile_in|]. split; [rewrite <-Hp; by apply percentile_in|].
  destruct (exists_last Hne) as (l'&y&Hy). rewrite Hy, List.last_last.
  split; [rewrite <-Hp, Hy; set_solver|]. split; [|done].
  intros x Hx. rewrite <-Hp, Hy in Hx. apply elem_of_app in Hx as [Hx|Hx]; [|apply list_elem_of_singleton in Hx; lia].
  pose proof (sort_slice_sorted Z.ltb (d :: durs) (Z_less_sw (λ z, z))) as Hs. fold sorted in Hs. rewrite Hy in Hs.
  apply StronglySorted_app in Hs as (Hxy&_&_). specialize (Hxy x y Hx ltac:(by left)). by apply Z.ltb_ge.
Qed.

(** The rank is rounded to the nearest, not up: of six samples the 90th
    percentile is the fifth, which only five of six do not exceed. The cohort
    takes a sign-up exactly one window ago, which the documented interval leaves
    out, and a tenant without a recorded sign-up counts in the sample but can
    never be activated. *)
Theorem activation_divergences :
  @percentile amd64 [1; 2; 3; 4; 5; 6] (f_const (9 # 10)%Q) = 5 ∧
  in_cohort 10 100 (mkSnapshot "t" (New 90) 0) = true ∧
  (∀ s window, Reached s !! StageSignedUp = None → Activated s window = false).
Proof.
  split_and!; [by vm_compute|by vm_compute|]. intros s window H. unfold Activated. by rewrite H.
Qed.
