(* ===== verification/Composer.v ===== *)
(** The LLM composer (backend/internal/agent/agent.go) and the synchronous part of
    the canary client (agent/llm/canary): a finding becomes an explanation and a
    diff. The model, the recorder and SHA-256 are parameters; what the composer
    does to them is the log of its events. *)

From Stdlib Require Import Ascii.
From S2P Require Import Prelude GoNum GoStr Lines Utf8 Rules Tenancy Sanitizer.

Local Open Scope Z_scope.

Record LLMRequest := mkLLMRequest {
  CachedSystem : string; System : string; User : string; Model : string; MaxTokens : Z }.

Record LLMResponse := mkLLMResponse {
  Text : string; InputTokens : Z; OutputTokens : Z; CacheReadTokens : Z; CacheCreateTokens : Z;
  CostUSDCents : Z; RModel : string }.

(** What a client answers to a request: a response, and the text of an error. *)
Definition LLMClient : Type := LLMRequest → LLMResponse * option string.

Record FixRequest := mkFixRequest {
  FFinding : Finding; ChartYAML : string; FModel : string; ReqWorkload : string; SystemHint : string }.

Record FixResponse := mkFixResponse {
  Explanation : string; UnifiedDiff : string; FixCostUSDCents : Z; FixModel : string;
  Sanitised : Sanitizer.Result }.

Record CallRecord := mkCallRecord {
  RecWorkload : string; Purpose : string; RecModel : string; RecInputTokens : Z; RecOutputTokens : Z;
  CacheHitTokens : Z; RecCostUSDCents : Z; DurationMS : Z; InputHash : string; OutputHash : string;
  RecSuspicious : bool }.

Record Composer := mkComposer { LLM : option LLMClient; PerCallCents : Z; HasRecorder : bool }.

Inductive compose_error :=
| ErrNilLLM
| ErrTenant (e : tenancy_error)
| ErrSanitize (e : Sanitizer.error)
| ErrBudgetExceeded (projected cap : Z)
| ErrLLM (e : string).

Inductive event :=
| ECall (req : LLMRequest)
| ERecord (t : TenantContext) (call : CallRecord).

(** ** Prompt *)

Definition maxTokens : Z := 4096.

Definition buildCachedSystem : string :=
  "You are Optiqor, a deterministic Kubernetes cost-and-security review assistant. " +:+
  "Output two sections labelled `EXPLANATION:` and `DIFF:`. " +:+
  "The diff must be a valid unified diff against the supplied chart values.yaml; nothing else. " +:+
  "Never invent fields that do not appear in the input.".

Definition buildSystem (req : FixRequest) : string := SystemHint req.

Definition buildUser (req : FixRequest) (chart : string) : string :=
  let nl := String newline "" in
  "Workload: " +:+ ReqWorkload req +:+ nl +:+
  "Detector: " +:+ DetectorID (FFinding req) +:+ nl +:+
  "Title: " +:+ Title (FFinding req) +:+ nl +:+
  "Severity: " +:+ FSeverity (FFinding req) +:+ nl +:+
  "Detail:" +:+ nl +:+ Detail (FFinding req) +:+ nl +:+ nl +:+
  "Chart values.yaml:" +:+ nl +:+ chart.

(** ** Answer *)

Definition cutSection (s start stop : string) : string :=
  match cut_str start s with
  | None => trim_space s
  | Some (_, rest) =>
      match cut_str stop rest with
      | None => trim_space rest
      | Some (section, _) => trim_space section
      end
  end.

Definition extractExplanation (s : string) : string := cutSection s "EXPLANATION:" "DIFF:".

Definition extractDiff (s : string) : string :=
  match cut_str "DIFF:" s with None => "" | Some (_, rest) => trim_space rest end.

(** ** Budget *)

Definition normaliseModel (m : string) : string :=
  let m := to_lower m in
  if str_contains m "haiku" then "claude-haiku"
  else if str_contains m "opus" then "claude-opus"
  else if str_contains m "sonnet" then "claude-sonnet"
  else "claude-sonnet".

Definition perMillionCents (model : string) : Z * Z :=
  let m := normaliseModel model in
  if String.eqb m "claude-haiku" then (100, 500)
  else if String.eqb m "claude-sonnet" then (300, 1500)
  else if String.eqb m "claude-opus" then (1500, 7500)
  else (300, 1500).

Definition projectedCostCents (model : string) (inputChars maxOutputTokens : Z) : Z :=
  let inputTokens := i64_quot inputChars 4 in
  let outputTokens := maxOutputTokens in
  let '(pin, pout) := perMillionCents model in
  let cents := i64_quot (i64_add (i64_mul inputTokens pin) (i64_mul outputTokens pout)) 1000000 in
  if cents <? 1 then 1 else cents.

Definition prompt_length (req : LLMRequest) : Z :=
  i64_add (i64_add (Z.of_nat (String.length (CachedSystem req))) (Z.of_nat (String.length (System req))))
    (Z.of_nat (String.length (User req))).

(** ** GenerateFix *)

Section GenerateFix.
(** [sha256.Sum256] and the milliseconds the call took. *)
Context (sha256 : string → string) (elapsed_ms : Z).

Definition llm_request (req : FixRequest) (san : Sanitizer.Result) : LLMRequest :=
  {| CachedSystem := buildCachedSystem; System := buildSystem req;
     User := buildUser req (Output san); Model := FModel req; MaxTokens := maxTokens |}.

Definition over_budget (c : Composer) (lr : LLMRequest) : option Z :=
  if 0 <? PerCallCents c then
    let projected := projectedCostCents (Model lr) (prompt_length lr) (MaxTokens lr) in
    if PerCallCents c <? projected then Some projected else None
  else None.

Definition call_record (req : FixRequest) (lr : LLMRequest) (resp : LLMResponse) (san : Sanitizer.Result)
  : CallRecord :=
  {| RecWorkload := ReqWorkload req; Purpose := "apply-fix"; RecModel := RModel resp;
     RecInputTokens := InputTokens resp; RecOutputTokens := OutputTokens resp;
     CacheHitTokens := CacheReadTokens resp; RecCostUSDCents := CostUSDCents resp;
     DurationMS := elapsed_ms;
     InputHash := sha256 (CachedSystem lr +:+ System lr +:+ User lr);
     OutputHash := sha256 (Text resp); RecSuspicious := Suspicious san |}.

(** The result, and the calls made in order. *)
Definition GenerateFix (c : Composer) (t : TenantContext) (req : FixRequest)
  : result compose_error FixResponse * list event :=
  match LLM c with
  | None => (Err ErrNilLLM, [])
  | Some llm =>
      match TenantContext_Validate t with
      | Some e => (Err (ErrTenant e), [])
      | None =>
          match Sanitize (ChartYAML req) {| MaxFieldLen := 0; MaxTotalLen := 0; WrapSuspicious := None |} with
          | Err e => (Err (ErrSanitize e), [])
          | Ok san =>
              let lr := llm_request req san in
              match over_budget c lr with
              | Some projected => (Err (ErrBudgetExceeded projected (PerCallCents c)), [])
              | None =>
                  match llm lr with
                  | (_, Some e) => (Err (ErrLLM e), [ECall lr])
                  | (resp, None) =>
                      (Ok {| Explanation := extractExplanation (Text resp);
                             UnifiedDiff := extractDiff (Text resp);
                             FixCostUSDCents := CostUSDCents resp; FixModel := RModel resp;
                             Sanitised := san |},
                       ECall lr :: (if HasRecorder c then [ERecord t (call_record req lr resp san)] else []))
                  end
              end
          end
      end
  end.
End GenerateFix.

(** ** The canary client *)

Record CanaryEvent := mkCanaryEvent {
  PrimaryModel : string; SecondaryModel : string; Diverged : bool; Reason : string; EvWorkload : string }.

(** [compare]: what is reported about the second model. *)
Definition compare (secondary : LLMClient) (workload : option (LLMRequest → string)) (req : LLMRequest)
    (primary : LLMResponse) : CanaryEvent :=
  let '(second, err) := secondary req in
  let '(diverged, reason) :=
    match err with
    | Some e => (true, "secondary error: " +:+ e)
    | None =>
        if String.eqb (extractDiff (Text primary)) "" || String.eqb (extractDiff (Text second)) ""
        then (true, "one model produced no diff")
        else if negb (String.eqb (extractDiff (Text primary)) (extractDiff (Text second)))
        then (true, "diff body differs across models")
        else (false, "")
    end in
  {| PrimaryModel := RModel primary; SecondaryModel := RModel second; Diverged := diverged;
     Reason := reason; EvWorkload := match workload with Some f => f req | None => "" end |}.

(** The response the composer sees, and the event of the goroutine if one is
    started. *)
Definition Canary_Generate (primary : LLMClient) (secondary : option LLMClient)
    (sampler : LLMRequest → bool) (workload : option (LLMRequest → string)) (req : LLMRequest)
  : (LLMResponse * option string) * option CanaryEvent :=
  match primary req with
  | (p, Some e) => ((p, Some e), None)
  | (p, None) =>
      match secondary with
      | Some s => if sampler req then ((p, None), Some (compare s workload req p)) else ((p, None), None)
      | None => ((p, None), None)
      end
  end.

(** ** The budget gate *)

Lemma perMillionCents_bounds model : let '(pin, pout) := perMillionCents model in
  0 < pin <= 1500 ∧ 0 < pout <= 7500.
Proof. unfold perMillionCents. repeat case_match; simplify_eq; lia. Qed.

(** The price of a prompt of [n] bytes and the answer allowed, in millionths of a
    cent, at one token for four bytes. *)
Definition price (model : string) (n : Z) : Z :=
  let '(pin, pout) := perMillionCents model in n / 4 * pin + maxTokens * pout.

(** The projection is the price rounded down to the cent, and at least one. *)
Lemma projectedCostCents_floor model n : 0 <= n < 2^50 →
  projectedCostCents model n maxTokens = Z.max 1 (price model n / 1000000).
Proof.
  intros Hn. unfold projectedCostCents, price, maxTokens.
  pose proof (perMillionCents_bounds model) as Hb. destruct (perMillionCents model) as [pin pout].
  unfold i64_quot, i64_add, i64_mul. rewrite (Z.quot_div_nonneg n 4) by lia.
  assert (0 <= n / 4 <= 2^48) as Hq by (split; div_lia).
  set (q := n / 4) in *.
  rewrite (wrap64_id q) by (unfold in_i64; lia).
  assert (0 <= q * pin <= 2^48 * 1500) by nia.
  rewrite (wrap64_id (q * pin)) by (unfold in_i64; lia).
  rewrite (wrap64_id (4096 * pout)) by (unfold in_i64; lia).
  rewrite (wrap64_id (q * pin + 4096 * pout)) by (unfold in_i64; lia).
  rewrite Z.quot_div_nonneg by lia.
  assert (0 <= (q * pin + 4096 * pout) / 1000000 < 2^62) as Hd by
    (split; [apply Z.div_pos; lia|apply Z.div_lt_upper_bound; lia]).
  rewrite wrap64_id by (unfold in_i64; lia).
  destruct (Z.ltb_spec ((q * pin + 4096 * pout) / 1000000) 1); lia.
Qed.

Definition prompt_bytes (lr : LLMRequest) : Z :=
  Z.of_nat (String.length (CachedSystem lr)) + Z.of_nat (String.length (System lr))
  + Z.of_nat (String.length (User lr)).

Lemma prompt_length_bytes lr : prompt_bytes lr < 2^50 → prompt_length lr = prompt_bytes lr.
Proof.
  unfold prompt_length, prompt_bytes, i64_add. intros H.
  rewrite (wrap64_id (Z.of_nat (String.length (CachedSystem lr)) + _)) by (unfold in_i64; lia).
  apply wrap64_id. unfold in_i64. lia.
Qed.

Lemma over_budget_price c lr : MaxTokens lr = maxTokens → prompt_bytes lr < 2^50 → 0 < PerCallCents c →
  over_budget c lr = None ↔ Z.max 1 (price (Model lr) (prompt_bytes lr) / 1000000) <= PerCallCents c.
Proof.
  intros Hm Hb Hc. assert (0 <= prompt_bytes lr) by (unfold prompt_bytes; lia).
  unfold over_budget. rewrite Hm, prompt_length_bytes, projectedCostCents_floor by (done || lia).
  destruct (Z.ltb_spec 0 (PerCallCents c)); [|lia].
  set (p := Z.max 1 _). destruct (Z.ltb_spec (PerCallCents c) p); split; intros; (done || lia).
Qed.

(** What a run of GenerateFix may end in. Without an event it is the error of a
    stage before the call; otherwise the first event is the one model call. *)
Definition spend_contract (sha256 : string → string) (ms : Z) (c : Composer) (t : TenantContext)
    (req : FixRequest) (run : result compose_error FixResponse * list event) : Prop :=
  match run with
  | (res, []) => ∃ e, res = Err e ∧
      match e with
      | ErrNilLLM => LLM c = None
      | ErrTenant _ => TenantID t = ""
      | ErrSanitize _ => DefaultMaxTotalLen < Z.of_nat (String.length (ChartYAML req))
      | ErrBudgetExceeded projected cap => cap = PerCallCents c ∧ 0 < cap < projected
      | ErrLLM _ => False
      end
  | (res, ECall lr :: log) =>
      ∃ llm san, LLM c = Some llm ∧ TenantID t ≠ "" ∧
        Sanitize (ChartYAML req) (mkOptions 0 0 None) = Ok san ∧
        User lr = buildUser req (Output san) ∧
        (0 < PerCallCents c → price (FModel req) (prompt_bytes lr) < (PerCallCents c + 1) * 1000000) ∧
        match llm lr with
        | (_, Some e) => res = Err (ErrLLM e) ∧ log = []
        | (resp, None) =>
            res = Ok (mkFixResponse (extractExplanation (Text resp)) (extractDiff (Text resp))
                        (CostUSDCents resp) (RModel resp) san) ∧
            log = (if HasRecorder c then [ERecord t (call_record sha256 ms req lr resp san)] else [])
        end
  | _ => False
  end.

(** C37 GenerateFix spends nothing unless the tenant is valid, the chart passed the
    sanitizer and the projected price is within the cap: the events are at most
    one model call and, after a successful one, at most one record of it. The call
    carries the sanitised chart and never the raw one, and its price (one token for
    four bytes, the whole answer used) exceeds a positive cap by less than one
    cent. A run without a call is an error of the stage that stopped. *)
Theorem generate_fix_spend (sha256 : string → string) (ms : Z) (c : Composer) (t : TenantContext) (req : FixRequest)
    (Hsmall : ∀ lr, In (ECall lr) (GenerateFix sha256 ms c t req).2 → prompt_bytes lr < 2^50) :
  spend_contract sha256 ms c t req (GenerateFix sha256 ms c t req).
Proof.
  revert Hsmall. unfold spend_contract, GenerateFix. destruct (LLM c) as [llm|] eqn:Ec; [|by exists ErrNilLLM].
  destruct (TenantContext_Validate t) as [e|] eqn:Ev.
  { intros _. exists (ErrTenant e). split; [done|]. unfold TenantContext_Validate, string_eqb in Ev.
    by destruct (String.eqb_spec (TenantID t) ""). }
  apply validate_iff in Ev.
  destruct (Sanitize _ _) as [san|e] eqn:Es.
  2: { intros _. exists (ErrSanitize e). split; [done|]. by apply Sanitize_err in Es. }
  destruct (over_budget c _) as [projected|] eqn:Eb.
  { intros _. eexists. split; [done|]. cbn. split; [done|]. unfold over_budget in Eb.
    repeat case_match; bool_to_prop; simplify_eq; lia. }
  intros Hsmall. set (lr := llm_request req san) in *.
  assert (0 < PerCallCents c → prompt_bytes lr < 2^50 →
    price (FModel req) (prompt_bytes lr) < (PerCallCents c + 1) * 1000000) as Hprice.
  { intros Hc Hb. apply over_budget_price in Eb; [|done..].
    change (Model lr) with (FModel req) in Eb. div_lia. }
  destruct (llm lr) as [resp [e|]] eqn:El; cbn [snd] in Hsmall; exists llm, san; rewrite El;
    (split_and!; [done..| |done|done]); intros Hc; apply Hprice; [done| |done|];
    apply Hsmall; by left.
Qed.

Example example_client : LLMClient := λ req, (mkLLMResponse ("EXPLANATION: too big" +:+ String newline "DIFF:x") 10 20 0 0 3 "m", None).
Example example_request : FixRequest :=
  mkFixRequest (Build_Finding "cpu" "web" "t" "d" 100 "HIGH" "high" "cost" None) "a: 1 # c" "claude-opus" "web" "".

Definition example_composer (cap : Z) : Composer := mkComposer (Some example_client) cap true.
Definition example_run (cap : Z) : result compose_error FixResponse * list event :=
  GenerateFix (λ s, s) 5 (example_composer cap) (mkTenant "t" "" "" "") example_request.

Lemma small_calls (log : list event) :
  forallb (λ ev, match ev with ECall lr => prompt_bytes lr <? 2^50 | _ => true end) log = true →
  ∀ lr, In (ECall lr) log → prompt_bytes lr < 2^50.
Proof. intros H lr Hin. apply (proj1 (forallb_forall _ _) H) in Hin. by apply Z.ltb_lt. Qed.

Lemma generate_fix_spend_witness :
  ((example_run 29).2 = [] ∧
   spend_contract (λ s, s) 5 (example_composer 29) (mkTenant "t" "" "" "") example_request (example_run 29)) ∧
  (length (example_run 30).2 = 2%nat ∧
   spend_contract (λ s, s) 5 (example_composer 30) (mkTenant "t" "" "" "") example_request (example_run 30)).
Proof.
  split; (split; [by vm_compute|]); apply generate_fix_spend, small_calls; by vm_compute.
Defined.

(** ** The answer's sections *)

(** The composer reads back what the protocol asks the model to write: with an
    explanation that does not itself contain the diff marker, the explanation is
    the text up to the marker and the diff everything after it, trimmed; without
    the diff marker there is no diff, and without any marker the whole answer is
    the explanation. *)
Theorem extract_roundtrip (e d : string) :
  (cut_str "DIFF:" e = None →
   let text := "EXPLANATION:" +:+ e +:+ String newline ("DIFF:" +:+ d) in
   extractExplanation text = trim_space (e +:+ String newline "") ∧ extractDiff text = trim_space d) ∧
  (cut_str "DIFF:" e = None → extractDiff e = "") ∧
  (cut_str "EXPLANATION:" e = None → extractExplanation e = trim_space e).
Proof.
  split_and!.
  - intros He. cbn zeta. unfold extractExplanation, cutSection. rewrite cut_str_app.
    rewrite cut_str_straddle by done. split; [done|].
    assert (cut_str "DIFF:" ("EXPLANATION:" +:+ e) = None) as He'.
    { change ("EXPLANATION:" +:+ e) with
        (String "E" (String "X" (String "P" (String "L" (String "A" (String "N" (String "A"
          (String "T" (String "I" (String "O" (String "N" (String ":" e)))))))))))).
      cbn [cut_str strip_prefix Ascii.eqb Bool.eqb]. by rewrite He. }
    unfold extractDiff. rewrite sapp_assoc, cut_str_straddle by done. done.
  - intros He. unfold extractDiff. by rewrite He.
  - intros He. unfold extractExplanation, cutSection. by rewrite He.
Qed.

(** ** The canary is transparent *)

(** With a canary in front, GenerateFix returns and records exactly what it
    does with the primary model alone, whatever the second model does; and the
    canary reports agreement exactly when the second call succeeded and both
    answers carry the same, non-empty diff. *)
Theorem canary_transparent (primary secondary : LLMClient) (sampler : LLMRequest → bool)
    (workload : option (LLMRequest → string)) :
  (∀ sha ms cap rec t req,
     GenerateFix sha ms (mkComposer (Some (λ r, (Canary_Generate primary (Some secondary) sampler workload r).1)) cap rec) t req
     = GenerateFix sha ms (mkComposer (Some primary) cap rec) t req) ∧
  (∀ req, match (Canary_Generate primary (Some secondary) sampler workload req).2 with
     | None => sampler req = false ∨ (primary req).2 ≠ None
     | Some ev => (primary req).2 = None ∧ sampler req = true ∧
         (Diverged ev = false ↔
          (secondary req).2 = None ∧ extractDiff (Text (secondary req).1) ≠ "" ∧
          extractDiff (Text (primary req).1) = extractDiff (Text (secondary req).1))
     end).
Proof.
  assert (∀ r, (Canary_Generate primary (Some secondary) sampler workload r).1 = primary r) as E.
  { intros r. unfold Canary_Generate. destruct (primary r) as [p [e|]]; [done|]. by destruct (sampler r). }
  split.
  - intros. unfold GenerateFix. cbn [LLM].
    destruct (TenantContext_Validate t); [done|]. destruct (Sanitize _ _) as [san|]; [|done].
    rewrite E. done.
  - intros req. unfold Canary_Generate. destruct (primary req) as [p [e|]]; [by right|].
    destruct (sampler req); [|by left]. cbn [fst snd]. do 2 (split; [done|]).
    unfold compare. destruct (secondary req) as [s [e|]]; cbn [fst snd Diverged]; [naive_solver|].
    generalize (extractDiff (Text p)), (extractDiff (Text s)). intros x y.
    destruct (String.eqb_spec x ""), (String.eqb_spec y ""), (String.eqb_spec x y);
      cbn [orb negb Diverged]; naive_solver.
Qed.
