(* ===== verification/LlmValidator.v ===== *)
(** The deterministic check of an LLM diff (backend/internal/agent/llm/validator). *)

From Stdlib Require Import Ascii.
From S2P Require Import Prelude GoNum GoStr Lines Utf8.

Inductive Severity := SeverityWarn | SeverityHard.
#[export] Instance Severity_eq_dec : EqDecision Severity.
Proof. solve_decision. Defined.

Definition Severity_String (s : Severity) : string :=
  match s with SeverityHard => "hard" | SeverityWarn => "warn" end.

Record Issue := mkIssue { Code : string; ISeverity : Severity; IDetail : string }.
Record Result := mkResult { Issues : list Issue; Rejected : bool }.

(** "key: value" as its two trimmed sides, when the key is not empty. *)
Definition splitKeyValue (s : string) : option (string * string) :=
  match cut_byte ":" s with
  | None => None
  | Some (l, r) =>
      if String.eqb l "" then None
      else if String.eqb (trim_space l) "" then None else Some (trim_space l, trim_space r)
  end.

Definition quoted_zero : string := String (ascii_of_nat 34) ("0" +:+ String (ascii_of_nat 34) "").

Definition line_issues (line : string) : list Issue :=
  if negb (has_prefix line "+") || has_prefix line "+++" then []
  else
    match splitKeyValue (trim_space (trim_prefix line "+")) with
    | None => []
    | Some (k, v) =>
        if str_mem k ["replicaCount"; "replicas"] then
          if String.eqb v "0"
          then [mkIssue "replicas-zero" SeverityHard "diff sets replicas to 0; use HPA min, not a hard zero"]
          else []
        else if str_mem k ["cpu"; "memory"] then
          if String.eqb v quoted_zero || String.eqb v "0"
          then [mkIssue "resource-zero" SeverityHard
                  ("diff sets " +:+ k +:+ " to 0, leaving the workload unbounded")]
          else []
        else []
    end.

(** The code takes the ratio bound and drops it. *)
Definition scanAddedLines (diff : string) (maxRatio : float64) : list Issue :=
  flat_map line_issues (split_byte newline diff).

(** The bound of the options, with its default. *)
Definition effective_ratio (maxRequestRatio : float64) : float64 :=
  if f_le maxRequestRatio (f_zero false) then f_of_Z 10 else maxRequestRatio.

Definition Validate (chartYAML unifiedDiff : string) (maxRequestRatio : float64) : Result :=
  let noHunk :=
    if negb (str_contains unifiedDiff "@@")
    then [mkIssue "diff-no-hunk" SeverityHard "diff missing @@ hunk header"] else [] in
  let noHeader :=
    if negb (has_prefix (trim_space unifiedDiff) "---")
    then [mkIssue "diff-no-header" SeverityWarn "diff missing --- file header"] else [] in
  let issues := noHunk ++ noHeader ++ scanAddedLines unifiedDiff (effective_ratio maxRequestRatio) in
  {| Issues := issues;
     Rejected := negb (str_contains unifiedDiff "@@")
                 || existsb (λ i, bool_decide (ISeverity i = SeverityHard)) issues |}.

(** An added line that sets a replica count or a resource to zero. *)
Definition zero_assignment (line : string) : Prop :=
  has_prefix line "+" = true ∧ has_prefix line "+++" = false ∧
  ∃ k v, splitKeyValue (trim_space (trim_prefix line "+")) = Some (k, v) ∧
    (((k = "replicaCount" ∨ k = "replicas") ∧ v = "0") ∨
     ((k = "cpu" ∨ k = "memory") ∧ (v = "0" ∨ v = quoted_zero))).

Lemma line_issues_spec line : line_issues line ≠ [] ↔ zero_assignment line.
Proof.
  unfold line_issues, zero_assignment.
  destruct (has_prefix line "+"), (has_prefix line "+++"); cbn [negb orb];
    try (split; [done|by intros (?&?&_)]).
  destruct (splitKeyValue _) as [[k v]|]; [|split; [done|by intros (_&_&?&?&?&_)]].
  trans ((k = "replicaCount" ∨ k = "replicas") ∧ v = "0" ∨
         (k = "cpu" ∨ k = "memory") ∧ (v = "0" ∨ v = quoted_zero)).
  2: { split; [intros H; do 2 (split; [done|]); by exists k, v|by intros (_&_&?&?&[= -> ->]&?)]. }
  unfold str_mem. cbn [existsb].
  destruct (String.eqb_spec v "0") as [Hv|Hv], (String.eqb_spec v quoted_zero) as [Hq|Hq];
    destruct (String.eqb_spec k "replicaCount") as [->|]; cbn [orb]; try (by intuition congruence);
    destruct (String.eqb_spec k "replicas") as [->|]; cbn [orb]; try (by intuition congruence);
    destruct (String.eqb_spec k "cpu") as [->|]; cbn [orb]; try (by intuition congruence);
    destruct (String.eqb_spec k "memory") as [->|]; cbn [orb]; by intuition congruence.
Qed.

Lemma line_issues_hard line i : i ∈ line_issues line → ISeverity i = SeverityHard.
Proof.
  unfold line_issues. repeat case_match; rewrite ?elem_of_nil; try done;
    rewrite list_elem_of_singleton; by intros ->.
Qed.

(** A diff is rejected exactly when it has no hunk header or one of its added
    lines sets replicas, cpu or memory to zero; every rejection comes with a hard
    issue; and neither the chart nor the ratio bound plays any part. *)
Theorem llm_validate_rejects (chart diff : string) (ratio : float64) :
  (Rejected (Validate chart diff ratio) = true ↔
     str_contains diff "@@" = false ∨ ∃ line, line ∈ split_byte newline diff ∧ zero_assignment line) ∧
  (Rejected (Validate chart diff ratio) = true ↔
     ∃ i, i ∈ Issues (Validate chart diff ratio) ∧ ISeverity i = SeverityHard) ∧
  (∀ chart' ratio', Validate chart' diff ratio' = Validate chart diff ratio).
Proof.
  assert (Rejected (Validate chart diff ratio) = true ↔
     ∃ i, i ∈ Issues (Validate chart diff ratio) ∧ ISeverity i = SeverityHard) as Hissue.
  { unfold Validate; cbn [Rejected Issues]. rewrite orb_true_iff, existsb_exists, negb_true_iff.
    setoid_rewrite <-list_elem_of_In. setoid_rewrite bool_decide_eq_true. split; [|naive_solver].
    intros [E|?]; [|done]. rewrite E. eexists. split; [by left|done]. }
  split; [|by split]. rewrite Hissue. unfold Validate, scanAddedLines; cbn [Issues]. split.
  - intros (i&Hi&Hs). rewrite !elem_of_app in Hi. destruct Hi as [Hi|[Hi|Hi]].
    + left. by destruct (str_contains diff "@@"); [apply elem_of_nil in Hi|].
    + destruct (negb (has_prefix _ _)); [|by apply elem_of_nil in Hi].
      apply list_elem_of_singleton in Hi as ->. done.
    + right. apply list_elem_of_In, in_flat_map in Hi as (line&Hl&Hi). exists line.
      rewrite list_elem_of_In. split; [done|]. apply line_issues_spec. by destruct (line_issues line).
  - intros [E|(line&Hl&Hz)].
    + rewrite E. eexists. split; [by left|done].
    + apply line_issues_spec in Hz. destruct (line_issues line) as [|i l] eqn:E; [done|].
      exists i. split; [|apply (line_issues_hard line); rewrite E; by left].
      rewrite !elem_of_app. right; right. apply list_elem_of_In, in_flat_map. exists line.
      rewrite <-list_elem_of_In, E. split; [done|]. by left.
Qed.
