(* ===== verification/Validator.v ===== *)
(** The validation pipeline between candidate generation and rendering
    (backend/internal/validator: validator.go, checks.go, metrics.go).

    Go's [Validator] interface is the record [Validator]; a pointer that may be
    nil is an [option]; [int] and [int64] are 64-bit, sums wrap.  A pipeline
    carries its optional metrics and its optional log, which [Run] updates. *)

From S2P Require Import Prelude GoNum Tenancy.
Local Open Scope Z_scope.

(** ** Data *)

Record VQuantity := mkVQuantity { q_Millicores : Z; q_Bytes : Z }.
Record PDB := mkPDB { MinAvailable : Z; MaxUnavailable : Z; PDB_CurrentReplicas : Z }.
Record ResourceQuota := mkQuota {
  Quota_CPUMillicores : Z; Quota_MemoryBytes : Z; UsedCPUMilli : Z; UsedMemoryB : Z }.
Record LimitRange := mkLimitRange {
  MaxCPUMillicores : Z; MaxMemoryBytes : Z; MinCPUMillicores : Z; MinMemoryBytes : Z }.
Record HPA := mkHPA { MinReplicas : Z; MaxReplicas : Z; CurrentReps : Z }.
Record ClusterSignals := mkSignals {
  S_PDB : option PDB; S_Quota : option ResourceQuota; S_LimitRange : option LimitRange;
  S_HPA : option HPA; S_OOMRecent : bool; S_Dependents : list string }.
Record Candidate := mkCandidate {
  WorkloadID : string; DetectorID : string; C_Title : string;
  ProposedCPU : VQuantity; ProposedMemory : VQuantity; ProposedReplicas : Z;
  C_MonthlyUSDCents : Z; Signals : ClusterSignals }.

Inductive VSeverity := SeverityInfo | SeverityWarn | SeverityHard.
#[export] Instance VSeverity_eq_dec : EqDecision VSeverity.
Proof. solve_decision. Defined.

Definition VSeverity_String (s : VSeverity) : string :=
  match s with SeverityHard => "hard" | SeverityWarn => "warn" | SeverityInfo => "info" end.

Record Verdict := mkVerdict { V_Validator : string; V_Severity : VSeverity; V_Reason : string }.

Record Validator := mkValidator {
  V_Name : string;
  V_Check : Candidate → result string (option Verdict) }.

(** ** The checks *)

Definition verdict (s : VSeverity) (reason : string) : result string (option Verdict) :=
  Ok (Some (mkVerdict "" s reason)).
Definition pass : result string (option Verdict) := Ok None.

Definition PDBCheck_Check (c : Candidate) : result string (option Verdict) :=
  match S_PDB (Signals c) with
  | None => pass
  | Some pdb =>
      if ProposedReplicas c =? 0 then pass
      else if MinAvailable pdb <=? 0 then pass
      else if ProposedReplicas c <? MinAvailable pdb
      then verdict SeverityHard "proposed replicas below PDB minAvailable"
      else pass
  end.
Definition PDBCheck : Validator := mkValidator "pdb" PDBCheck_Check.

Definition ResourceQuotaCheck_Check (c : Candidate) : result string (option Verdict) :=
  match S_Quota (Signals c) with
  | None => pass
  | Some q =>
      let cpu := q_Millicores (ProposedCPU c) in
      let mem := q_Bytes (ProposedMemory c) in
      if (0 <? cpu) && (0 <? Quota_CPUMillicores q)
         && (Quota_CPUMillicores q <? i64_add (UsedCPUMilli q) cpu)
      then verdict SeverityHard "proposed CPU exceeds namespace ResourceQuota"
      else if (0 <? mem) && (0 <? Quota_MemoryBytes q)
         && (Quota_MemoryBytes q <? i64_add (UsedMemoryB q) mem)
      then verdict SeverityHard "proposed memory exceeds namespace ResourceQuota"
      else pass
  end.
Definition ResourceQuotaCheck : Validator := mkValidator "resourcequota" ResourceQuotaCheck_Check.

Definition LimitRangeCheck_Check (c : Candidate) : result string (option Verdict) :=
  match S_LimitRange (Signals c) with
  | None => pass
  | Some lr =>
      let cpu := q_Millicores (ProposedCPU c) in
      let mem := q_Bytes (ProposedMemory c) in
      if (0 <? cpu) && ((0 <? MaxCPUMillicores lr) && (MaxCPUMillicores lr <? cpu))
      then verdict SeverityHard "proposed CPU above LimitRange max"
      else if (0 <? cpu) && ((0 <? MinCPUMillicores lr) && (cpu <? MinCPUMillicores lr))
      then verdict SeverityHard "proposed CPU below LimitRange min"
      else if (0 <? mem) && ((0 <? MaxMemoryBytes lr) && (MaxMemoryBytes lr <? mem))
      then verdict SeverityHard "proposed memory above LimitRange max"
      else if (0 <? mem) && ((0 <? MinMemoryBytes lr) && (mem <? MinMemoryBytes lr))
      then verdict SeverityHard "proposed memory below LimitRange min"
      else pass
  end.
Definition LimitRangeCheck : Validator := mkValidator "limitrange" LimitRangeCheck_Check.

Definition HPABoundsCheck_Check (c : Candidate) : result string (option Verdict) :=
  match S_HPA (Signals c) with
  | None => pass
  | Some hpa =>
      if ProposedReplicas c =? 0 then pass
      else if ProposedReplicas c <? MinReplicas hpa
      then verdict SeverityHard "proposed replicas below HPA minReplicas"
      else if MaxReplicas hpa <? ProposedReplicas c
      then verdict SeverityHard "proposed replicas above HPA maxReplicas"
      else verdict SeverityWarn "workload has HPA; replica change will be overridden"
  end.
Definition HPABoundsCheck : Validator := mkValidator "hpabounds" HPABoundsCheck_Check.

Definition DependencyCheck_Check (maxDependents : Z) (c : Candidate) :
    result string (option Verdict) :=
  let maxDep := if maxDependents =? 0 then 3 else maxDependents in
  if maxDep <? Z.of_nat (length (S_Dependents (Signals c)))
  then verdict SeverityHard "too many dependents for an automatic fix"
  else pass.
Definition DependencyCheck (maxDependents : Z) : Validator :=
  mkValidator "dependency" (DependencyCheck_Check maxDependents).

Definition OOMRecentCheck_Check (c : Candidate) : result string (option Verdict) :=
  if negb (S_OOMRecent (Signals c)) then pass
  else if q_Bytes (ProposedMemory c) <=? 0 then pass
  else verdict SeverityHard "recent OOMKill, memory cut rejected".
Definition OOMRecentCheck : Validator := mkValidator "oom-recent" OOMRecentCheck_Check.

Definition Default : list Validator :=
  [PDBCheck; ResourceQuotaCheck; LimitRangeCheck; HPABoundsCheck; DependencyCheck 0; OOMRecentCheck].

(** ** Metrics: a counter is the number of its increments *)

Record Metrics := mkMetrics { counters : gmap string Z; any_counter : Z }.

Definition NewMetrics : Metrics :=
  mkMetrics (foldl (λ m v, <[V_Name v := 0]> m) ∅ Default) 0.

Definition RecordReject (m : Metrics) (reason : string) : Metrics :=
  match counters m !! reason with
  | Some n => mkMetrics (<[reason := n + 1]> (counters m)) (any_counter m)
  | None => mkMetrics (counters m) (any_counter m + 1)
  end.

(** ** The pipeline *)

Record log_record := mkLog {
  log_tenant : string; log_validator : string; log_workload : string;
  log_detector : string; log_reason : string }.

Record Pipeline := mkPipeline {
  validators : list Validator; p_metrics : option Metrics; p_logger : option (list log_record) }.

(** [None] is the panic on an empty list. *)
Definition NewPipeline (vs : list Validator) : option Pipeline :=
  match vs with [] => None | _ => Some (mkPipeline vs None None) end.
Definition WithMetrics (p : Pipeline) (m : option Metrics) : Pipeline :=
  mkPipeline (validators p) m (p_logger p).
Definition WithLogger (p : Pipeline) (l : option (list log_record)) : Pipeline :=
  mkPipeline (validators p) (p_metrics p) l.

Record Result := mkResult { Verdicts : list Verdict; Rejected : option Verdict }.

(** One iteration of the loop, after a check that returned a verdict. *)
Definition note_reject (p : Pipeline) (t : TenantContext) (c : Candidate) (vd : Verdict) : Pipeline :=
  mkPipeline (validators p)
    ((λ m, RecordReject m (V_Validator vd)) <$> p_metrics p)
    ((λ l, l ++ [mkLog (TenantID t) (V_Validator vd) (WorkloadID c) (DetectorID c) (V_Reason vd)])
       <$> p_logger p).

Definition run_verdict (p : Pipeline) (t : TenantContext) (c : Candidate) (out : Result)
    (vd : Verdict) : Pipeline * Result :=
  let out' := mkResult (Verdicts out ++ [vd]) (Rejected out) in
  match V_Severity vd, Rejected out with
  | SeverityHard, None => (note_reject p t c vd, mkResult (Verdicts out') (Some vd))
  | _, _ => (p, out')
  end.

Fixpoint run_loop (vs : list Validator) (p : Pipeline) (t : TenantContext) (c : Candidate)
    (out : Result) : Pipeline * (Result * option (string * string)) :=
  match vs with
  | [] => (p, (out, None))
  | v :: vs' =>
      match V_Check v c with
      | Err e => (p, (out, Some (V_Name v, e)))
      | Ok None => run_loop vs' p t c out
      | Ok (Some vd) =>
          let vd' := mkVerdict (V_Name v) (V_Severity vd) (V_Reason vd) in
          let r := run_verdict p t c out vd' in
          run_loop vs' r.1 t c r.2
      end
  end.

Definition Pipeline_Run (p : Pipeline) (t : TenantContext) (c : Candidate) :
    Pipeline * (Result * option (string * string)) :=
  run_loop (validators p) p t c (mkResult [] None).

(** ** Specification of the pipeline *)

Definition stamped (c : Candidate) (v : Validator) : option Verdict :=
  match V_Check v c with
  | Ok (Some vd) => Some (mkVerdict (V_Name v) (V_Severity vd) (V_Reason vd))
  | _ => None
  end.

Definition is_hard (vd : Verdict) : bool :=
  match V_Severity vd with SeverityHard => true | _ => false end.

(** The validators that run before one fails, and the failure. *)
Fixpoint before_error (c : Candidate) (vs : list Validator) : list Validator :=
  match vs with
  | [] => []
  | v :: vs' => if is_ok (V_Check v c) then v :: before_error c vs' else []
  end.

Fixpoint first_error (c : Candidate) (vs : list Validator) : option (string * string) :=
  match vs with
  | [] => None
  | v :: vs' => match V_Check v c with Err e => Some (V_Name v, e) | Ok _ => first_error c vs' end
  end.

Definition rejected_of (p : Pipeline) (t : TenantContext) (c : Candidate) (r : option Verdict) : Pipeline :=
  match r with None => p | Some vd => note_reject p t c vd end.

Lemma find_app {A} (f : A → bool) l1 l2 :
  List.find f (l1 ++ l2) = match List.find f l1 with Some x => Some x | None => List.find f l2 end.
Proof. induction l1 as [|x l1 IH]; simpl; [done|]. by destruct (f x). Qed.

(** The loop from an intermediate result: [p0] is the pipeline at the start. *)
Lemma run_loop_spec t c p0 vs : ∀ p out,
  Rejected out = List.find is_hard (Verdicts out) → p = rejected_of p0 t c (Rejected out) →
  let r := run_loop vs p t c out in
  Verdicts r.2.1 = Verdicts out ++ omap (stamped c) (before_error c vs) ∧
  Rejected r.2.1 = List.find is_hard (Verdicts r.2.1) ∧
  r.2.2 = first_error c vs ∧ r.1 = rejected_of p0 t c (Rejected r.2.1).
Proof.
  induction vs as [|v vs IH]; intros p out Hr ->; cbn.
  { by rewrite app_nil_r. }
  destruct (V_Check v c) as [[vd|]|e] eqn:E; cbn.
  - unfold stamped at 1. rewrite E. rewrite cons_middle, app_assoc.
    unfold run_verdict. cbn [V_Severity].
    assert (∀ vd', List.find is_hard (Verdicts out ++ [vd']) =
      match Rejected out with Some x => Some x | None => if is_hard vd' then Some vd' else None end) as Hf.
    { intros vd'. by rewrite find_app, <-Hr. }
    destruct (V_Severity vd), (Rejected out); apply IH; cbn; by rewrite ?Hf.
  - unfold stamped at 1. rewrite E. by apply IH.
  - by rewrite app_nil_r.
Qed.

(** ** Specification of the default checks *)

Definition positive_sum_fits (used add quota : Z) : Prop :=
  0 < add → 0 < quota → used + add <= quota.

(** What the cluster signals demand of a candidate, over the integers. *)
Record dispatchable (c : Candidate) : Prop := {
  d_pdb : ∀ pdb, S_PDB (Signals c) = Some pdb → ProposedReplicas c ≠ 0 →
    0 < MinAvailable pdb → MinAvailable pdb <= ProposedReplicas c;
  d_quota : ∀ q, S_Quota (Signals c) = Some q →
    positive_sum_fits (UsedCPUMilli q) (q_Millicores (ProposedCPU c)) (Quota_CPUMillicores q) ∧
    positive_sum_fits (UsedMemoryB q) (q_Bytes (ProposedMemory c)) (Quota_MemoryBytes q);
  d_range : ∀ lr, S_LimitRange (Signals c) = Some lr →
    (0 < q_Millicores (ProposedCPU c) →
       (0 < MaxCPUMillicores lr → q_Millicores (ProposedCPU c) <= MaxCPUMillicores lr) ∧
       (0 < MinCPUMillicores lr → MinCPUMillicores lr <= q_Millicores (ProposedCPU c))) ∧
    (0 < q_Bytes (ProposedMemory c) →
       (0 < MaxMemoryBytes lr → q_Bytes (ProposedMemory c) <= MaxMemoryBytes lr) ∧
       (0 < MinMemoryBytes lr → MinMemoryBytes lr <= q_Bytes (ProposedMemory c)));
  d_hpa : ∀ hpa, S_HPA (Signals c) = Some hpa → ProposedReplicas c ≠ 0 →
    MinReplicas hpa <= ProposedReplicas c <= MaxReplicas hpa;
  d_deps : (length (S_Dependents (Signals c)) <= 3)%nat;
  d_oom : S_OOMRecent (Signals c) = true → q_Bytes (ProposedMemory c) <= 0 }.

(** The quota sums stay inside int64, as they do when usage and request are
    below 2^62. *)
Definition sums_fit (c : Candidate) : Prop :=
  ∀ q, S_Quota (Signals c) = Some q →
    in_i64 (UsedCPUMilli q + q_Millicores (ProposedCPU c)) ∧
    in_i64 (UsedMemoryB q + q_Bytes (ProposedMemory c)).

(** Splits the tests of a check against the same tests as a proposition about
    the signal, and settles each branch by arithmetic. *)
Ltac solve_check :=
  repeat match goal with
  | |- context [if ?b then _ else _] =>
      let E := fresh in destruct b eqn:E;
      rewrite ?andb_true_iff, ?andb_false_iff, ?Z.ltb_lt, ?Z.ltb_ge, ?Z.leb_le, ?Z.leb_gt,
        ?Z.eqb_eq, ?Z.eqb_neq in E
  end; cbn;
  let Hx := fresh in
  split; intros Hx; try done;
  first [ specialize (Hx _ eq_refl); lia
        | intros ? [= <-]; repeat split; intros; lia ].

Definition silent (c : Candidate) (v : Validator) : Prop :=
  match stamped c v with Some vd => is_hard vd = false | None => True end.

Lemma silent_pdb c : silent c PDBCheck ↔
  ∀ pdb, S_PDB (Signals c) = Some pdb → ProposedReplicas c ≠ 0 →
    0 < MinAvailable pdb → MinAvailable pdb <= ProposedReplicas c.
Proof.
  unfold silent, stamped. cbn. unfold PDBCheck_Check, verdict, pass.
  destruct (S_PDB _) as [pdb|]; [|naive_solver]. solve_check.
Qed.

Lemma silent_quota c : sums_fit c → silent c ResourceQuotaCheck ↔
  ∀ q, S_Quota (Signals c) = Some q →
    positive_sum_fits (UsedCPUMilli q) (q_Millicores (ProposedCPU c)) (Quota_CPUMillicores q) ∧
    positive_sum_fits (UsedMemoryB q) (q_Bytes (ProposedMemory c)) (Quota_MemoryBytes q).
Proof.
  unfold sums_fit, silent, stamped, positive_sum_fits. cbn.
  unfold ResourceQuotaCheck_Check, verdict, pass.
  destruct (S_Quota _) as [q|]; [|naive_solver]. intros Hf.
  destruct (Hf q eq_refl). unfold i64_add. rewrite !wrap64_id by done. clear Hf. solve_check.
Qed.

Lemma silent_range c : silent c LimitRangeCheck ↔
  ∀ lr, S_LimitRange (Signals c) = Some lr →
    (0 < q_Millicores (ProposedCPU c) →
       (0 < MaxCPUMillicores lr → q_Millicores (ProposedCPU c) <= MaxCPUMillicores lr) ∧
       (0 < MinCPUMillicores lr → MinCPUMillicores lr <= q_Millicores (ProposedCPU c))) ∧
    (0 < q_Bytes (ProposedMemory c) →
       (0 < MaxMemoryBytes lr → q_Bytes (ProposedMemory c) <= MaxMemoryBytes lr) ∧
       (0 < MinMemoryBytes lr → MinMemoryBytes lr <= q_Bytes (ProposedMemory c))).
Proof.
  unfold silent, stamped. cbn. unfold LimitRangeCheck_Check, verdict, pass.
  destruct (S_LimitRange _) as [lr|]; [|naive_solver]. solve_check.
Qed.

Lemma silent_hpa c : silent c HPABoundsCheck ↔
  ∀ hpa, S_HPA (Signals c) = Some hpa → ProposedReplicas c ≠ 0 →
    MinReplicas hpa <= ProposedReplicas c <= MaxReplicas hpa.
Proof.
  unfold silent, stamped. cbn. unfold HPABoundsCheck_Check, verdict, pass.
  destruct (S_HPA _) as [hpa|]; [|naive_solver]. solve_check.
Qed.

Lemma silent_deps c : silent c (DependencyCheck 0) ↔ (length (S_Dependents (Signals c)) <= 3)%nat.
Proof.
  unfold silent, stamped. cbn. unfold DependencyCheck_Check, verdict, pass. cbn [Z.eqb].
  destruct (Z.ltb_spec 3 (Z.of_nat (length (S_Dependents (Signals c))))); cbn; split; (done || lia).
Qed.

Lemma silent_oom c : silent c OOMRecentCheck ↔
  (S_OOMRecent (Signals c) = true → q_Bytes (ProposedMemory c) <= 0).
Proof.
  unfold silent, stamped. cbn. unfold OOMRecentCheck_Check, verdict, pass.
  destruct (S_OOMRecent _); cbn; [|naive_solver].
  destruct (Z.leb_spec (q_Bytes (ProposedMemory c)) 0); cbn; split; (done || lia || auto).
Qed.

Lemma find_silent c vs :
  List.find is_hard (omap (stamped c) vs) = None ↔ Forall (silent c) vs.
Proof.
  induction vs as [|v vs IH]; cbn; [naive_solver|]. rewrite Forall_cons, <-IH.
  unfold silent at 1. destruct (stamped c v) as [vd|]; cbn; [|naive_solver].
  destruct (is_hard vd); naive_solver.
Qed.

Lemma default_no_error c : before_error c Default = Default ∧ first_error c Default = None.
Proof.
  assert (∀ v, v ∈ Default → is_ok (V_Check v c) = true) as Hok.
  { unfold Default. rewrite <-Forall_forall. unfold pass, verdict.
    repeat constructor; cbn;
      unfold PDBCheck_Check, ResourceQuotaCheck_Check, LimitRangeCheck_Check,
        HPABoundsCheck_Check, DependencyCheck_Check, OOMRecentCheck_Check; by repeat case_match. }
  revert Hok. generalize Default. intros vs. induction vs as [|v vs IH]; intros Hok; [done|]. cbn.
  destruct (IH ltac:(intros; apply Hok; by right)) as [-> ->].
  specialize (Hok v ltac:(left)). by destruct (V_Check v c).
Qed.

(** ** Properties *)

(** [Pipeline.Run], for any validators: it runs them in registration order up
    to the first one that fails; the verdicts are exactly those returned, in that
    order, each stamped with its validator's name; the rejection is the first
    hard verdict; and the pipeline's counters and log record that rejection once
    and nothing else.  A failing validator's error comes with the verdicts
    collected before it. *)
Theorem validator_run_spec p t c :
  let r := Pipeline_Run p t c in
  Verdicts r.2.1 = omap (stamped c) (before_error c (validators p)) ∧
  Rejected r.2.1 = List.find is_hard (Verdicts r.2.1) ∧
  r.2.2 = first_error c (validators p) ∧
  r.1 = match Rejected r.2.1 with None => p | Some vd => note_reject p t c vd end.
Proof. by apply (run_loop_spec t c p). Qed.

(** C38 With the default validators [Run] never fails, and a candidate is not
    rejected exactly when it respects its cluster signals: the disruption
    budget, the namespace quota (as an integer sum), the limit range, the
    autoscaler's bounds, at most three dependents and no memory request after a
    recent OOM kill; provided the quota sums do not overflow int64. *)
Theorem default_dispatchable_iff p t c :
  validators p = Default → sums_fit c →
  (Pipeline_Run p t c).2.2 = None ∧
  ((Rejected (Pipeline_Run p t c).2.1 = None) ↔ dispatchable c).
Proof.
  intros Hv Hf. destruct (default_no_error c) as [Hb He].
  destruct (run_loop_spec t c p (validators p) p (mkResult [] None) eq_refl eq_refl) as (H1&H2&H3&_).
  unfold Pipeline_Run. rewrite H2, H3, H1, Hv, Hb, He. cbn [Verdicts app]. split; [done|].
  rewrite find_silent. unfold Default. rewrite !Forall_cons, Forall_nil.
  rewrite silent_pdb, silent_quota, silent_range, silent_hpa, silent_deps, silent_oom by done.
  split; [intros (?&?&?&?&?&?&_); by split|]. intros [??????]. by split_and!.
Qed.

Definition no_signals : ClusterSignals := mkSignals None None None None false [].
Definition sample_candidate (replicas cpu bytes : Z) (s : ClusterSignals) : Candidate :=
  mkCandidate "api" "cpu-overprovisioned" "t" (mkVQuantity cpu 0) (mkVQuantity 0 bytes) replicas 0 s.
Definition default_pipeline : Pipeline := mkPipeline Default (Some NewMetrics) (Some []).
Definition sample_tenant : TenantContext := mkTenant "t1" "" "" "".

Lemma default_dispatchable_iff_witness :
  Rejected (Pipeline_Run default_pipeline sample_tenant
    (sample_candidate 2 250 0 (mkSignals (Some (mkPDB 2 0 3)) (Some (mkQuota 1000 0 750 0))
       None None false []))).2.1 = None.
Proof.
  apply (default_dispatchable_iff default_pipeline sample_tenant); [reflexivity|..].
  - intros q [= <-]. unfold in_i64. simpl. lia.
  - split; simpl; try (intros; simplify_eq; simpl in *; unfold positive_sum_fits; simpl; lia).
Defined.

(** Where the pipeline departs from its comments: it keeps running after a hard
    verdict; the quota sum wraps, so that a huge request passes; after an OOM
    kill a memory increase is rejected as a cut; and a replica change outside an
    autoscaler's bounds is rejected, not tagged. *)
Theorem validator_divergences :
  let run c := (Pipeline_Run default_pipeline sample_tenant c).2.1 in
  (V_Validator <$> Verdicts (run (sample_candidate 1 0 1 (mkSignals (Some (mkPDB 2 0 3)) None None None
      true [])))) = ["pdb"; "oom-recent"]%string ∧
  Rejected (run (sample_candidate 0 (2^63 - 1) 0 (mkSignals None (Some (mkQuota 1000 0 1 0)) None None
      false []))) = None ∧
  (V_Reason <$> Rejected (run (sample_candidate 0 0 (2^40) (mkSignals None None None None true []))))
    = Some "recent OOMKill, memory cut rejected"%string ∧
  (V_Severity <$> Rejected (run (sample_candidate 9 0 0 (mkSignals None None None (Some (mkHPA 1 5 2))
      false [])))) = Some SeverityHard.
Proof. vm_compute. auto. Qed.
