(* ===== verification/Dispatcher.v ===== *)
(** The in-memory workflow dispatcher (backend/internal/worker/dispatcher.go).

    Its methods run on concurrent goroutines.  A state is the shared [InMemory]
    value and the control point of every goroutine; the atomic steps are the
    critical sections of the mutex and the operations of the wait group, so
    [step] interleaves calls exactly where the code can be preempted between
    them.  Workflows are code behind an interface: a type [W] with a name; that
    one returns, and with which error, is an event. *)

From S2P Require Import Prelude GoStr Tenancy.
Local Open Scope Z_scope.

(** ** Queues *)

Definition QueueDefault : string := "default".
Definition QueuePriority : string := "priority".
Definition SupportedQueues : list string := [QueueDefault; QueuePriority].

Definition QueueName (tenantID class : string) : string :=
  "tenant-" +:+ tenantID +:+ "-" +:+ class.

Fixpoint validClass_loop (c : string) (ks : list string) : bool :=
  match ks with
  | [] => false
  | k :: ks' => if string_eqb c k then true else validClass_loop c ks'
  end.
Definition validClass (c : string) : bool := validClass_loop c SupportedQueues.

(** ** [sortStrings]: insertion sort by adjacent swaps, in place *)

(** [s[j-1], s[j] = s[j], s[j-1]] for [0 < j < len(s)]. *)
Definition swap_down (s : list string) (j : nat) : list string :=
  match s !! (j - 1)%nat, s !! j with
  | Some a, Some b => <[(j - 1)%nat := b]> (<[j := a]> s)
  | _, _ => s
  end.

Fixpoint sort_inner (j : nat) (s : list string) : list string :=
  match j with
  | O => s
  | S j' =>
      match s !! j', s !! j with
      | Some a, Some b => if String.ltb b a then sort_inner j' (swap_down s j) else s
      | _, _ => s
      end
  end.

Definition sortStrings (s : list string) : list string :=
  foldl (λ s i, sort_inner i s) s (seq 1 (length s - 1)).

Abbreviation str_sorted := (sorted_by String.ltb).

#[export] Instance string_ltb_sw : StrictWeak String.ltb.
Proof. apply (string_less_sw id). Qed.

Lemma swap_down_app l1 a b l2 :
  swap_down (l1 ++ a :: b :: l2) (S (length l1)) = l1 ++ b :: a :: l2.
Proof.
  unfold swap_down. cbn [Nat.sub]. rewrite Nat.sub_0_r.
  rewrite list_lookup_middle by done.
  rewrite (cons_middle a l1 (b :: l2)), app_assoc, list_lookup_middle by (rewrite length_app; simpl; lia).
  rewrite (insert_app_r_alt (l1 ++ [a])) by (rewrite length_app; simpl; lia).
  rewrite length_app. cbn [length]. replace (S (length l1) - (length l1 + 1))%nat with 0%nat by lia.
  cbn [insert list_insert]. rewrite <-app_assoc. cbn [app].
  rewrite insert_app_r_alt by done. by rewrite Nat.sub_diag.
Qed.

(** One pass moves the element behind a sorted prefix to its place. *)
Lemma sort_inner_spec l1 x l2 : str_sorted l1 →
  ∃ l, sort_inner (length l1) (l1 ++ x :: l2) = l ++ l2 ∧ l ≡ₚ l1 ++ [x] ∧ str_sorted l.
Proof.
  revert l2. induction l1 as [|y l1 IH] using rev_ind; intros l2 Hs.
  { exists [x]. repeat constructor. }
  apply StronglySorted_app in Hs as (Hle&Hs1&_).
  rewrite length_app, Nat.add_1_r, <-app_assoc. cbn [sort_inner app].
  rewrite list_lookup_middle by done.
  rewrite (cons_middle y l1 (x :: l2)), app_assoc, list_lookup_middle by (rewrite length_app; simpl; lia).
  rewrite <-app_assoc. cbn [app].
  destruct (String.ltb x y) eqn:E.
  - rewrite swap_down_app. destruct (IH (y :: l2) Hs1) as (l&->&Hp&Hl).
    exists (l ++ [y]). rewrite <-app_assoc. split_and!; [done|rewrite Hp; solve_Permutation|].
    apply StronglySorted_app. split_and!; [|done|repeat constructor].
    intros u v Hu ->%list_elem_of_singleton. rewrite Hp in Hu.
    apply elem_of_app in Hu as [Hu| ->%list_elem_of_singleton]; [apply Hle; [done|left]|].
    by apply sw_asym.
  - exists (l1 ++ [y; x]). rewrite <-!app_assoc. split_and!; [done..|].
    apply StronglySorted_app. split_and!; [|done|repeat constructor; done].
    intros u v Hu Hv. assert (String.ltb y u = false) as Hyu by (apply Hle; [done|left]).
    apply elem_of_cons in Hv as [->| ->%list_elem_of_singleton]; [done|]. by eapply sw_ntrans.
Qed.

Lemma sort_outer_spec l2 : ∀ l1, str_sorted l1 →
  let r := foldl (λ s i, sort_inner i s) (l1 ++ l2) (seq (length l1) (length l2)) in
  r ≡ₚ l1 ++ l2 ∧ str_sorted r.
Proof.
  induction l2 as [|x l2 IH]; intros l1 Hs; cbn [length seq foldl]; cbv zeta.
  { by rewrite app_nil_r. }
  destruct (sort_inner_spec l1 x l2 Hs) as (l&->&Hp&Hl).
  assert (length l = S (length l1)) as Hlen by (rewrite Hp, length_app; simpl; lia).
  rewrite <-Hlen. destruct (IH l Hl) as [Hp' Hs']. split; [|done].
  rewrite Hp', Hp, <-app_assoc. done.
Qed.

Lemma sortStrings_spec s : sortStrings s ≡ₚ s ∧ str_sorted (sortStrings s).
Proof.
  destruct s as [|x s]; [by repeat constructor|].
  unfold sortStrings. cbn [length]. rewrite Nat.sub_1_r. cbn [Nat.pred].
  apply (sort_outer_spec s [x]). repeat constructor.
Qed.

Section Dispatcher.
Context {W : Type} (W_Name : W → string).

(** ** State *)

Record InMemory := mkInMemory {
  workflows : gmap string W; draining : bool; wg : Z }.

Definition NewInMemory : InMemory := mkInMemory ∅ false 0.

Inductive worker_error :=
| ErrBadWorkflow
| ErrDuplicateWorkflow (name : string)
| ErrTenant (e : tenancy_error)
| ErrUnknownClass (class : string)
| ErrDraining
| ErrUnknownWorkflow (name : string)
| ErrExecute (msg : string)
| ErrContext.

Definition Register (d : InMemory) (w : option W) : result worker_error InMemory :=
  match w with
  | None => Err ErrBadWorkflow
  | Some w =>
      if string_eqb (W_Name w) "" then Err ErrBadWorkflow
      else match workflows d !! W_Name w with
           | Some _ => Err (ErrDuplicateWorkflow (W_Name w))
           | None => Ok (mkInMemory (<[W_Name w := w]> (workflows d)) (draining d) (wg d))
           end
  end.

(** The arguments of a [Submit] call. *)
Record submission := mkSubmission {
  s_ctx : go_context; s_tenant : TenantContext; s_class : string; s_name : string;
  s_payload : string }.

(** [Submit] up to the release of the read lock and the test of [ok]. *)
Definition Submit_check (d : InMemory) (a : submission) : result worker_error W :=
  match TenantContext_Validate (s_tenant a) with
  | Some e => Err (ErrTenant e)
  | None =>
      if negb (validClass (s_class a)) then Err (ErrUnknownClass (s_class a))
      else if draining d then Err ErrDraining
      else match workflows d !! s_name a with
           | Some wf => Ok wf
           | None => Err (ErrUnknownWorkflow (s_name a))
           end
  end.

Definition wg_add (d : InMemory) (delta : Z) : InMemory :=
  mkInMemory (workflows d) (draining d) (wg d + delta).
Definition set_draining (d : InMemory) : InMemory :=
  mkInMemory (workflows d) true (wg d).

Definition Workflows `{GoMapOrder} (d : InMemory) : list string :=
  sortStrings (fst <$> map_iter (workflows d)).

(** ** Goroutines *)

Inductive proc :=
| SubmitEntered (a : submission)
| SubmitChecked (a : submission) (wf : W)           (** before [wg.Add(1)] *)
| SubmitRunning (a : submission) (scoped : go_context) (wf : W)
| SubmitReturned (a : submission) (r : option worker_error)
| DrainEntered
| DrainWaiting                                      (** in the [select] *)
| DrainDone                                         (** [done] is closed *)
| DrainReturned (r : option worker_error).

Record system := mkSystem { mem : InMemory; procs : gmap nat proc }.

Definition initial : system := mkSystem NewInMemory ∅.

Inductive event :=
| CallRegister (w : option W)
| CallSubmit (i : nat) (a : submission)
| CallDrain (i : nat)
| Advance (i : nat)                                 (** next step of goroutine [i] *)
| ExecuteReturns (i : nat) (e : option string)      (** the workflow's own result *)
| ContextDone (i : nat).                            (** the context of a [Drain] ends *)

Definition set_proc (s : system) (d : InMemory) (i : nat) (p : proc) : option system :=
  Some (mkSystem d (<[i := p]> (procs s))).

Definition spawn (s : system) (i : nat) (p : proc) : option system :=
  match procs s !! i with Some _ => None | None => set_proc s (mem s) i p end.

Definition advance (s : system) (i : nat) (p : proc) : option system :=
  let d := mem s in
  match p with
  | SubmitEntered a =>
      match Submit_check d a with
      | Err e => set_proc s d i (SubmitReturned a (Some e))
      | Ok wf => set_proc s d i (SubmitChecked a wf)
      end
  | SubmitChecked a wf =>
      set_proc s (wg_add d 1) i (SubmitRunning a (WithContext (s_ctx a) (s_tenant a)) wf)
  | DrainEntered => set_proc s (set_draining d) i DrainWaiting
  | DrainWaiting => if wg d =? 0 then set_proc s d i DrainDone else None
  | DrainDone => set_proc s d i (DrainReturned None)
  | SubmitRunning _ _ _ | SubmitReturned _ _ | DrainReturned _ => None
  end.

Definition step (s : system) (ev : event) : option system :=
  let d := mem s in
  match ev with
  | CallRegister w =>
      Some (mkSystem (match Register d w with Ok d' => d' | Err _ => d end) (procs s))
  | CallSubmit i a => spawn s i (SubmitEntered a)
  | CallDrain i => spawn s i DrainEntered
  | Advance i => p ← procs s !! i; advance s i p
  | ExecuteReturns i e =>
      match procs s !! i with
      | Some (SubmitRunning a _ _) =>
          set_proc s (wg_add d (-1)) i (SubmitReturned a (ErrExecute <$> e))
      | _ => None
      end
  | ContextDone i =>
      match procs s !! i with
      | Some DrainWaiting | Some DrainDone => set_proc s d i (DrainReturned (Some ErrContext))
      | _ => None
      end
  end.

Fixpoint exec (s : system) (evs : list event) : option system :=
  match evs with
  | [] => Some s
  | ev :: evs' => s' ← step s ev; exec s' evs'
  end.

Definition reachable (s : system) : Prop := ∃ evs, exec initial evs = Some s.

(** ** Sums over the goroutines *)

Definition msum (f : proc → Z) (m : gmap nat proc) : Z := Zsum ((λ ip, f ip.2) <$> map_to_list m).

Lemma msum_new f m i p : m !! i = None → msum f (<[i := p]> m) = f p + msum f m.
Proof.
  intros Hi. unfold msum. erewrite (Zsum_perm _ ((λ ip, f ip.2) <$> (i, p) :: map_to_list m)); [done|].
  by rewrite map_to_list_insert.
Qed.

Lemma msum_update f m i p q : m !! i = Some q → msum f (<[i := p]> m) = f p - f q + msum f m.
Proof.
  intros Hi. assert (delete i m !! i = None) as Hd by apply lookup_delete_eq.
  pose proof (msum_new f _ _ q Hd) as H1. pose proof (msum_new f _ _ p Hd) as H2.
  rewrite insert_delete_eq in H1, H2. rewrite (insert_id m i q) in H1 by done. lia.
Qed.

Lemma msum_zero f m : (∀ i p, m !! i = Some p → f p = 0) → msum f m = 0.
Proof.
  intros Hz. unfold msum. assert (∀ ip, ip ∈ map_to_list m → f ip.2 = 0) as Hl.
  { intros [i p] Hip%elem_of_map_to_list. by eapply Hz. }
  induction (map_to_list m) as [|ip l IH]; [done|]. cbn [fmap list_fmap Zsum foldr].
  change (foldr Z.add 0) with Zsum. rewrite IH, Hl; [done|left|]. intros. apply Hl. by right.
Qed.

Lemma msum_nonneg f m : (∀ p, 0 <= f p) → 0 <= msum f m.
Proof. intros Hf. apply Zsum_nonneg, Forall_fmap, Forall_true. intros ip. apply Hf. Qed.

(** An element of a sum of non-negative numbers is at most the sum. *)
Lemma msum_ge f m i p : (∀ p, 0 <= f p) → m !! i = Some p → f p <= msum f m.
Proof.
  intros Hf Hi. assert (delete i m !! i = None) as Hd by apply lookup_delete_eq.
  pose proof (msum_new f _ _ p Hd) as H1. rewrite insert_delete_eq, insert_id in H1 by done.
  pose proof (msum_nonneg f (delete i m) Hf). lia.
Qed.

(** ** The invariant *)

Definition running (p : proc) : Z := match p with SubmitRunning _ _ _ => 1 | _ => 0 end.

Definition admissible (d : InMemory) (a : submission) (wf : W) : Prop :=
  TenantID (s_tenant a) ≠ ""%string ∧ s_class a ∈ SupportedQueues ∧
  workflows d !! s_name a = Some wf ∧ W_Name wf = s_name a.

Definition proc_ok (d : InMemory) (p : proc) : Prop :=
  match p with
  | SubmitChecked a wf => admissible d a wf
  | SubmitRunning a scoped wf => admissible d a wf ∧ FromContext scoped = Ok (s_tenant a)
  | SubmitReturned _ (Some ErrDraining) | DrainWaiting | DrainDone | DrainReturned _ => draining d = true
  | _ => True
  end.

Record inv (s : system) : Prop := {
  inv_wg : wg (mem s) = msum running (procs s);
  inv_keys : ∀ n w, workflows (mem s) !! n = Some w → W_Name w = n ∧ n ≠ ""%string;
  inv_procs : ∀ i p, procs s !! i = Some p → proc_ok (mem s) p }.

(** The shared value only grows, up to the wait group. *)
Definition grows (d d' : InMemory) : Prop :=
  workflows d ⊆ workflows d' ∧ (draining d = true → draining d' = true).

Lemma proc_ok_grows d d' p : grows d d' → proc_ok d p → proc_ok d' p.
Proof.
  intros [Hw Hd].
  assert (∀ a wf, admissible d a wf → admissible d' a wf) as Ha.
  { intros a wf (?&?&?&?). split_and!; try done. by eapply lookup_weaken. }
  destruct p as [| | |? [[]|]| | | |]; cbn; naive_solver.
Qed.

Lemma inv_set s d i p :
  inv s → grows (mem s) d → workflows d = workflows (mem s) →
  wg d = msum running (<[i := p]> (procs s)) → proc_ok d p →
  inv (mkSystem d (<[i := p]> (procs s))).
Proof.
  intros [_ Hk Hp] Hg Hw Hwg Hok. split; cbn; [done|by rewrite Hw|].
  intros j q. rewrite lookup_insert_Some. intros [[_ <-]|[_ Hj]]; [done|].
  eauto using proc_ok_grows.
Qed.

Lemma register_cases d w :
  (∃ e, Register d w = Err e) ∨
  (∃ x, w = Some x ∧ W_Name x ≠ ""%string ∧ workflows d !! W_Name x = None ∧
     Register d w = Ok (mkInMemory (<[W_Name x := x]> (workflows d)) (draining d) (wg d))).
Proof.
  unfold Register, string_eqb. destruct w as [x|]; [|eauto].
  destruct (String.eqb_spec (W_Name x) ""); [eauto|].
  destruct (workflows d !! W_Name x) eqn:E; [eauto|]. right. eauto 10.
Qed.

Lemma validClass_iff c : validClass c = true ↔ c ∈ SupportedQueues.
Proof.
  unfold validClass, SupportedQueues, validClass_loop, string_eqb.
  rewrite !elem_of_cons, elem_of_nil.
  destruct (String.eqb_spec c QueueDefault), (String.eqb_spec c QueuePriority); naive_solver.
Qed.

Lemma submit_check_ok s a wf : inv s →
  Submit_check (mem s) a = Ok wf → admissible (mem s) a wf ∧ draining (mem s) = false.
Proof.
  intros Hi. unfold Submit_check. destruct (TenantContext_Validate (s_tenant a)) eqn:E1; [done|].
  destruct (validClass (s_class a)) eqn:E2; [cbn|done]. destruct (draining (mem s)); [done|].
  destruct (workflows (mem s) !! s_name a) eqn:E3; [|done]. intros [= ->].
  apply validate_iff in E1. apply validClass_iff in E2.
  destruct (inv_keys _ Hi _ _ E3). by repeat split.
Qed.

Lemma submit_check_err_draining d a : Submit_check d a = Err ErrDraining → draining d = true.
Proof. unfold Submit_check. intros. by split_matches. Qed.

(** ** Steps of a goroutine as a relation *)

(** [moves d p d' p']: a goroutine at [p] moves to [p'] while the shared value
    goes from [d] to [d']. *)
Inductive moves (d : InMemory) : proc → InMemory → proc → Prop :=
| MvRefuse a e : Submit_check d a = Err e →
    moves d (SubmitEntered a) d (SubmitReturned a (Some e))
| MvCheck a wf : Submit_check d a = Ok wf → moves d (SubmitEntered a) d (SubmitChecked a wf)
| MvAdd a wf : moves d (SubmitChecked a wf) (wg_add d 1)
    (SubmitRunning a (WithContext (s_ctx a) (s_tenant a)) wf)
| MvExec a scoped wf e : moves d (SubmitRunning a scoped wf) (wg_add d (-1))
    (SubmitReturned a (ErrExecute <$> e))
| MvDrain : moves d DrainEntered (set_draining d) DrainWaiting
| MvZero : wg d = 0 → moves d DrainWaiting d DrainDone
| MvReturn : moves d DrainDone d (DrainReturned None)
| MvCancel1 : moves d DrainWaiting d (DrainReturned (Some ErrContext))
| MvCancel2 : moves d DrainDone d (DrainReturned (Some ErrContext)).

Definition progress (ev : event) : bool :=
  match ev with Advance _ | ExecuteReturns _ _ | ContextDone _ => true | _ => false end.

(** Every step registers a workflow, starts a goroutine, or moves one. *)
Lemma step_cases s ev s' : step s ev = Some s' →
  (∃ w, ev = CallRegister w ∧
     s' = mkSystem (match Register (mem s) w with Ok d' => d' | Err _ => mem s end) (procs s)) ∨
  (∃ i p, progress ev = false ∧ procs s !! i = None ∧
     (p = DrainEntered ∨ ∃ a, p = SubmitEntered a) ∧ s' = mkSystem (mem s) (<[i := p]> (procs s))) ∨
  (∃ i p d' p', progress ev = true ∧ procs s !! i = Some p ∧ moves (mem s) p d' p' ∧
     s' = mkSystem d' (<[i := p']> (procs s))).
Proof.
  destruct ev as [w|i a|i|i|i e|i]; cbn; unfold spawn, set_proc.
  - intros [= <-]. left. eauto.
  - destruct (procs s !! i) eqn:Ei; [done|]. intros [= <-]. right. left. eauto 10.
  - destruct (procs s !! i) eqn:Ei; [done|]. intros [= <-]. right. left. eauto 10.
  - destruct (procs s !! i) as [p|] eqn:Ei; cbn; [|done]. intros Ha. right. right. exists i, p.
    destruct p; cbn in Ha; unfold set_proc in Ha; split_matches; bool_to_prop;
      simplify_eq; eauto 10 using moves.
  - destruct (procs s !! i) as [[]|] eqn:Ei; try done. intros [= <-]. right. right.
    eauto 10 using moves.
  - destruct (procs s !! i) as [[]|] eqn:Ei; try done; intros [= <-]; right; right;
      eauto 10 using moves.
Qed.

Lemma moves_wg d p d' p' : moves d p d' p' → wg d' = wg d + running p' - running p.
Proof. destruct 1; cbn; lia. Qed.

Lemma moves_grows d p d' p' : moves d p d' p' → grows d d' ∧ workflows d' = workflows d.
Proof. destruct 1; cbn; by repeat split. Qed.

Lemma moves_ok s p d' p' : inv s → proc_ok (mem s) p → moves (mem s) p d' p' → proc_ok d' p'.
Proof.
  intros Hi Hp. destruct 1 as [a e He|a wf Hc| |a sc wf [e|]| | | | |]; cbn in *; try done.
  - destruct e; try done. by eapply submit_check_err_draining.
  - by eapply submit_check_ok.
  - split; [done|]. destruct Hp as [Ht _]. unfold FromContext, WithContext.
    by rewrite (proj2 (validate_iff _) Ht).
Qed.

Lemma step_grows s ev s' : step s ev = Some s' → grows (mem s) (mem s').
Proof.
  intros [(w&->&->)|[(i&p&_&_&_&->)|(i&p&d'&p'&_&_&Hm&->)]]%step_cases; cbn.
  - destruct (register_cases (mem s) w) as [[e ->]|(x&_&_&Hn&->)]; [done|].
    split; [by apply insert_subseteq|done].
  - done.
  - by eapply moves_grows.
Qed.

Lemma step_inv s ev s' : inv s → step s ev = Some s' → inv s'.
Proof.
  intros Hi Hs. pose proof (step_grows s ev s' Hs) as Hg.
  apply step_cases in Hs as [(w&->&->)|[(i&p&_&Hn&Hp&->)|(i&p&d'&p'&_&Hn&Hm&->)]]; cbn in Hg.
  - pose proof Hi as [Hwg Hk Hp].
    destruct (register_cases (mem s) w) as [[e Hr]|(x&_&Hx&Hn&Hr)]; rewrite Hr in Hg |- *.
    { by split. }
    split; cbn; [done| |intros; eauto using proc_ok_grows].
    intros n w'. rewrite lookup_insert_Some. intros [[<- <-]|[_ ?]]; eauto.
  - apply inv_set; try done; [|by destruct Hp as [->|[a ->]]].
    rewrite msum_new, (inv_wg _ Hi) by done. by destruct Hp as [->|[a ->]].
  - destruct (moves_grows _ _ _ _ Hm) as [_ Hw]. apply inv_set; try done.
    + rewrite (msum_update _ _ _ _ _ Hn), (moves_wg _ _ _ _ Hm), (inv_wg _ Hi). lia.
    + eapply moves_ok; [done| |done]. by eapply inv_procs.
Qed.

Lemma inv_initial : inv initial.
Proof. by split. Qed.

(** An invariant of single steps is one of executions. *)
Lemma exec_ind_inv (P : system → Prop) s evs s' :
  (∀ s ev s', P s → step s ev = Some s' → P s') → P s → exec s evs = Some s' → P s'.
Proof.
  intros Hstep. revert s. induction evs as [|ev evs IH]; cbn; intros s Hs He; [by simplify_eq|].
  destruct (step s ev) as [s1|] eqn:E; cbn in He; [|done]. eauto.
Qed.

Lemma reachable_inv s : reachable s → inv s.
Proof. intros [evs He]. eapply exec_ind_inv; [apply step_inv|apply inv_initial|done]. Qed.

(** ** Draining *)

(** The goroutine has passed the check of [draining], and its workflow runs, ran
    or will run. *)
Definition past_gate (p : proc) : bool :=
  match p with
  | SubmitChecked _ _ | SubmitRunning _ _ _ | SubmitReturned _ None
  | SubmitReturned _ (Some (ErrExecute _)) => true
  | _ => false
  end.

Definition gated (s : system) (i : nat) : Prop := ∃ p, procs s !! i = Some p ∧ past_gate p = true.

Lemma submit_check_draining d a : draining d = true →
  ∃ e, Submit_check d a = Err e ∧ past_gate (SubmitReturned a (Some e)) = false.
Proof.
  intros Hd. unfold Submit_check. rewrite Hd. repeat case_match; eauto.
Qed.

Lemma moves_gate d p d' p' : draining d = true → moves d p d' p' →
  past_gate p' = true → past_gate p = true.
Proof.
  intros Hd. destruct 1 as [a e He|a wf Hc| | | | | | |]; try done;
    destruct (submit_check_draining d a Hd) as (e'&He'&Hg); rewrite He' in *; simplify_eq.
  by rewrite Hg.
Qed.

Lemma step_gate s ev s' i : draining (mem s) = true → step s ev = Some s' → gated s' i → gated s i.
Proof.
  unfold gated. intros Hd [(w&->&->)|[(j&p&_&Hn&Hp&->)|(j&p&d'&p'&_&Hn&Hm&->)]]%step_cases; cbn.
  - done.
  - intros (q&Hq&Hg). apply lookup_insert_Some in Hq as [[-> <-]|[_ ?]]; [|eauto].
    by destruct Hp as [->|[a ->]].
  - intros (q&Hq&Hg). apply lookup_insert_Some in Hq as [[-> <-]|[_ ?]]; [|eauto].
    eauto using moves_gate.
Qed.

Lemma exec_gate s evs s' i :
  draining (mem s) = true → exec s evs = Some s' → gated s' i → gated s i.
Proof.
  revert s. induction evs as [|ev evs IH]; cbn; intros s Hd He Hg; [by simplify_eq|].
  destruct (step s ev) as [s1|] eqn:E; cbn in He; [|done].
  eapply step_gate; [done|done|]. eapply IH; [|done|done]. by apply (step_grows s ev s1 E).
Qed.

Lemma exec_step_gate_finished s ev s' i p :
  step s ev = Some s' → procs s !! i = Some p → (∀ d p' d', ¬ moves d p d' p') →
  procs s' !! i = Some p.
Proof.
  intros Hs Hi Hm. apply step_cases in Hs as [(w&->&->)|[(j&q&_&Hn&_&->)|(j&q&d'&p'&_&Hn&Hmv&->)]]; cbn.
  - done.
  - rewrite lookup_insert_ne; [done|]. intros ->. congruence.
  - rewrite lookup_insert_ne; [done|]. intros ->. rewrite Hi in Hn. simplify_eq. by eapply Hm.
Qed.

(** A submission that has returned stays as it is. *)
Lemma exec_returned s evs s' i a r :
  exec s evs = Some s' → procs s !! i = Some (SubmitReturned a r) →
  procs s' !! i = Some (SubmitReturned a r).
Proof.
  intros He Hi. eapply (exec_ind_inv (λ s, procs s !! i = Some (SubmitReturned a r))); [|done|done].
  intros s1 ev s2 H1 Hs. eapply exec_step_gate_finished; [done..|]. intros d p' d' Hm. inversion Hm.
Qed.

(** No workflow runs, and none is about to. *)
Definition quiescent (s : system) : Prop :=
  wg (mem s) = 0 ∧ ∀ i a wf, procs s !! i ≠ Some (SubmitChecked a wf).

Lemma running_nonneg p : 0 <= running p.
Proof. by destruct p. Qed.

Lemma wg_zero_iff s : inv s →
  (wg (mem s) = 0 ↔ ∀ i a sc wf, procs s !! i ≠ Some (SubmitRunning a sc wf)).
Proof.
  intros Hi. rewrite (inv_wg _ Hi). split.
  - intros Hz i a sc wf Hp. pose proof (msum_ge running _ _ _ running_nonneg Hp). cbn in *. lia.
  - intros Hr. apply msum_zero. intros i p Hp. destruct p; try done. by destruct (Hr _ _ _ _ Hp).
Qed.

(** Without a submission in the gap between check and [wg.Add], a dispatcher
    that is draining and idle stays idle. *)
Lemma quiescent_forever s evs s' : inv s → draining (mem s) = true → quiescent s →
  exec s evs = Some s' → quiescent s'.
Proof.
  intros Hi Hd [Hz Hc] He.
  assert (inv s') as Hi' by (eapply exec_ind_inv; [apply step_inv|done|done]).
  pose proof (proj1 (wg_zero_iff s Hi) Hz) as Hr.
  assert (∀ i p, procs s' !! i = Some p → past_gate p = true → ∃ a r, p = SubmitReturned a r) as Hret.
  { intros i p Hp Hg. destruct (exec_gate s evs s' i Hd He) as (q&Hq&Hgq); [by exists p|].
    destruct q as [| a wf|a sc wf|a r| | | |]; try done.
    - by destruct (Hc i a wf).
    - by destruct (Hr i a sc wf).
    - pose proof (exec_returned s evs s' i a r He Hq). simplify_eq. eauto. }
  split.
  - apply wg_zero_iff; [done|]. intros i a sc wf Hp. by destruct (Hret _ _ Hp eq_refl) as (?&?&?).
  - intros i a wf Hp. by destruct (Hret _ _ Hp eq_refl) as (?&?&?).
Qed.

(** ** Termination *)

(** The steps a goroutine has left. *)
Definition remaining (p : proc) : Z :=
  match p with
  | SubmitEntered _ | DrainEntered => 3
  | SubmitChecked _ _ | DrainWaiting => 2
  | SubmitRunning _ _ _ | DrainDone => 1
  | SubmitReturned _ _ | DrainReturned _ => 0
  end.
Definition work (s : system) : Z := msum remaining (procs s).

Definition returned (p : proc) : bool :=
  match p with SubmitReturned _ _ | DrainReturned _ => true | _ => false end.

Lemma moves_remaining d p d' p' : moves d p d' p' → remaining p' < remaining p.
Proof. destruct 1; cbn; lia. Qed.

Lemma step_work s ev s' : progress ev = true → step s ev = Some s' → work s' < work s.
Proof.
  intros Hp [(w&->&_)|[(i&p&Hf&_)|(i&p&d'&p'&_&Hn&Hm&->)]]%step_cases; [done|congruence|].
  unfold work. cbn. rewrite (msum_update _ _ _ _ _ Hn).
  pose proof (moves_remaining _ _ _ _ Hm). lia.
Qed.

Lemma exec_work s evs s' :
  forallb progress evs = true → exec s evs = Some s' → Z.of_nat (length evs) <= work s - work s'.
Proof.
  revert s. induction evs as [|ev evs IH]; cbn [forallb exec length]; intros s Hp He; [simplify_eq; lia|].
  apply andb_prop in Hp as [Hp1 Hp2]. destruct (step s ev) as [s1|] eqn:E; cbn in He; [|done].
  specialize (IH s1 Hp2 He). pose proof (step_work s ev s1 Hp1 E). lia.
Qed.

Lemma map_choose_running s : inv s → wg (mem s) ≠ 0 →
  ∃ i a sc wf, procs s !! i = Some (SubmitRunning a sc wf).
Proof.
  intros Hi Hz.
  destruct (decide (map_Exists (λ _ p, running p ≠ 0) (procs s))) as [(i&p&Hp&Hr)|Hn].
  - destruct p; try done. eauto.
  - destruct Hz. rewrite (inv_wg _ Hi). apply msum_zero. intros i p Hp.
    destruct (decide (running p = 0)); [done|]. destruct Hn. by exists i, p.
Qed.

(** While a goroutine has not returned, some goroutine can move, without any
    context ending. *)
Lemma not_stuck s i p : inv s → procs s !! i = Some p → returned p = false →
  ∃ ev s', (∀ j, ev ≠ ContextDone j) ∧ progress ev = true ∧ step s ev = Some s'.
Proof.
  intros Hi Hp Hr.
  destruct (decide (wg (mem s) = 0)) as [Hz|Hz].
  - assert (∃ s', step s (Advance i) = Some s') as [s' Hs]; [|by exists (Advance i), s'].
    cbn. rewrite Hp. cbn. destruct p; cbn; unfold set_proc; eauto; try done.
    + destruct (Submit_check (mem s) a); eauto.
    + by destruct (proj1 (wg_zero_iff s Hi) Hz _ _ _ _ Hp).
    + rewrite Hz. cbn. eauto.
  - destruct (map_choose_running s Hi Hz) as (j&a&sc&wf&Hj).
    exists (ExecuteReturns j None). cbn. rewrite Hj. unfold set_proc. eauto.
Qed.

(** ** Properties *)

(** C35 In every reachable state of the dispatcher, under every interleaving of
    its methods: the wait group holds exactly the number of running workflows
    (so it never goes negative, which would panic); a running workflow belongs
    to a submission with a tenant, on a supported queue class, is the workflow
    registered under the submitted name, and sees that tenant, and no other, in
    its context; and a submission was refused as draining only after a [Drain]. *)
Theorem dispatcher_invariant s : reachable s →
  wg (mem s) = msum running (procs s) ∧ 0 <= wg (mem s) ∧
  (∀ i a scoped wf, procs s !! i = Some (SubmitRunning a scoped wf) →
     TenantID (s_tenant a) ≠ ""%string ∧ s_class a ∈ SupportedQueues ∧
     workflows (mem s) !! s_name a = Some wf ∧ W_Name wf = s_name a ∧
     FromContext scoped = Ok (s_tenant a)) ∧
  (∀ i a, procs s !! i = Some (SubmitReturned a (Some ErrDraining)) → draining (mem s) = true).
Proof.
  intros Hi%reachable_inv. split_and!.
  - apply Hi.
  - rewrite (inv_wg _ Hi). apply msum_nonneg, running_nonneg.
  - intros i a scoped wf [(?&?&?&?) ?]%(inv_procs _ Hi). by split_and!.
  - intros i a Hp%(inv_procs _ Hi). done.
Qed.

(** C5 Draining: once a [Drain] call has set the flag, whatever happens next, only
    submissions that had passed the check before still run or return from a
    workflow; every other one is refused.  If moreover no workflow runs and no
    submission stands between its check and [wg.Add], none ever runs again. *)
Theorem drain_safety s evs s' :
  reachable s → draining (mem s) = true → exec s evs = Some s' →
  (∀ i, gated s' i → gated s i) ∧ (quiescent s → quiescent s').
Proof.
  intros Hi%reachable_inv Hd He. split.
  - intros i. by eapply exec_gate.
  - intros Hq. by eapply quiescent_forever.
Qed.

(** C36 Termination: after no more calls are made, an execution takes at most
    three steps per goroutine; and as long as a [Submit] or [Drain] has not
    returned, some goroutine can take a step without a context ending.  Hence,
    workflows returning, every [Submit] and every [Drain] returns. *)
Theorem drain_terminates s : reachable s →
  (∀ evs s', forallb progress evs = true → exec s evs = Some s' →
     Z.of_nat (length evs) <= work s) ∧
  ((∀ ev, progress ev = true → (∀ j, ev ≠ ContextDone j) → step s ev = None) →
   ∀ i p, procs s !! i = Some p → returned p = true).
Proof.
  intros Hi%reachable_inv. split.
  - intros evs s' Hp He. pose proof (exec_work s evs s' Hp He).
    assert (0 <= work s') by (apply msum_nonneg; by intros []). lia.
  - intros Hstuck i p Hp. apply not_false_is_true. intros Hr.
    destruct (not_stuck s i p Hi Hp Hr) as (ev&s'&Hc&Hpr&Hs). by rewrite (Hstuck ev Hpr Hc) in Hs.
Qed.

(** [Workflows] lists exactly the registered names, in byte-wise order, the
    same for every order in which Go may visit the map. *)
Theorem workflows_listing (o1 o2 : GoMapOrder) d :
  @Workflows o1 d = @Workflows o2 d ∧ str_sorted (@Workflows o1 d) ∧
  ∀ n, n ∈ @Workflows o1 d ↔ is_Some (workflows d !! n).
Proof.
  assert (∀ o : GoMapOrder, @Workflows o d ≡ₚ (map_to_list (workflows d)).*1) as Hp.
  { intros o. unfold Workflows. rewrite (proj1 (sortStrings_spec _)). by rewrite map_iter_perm. }
  split_and!.
  - eapply sorted_by_unique; [|apply sortStrings_spec..|by rewrite !Hp].
    unfold equiv_key. intros x y _ _ H. bool_to_prop. by apply ltb_false_eq.
  - apply sortStrings_spec.
  - intros n. rewrite Hp, list_elem_of_fmap. split.
    + intros ([k w]&->&Hk%elem_of_map_to_list). by exists w.
    + intros [w Hw]. exists (n, w). by rewrite elem_of_map_to_list.
Qed.
End Dispatcher.

Lemma queue_suffix_inj t1 t2 suf : t1 +:+ suf = t2 +:+ suf → t1 = t2.
Proof.
  intros E. apply (f_equal (strip_suffix suf)) in E. rewrite !strip_suffix_app in E. by simplify_eq.
Qed.

(** Tenant isolation of the task queues: two submissions with supported classes
    share a queue name only if tenant and class agree; the restriction on the
    class is needed. *)
Theorem queue_name_injective t1 t2 c1 c2 :
  validClass c1 = true → validClass c2 = true →
  (QueueName t1 c1 = QueueName t2 c2 ↔ t1 = t2 ∧ c1 = c2) ∧
  QueueName "a" "b-default" = QueueName "a-b" QueueDefault.
Proof.
  rewrite !validClass_iff. unfold SupportedQueues. rewrite !elem_of_cons, !elem_of_nil.
  intros H1 H2. split; [|done]. split; [|by intros [-> ->]]. unfold QueueName.
  intros E%(inj (String.app _)). rewrite !(sapp_assoc _ "-") in E.
  destruct H1 as [->|[->|[]]], H2 as [->|[->|[]]]; rewrite <-!sapp_assoc in E.
  - split; [|done]. by apply queue_suffix_inj in E.
  - apply (f_equal String.rev) in E. by rewrite !rev_sapp in E.
  - apply (f_equal String.rev) in E. by rewrite !rev_sapp in E.
  - split; [|done]. by apply queue_suffix_inj in E.
Qed.

Lemma queue_name_injective_witness :
  QueueName "acme" QueueDefault ≠ QueueName "acme" QueuePriority.
Proof.
  intros E. apply (queue_name_injective "acme" "acme" QueueDefault QueuePriority) in E as [_ E];
    [discriminate E|reflexivity|reflexivity].
Defined.

(** ** A concrete system: workflows are their names *)

Definition acme : submission :=
  mkSubmission None (mkTenant "acme" "" "" "") QueueDefault "scan" "payload".

(** A submission has passed the check when [Drain] starts; the wait group is
    still zero, so [Drain] returns; then the workflow starts. *)
Definition race_trace : list (@event string) :=
  [CallRegister (Some "scan"); CallSubmit 0 acme; Advance 0; CallDrain 1;
   Advance 1; Advance 1; Advance 1; Advance 0]%string.

(** The promise of [Drain] ("waits for in-flight Submit calls to finish") does
    not hold for a submission between its check and [wg.Add]: there is an
    execution in which [Drain] has returned without error and a workflow
    submitted before it is running. *)
Theorem drain_race :
  ∃ s, exec (@id string) initial race_trace = Some s ∧
    procs s !! 1%nat = Some (DrainReturned None) ∧
    procs s !! 0%nat = Some (SubmitRunning acme (Some (s_tenant acme)) "scan"%string).
Proof. eexists. split; [vm_compute; reflexivity|]. split; vm_compute; reflexivity. Qed.

(** The same calls with [wg.Add] before the drain, and a late submission that is refused. *)
Definition sample_prefix : list (@event string) :=
  [CallRegister (Some "scan"); CallSubmit 0 acme; Advance 0; Advance 0; CallDrain 1; Advance 1]%string.
Definition sample_suffix : list (@event string) :=
  [CallSubmit 2 acme; Advance 2; ExecuteReturns 0 None; Advance 1; Advance 1]%string.
Definition sample_state : @system string := default initial (exec (@id string) initial sample_prefix).
Definition sample_final : @system string := default initial (exec (@id string) sample_state sample_suffix).

Lemma dispatcher_invariant_witness :
  wg (mem sample_state) = msum running (procs sample_state) ∧ wg (mem sample_state) = 1.
Proof.
  assert (reachable (@id string) sample_state) as Hr.
  { exists sample_prefix. vm_compute. reflexivity. }
  destruct (dispatcher_invariant (@id string) sample_state Hr) as [Hwg _].
  split; [exact Hwg|vm_compute; reflexivity].
Defined.

Lemma drain_safety_witness : ¬ gated sample_final 2%nat.
Proof.
  intros Hg.
  destruct (drain_safety (@id string) sample_state sample_suffix sample_final) as [Hgate _].
  - exists sample_prefix. vm_compute. reflexivity.
  - vm_compute. reflexivity.
  - vm_compute. reflexivity.
  - destruct (Hgate _ Hg) as (p & Hp & _). vm_compute in Hp. discriminate Hp.
Defined.

Lemma drain_terminates_witness :
  3 <= work sample_state ∧
  exec (@id string) sample_state [ExecuteReturns 0 None; Advance 1; Advance 1] ≠ None.
Proof.
  split; [|vm_compute; discriminate].
  destruct (exec (@id string) sample_state [ExecuteReturns 0 None; Advance 1; Advance 1])
    as [s'|] eqn:E; [|vm_compute in E; discriminate E].
  assert (reachable (@id string) sample_state) as Hr.
  { exists sample_prefix. vm_compute. reflexivity. }
  destruct (drain_terminates (@id string) sample_state Hr) as [Hb _].
  exact (Hb [ExecuteReturns 0 None; Advance 1; Advance 1] s' eq_refl E).
Defined.
