(* ===== verification/ApplyFix.v ===== *)
(** The apply_fix workflow (backend/internal/worker/workflows/apply_fix.go): from a
    queued payload to a published pull request, through the chart parser, the
    operator walk, the strategy limits, the composer, the gate, the validator and
    the comment renderer, each the definition of its own file. *)

From S2P Require Import Prelude GoNum GoStr Lines GoTime Helm Rules Environment Strategy Operators GateDiff Gate Tenancy Composer Validator PrComment.
Local Open Scope Z_scope.

Record PullRequest := mkPullRequest {
  RepoOwner : string; RepoName : string; HeadBranch : string; BaseBranch : string; PRTitle : string;
  Body : string; PRUnifiedDiff : string; PRApplyFixID : string }.

Record ApplyFixPayload := mkPayload {
  PRepoOwner : string; PRepoName : string; PBaseBranch : string; ChartPath : string; PChartYAML : string;
  PModel : string; PFinding : Finding; PApplyFixID : string; Now : Z;
  WorkloadOwners : list OwnerRef; PClusterSignals : ClusterSignals;
  ProposedCPUMilli : Z; ProposedMemoryB : Z; PProposedReplicas : Z;
  PEnvironment : Environment; ProvisionerClass : Class_ }.

(** The collaborators; an absent one is a nil pointer or interface. *)
Record ApplyFix := mkApplyFix {
  AComposer : option Composer;
  AGate : option (Policy * list Gate.Validator);
  AValidator : option Pipeline;
  APublisher : option (TenantContext → PullRequest → option string);   (** the error of Publish *)
  SkepticMode : bool;
  TenantSettings : option (TenantContext → result string bool);
  OwnerResolve : option (OwnerRef → option OwnerRef) }.

Inductive apply_error :=
| EDecode (e : string)
| ENilComposer | ENilGate | ENilPublisher | ESkepticNeedsValidator
| EParse (e : parse_error)
| EOperatorOwned (workload : string) (cls : Classification)
| EConfidence (confidence required : string)
| EReplicaCut (reduction cap : Z)
| ECompose (e : compose_error)
| EGate (e : run_error)
| ESkepticStage (sr : StageResult)
| EValidator (e : string * string)
| ERejected (vd : Verdict)
| ESkepticWarn (vd : Verdict)
| ERender (e : PrComment.error)
| EPublish (e : string).

Inductive Step := StepParse | StepOperatorGate | StepCompose | StepGate | StepValidator | StepRender
                | StepPublish | StepTotal.

(** What a run does to its surroundings, in order. *)
Inductive event :=
| EvLLM (e : Composer.event)
| EvValidated (after : Pipeline)        (** the validator pipeline with its metrics and log *)
| EvPublish (t : TenantContext) (pr : PullRequest)
| EvObserve (s : Step).

(** ** Runs: a log of events and a result *)

Definition run (A : Type) : Type := list event * result apply_error A.
#[export] Instance run_ret : MRet run := λ A x, ([], Ok x).
#[export] Instance run_bind : MBind run := λ A B f m,
  match m.2 with
  | Ok x => let r := f x in (m.1 ++ r.1, r.2)
  | Err e => (m.1, Err e)
  end.
Definition rfail {A} (e : apply_error) : run A := ([], Err e).
Definition tell (evs : list event) : run unit := (evs, Ok tt).
Definition lift {A E} (wrap : E → apply_error) (r : result E A) : run A :=
  match r with Ok x => mret x | Err e => rfail (wrap e) end.
Definition guard (b : bool) (e : apply_error) : run unit := if b then mret tt else rfail e.
Definition need {A} (o : option A) (e : apply_error) : run A :=
  match o with Some x => mret x | None => rfail e end.

(** ** The stages *)

Definition classOrKarpenter (c : Class_) : Class_ := if String.eqb c "" then ClassKarpenter else c.

Definition primaryWorkload (ws : list Helm.Workload) (want : string) : string :=
  match List.find (λ w, String.eqb (Name w) want) ws with
  | Some w => Name w
  | None => match ws with w :: _ => Name w | [] => want end
  end.

Definition effective_skeptic (w : ApplyFix) (t : TenantContext) : bool :=
  match TenantSettings w with
  | Some settings => match settings t with Ok v => v | Err _ => SkepticMode w end
  | None => SkepticMode w
  end.

Definition operator_stage (w : ApplyFix) (p : ApplyFixPayload) (primary : string) : run unit :=
  match OwnerResolve w with
  | Some resolve =>
      if (0 <? Z.of_nat (length (WorkloadOwners p))) then
        let cls := Operators.Classify resolve (mkOWorkload "" "Deployment" primary (WorkloadOwners p)) in
        tell [EvObserve StepOperatorGate];;
        guard (Direct cls) (EOperatorOwned primary cls)
      else mret tt
  | None => mret tt
  end.

Definition strategy_stage (p : ApplyFixPayload) : run unit :=
  if negb (String.eqb (PEnvironment p) "") then
    let sizing := ForClass (PEnvironment p) (classOrKarpenter (ProvisionerClass p)) in
    guard (negb (negb (String.eqb (FConfidence (PFinding p)) "")
                 && negb (ConfidenceMeets sizing (FConfidence (PFinding p)))))
      (EConfidence (FConfidence (PFinding p)) (MinConfidence sizing));;
    match S_HPA (PClusterSignals p) with
    | Some hpa =>
        if (0 <? PProposedReplicas p) && (PProposedReplicas p <? CurrentReps hpa) then
          let reduction := CurrentReps hpa - PProposedReplicas p in
          guard (ReplicaCutAllowed sizing reduction) (EReplicaCut reduction (EffectiveReplicaCap sizing))
        else mret tt
    | None => mret tt
    end
  else mret tt.

Definition fix_request (p : ApplyFixPayload) (primary : string) : FixRequest :=
  {| FFinding := PFinding p; Composer.ChartYAML := PChartYAML p; FModel := PModel p;
     ReqWorkload := primary; SystemHint := "" |}.

Definition gate_candidate (p : ApplyFixPayload) (primary : string) (resp : FixResponse) : Gate.Candidate :=
  {| Gate.ApplyFixID := PApplyFixID p; Gate.ChartYAML := PChartYAML p;
     Gate.UnifiedDiff := Composer.UnifiedDiff resp; CWorkload := primary |}.

Definition gate_stage (skeptic : bool) (gate : Policy * list Gate.Validator) (c : Gate.Candidate) : run unit :=
  let '(stages, err) := Gate.Pipeline_Run gate.1 gate.2 c in
  tell [EvObserve StepGate];;
  match err with
  | Some e => rfail (EGate e)
  | None =>
      if skeptic then
        match List.find (λ sr, negb (bool_decide (SRStatus sr = StatusPassed))) stages with
        | Some sr => rfail (ESkepticStage sr)
        | None => mret tt
        end
      else mret tt
  end.

Definition validator_candidate (p : ApplyFixPayload) (primary : string) : Validator.Candidate :=
  {| WorkloadID := primary; Validator.DetectorID := Rules.DetectorID (PFinding p);
     C_Title := Title (PFinding p); ProposedCPU := mkVQuantity (ProposedCPUMilli p) 0;
     ProposedMemory := mkVQuantity 0 (ProposedMemoryB p); ProposedReplicas := PProposedReplicas p;
     C_MonthlyUSDCents := MonthlyUSDCents (PFinding p); Signals := PClusterSignals p |}.

Definition validator_stage (skeptic : bool) (validator : option Pipeline) (t : TenantContext)
    (c : Validator.Candidate) : run unit :=
  match validator with
  | None => mret tt
  | Some vp =>
      let '(after, (res, err)) := Validator.Pipeline_Run vp t c in
      tell [EvValidated after; EvObserve StepValidator];;
      match err with
      | Some e => rfail (EValidator e)
      | None =>
          match Rejected res with
          | Some vd => rfail (ERejected vd)
          | None =>
              if skeptic then
                match List.find (λ v, bool_decide (V_Severity v = SeverityWarn)) (Verdicts res) with
                | Some vd => rfail (ESkepticWarn vd)
                | None => mret tt
                end
              else mret tt
          end
      end
  end.

Definition pr_comment (t : TenantContext) (p : ApplyFixPayload) (resp : FixResponse) : Comment :=
  {| Chart := PRepoOwner p +:+ "/" +:+ PRepoName p +:+ "/" +:+ ChartPath p; Tenant := TenantID t;
     Workloads := 1; Findings := [PFinding p]; MonthlySavingsUSDCents := MonthlyUSDCents (PFinding p);
     AnnualSavingsUSDCents := i64_mul (MonthlyUSDCents (PFinding p)) 12; CMode := ModeAgent;
     GeneratedAt := Now p; OptiqorAnalysisURL := ""; ApplyFixURL := "";
     PrComment.UnifiedDiff := Composer.UnifiedDiff resp; Narrative := Explanation resp;
     ProvisionerNote := ""; SecurityVisible := String.eqb (FCategory (PFinding p)) CategorySecurity |}.

Definition pull_request (p : ApplyFixPayload) (resp : FixResponse) (body : string) : PullRequest :=
  {| RepoOwner := PRepoOwner p; RepoName := PRepoName p;
     HeadBranch := "optiqor/apply-fix/" +:+ PApplyFixID p; BaseBranch := PBaseBranch p;
     PRTitle := "optiqor(" +:+ FWorkload (PFinding p) +:+ "): " +:+ Title (PFinding p);
     Body := body; PRUnifiedDiff := Composer.UnifiedDiff resp; PRApplyFixID := PApplyFixID p |}.

Definition publish_stage (publisher : TenantContext → PullRequest → option string) (t : TenantContext)
    (pr : PullRequest) : run unit :=
  tell [EvPublish t pr; EvObserve StepPublish];;
  match publisher t pr with Some e => rfail (EPublish e) | None => mret tt end.

(** ** Execute *)

Section Execute.
Context `{!GoPlatform, !GoSort} (yaml_parse : string → option Node) (sha256 : string → string) (ms wall_clock : Z).

Definition compose_stage (c : Composer) (t : TenantContext) (req : FixRequest) : run FixResponse :=
  let '(res, log) := GenerateFix sha256 ms c t req in
  tell (map EvLLM log ++ [EvObserve StepCompose]);;
  lift ECompose res.

Definition body (w : ApplyFix) (t : TenantContext) (raw : result string ApplyFixPayload) : run unit :=
  p ← lift EDecode raw;
  composer ← need (AComposer w) ENilComposer;
  gate ← need (AGate w) ENilGate;
  publisher ← need (APublisher w) ENilPublisher;
  let skeptic := effective_skeptic w t in
  guard (negb (skeptic && match AValidator w with None => true | Some _ => false end)) ESkepticNeedsValidator;;
  tell [EvObserve StepParse];;
  workloads ← lift EParse (ParseValues yaml_parse (Some (PChartYAML p)));
  let primary := primaryWorkload workloads (FWorkload (PFinding p)) in
  operator_stage w p primary;;
  strategy_stage p;;
  resp ← compose_stage composer t (fix_request p primary);
  gate_stage skeptic gate (gate_candidate p primary resp);;
  validator_stage skeptic (AValidator w) t (validator_candidate p primary);;
  tell [EvObserve StepRender];;
  text ← lift ERender (Render wall_clock (pr_comment t p resp));
  publish_stage publisher t (pull_request p resp text).

(** [raw] is what decoding the JSON payload yields. The deferred observation of
    the total runs on every return. *)
Definition Execute (w : ApplyFix) (t : TenantContext) (raw : result string ApplyFixPayload) : run unit :=
  let r := body w t raw in (r.1 ++ [EvObserve StepTotal], r.2).
End Execute.

(** ** Reasoning about runs *)

Lemma bind_in {A B} (m : run A) (f : A → run B) ev :
  ev ∈ (m ≫= f).1 ↔ ev ∈ m.1 ∨ ∃ x, m.2 = Ok x ∧ ev ∈ (f x).1.
Proof.
  unfold mbind, run_bind. destruct (m.2) as [x|e]; cbn [fst]; [rewrite elem_of_app|]; naive_solver.
Qed.
Lemma bind_ok {A B} (m : run A) (f : A → run B) y :
  (m ≫= f).2 = Ok y ↔ ∃ x, m.2 = Ok x ∧ (f x).2 = Ok y.
Proof. unfold mbind, run_bind. destruct (m.2); cbn [snd]; naive_solver. Qed.

Lemma seq_ok {B} (m : run unit) (f : run B) y : (m ≫= λ _, f).2 = Ok y ↔ m.2 = Ok tt ∧ f.2 = Ok y.
Proof.
  rewrite bind_ok. split; [|intros [? ?]; by exists tt]. by intros ([]&?&?).
Qed.

Lemma tell_ok evs x : (tell evs).2 = Ok x ↔ x = tt.
Proof. destruct x. cbn. naive_solver. Qed.
Lemma lift_ok {A E} (wrap : E → apply_error) (r : result E A) x : (lift wrap r).2 = Ok x ↔ r = Ok x.
Proof. destruct r; cbn; naive_solver. Qed.
Lemma lift_in {A E} (wrap : E → apply_error) (r : result E A) ev : ev ∈ (lift wrap r).1 ↔ False.
Proof. destruct r; cbn; by rewrite elem_of_nil. Qed.
Lemma need_ok {A} (o : option A) e x : (need o e).2 = Ok x ↔ o = Some x.
Proof. destruct o; cbn; naive_solver. Qed.
Lemma need_in {A} (o : option A) e ev : ev ∈ (need o e).1 ↔ False.
Proof. destruct o; cbn; by rewrite elem_of_nil. Qed.
Lemma guard_ok b e x : (guard b e).2 = Ok x ↔ b = true.
Proof. destruct b, x; cbn; naive_solver. Qed.
Lemma guard_in b e ev : ev ∈ (guard b e).1 ↔ False.
Proof. destruct b; cbn; by rewrite elem_of_nil. Qed.

Lemma find_none_forall {A} (P : A → bool) l : List.find P l = None ↔ Forall (λ x, P x = false) l.
Proof.
  split; [intros H; apply Forall_forall; intros x Hx; eapply find_none; [done|by apply list_elem_of_In]|].
  induction 1 as [|x l Hx _ IH]; [done|]. cbn. by rewrite Hx.
Qed.

(** ** When each stage lets a payload through *)

Definition operator_cleared (w : ApplyFix) (p : ApplyFixPayload) (primary : string) : Prop :=
  ∀ resolve, OwnerResolve w = Some resolve → WorkloadOwners p ≠ [] →
    Direct (Operators.Classify resolve (mkOWorkload "" "Deployment" primary (WorkloadOwners p))) = true.

Lemma operator_ok w p primary : (operator_stage w p primary).2 = Ok tt ↔ operator_cleared w p primary.
Proof.
  unfold operator_stage, operator_cleared.
  destruct (OwnerResolve w) as [resolve|]; [|split; [by intros _ r [=]|done]].
  destruct (WorkloadOwners p) as [|o os]; [split; [by intros _ r _ []|done]|].
  destruct (Z.ltb_spec 0 (Z.of_nat (length (o :: os)))); [|cbn in *; lia].
  rewrite seq_ok, guard_ok, tell_ok. split; [by intros [_ Hx] r [= <-] _|].
  intros Hx. split; [done|]. by apply Hx.
Qed.

Definition strategy_cleared (p : ApplyFixPayload) : Prop :=
  PEnvironment p ≠ "" →
  let sizing := ForClass (PEnvironment p) (classOrKarpenter (ProvisionerClass p)) in
  (FConfidence (PFinding p) ≠ "" → ConfidenceMeets sizing (FConfidence (PFinding p)) = true) ∧
  (∀ hpa, S_HPA (PClusterSignals p) = Some hpa → 0 < PProposedReplicas p < CurrentReps hpa →
     ReplicaCutAllowed sizing (CurrentReps hpa - PProposedReplicas p) = true).

Lemma strategy_ok p : (strategy_stage p).2 = Ok tt ↔ strategy_cleared p.
Proof.
  unfold strategy_stage, strategy_cleared. destruct (String.eqb_spec (PEnvironment p) ""); cbn [negb]; [naive_solver|].
  rewrite seq_ok, guard_ok. set (sizing := ForClass _ _).
  assert (negb (negb (String.eqb (FConfidence (PFinding p)) "") && negb (ConfidenceMeets sizing (FConfidence (PFinding p))))
    = true ↔ (FConfidence (PFinding p) ≠ "" → ConfidenceMeets sizing (FConfidence (PFinding p)) = true)) as ->.
  { destruct (String.eqb_spec (FConfidence (PFinding p)) ""), (ConfidenceMeets _ _); cbn; naive_solver. }
  match goal with |- _ ∧ ?X ↔ (_ → _ ∧ ?Y) => assert (X ↔ Y) as ->; [|naive_solver] end.
  destruct (S_HPA (PClusterSignals p)) as [hpa|]; [|naive_solver].
  destruct (Z.ltb_spec 0 (PProposedReplicas p)), (Z.ltb_spec (PProposedReplicas p) (CurrentReps hpa));
    cbn [andb]; rewrite ?guard_ok; (split; [intros Hx hpa' [= <-] ?; (done || lia)|]); try done.
  intros Hx. by apply Hx.
Qed.

Definition gate_cleared (skeptic : bool) (gate : Policy * list Gate.Validator) (c : Gate.Candidate) : Prop :=
  Forall (λ v, allowed gate.1 c v = true ∧ (skeptic = true → SRStatus (VValidate v c) = StatusPassed)) gate.2.

Lemma gate_ok skeptic gate c : (gate_stage skeptic gate c).2 = Ok tt ↔ gate_cleared skeptic gate c.
Proof.
  unfold gate_stage, gate_cleared. destruct (run_spec gate.1 gate.2 c) as (H1&H2&_).
  destruct (Gate.Pipeline_Run gate.1 gate.2 c) as [stages err]. cbn [fst snd] in *.
  rewrite seq_ok, tell_ok, Forall_and, <-H1.
  destruct err as [e|]; [split; [by intros [_ ?]|by intros [? _]]|]. rewrite H2 by done.
  destruct skeptic; cbn [snd]; [|split; [intros _; split; [done|by apply Forall_true]|done]].
  destruct (List.find _ _) as [sr|] eqn:E.
  - split; [by intros [_ ?]|]. intros [_ Hp]. exfalso.
    assert (List.find (λ sr, negb (bool_decide (SRStatus sr = StatusPassed))) (stage_result c <$> gate.2) = None) as E'.
    { apply find_none_forall, Forall_fmap. eapply Forall_impl; [exact Hp|]. intros v Hv. cbn.
      by rewrite bool_decide_true by by apply Hv. }
    congruence.
  - apply find_none_forall, Forall_fmap in E. split; [|done]. intros _. split; [done|].
    eapply Forall_impl; [exact E|]. intros v Hv _. cbn in Hv. by apply negb_false_iff, bool_decide_eq_true in Hv.
Qed.

Definition tolerable (skeptic : bool) (vd : Verdict) : Prop :=
  V_Severity vd ≠ SeverityHard ∧ (skeptic = true → V_Severity vd ≠ SeverityWarn).

Definition validator_cleared (skeptic : bool) (validator : option Pipeline) (c : Validator.Candidate) : Prop :=
  ∀ vp, validator = Some vp → ∀ v, v ∈ validators vp → ∃ o, V_Check v c = Ok o ∧
    ∀ vd, o = Some vd → tolerable skeptic vd.

Lemma before_all c vs : first_error c vs = None → before_error c vs = vs ∧ ∀ v, v ∈ vs → ∃ o, V_Check v c = Ok o.
Proof.
  induction vs as [|v vs IH]; cbn [first_error before_error]; [by split; [|set_solver]|].
  destruct (V_Check v c) as [o|e] eqn:E; [|done]. intros H. destruct (IH H) as [-> Hall]. cbn [is_ok].
  split; [done|]. intros v' [->|Hv']%elem_of_cons; [by exists o|by apply Hall].
Qed.

Lemma before_error_subset c vs v : v ∈ before_error c vs → v ∈ vs.
Proof.
  induction vs as [|x vs IH]; [done|]. cbn [before_error]. destruct (is_ok (V_Check x c)).
  - intros [->|Hin]%elem_of_cons; [by left|right; by apply IH].
  - by intros ?%elem_of_nil.
Qed.

Lemma stamped_severity c v vd : stamped c v = Some vd ↔ ∃ vd', V_Check v c = Ok (Some vd') ∧
  vd = mkVerdict (V_Name v) (V_Severity vd') (V_Reason vd').
Proof. unfold stamped. destruct (V_Check v c) as [[vd'|]|]; naive_solver. Qed.

Lemma verdicts_tolerable skeptic c vs :
  first_error c vs = None ∧ Forall (tolerable skeptic) (omap (stamped c) (before_error c vs)) ↔
  ∀ v, v ∈ vs → ∃ o, V_Check v c = Ok o ∧ ∀ vd, o = Some vd → tolerable skeptic vd.
Proof.
  split.
  - intros [He Hv] v Hin. destruct (before_all c vs He) as [Hb Hall].
    destruct (Hall v Hin) as [o Ho]. exists o. split; [done|]. intros vd ->.
    rewrite Hb, Forall_forall in Hv.
    apply (Hv (mkVerdict (V_Name v) (V_Severity vd) (V_Reason vd))), list_elem_of_omap.
    exists v. split; [done|]. apply stamped_severity. eauto.
  - intros Hv. split.
    + clear -Hv. induction vs as [|v vs IH]; [done|]. cbn [first_error].
      destruct (Hv v ltac:(by left)) as (o&->&_). apply IH. intros v' Hv'. apply Hv. by right.
    + apply Forall_forall. intros vd (v&Hin&(vd'&Hc&->)%stamped_severity)%list_elem_of_omap.
      destruct (Hv v (before_error_subset _ _ _ Hin)) as (o&Ho&Hsev). rewrite Hc in Ho.
      injection Ho as <-. by apply (Hsev vd').
Qed.

Lemma is_hard_false vd : is_hard vd = false ↔ V_Severity vd ≠ SeverityHard.
Proof. unfold is_hard. by destruct (V_Severity vd). Qed.

Lemma validator_ok skeptic validator t c :
  (validator_stage skeptic validator t c).2 = Ok tt ↔ validator_cleared skeptic validator c.
Proof.
  unfold validator_stage, validator_cleared. destruct validator as [vp|]; [|split; [by intros _ vp [=]|done]].
  destruct (run_loop_spec t c vp (validators vp) vp (mkResult [] None) eq_refl eq_refl) as (H1&H2&H3&_).
  fold (Validator.Pipeline_Run vp t c) in H1, H2, H3.
  destruct (Validator.Pipeline_Run vp t c) as [after [res err]]. cbn [fst snd Verdicts app] in *.
  rewrite seq_ok, tell_ok. trans (err = None ∧ Forall (tolerable skeptic) (Verdicts res)).
  2: { rewrite H3, H1, verdicts_tolerable. split; [by intros Hv vp' [= <-]|intros Hv; by apply Hv]. }
  destruct err as [e|]; [split; [by intros [_ ?]|by intros [? _]]|].
  assert (Rejected res = None ↔ Forall (λ vd, V_Severity vd ≠ SeverityHard) (Verdicts res)) as Hrej.
  { rewrite H2, find_none_forall. apply Forall_iff. intros vd. apply is_hard_false. }
  unfold tolerable. rewrite Forall_and, <-Hrej.
  destruct (Rejected res) as [vd|]; [split; [by intros [_ ?]|by intros (_&?&_)]|].
  destruct skeptic; [|split; [intros _; split_and!; [done..|by apply Forall_true]|done]].
  destruct (List.find (λ v, bool_decide (V_Severity v = SeverityWarn)) (Verdicts res)) as [vd|] eqn:E.
  - split; [by intros [_ ?]|]. intros (_&_&Hw). apply find_some in E as [Hin Hs].
    rewrite Forall_forall in Hw. apply list_elem_of_In in Hin. apply bool_decide_eq_true in Hs.
    by apply Hw in Hin; [|].
  - split; [|done]. intros _. split_and!; [done..|]. apply find_none_forall in E.
    eapply Forall_impl; [exact E|]. intros vd Hvd _. by apply bool_decide_eq_false in Hvd.
Qed.

(** ** Publications *)

Definition publication (ev : event) : option (TenantContext * PullRequest) :=
  match ev with EvPublish t pr => Some (t, pr) | _ => None end.
Definition publications (log : list event) : list (TenantContext * PullRequest) := omap publication log.

Lemma publications_bind {A B} (m : run A) (f : A → run B) : publications m.1 = [] →
  publications (m ≫= f).1 = match m.2 with Ok x => publications (f x).1 | Err _ => [] end.
Proof.
  intros H. unfold mbind, run_bind. destruct (m.2); cbn [fst]; [|done].
  unfold publications in *. by rewrite omap_app, H.
Qed.

Lemma operator_quiet w p primary : publications (operator_stage w p primary).1 = [].
Proof.
  unfold operator_stage. destruct (OwnerResolve w); [|done]. destruct (0 <? _); [|done].
  rewrite publications_bind by done. cbn [tell snd]. unfold guard. by destruct (Direct _).
Qed.
Lemma guard_quiet b e : publications (guard b e).1 = [].
Proof. by destruct b. Qed.
Lemma lift_quiet {A E} (wrap : E → apply_error) (r : result E A) : publications (lift wrap r).1 = [].
Proof. by destruct r. Qed.
Lemma need_quiet {A} (o : option A) e : publications (need o e).1 = [].
Proof. by destruct o. Qed.
Lemma strategy_quiet p : publications (strategy_stage p).1 = [].
Proof.
  unfold strategy_stage. destruct (negb _); [|done]. rewrite publications_bind by apply guard_quiet.
  destruct (guard _ _).2; [|done]. destruct (S_HPA _); [|done]. destruct (_ && _); [|done]. apply guard_quiet.
Qed.
Lemma gate_quiet skeptic gate c : publications (gate_stage skeptic gate c).1 = [].
Proof.
  unfold gate_stage. destruct (Gate.Pipeline_Run _ _ _) as [stages [e|]]; [done|].
  rewrite publications_bind by done. cbn [tell snd]. destruct skeptic; [|done]. by destruct (List.find _ _).
Qed.
Lemma validator_quiet skeptic v t c : publications (validator_stage skeptic v t c).1 = [].
Proof.
  unfold validator_stage. destruct v as [vp|]; [|done].
  destruct (Validator.Pipeline_Run _ _ _) as [after [res [e|]]]; [done|].
  rewrite publications_bind by done. cbn [tell snd]. destruct (Rejected res); [done|].
  destruct skeptic; [|done]. by destruct (List.find _ _).
Qed.
Lemma llm_quiet log : publications (map EvLLM log ++ [EvObserve StepCompose]) = [].
Proof. induction log as [|ev log IH]; [done|]. cbn. done. Qed.
Lemma compose_quiet sha ms c t req : publications (compose_stage sha ms c t req).1 = [].
Proof.
  unfold compose_stage. destruct (GenerateFix _ _ _ _ _) as [res log].
  rewrite publications_bind by apply llm_quiet. cbn [tell snd]. apply lift_quiet.
Qed.
Lemma compose_ok sha ms c t req resp :
  (compose_stage sha ms c t req).2 = Ok resp ↔ (GenerateFix sha ms c t req).1 = Ok resp.
Proof.
  unfold compose_stage. destruct (GenerateFix _ _ _ _ _) as [res log]. by rewrite seq_ok, tell_ok, lift_ok; naive_solver.
Qed.
#[local] Hint Resolve operator_quiet guard_quiet lift_quiet need_quiet strategy_quiet gate_quiet
  validator_quiet compose_quiet : go.

Section Publication.
Context `{!GoPlatform, !GoSort} (yaml_parse : string → option Node) (sha256 : string → string) (ms wall_clock : Z).

(** The conditions under which a payload is published, and as what. *)
Definition published_as (w : ApplyFix) (t : TenantContext) (raw : result string ApplyFixPayload)
    (pr : PullRequest) : Prop :=
  ∃ p composer gate publisher ws resp text,
    raw = Ok p ∧ AComposer w = Some composer ∧ AGate w = Some gate ∧ APublisher w = Some publisher ∧
    (effective_skeptic w t = true → AValidator w ≠ None) ∧
    ParseValues yaml_parse (Some (PChartYAML p)) = Ok ws ∧
    let primary := primaryWorkload ws (FWorkload (PFinding p)) in
    operator_cleared w p primary ∧ strategy_cleared p ∧
    (GenerateFix sha256 ms composer t (fix_request p primary)).1 = Ok resp ∧
    gate_cleared (effective_skeptic w t) gate (gate_candidate p primary resp) ∧
    validator_cleared (effective_skeptic w t) (AValidator w) (validator_candidate p primary) ∧
    Render wall_clock (pr_comment t p resp) = Ok text ∧
    pr = pull_request p resp text.

(** What a run published, and its result. *)
Definition outcome {A} (m : run A) : list (TenantContext * PullRequest) * result apply_error A :=
  (publications m.1, m.2).

Lemma outcome_bind {A B} (m : run A) (f : A → run B) : publications m.1 = [] →
  outcome (m ≫= f) = match m.2 with Ok x => outcome (f x) | Err e => ([], Err e) end.
Proof.
  intros Hq. unfold outcome. rewrite publications_bind by done. unfold mbind, run_bind. by destruct (m.2).
Qed.

(** The outcome of handing a pull request to the publisher. *)
Definition handed (publisher : TenantContext → PullRequest → option string) (t : TenantContext) (pr : PullRequest)
  : list (TenantContext * PullRequest) * result apply_error unit :=
  ([(t, pr)], match publisher t pr with Some e => Err (EPublish e) | None => Ok tt end).

Lemma publish_outcome publisher t pr : outcome (publish_stage publisher t pr) = handed publisher t pr.
Proof. unfold outcome, handed, publish_stage. by destruct (publisher t pr). Qed.

(** Go through a stage with a case for its result. *)
Ltac stage H :=
  rewrite outcome_bind by eauto with go;
  match goal with |- context [match ?m.2 with Ok _ => outcome _ | Err _ => _ end] =>
    destruct (m.2) as [?x|?e] eqn:H; [|by left; eexists] end.

Lemma skeptic_validator w t x : (guard (negb (effective_skeptic w t &&
    match AValidator w with None => true | Some _ => false end)) ESkepticNeedsValidator).2 = Ok x ↔
  (effective_skeptic w t = true → AValidator w ≠ None).
Proof. rewrite guard_ok. destruct (effective_skeptic w t), (AValidator w); cbn; naive_solver. Qed.

Lemma body_outcome w t raw : let o := outcome (body yaml_parse sha256 ms wall_clock w t raw) in
  (∃ e, o = ([], Err e)) ∨
  ∃ pr publisher, APublisher w = Some publisher ∧ published_as w t raw pr ∧ o = handed publisher t pr.
Proof.
  cbn zeta. unfold body. stage E1. stage E2. stage E3. stage E4. cbn zeta. stage E5.
  rewrite outcome_bind by done. cbn [tell snd]. stage E6. cbn zeta. stage E7. stage E8. stage E9. stage E10.
  stage E11. rewrite outcome_bind by done. cbn [tell snd]. stage E12.
  repeat match goal with x : () |- _ => destruct x end.
  apply lift_ok in E1, E6, E12. apply need_ok in E2, E3, E4.
  pose proof (proj1 (skeptic_validator w t tt) E5).
  apply operator_ok in E7. apply strategy_ok in E8. apply compose_ok in E9. apply gate_ok in E10.
  apply validator_ok in E11. right. eexists _, _. split; [exact E4|]. split; [|apply publish_outcome].
  by eexists _, _, _, _, _, _, _.
Qed.

Lemma published_outcome w t raw pr : published_as w t raw pr → ∃ publisher,
  APublisher w = Some publisher ∧ outcome (body yaml_parse sha256 ms wall_clock w t raw) = handed publisher t pr.
Proof.
  intros (p&composer&gate&publisher&ws&resp&text&->&E2&E3&E4&E5&E6&E7&E8&E9&E10&E11&E12&->).
  exists publisher. split; [done|]. rewrite <-publish_outcome.
  apply operator_ok in E7. apply strategy_ok in E8. apply compose_ok in E9. apply gate_ok in E10.
  apply (validator_ok _ _ t) in E11. pose proof (proj2 (skeptic_validator w t tt) E5) as E5'.
  unfold body. rewrite E2, E3, E4.
  do 4 (rewrite outcome_bind by done; cbn [lift need mret run_ret snd]). cbn zeta.
  rewrite outcome_bind, E5' by eauto with go. rewrite outcome_bind by done. cbn [tell snd].
  rewrite outcome_bind, E6 by eauto with go. cbn [lift mret run_ret snd]. cbn zeta.
  rewrite outcome_bind, E7 by eauto with go. rewrite outcome_bind, E8 by eauto with go.
  rewrite outcome_bind, E9 by eauto with go. rewrite outcome_bind, E10 by eauto with go.
  rewrite outcome_bind, E11 by eauto with go. rewrite outcome_bind by done. cbn [tell snd].
  by rewrite outcome_bind, E12 by eauto with go.
Qed.


End Publication.

(** ** A run *)

Definition sample_diff : string :=
  "@@ -1,2 +1,2 @@" +:+ String newline "-a: 1" +:+ String newline "+a: 2" +:+ String newline " b: 2".
Definition sample_answer : LLMClient := λ _,
  (mkLLMResponse ("EXPLANATION: halve it" +:+ String newline "DIFF:" +:+ sample_diff) 10 20 0 0 3 "m", None).
Definition sample_payload : ApplyFixPayload :=
  mkPayload "acme" "shop" "main" "values.yaml" ("a: 1" +:+ String newline "b: 2") "claude-haiku"
    (Build_Finding "cpu" "web" "t" "d" 1234 "HIGH" "high" "cost" None) "fix-1" 0
    [mkOwner "apps/v1" "ReplicaSet" "web-1" true] (mkSignals None None None (Some (mkHPA 1 9 5)) false [])
    100 0 4 "staging" "".
Definition sample_fix (skeptic : bool) : ApplyFix :=
  mkApplyFix (Some (mkComposer (Some sample_answer) 40 true))
    (Some (StrictPolicy, [RenderValidator (λ _, Some AOther)]))
    (Some (mkPipeline Default None None)) (Some (λ _ _, None)) skeptic None
    (Some (λ _, None)).
Definition sample_execute (skeptic : bool) : run unit :=
  @Execute amd64 stable_GoSort doc_yaml (λ s, s) 7 0 (sample_fix skeptic) (mkTenant "t" "" "" "") (Ok sample_payload).

(** The run publishes; a skeptic one is stopped by the warning about the
    autoscaler. *)
Example sample_runs :
  ((λ x, PRUnifiedDiff x.2) <$> publications (sample_execute false).1) = [sample_diff] ∧
  (sample_execute false).2 = Ok tt ∧
  publications (sample_execute true).1 = [] ∧
  (match (sample_execute true).2 with Err (ESkepticWarn vd) => V_Validator vd = "hpabounds" | _ => False end).
Proof. vm_compute. auto. Qed.

Definition sample_pr : PullRequest :=
  match publications (sample_execute false).1 with
  | x :: _ => x.2
  | [] => mkPullRequest "" "" "" "" "" "" "" ""
  end.

