(* ===== verification/Dynamic.v ===== *)
(** The agent's readers over the dynamic client: the owner resolver
    (backend/internal/agent/cluster/owner.go), the VPA and Karpenter readers (vpa.go,
    karpenter.go) and the provisioner probe (backend/cmd/agent/probe.go). The client, the
    discovery client and the accessors of unstructured objects are parameters. *)

From Stdlib Require Import Ascii.
From S2P Require Import Prelude GoNum GoStr Lines Utf8 Json Operators Environment Strategy Cluster.
Local Open Scope Z_scope.

(** ** Owners *)

Module Owner.
(** A group, a version and a resource. *)
Definition GVR : Type := string * string * string.

Record OwnerReference := mkReference {
  APIVersion : string; Kind : string; Name : string; Controller : option bool }.

(** [schema.ParseGroupVersion], and the owner references of the object of a resource, a
    namespace and a name; [None] is an error or no object. *)
Record Client := mkClient {
  ParseGroupVersion : string → option (string * string);
  Get : GVR → string → string → option (list OwnerReference) }.

Definition builtinResources : gmap string string := list_to_map
  [("Deployment", "deployments"); ("StatefulSet", "statefulsets"); ("DaemonSet", "daemonsets");
   ("ReplicaSet", "replicasets"); ("Job", "jobs"); ("CronJob", "cronjobs"); ("Pod", "pods");
   ("ReplicationController", "replicationcontrollers")].

Definition lowerKind (s : string) : string := str_map ascii_lower s.

Definition isVowel (c : ascii) : bool := existsb (Ascii.eqb c) ["a"; "e"; "i"; "o"; "u"]%char.

Definition pluralise (kind : string) : string :=
  let lower := lowerKind kind in
  if has_suffix lower "s" || has_suffix lower "x" || has_suffix lower "ch" || has_suffix lower "sh"
  then lower +:+ "es"
  else if has_suffix lower "y" && (1 <? String.length lower)%nat
          && match String.get (String.length lower - 2) lower with Some c => negb (isVowel c) | None => false end
  then str_take (String.length lower - 1) lower +:+ "ies"
  else lower +:+ "s".

Definition guessGVR (client : Client) (apiVersion kind : string) : option GVR :=
  match ParseGroupVersion client apiVersion with
  | None => None
  | Some (group, version) =>
      Some (group, version, match builtinResources !! kind with Some r => r | None => pluralise kind end)
  end.

Definition controlling (o : OwnerReference) : bool := default false (Controller o).

Definition Resolve (client : option Client) (namespace : string) (ref : OwnerRef) : option OwnerRef :=
  match client with
  | None => None
  | Some client =>
      match guessGVR client (O_APIVersion ref) (O_Kind ref) with
      | None => None
      | Some gvr =>
          match Get client gvr namespace (O_Name ref) with
          | None => None
          | Some owners =>
              option_map (λ o, mkOwner (APIVersion o) (Kind o) (Name o) true) (List.find controlling owners)
          end
      end
  end.

Definition AsCallback (client : option Client) (namespace : string) : OwnerRef → option OwnerRef :=
  Resolve client namespace.
End Owner.

(** ** Unstructured objects *)

(** A value of an unstructured object; a map has each key once. *)
Inductive value := VStr (s : string) | VInt (n : Z) | VMap (m : list (string * value)) | VList (l : list value) | VOther.
Definition vmap : Type := list (string * value).

Fixpoint get (m : vmap) (k : string) : option value :=
  match m with
  | [] => None
  | (k', v) :: m => if String.eqb k' k then Some v else get m k
  end.

(** The accessors of apimachinery; what they do not find, or find of another type, is the
    zero value. *)
Record Accessors := mkAccessors {
  NestedString : vmap → list string → string;
  NestedSlice : vmap → list string → list value;
  NestedMap : vmap → list string → option vmap;
  NestedInt64 : vmap → list string → Z }.

Definition as_string (v : option value) : string := match v with Some (VStr s) => s | _ => "" end.

(** A list call: the objects, no match for the kind, or another error. *)
Inductive list_error := NoMatch | ErrList (e : string).

(** ** VPA recommendations *)

Module Vpa.
Record VPARecommendation := mkVPA {
  Mode : string; RecommendCPUm : Z; RecommendMemB : Z; UpperBoundCPUm : Z; UpperBoundMemB : Z;
  LowerBoundCPUm : Z; LowerBoundMemB : Z }.

Fixpoint nestedString (m : vmap) (path : list string) : string :=
  match path with
  | [] => ""
  | p :: rest =>
      match get m p with
      | None => ""
      | Some v =>
          match rest with
          | [] => match v with VStr s => s | _ => "" end
          | _ => match v with VMap m' => nestedString m' rest | _ => "" end
          end
      end
  end.

Definition memSuffixes : gmap string Z := list_to_map
  [("Ki", 1024); ("Mi", 1024 * 1024); ("Gi", 1024 * 1024 * 1024); ("Ti", 1024 * 1024 * 1024 * 1024);
   ("K", 1000); ("M", 1000 * 1000); ("G", 1000 * 1000 * 1000); ("T", 1000 * 1000 * 1000 * 1000)].

Section Read.
Context `{GoPlatform} `{GoMapOrder} (A : Accessors).

Definition milli_of (s : string) : Z :=
  if String.eqb s "" then 0
  else if has_suffix s "m" then default 0 (parse_int (trim_suffix s "m"))
  else match parse_int s with
  | Some v => i64_mul v 1000
  | None =>
      match parse_float s with
      | Some f => f_to_i64 (f_mul f (f_of_Z 1000))
      | None => 0
      end
  end.
Definition readResourceMilli (m : vmap) (path : list string) : Z := milli_of (nestedString m path).

Definition bytes_of (s : string) : Z :=
  if String.eqb s "" then 0
  else
    let '(s, multiplier) := match List.find (λ kv, has_suffix s kv.1) (map_iter memSuffixes) with
      | Some (suffix, mult) => (trim_suffix s suffix, mult)
      | None => (s, 1)
      end in
    match parse_int s with Some v => i64_mul v multiplier | None => 0 end.
Definition readResourceBytes (m : vmap) (path : list string) : Z := bytes_of (nestedString m path).

Definition parseVPA (u : vmap) : VPARecommendation :=
  let updateMode := NestedString A u ["spec"; "updatePolicy"; "updateMode"] in
  let mode := if String.eqb updateMode "" then "Off" else updateMode in
  match NestedSlice A u ["status"; "recommendation"; "containerRecommendations"] with
  | VMap first :: _ =>
      mkVPA mode (readResourceMilli first ["target"; "cpu"]) (readResourceBytes first ["target"; "memory"])
        (readResourceMilli first ["upperBound"; "cpu"]) (readResourceBytes first ["upperBound"; "memory"])
        (readResourceMilli first ["lowerBound"; "cpu"]) (readResourceBytes first ["lowerBound"; "memory"])
  | _ => mkVPA mode 0 0 0 0 0 0
  end.

Definition vpaTargets (u : vmap) (w : WorkloadRef) : bool :=
  match NestedMap A u ["spec"; "targetRef"] with
  | None => false
  | Some target =>
      String.eqb (as_string (get target "kind")) (RKind w) && String.eqb (as_string (get target "name")) (RName w)
  end.

(** The reader's client lists the VPAs of a namespace. *)
Definition Get (client : option (string → result list_error (list vmap))) (w : WorkloadRef) :
    result string (option VPARecommendation) :=
  match client with
  | None => Ok None
  | Some list_ =>
      match list_ (RNamespace w) with
      | Err NoMatch => Ok None
      | Err (ErrList e) => Err ("cluster/vpa: list: " +:+ e)
      | Ok items => Ok (option_map parseVPA (List.find (λ u, vpaTargets u w) items))
      end
  end.
End Read.

(** [ServerResourcesForGroupVersion]: the kinds of a group version. *)
Definition discovery : Type := string → option (list string).

Definition crdPresent (disc : option discovery) (groupVersion kind : string) : bool :=
  match disc with
  | None => false
  | Some disc => match disc groupVersion with None => false | Some kinds => existsb (String.eqb kind) kinds end
  end.

(** A reader, none where the CRD is absent, or an error without a client. *)
Definition NewVPAReader {C} (client : option C) (disc : option discovery) : result string (option C) :=
  match client, disc with
  | Some c, Some _ => Ok (if crdPresent disc "autoscaling.k8s.io/v1" "VerticalPodAutoscaler" then Some c else None)
  | _, _ => Err "cluster/vpa: nil client or discovery"
  end.
End Vpa.

(** ** Karpenter node pools *)

Module Karpenter.
Record KarpenterNodePool := mkPool {
  Name : string; Disrupting : bool; NodeCountCurrent : Z; NodeCountLimit : Z;
  Requirements : gmap string (list string); ConsolidationMode : string }.

Definition strings_of (values : list value) : list string :=
  omap (λ v, match v with VStr s => Some s | _ => None end) values.

Definition add_requirement (reqs : gmap string (list string)) (raw : value) : gmap string (list string) :=
  match raw with
  | VMap m =>
      let key := as_string (get m "key") in
      let values := match get m "values" with Some (VList l) => l | _ => [] end in
      if String.eqb key "" || match values with [] => true | _ => false end then reqs
      else <[key := strings_of values]> reqs
  | _ => reqs
  end.

Definition disrupting (raw : value) : bool :=
  match raw with
  | VMap c => String.eqb (as_string (get c "type")) "Disrupting" && String.eqb (as_string (get c "status")) "True"
  | _ => false
  end.

(** An object is its name and its content. *)
Definition parseNodePool (A : Accessors) (u : string * vmap) : KarpenterNodePool :=
  let n := NestedInt64 A u.2 ["status"; "resources"; "nodes"] in
  mkPool u.1 (existsb disrupting (NestedSlice A u.2 ["status"; "conditions"]))
    (if 0 <? n then n else 0) 0
    (foldl add_requirement ∅ (NestedSlice A u.2 ["spec"; "template"; "spec"; "requirements"]))
    (NestedString A u.2 ["spec"; "disruption"; "consolidationPolicy"]).

Definition List_ (A : Accessors) (client : option (result list_error (list (string * vmap)))) :
    result string (list KarpenterNodePool) :=
  match client with
  | None => Ok []
  | Some (Err NoMatch) => Ok []
  | Some (Err (ErrList e)) => Err ("cluster/karpenter: list: " +:+ e)
  | Some (Ok items) => Ok (map (parseNodePool A) items)
  end.

Definition NewKarpenterReader {C} (client : option C) (disc : option Vpa.discovery) : result string (option C) :=
  match client, disc with
  | Some c, Some _ => Ok (if Vpa.crdPresent disc "karpenter.sh/v1" "NodePool" then Some c else None)
  | _, _ => Err "cluster/karpenter: nil client or discovery"
  end.

(** The deployments named cluster-autoscaler in kube-system. *)
Definition IsClusterAutoscalerPresent (client : option (result string Z)) : result string bool :=
  match client with
  | None => Ok false
  | Some (Err e) => Err ("cluster/autoscaler probe: " +:+ e)
  | Some (Ok n) => Ok (0 <? n)
  end.
End Karpenter.

(** ** The provisioner probe *)

(** The names of the API groups, and the number of those deployments. *)
Definition k8sProbe (groups : option (result string (list string))) (deployments : option (result string Z)) : Probe :=
  mkProbe
    (match groups with
     | None => Ok false
     | Some (Err e) => Err ("probe: server groups: " +:+ e)
     | Some (Ok names) => Ok (existsb (λ n, EqualFold n "karpenter.sh") names)
     end)
    (match deployments with
     | None => Ok false
     | Some (Err e) => Err ("probe: list deployments: " +:+ e)
     | Some (Ok n) => Ok (0 <? n)
     end).

(** ** Facts: owners *)

(** What the class of a workload rests on: a built-in controller that cannot be read - the
    object is gone, the call is refused, the version is not one - counts as the top of its
    chain, so an error makes an operator's workload direct, not unknown. *)
Lemma unreadable_owner_direct client ns w r : controllingOwner (OW_Owners w) = Some r →
  str_mem (O_Kind r) builtIn = true → Owner.Resolve client ns r = None →
  Operators.Classify (Owner.AsCallback client ns) w = mkClassification true "".
Proof.
  intros Hc Hb Hr. unfold Operators.Classify, Owner.AsCallback. rewrite Hc. cbn [classify_loop].
  change (str_mem (owner_key r) []) with false. cbv iota. rewrite Hb.
  unfold next_owner. by rewrite Hr.
Qed.

Definition kafka_client (healthy : bool) : Owner.Client :=
  Owner.mkClient (λ v, match cut_byte "/" v with Some gv => Some gv | None => Some ("", v) end)
    (λ gvr ns name, if healthy && String.eqb gvr.2 "statefulsets" then
       Some [Owner.mkReference "kafka.strimzi.io/v1beta2" "Kafka" "events" (Some true)] else None).

Lemma owner_divergence :
  let w := mkOWorkload "shop" "Pod" "events-0" [mkOwner "apps/v1" "StatefulSet" "events" true] in
  FormatClass (Operators.Classify (Owner.AsCallback (Some (kafka_client true)) "shop") w) = "operator:kafka.strimzi.io/Kafka" ∧
  FormatClass (Operators.Classify (Owner.AsCallback (Some (kafka_client false)) "shop") w) = "direct".
Proof. by vm_compute. Qed.

(** The table of built-in resources says what the plural rule would. *)
Lemma builtin_plurals k r : Owner.builtinResources !! k = Some r → Owner.pluralise k = r.
Proof. intros Hk%elem_of_list_to_map_2. repeat (apply elem_of_cons in Hk as [[= -> ->]|Hk]; [done|]). by apply elem_of_nil in Hk. Qed.

(** ** Facts: recommendations *)

Lemma find_unique {A} (f : A → bool) (l l' : list A) : l ≡ₚ l' →
  (∀ x y, x ∈ l → y ∈ l → f x = true → f y = true → x = y) → List.find f l = List.find f l'.
Proof.
  intros Hp Hu. destruct (List.find f l) as [x|] eqn:E.
  - apply List.find_some in E as [Hx Hfx]. apply list_elem_of_In in Hx.
    destruct (List.find f l') as [y|] eqn:E'.
    + apply List.find_some in E' as [Hy Hfy]. apply list_elem_of_In in Hy. f_equal. apply Hu; [done|by rewrite Hp|done..].
    + rewrite Hp in Hx. apply list_elem_of_In in Hx. pose proof (List.find_none _ _ E' _ Hx). congruence.
  - destruct (List.find f l') as [y|] eqn:E'; [|done].
    apply List.find_some in E' as [Hy Hfy]. apply list_elem_of_In in Hy. rewrite <-Hp in Hy.
    apply list_elem_of_In in Hy. pose proof (List.find_none _ _ E _ Hy). congruence.
Qed.

Lemma has_suffix_inv s k : has_suffix s k = true → ∃ t, String.rev s = String.rev k +:+ t.
Proof.
  unfold has_suffix, strip_suffix. destruct (strip_prefix _ _) as [t|] eqn:E; [|done].
  intros _. exists t. by apply strip_prefix_Some.
Qed.

(** No text ends in two of the suffixes. *)
Lemma one_suffix s k1 v1 k2 v2 : Vpa.memSuffixes !! k1 = Some v1 → Vpa.memSuffixes !! k2 = Some v2 →
  has_suffix s k1 = true → has_suffix s k2 = true → (k1, v1) = (k2, v2).
Proof.
  intros H1%elem_of_list_to_map_2 H2%elem_of_list_to_map_2 [t1 E1]%has_suffix_inv [t2 E2]%has_suffix_inv.
  rewrite E1 in E2. clear E1.
  repeat (apply elem_of_cons in H1 as [[= -> ->]|H1];
    [repeat (apply elem_of_cons in H2 as [[= -> ->]|H2]; [done|]); by apply elem_of_nil in H2|]).
  by apply elem_of_nil in H1.
Qed.

Lemma memory_suffix (O : GoMapOrder) s :
  List.find (λ kv, has_suffix s kv.1) (@map_iter O _ Vpa.memSuffixes) =
  List.find (λ kv, has_suffix s kv.1) (map_to_list Vpa.memSuffixes).
Proof.
  apply find_unique; [apply map_iter_perm|]. intros [k1 v1] [k2 v2].
  rewrite (map_iter_perm Vpa.memSuffixes). intros ?%elem_of_map_to_list ?%elem_of_map_to_list. by apply one_suffix.
Qed.

Lemma bytes_suffix `{GoMapOrder} n k mult : Vpa.memSuffixes !! k = Some mult → in_i64 n →
  Vpa.bytes_of (itoa n +:+ k) = i64_mul n mult.
Proof.
  intros Hk Hn. unfold Vpa.bytes_of.
  destruct (String.eqb_spec (itoa n +:+ k) "") as [E|_].
  { apply (f_equal (λ s, strip_suffix k s)) in E. rewrite strip_suffix_app in E.
    apply elem_of_list_to_map_2 in Hk. repeat (apply elem_of_cons in Hk as [[= -> ->]|Hk]; [done|]). by apply elem_of_nil in Hk. }
  rewrite memory_suffix.
  assert (has_suffix (itoa n +:+ k) k = true) as Hs by (unfold has_suffix; by rewrite strip_suffix_app).
  destruct (List.find _ _) as [[k' mult']|] eqn:E.
  - apply List.find_some in E as [Hin Hs']. apply list_elem_of_In, elem_of_map_to_list in Hin.
    assert ((k', mult') = (k, mult)) as [= -> ->] by (by eapply one_suffix).
    unfold trim_suffix. rewrite strip_suffix_app. cbn [from_option id]. by rewrite parse_int_itoa.
  - assert ((k, mult) ∈ map_to_list Vpa.memSuffixes) as Hin by by apply elem_of_map_to_list.
    apply list_elem_of_In in Hin. pose proof (List.find_none _ _ E _ Hin) as Hf. simpl in Hf. congruence.
Qed.

(** A recommendation is read exactly: millicores and whole cores, and bytes with each suffix
    of the table, whatever the order in which the table is searched. *)
Lemma vpa_amounts `{GoPlatform} `{GoMapOrder} n : 0 <= n → in_i64 n →
  Vpa.milli_of (itoa n +:+ "m") = n ∧
  (in_i64 (n * 1000) → Vpa.milli_of (itoa n) = n * 1000) ∧
  (∀ k mult, Vpa.memSuffixes !! k = Some mult → in_i64 (n * mult) → Vpa.bytes_of (itoa n +:+ k) = n * mult).
Proof.
  intros Hn0 Hn. pose proof (itoa_nonneg n Hn0) as Hi. split_and!.
  - unfold Vpa.milli_of. destruct (String.eqb_spec (itoa n +:+ "m") "") as [E|_].
    { apply (f_equal (λ s, strip_suffix "m" s)) in E. by rewrite strip_suffix_app in E. }
    unfold has_suffix, trim_suffix. rewrite strip_suffix_app. cbn [from_option id]. by rewrite parse_int_itoa.
  - intros Hm. unfold Vpa.milli_of. destruct (String.eqb_spec (itoa n) "") as [E|_]; [rewrite E in Hi; naive_solver|].
    destruct (has_suffix (itoa n) "m") eqn:Hs.
    + apply has_suffix_inv in Hs as [t Ht]. destruct Hi as (Hd & _).
      rewrite <-(str_all_rev is_digit) in Hd. rewrite Ht in Hd. done.
    + rewrite parse_int_itoa by done. unfold i64_mul. by rewrite wrap64_id.
  - intros k mult Hk Hm. rewrite (bytes_suffix n k mult) by done. unfold i64_mul. by rewrite wrap64_id.
Qed.

(** The unit the autoscaler itself writes is not among them: kilobytes with a small letter,
    fractions and exponents all read as no recommendation. *)
Lemma vpa_divergences `{GoPlatform} :
  @Vpa.bytes_of canonical_order "262144k" = 0 ∧ @Vpa.bytes_of canonical_order "1.5Gi" = 0 ∧
  @Vpa.bytes_of canonical_order "1e9" = 0.
Proof. by vm_compute. Qed.

(** ** Facts: provisioner *)

(** The class of a cluster: Karpenter when its API group is served, whatever else there is;
    the autoscaler when it is deployed; and static with the error when a question fails. *)
Lemma detect_cluster groups n :
  Strategy.Detect (Some (k8sProbe (Some (Ok groups)) (Some (Ok n)))) =
    (if existsb (λ g, EqualFold g "karpenter.sh") groups then ClassKarpenter
     else if 0 <? n then ClassAutoscaler else ClassStatic, None) ∧
  (∀ e, (Strategy.Detect (Some (k8sProbe (Some (Err e)) (Some (Ok n))))).1 = ClassStatic ∧
        (Strategy.Detect (Some (k8sProbe (Some (Err e)) (Some (Ok n))))).2 ≠ None).
Proof.
  split; [|done]. unfold Strategy.Detect, k8sProbe. cbn.
  destruct (existsb _ groups); [done|]. by destruct (0 <? n).
Qed.
