(* ===== verification/PromClient.v ===== *)
(** The agent's Prometheus client (backend/internal/agent/prom/prom.go), its credentials
    (auth.go), the scraper (scraper.go) and the queries they share (canonical.go). The HTTP
    transport is a parameter: what one attempt of a request brings back. *)

From Stdlib Require Import Ascii.
From S2P Require Import Prelude GoNum GoStr Lines Utf8 GoTime Json Ingest Cluster.
Local Open Scope Z_scope.

(** ** Answers *)

Record Sample := mkSample { SLabels : gmap string string; SValue : float64; SAt : Z }.
Record Range := mkRange { Start : Z; End : Z; Step : Z }.
Record Point := mkPoint { PAt : Z; PValue : float64 }.
Record Series := mkSeries { RLabels : gmap string string; Points : list Point }.

(** The wire shape of an answer, its results of either kind. *)
Record response (R : Type) := mkResponse {
  RStatus : string; RResultType : string; RResult : list R; RError : string; RWarnings : list string }.
Arguments mkResponse {R}. Arguments RStatus {R}. Arguments RResultType {R}. Arguments RResult {R}.
Arguments RError {R}. Arguments RWarnings {R}.

(** A list of values read by [read]; null is the nil list. *)
Definition read_list {A} (read : json → option A) (v : json) : option (list A) :=
  match v with JNull => Some [] | JArr l => mapM read l | _ => None end.

Section Response.
Context {R : Type} (read : json → option R).

Definition assign_data (name : string) (v : json) (p : response R) : option (response R) :=
  let 'mkResponse st ty rs er ws := p in
  if String.eqb name "resultType" then option_map (λ s, mkResponse st s rs er ws) (assign_string v ty)
  else option_map (λ rs, mkResponse st ty rs er ws) (read_list read v).

Definition assign_response (name : string) (v : json) (p : response R) : option (response R) :=
  let 'mkResponse st ty rs er ws := p in
  if String.eqb name "status" then option_map (λ s, mkResponse s ty rs er ws) (assign_string v st)
  else if String.eqb name "data" then into_struct ["resultType"; "result"] assign_data false v p
  else if String.eqb name "error" then option_map (λ s, mkResponse st ty rs s ws) (assign_string v er)
  else option_map (mkResponse st ty rs er) (read_list (λ v, assign_string v "") v).

Definition read_response (body : string) : option (response R) :=
  match parse_document body with
  | Some v => into_struct ["status"; "data"; "error"; "warnings"] assign_response false v (mkResponse "" "" [] "" [])
  | None => None
  end.
End Response.

(** One result: its labels and its undecoded values. *)
Definition assign_result {V} (values : string) (read : json → option V) (name : string) (v : json)
    (r : gmap string string * list V) : option (gmap string string * list V) :=
  if String.eqb name values then option_map (λ l, (r.1, l)) (read_list read v)
  else option_map (λ m, (m, r.2)) (read_labels v r.1).
Definition read_result {V} (values : string) (read : json → option V) (v : json) : option (gmap string string * list V) :=
  into_struct ["metric"; values] (assign_result values read) false v (∅, []).

Definition instantResult : json → option (gmap string string * list json) := read_result "value" Some.
Definition rangeResult : json → option (gmap string string * list (list json)) :=
  read_result "values" (read_list Some).

Inductive query_error := ErrNilClient | ErrStep | ErrOrder | ErrBuild | ErrAuth | ErrTransport | ErrRead
  | ErrDecode | ErrAPI (msg : string) | ErrResultType (got : string) | ErrHTTP (status : Z) (body : string).

(** [httpError.Error]. *)
Definition http_message (status : Z) (body : string) : string :=
  "prom: http " +:+ itoa status +:+ (if String.eqb body "" then "" else ": " +:+ body).

Section Decode.
Context `{!GoPlatform}.

(** The two halves of a pair are decoded on their own; null is the zero of its type. *)
Definition decodePair (tsRaw valRaw : json) : option (Z * float64) :=
  match (match tsRaw with JNull => Some (f_zero false) | JNum lit => parse_float lit | _ => None end),
        (match valRaw with JNull => Some "" | JStr _ s => Some s | _ => None end) with
  | Some tsSec, Some raw =>
      match parse_float raw with
      | None => None
      | Some v =>
          let whole := f_to_i64 tsSec in
          let frac := f_to_i64 (f_mul (f_sub tsSec (f_of_Z whole)) (f_of_Z 1000000000)) in
          Some (unix_time whole frac, v)
      end
  | _, _ => None
  end.
Definition decode_values (values : list json) : option (Z * float64) :=
  match values with [ts; v] => decodePair ts v | _ => None end.

Definition parseInstant (body : string) : result query_error (list Sample) :=
  match read_response instantResult body with
  | None => Err ErrDecode
  | Some p =>
      if negb (String.eqb (RStatus p) "success") then Err (ErrAPI (RError p))
      else Ok (omap (λ r, option_map (λ tv, mkSample r.1 tv.2 tv.1) (decode_values r.2)) (RResult p))
  end.

Definition parseRange (body : string) : result query_error (list Series) :=
  match read_response rangeResult body with
  | None => Err ErrDecode
  | Some p =>
      if negb (String.eqb (RStatus p) "success") then Err (ErrAPI (RError p))
      else if negb (String.eqb (RResultType p) "matrix") then Err (ErrResultType (RResultType p))
      else Ok (map (λ r, mkSeries r.1 (omap (λ vs, option_map (λ tv, mkPoint tv.1 tv.2) (decode_values vs)) r.2)) (RResult p))
  end.
End Decode.

(** ** Requests *)

(** What an attempt brings: a failure before the answer, or a status and a body. *)
Inductive exchange := XBuild | XAuth | XTransport | XAnswer (status : Z) (body : option string).

Record HTTPClient := mkClient { BaseURL : string; MaxBodyBytes : Z }.

Definition statusBucket (status : Z) : string :=
  if status =? 401 then "401" else if status =? 403 then "403" else if status =? 404 then "404"
  else if status =? 429 then "429" else if 500 <=? status then "5xx" else if 400 <=? status then "4xx"
  else itoa status.

Section Do.
Context {A : Type} (c : HTTPClient) (parse : string → result query_error A).

Definition doOnce (x : exchange) : result query_error A * string :=
  match x with
  | XBuild => (Err ErrBuild, "build_error")
  | XAuth => (Err ErrAuth, "auth_error")
  | XTransport => (Err ErrTransport, "transport_error")
  | XAnswer status body =>
      if negb (status =? 200)
      then (Err (ErrHTTP status (trim_space (str_take 4096 (default "" body)))), statusBucket status)
      else match body with
      | None => (Err ErrRead, "read_error")
      | Some body =>
          match parse (str_take (Z.to_nat (MaxBodyBytes c)) body) with
          | Err e => (Err e, "decode_error")
          | Ok out => (Ok out, "ok")
          end
      end
  end.

Definition server_error (e : query_error) : bool := match e with ErrHTTP status _ => 500 <=? status | _ => false end.

(** [attempt] is what each attempt would bring. *)
Fixpoint do_loop (n i : nat) (attempt : nat → exchange) (last : result query_error A * string) :
    result query_error A * string :=
  match n with
  | O => last
  | S n =>
      let r := doOnce (attempt i) in
      match r.1 with
      | Ok _ => r
      | Err e => if server_error e then do_loop n (S i) attempt r else r
      end
  end.
Definition do (attempt : nat → exchange) : result query_error A * string :=
  do_loop 2 0 attempt (Err ErrNilClient, "").
End Do.

(** The answer, and what is observed of it. *)
Definition Query `{!GoPlatform} (c : option HTTPClient) (attempt : nat → exchange) :
    result query_error (list Sample) * option (string * string) :=
  match c with
  | None => (Err ErrNilClient, None)
  | Some c => let r := do c parseInstant attempt in (r.1, Some ("query", r.2))
  end.

Definition QueryRange `{!GoPlatform} (c : option HTTPClient) (r : Range) (attempt : nat → exchange) :
    result query_error (list Series) * option (string * string) :=
  match c with
  | None => (Err ErrNilClient, None)
  | Some c =>
      if Step r <=? 0 then (Err ErrStep, None)
      else if negb (time_after (End r) (Start r)) then (Err ErrOrder, None)
      else let o := do c parseRange attempt in (o.1, Some ("query_range", o.2))
  end.

(** ** Credentials *)

Record AuthConfig := mkAuth {
  AMode : string; BearerToken : string; BearerFile : string; Username : string; Password : string;
  SATokenFile : string; ClientCertFile : string; ClientKeyFile : string; CABundleFile : string;
  TokenRefresh : Z }.

Inductive Authenticator :=
  | NoopAuth | MTLSAuth
  | HeaderAuth (header value : string)
  | BasicAuth (username password : string)
  | FileTokenAuth (path scheme : string) (refresh : Z).

Inductive auth_error := BearerMissing | UserMissing | CertMissing | UnknownMode (mode : string).

Definition refresh_or (d : Z) : Z := if d <=? 0 then Minute else d.

Definition NewAuthenticator (cfg : AuthConfig) : result auth_error Authenticator :=
  let mode := if String.eqb (AMode cfg) "" then "none" else AMode cfg in
  if String.eqb mode "none" then Ok NoopAuth
  else if String.eqb mode "bearer" then
    if String.eqb (BearerToken cfg) "" && String.eqb (BearerFile cfg) "" then Err BearerMissing
    else if negb (String.eqb (BearerFile cfg) "")
      then Ok (FileTokenAuth (BearerFile cfg) "Bearer" (refresh_or (TokenRefresh cfg)))
    else Ok (HeaderAuth "Authorization" ("Bearer " +:+ BearerToken cfg))
  else if String.eqb mode "basic" then
    if String.eqb (Username cfg) "" then Err UserMissing else Ok (BasicAuth (Username cfg) (Password cfg))
  else if String.eqb mode "sa_token" then
    Ok (FileTokenAuth (if String.eqb (SATokenFile cfg) "" then "/var/run/secrets/kubernetes.io/serviceaccount/token"
                       else SATokenFile cfg) "Bearer" (refresh_or (TokenRefresh cfg)))
  else if String.eqb mode "mtls" then
    if String.eqb (ClientCertFile cfg) "" || String.eqb (ClientKeyFile cfg) "" then Err CertMissing else Ok MTLSAuth
  else Err (UnknownMode mode).

Definition IsMTLS (a : Authenticator) : bool := match a with MTLSAuth => true | _ => false end.

(** The cached token of a file, its age and the error of the last read. A call reads the
    fields under the read lock and decides, or takes the write lock, looks once more at the
    token and reads the file; this is one such call on its own. *)
Inductive token_error := ErrReadToken (e : string) | ErrEmptyToken | ErrCached (e : string).
Record file_token := mkFileToken { cached : string; cachedAt : Z; cachedErr : option string }.
Definition new_file_token : file_token := mkFileToken "" 0 None.

Definition fresh (refresh now : Z) (f : file_token) : bool := time_sub now (cachedAt f) <? refresh.

Definition token (refresh now : Z) (file : result string string) (f : file_token) : file_token * result token_error string :=
  if negb (String.eqb (cached f) "") && fresh refresh now f then (f, Ok (cached f))
  else match cachedErr f, fresh refresh now f with
  | Some e, true => (f, Err (ErrCached e))
  | _, _ =>
      match file with
      | Err e => (mkFileToken (cached f) now (Some e), Err (ErrReadToken e))
      | Ok raw =>
          let t := trim_space raw in
          (mkFileToken t now None, if String.eqb t "" then Err ErrEmptyToken else Ok t)
      end
  end.

(** ** The query set *)

Definition CPURate : string := "sum by (namespace,pod) (rate(container_cpu_usage_seconds_total{container!=" +:+
  String quote_char "POD" +:+ String quote_char ",container!=" +:+ String quote_char (String quote_char "}[5m]))").
Definition MemoryWorkingSet : string := "sum by (namespace,pod) (container_memory_working_set_bytes{container!=" +:+
  String quote_char "POD" +:+ String quote_char ",container!=" +:+ String quote_char (String quote_char "})").
Definition OOMKilledIncrease : string :=
  "sum by (namespace,pod) (increase(kube_pod_container_status_last_terminated_reason{reason=" +:+
  String quote_char "OOMKilled" +:+ String quote_char "}[7d]))".
Definition OOMWindow : Z := 7 * 24 * Hour.
Definition HistoricalStep : Z := Hour.

Record QueryProfile := mkProfile { PCPURate : string; PMemoryWorking : string; POOMKilled : string; POOMWindow : Z }.
Definition DefaultProfile : QueryProfile := mkProfile CPURate MemoryWorkingSet OOMKilledIncrease OOMWindow.

Definition HistoricalRange (now : Z) : Range := mkRange (time_add now (- (30 * 24 * Hour))) now HistoricalStep.

(** ** The scraper *)

Record WorkloadObservation := mkObs {
  ONamespace : string; OKind : string; OName : string; CPUUsageCores : float64; MemoryWorking : float64;
  OOMKilledCount : Z; OAt : Z }.

Definition WorkloadKey : Type := Workloads.Ref.
#[export] Instance WorkloadKey_countable : Countable Workloads.Ref.
Proof.
  refine (inj_countable' (λ r, (Workloads.RefNamespace r, Workloads.RefKind r, Workloads.RefName r))
    (λ '(a, b, c), Workloads.mkRef a b c) _). by intros [].
Defined.

Section Scraper.
Context `{!GoPlatform, !GoSort}.
(** The order in which Go ranges over the map of workloads. *)
Context (range_ : gmap Workloads.Ref WorkloadObservation → list WorkloadObservation).

Definition pod_key (sm : Sample) : string * string :=
  (default "" (SLabels sm !! "namespace"), default "" (SLabels sm !! "pod")).

Definition new_obs (wk : WorkloadKey) (at_ : Z) : WorkloadObservation :=
  mkObs (Workloads.RefNamespace wk) (Workloads.RefKind wk) (Workloads.RefName wk) (f_zero false) (f_zero false) 0 at_.

Definition apply_sample (owners : gmap (string * string) WorkloadKey)
    (set_ : WorkloadObservation → float64 → WorkloadObservation)
    (m : gmap Workloads.Ref WorkloadObservation) (sm : Sample) : gmap Workloads.Ref WorkloadObservation :=
  match owners !! pod_key sm with
  | None => m
  | Some wk => <[wk := set_ (default (new_obs wk (SAt sm)) (m !! wk)) (SValue sm)]> m
  end.

Definition add_cpu (o : WorkloadObservation) (v : float64) : WorkloadObservation :=
  mkObs (ONamespace o) (OKind o) (OName o) (f_add (CPUUsageCores o) v) (MemoryWorking o) (OOMKilledCount o) (OAt o).
Definition add_mem (o : WorkloadObservation) (v : float64) : WorkloadObservation :=
  mkObs (ONamespace o) (OKind o) (OName o) (CPUUsageCores o) (f_add (MemoryWorking o) v) (OOMKilledCount o) (OAt o).
Definition add_oom (o : WorkloadObservation) (v : float64) : WorkloadObservation :=
  mkObs (ONamespace o) (OKind o) (OName o) (CPUUsageCores o) (MemoryWorking o)
    (i64_add (OOMKilledCount o) (f_to_i64 v)) (OAt o).

Definition dated (now : Z) (o : WorkloadObservation) : WorkloadObservation :=
  mkObs (ONamespace o) (OKind o) (OName o) (CPUUsageCores o) (MemoryWorking o) (OOMKilledCount o)
    (if time_IsZero (OAt o) then now else OAt o).

Definition obs_less : WorkloadObservation → WorkloadObservation → bool :=
  lex_less (λ a b, String.ltb (ONamespace a) (ONamespace b))
    (lex_less (λ a b, String.ltb (OKind a) (OKind b)) (λ a b, String.ltb (OName a) (OName b))).

Definition samples_of {E} (r : result E (list Sample)) : list Sample := match r with Ok l => l | Err _ => [] end.
Definition error_of {E A} (r : result E A) (last : option E) : option E := match r with Ok _ => last | Err e => Some e end.

Definition merge {E} owners (cpu mem oom : result E (list Sample)) : gmap Workloads.Ref WorkloadObservation :=
  foldl (apply_sample owners add_oom)
    (foldl (apply_sample owners add_mem)
      (foldl (apply_sample owners add_cpu) ∅ (samples_of cpu)) (samples_of mem)) (samples_of oom).

(** The client answers each query of the profile; no client, no observations. *)
Definition Scrape {E} (client : option (string → Z → result E (list Sample))) (profile : QueryProfile) (now : Z)
    (owners : gmap (string * string) WorkloadKey) : list WorkloadObservation * option E :=
  match client with
  | None => ([], None)
  | Some query =>
      let cpu := query (PCPURate profile) now in
      let mem := query (PMemoryWorking profile) now in
      let oom := query (POOMKilled profile) now in
      (sort_slice obs_less (map (dated now) (range_ (merge owners cpu mem oom))),
       error_of oom (error_of mem (error_of cpu None)))
  end.
End Scraper.

(** ** Facts: answers *)

Section AnswerFacts.
Context {A : Type} (c : HTTPClient) (parse : string → result query_error A).

(** A request is tried again once, exactly after an answer of status 500 or above: the first
    attempt decides otherwise, the second one then, whatever it brings. *)
Lemma do_retries attempt :
  do c parse attempt =
  match (doOnce c parse (attempt 0%nat)).1 with
  | Err (ErrHTTP status _) => doOnce c parse (attempt (if 500 <=? status then 1%nat else 0%nat))
  | _ => doOnce c parse (attempt 0%nat)
  end.
Proof.
  unfold do. cbn [do_loop]. destruct (doOnce c parse (attempt 0%nat)) as [[a|e] st] eqn:E0; [done|].
  cbn [fst]. destruct e; try done. cbn [server_error]. destruct (500 <=? status); [|by rewrite E0].
  destruct (doOnce c parse (attempt 1%nat)) as [[a|e] st'] eqn:E1; [done|]. cbn [fst].
  by destruct (server_error e).
Qed.

(** An answer is taken for good only with status 200. *)
Lemma do_ok attempt v st : do c parse attempt = (Ok v, st) →
  st = "ok" ∧ ∃ i body, (i < 2)%nat ∧ attempt i = XAnswer 200 (Some body) ∧
    parse (str_take (Z.to_nat (MaxBodyBytes c)) body) = Ok v.
Proof.
  assert (∀ i, doOnce c parse (attempt i) = (Ok v, st) → st = "ok" ∧ ∃ body,
    attempt i = XAnswer 200 (Some body) ∧ parse (str_take (Z.to_nat (MaxBodyBytes c)) body) = Ok v) as Hone.
  { intros i. unfold doOnce. destruct (attempt i) as [| | |status body]; try done.
    destruct (Z.eqb_spec status 200) as [->|]; simpl; [|done]. destruct body as [body|]; [|done].
    destruct (parse _) eqn:E; [|done]. intros [= -> <-]. eauto. }
  rewrite do_retries. intros H.
  assert (∃ i, (i < 2)%nat ∧ doOnce c parse (attempt i) = (Ok v, st)) as (i & Hi & H').
  { destruct (doOnce c parse (attempt 0%nat)).1 as [|[]]; try by (exists 0%nat; auto).
    destruct (500 <=? status); [exists 1%nat|exists 0%nat]; auto. }
  apply Hone in H' as (-> & body & ? & ?). eauto 6.
Qed.
End AnswerFacts.

Definition quoted (s : string) : string := String quote_char (s +:+ String quote_char "").

(** A vector that is not one: an instant query does not look at the type of its result, so a
    matrix reads as no samples and no error; and a pair whose time is null is taken for 1970. *)
Lemma instant_divergences `{!GoPlatform} :
  let answer ty result := "{" +:+ quoted "status" +:+ ":" +:+ quoted "success" +:+ "," +:+ quoted "data" +:+ ":{" +:+
    quoted "resultType" +:+ ":" +:+ quoted ty +:+ "," +:+ quoted "result" +:+ ":[{" +:+ result +:+ "}]}}" in
  parseInstant (answer "matrix" (quoted "values" +:+ ":[[1," +:+ quoted "2" +:+ "]]")) = Ok [] ∧
  (∃ s, parseInstant (answer "vector" (quoted "value" +:+ ":[null," +:+ quoted "2" +:+ "]")) = Ok [s] ∧
     decodePair JNull (JStr "2" "2") = Some (SAt s, SValue s)).
Proof. vm_compute. split; [done|eexists; split; done]. Qed.

(** ** Facts: the token of a file *)

(** The calls of one client: when each is made and what the file holds then. *)
Fixpoint run_tokens (refresh : Z) (calls : list (Z * result string string)) (f : file_token) : list (result token_error string) :=
  match calls with
  | [] => []
  | (now, file) :: calls => let r := token refresh now file f in r.2 :: run_tokens refresh calls r.1
  end.

(** The cached token is what the file held when it was last read. *)
Definition grounded (past : list (Z * result string string)) (f : file_token) : Prop :=
  cachedErr f = None ∧ (cached f = "" ∨ ∃ raw, (cachedAt f, Ok raw) ∈ past ∧ trim_space raw = cached f).

Lemma token_step refresh now raw past f : - 2^63 < refresh <= maxDuration → grounded past f →
  let r := token refresh now (Ok raw) f in
  grounded (past ++ [(now, Ok raw)]) r.1 ∧
  ∀ t, r.2 = Ok t → t ≠ "" ∧ ∃ at_ held, (at_, Ok held) ∈ past ++ [(now, Ok raw)] ∧ t = trim_space held ∧
    (now < at_ + refresh ∨ at_ = now).
Proof.
  intros Hr [He Hg]. unfold token, fresh. rewrite He.
  assert (∀ x, x ∈ past → x ∈ past ++ [(now, Ok raw)]) as Hin by set_solver.
  destruct (String.eqb_spec (cached f) "") as [Hc|Hc]; cbn [negb andb].
  - split; [split; [done|]; right; exists raw; split; [set_solver|done]|].
    cbn [snd]. intros t. destruct (String.eqb_spec (trim_space raw) ""); [done|]. intros [= <-].
    split; [done|]. exists now, raw. set_solver.
  - destruct Hg as [|(held & Hheld & Ht)]; [done|].
    destruct (Z.ltb_spec (time_sub now (cachedAt f)) refresh) as [Hf|Hf]; cbn [fst snd].
    + split; [split; [done|]; right; eauto|]. intros t [= <-]. split; [done|].
      exists (cachedAt f), held. split_and!; [auto|done|]. left. apply time_sub_lt in Hf; [lia|done].
    + split; [split; [done|]; right; exists raw; split; [set_solver|done]|].
      intros t. destruct (String.eqb_spec (trim_space raw) ""); [done|]. intros [= <-].
      split; [done|]. exists now, raw. set_solver.
Qed.

(** As long as the file can be read, a token that is handed out is what the file held less
    than one refresh period before (or at the call itself), and never empty. *)
Lemma tokens_fresh refresh calls : - 2^63 < refresh <= maxDuration → Forall (λ c, is_ok c.2 = true) calls →
  ∀ i now file t, calls !! i = Some (now, file) → run_tokens refresh calls new_file_token !! i = Some (Ok t) →
    t ≠ "" ∧ ∃ at_ held, (at_, Ok held) ∈ take (S i) calls ∧ t = trim_space held ∧ (now < at_ + refresh ∨ at_ = now).
Proof.
  intros Hr. assert (∀ past f, grounded past f → Forall (λ c, is_ok c.2 = true) calls →
    ∀ i now file t, calls !! i = Some (now, file) → run_tokens refresh calls f !! i = Some (Ok t) →
    t ≠ "" ∧ ∃ at_ held, (at_, Ok held) ∈ past ++ take (S i) calls ∧ t = trim_space held ∧
      (now < at_ + refresh ∨ at_ = now)) as Hgen; [|apply (Hgen []); split; auto].
  induction calls as [|[now0 [raw|e]] calls IH]; intros past f Hg Hok i now file t Hi Ht; [done| |].
  2: { by apply Forall_cons in Hok as []. }
  apply Forall_cons in Hok as [_ Hok]. destruct (token_step refresh now0 raw past f Hr Hg) as [Hg' Hans].
  destruct i as [|i].
  - simpl in Hi. injection Hi as <- _. simpl in Ht. injection Ht as Ht.
    destruct (Hans t Ht) as (? & at_ & held & ? & ? & ?). split; [done|]. exists at_, held.
    cbn [take]. by rewrite take_0.
  - destruct (IH _ _ Hg' Hok i now file t Hi Ht) as (? & at_ & held & Hin & ? & ?).
    split; [done|]. exists at_, held. rewrite <-app_assoc in Hin. done.
Qed.

(** A failed read keeps the old token and dates it anew: the call that reads gets the error,
    and the calls of the next period get the old token as if it had just been read, however
    old it is. *)
Lemma stale_token refresh t0 t1 t2 (f : file_token) e : cached f ≠ "" → cachedAt f = t0 →
  refresh <= time_sub t1 t0 → time_sub t2 t1 < refresh →
  let '(f1, r1) := token refresh t1 (Err e) f in
  r1 = Err (ErrReadToken e) ∧ (token refresh t2 (Err e) f1).2 = Ok (cached f).
Proof.
  intros Hc Hat Hold Hnew. unfold token, fresh. rewrite Hat.
  rewrite (proj2 (String.eqb_neq _ _) Hc), (proj2 (Z.ltb_ge _ _) Hold). cbn [andb negb].
  destruct (cachedErr f); cbn [cached cachedAt];
    by rewrite (proj2 (String.eqb_neq _ _) Hc), (proj2 (Z.ltb_lt _ _) Hnew).
Qed.

(** ** Facts: the scraper *)

Section ScrapeFacts.
Context `{!GoPlatform, !GoSort} (owners : gmap (string * string) WorkloadKey).

(** The samples of a workload's pods. *)
Definition owned (wk : WorkloadKey) (l : list Sample) : list Sample :=
  List.filter (λ sm, bool_decide (owners !! pod_key sm = Some wk)) l.

Lemma apply_lookup set_ l wk : ∀ m,
  foldl (apply_sample owners set_) m l !! wk =
  match owned wk l with
  | [] => m !! wk
  | s :: _ => Some (foldl (λ o sm, set_ o (SValue sm)) (default (new_obs wk (SAt s)) (m !! wk)) (owned wk l))
  end.
Proof.
  induction l as [|sm l IH]; intros m; [done|]. cbn [foldl owned List.filter]. fold (owned wk l). rewrite IH.
  unfold apply_sample. case_bool_decide as Hk.
  - rewrite Hk, lookup_insert_eq. cbn [foldl from_option id]. by destruct (owned wk l).
  - assert (∀ o, (match owners !! pod_key sm with
        | Some wk' => <[wk' := o wk']> m | None => m end) !! wk = m !! wk) as Hskip.
    { intros o. destruct (owners !! pod_key sm) as [wk'|]; [|done]. apply lookup_insert_ne. congruence. }
    by rewrite (Hskip (λ wk', set_ (default (new_obs wk' (SAt sm)) (m !! wk')) (SValue sm))).
Qed.

Definition total (l : list Sample) : float64 := foldl (λ a sm, f_add a (SValue sm)) (f_zero false) l.
Definition count (l : list Sample) : Z := foldl (λ n sm, i64_add n (f_to_i64 (SValue sm))) 0 l.

(** The row of a workload, told on its own: the sums over its pods, dated by its first sample. *)
Definition row (now : Z) (cpu mem oom : list Sample) (wk : WorkloadKey) : option WorkloadObservation :=
  match owned wk (cpu ++ mem ++ oom) with
  | [] => None
  | s :: _ => Some (mkObs (Workloads.RefNamespace wk) (Workloads.RefKind wk) (Workloads.RefName wk)
      (total (owned wk cpu)) (total (owned wk mem)) (count (owned wk oom))
      (if time_IsZero (SAt s) then now else SAt s))
  end.

Lemma fold_cpu l : ∀ o, foldl (λ o sm, add_cpu o (SValue sm)) o l =
  mkObs (ONamespace o) (OKind o) (OName o) (foldl (λ a sm, f_add a (SValue sm)) (CPUUsageCores o) l) (MemoryWorking o)
    (OOMKilledCount o) (OAt o).
Proof. induction l as [|sm l IH]; intros []; [done|]. simpl. by rewrite IH. Qed.
Lemma fold_mem l : ∀ o, foldl (λ o sm, add_mem o (SValue sm)) o l =
  mkObs (ONamespace o) (OKind o) (OName o) (CPUUsageCores o) (foldl (λ a sm, f_add a (SValue sm)) (MemoryWorking o) l)
    (OOMKilledCount o) (OAt o).
Proof. induction l as [|sm l IH]; intros []; [done|]. simpl. by rewrite IH. Qed.
Lemma fold_oom l : ∀ o, foldl (λ o sm, add_oom o (SValue sm)) o l =
  mkObs (ONamespace o) (OKind o) (OName o) (CPUUsageCores o) (MemoryWorking o)
    (foldl (λ n sm, i64_add n (f_to_i64 (SValue sm))) (OOMKilledCount o) l) (OAt o).
Proof. induction l as [|sm l IH]; intros []; [done|]. simpl. by rewrite IH. Qed.

Lemma merge_lookup {E} now (cpu mem oom : result E (list Sample)) wk :
  dated now <$> merge owners cpu mem oom !! wk = row now (samples_of cpu) (samples_of mem) (samples_of oom) wk.
Proof.
  unfold merge. rewrite !apply_lookup, lookup_empty. unfold row, owned. rewrite !List.filter_app.
  fold (owned wk (samples_of cpu)) (owned wk (samples_of mem)) (owned wk (samples_of oom)).
  destruct (owned wk (samples_of cpu)) as [|s1 l1], (owned wk (samples_of mem)) as [|s2 l2],
    (owned wk (samples_of oom)) as [|s3 l3]; cbn [from_option id app fmap option_fmap option_map];
    rewrite ?fold_oom, ?fold_mem, ?fold_cpu; done.
Qed.

Context (range_ : gmap Workloads.Ref WorkloadObservation → list WorkloadObservation)
  (range_perm : ∀ m, range_ m ≡ₚ (map_to_list m).*2).

Definition key_of (o : WorkloadObservation) : WorkloadKey := Workloads.mkRef (ONamespace o) (OKind o) (OName o).

Lemma row_key now cpu mem oom wk o : row now cpu mem oom wk = Some o → key_of o = wk.
Proof. unfold row. destruct (owned _ _); [done|]. intros [= <-]. by destruct wk. Qed.

Lemma obs_less_key a b : obs_less a b = false → obs_less b a = false → key_of a = key_of b.
Proof.
  unfold obs_less, lex_less, key_of. intros Hab Hba.
  destruct (String.ltb (ONamespace a) (ONamespace b)) eqn:E1; [done|].
  destruct (String.ltb (ONamespace b) (ONamespace a)) eqn:E2; [done|].
  destruct (String.ltb (OKind a) (OKind b)) eqn:E3; [done|].
  destruct (String.ltb (OKind b) (OKind a)) eqn:E4; [done|].
  f_equal; by apply ltb_false_eq.
Qed.

(** The rows of a scrape: one for every workload some sample belongs to, in order of
    namespace, kind and name, each the sums over its own pods - whatever the order of the map
    and the sorting algorithm. A query that fails counts as one without samples, and the last
    failure is the error. *)
Lemma scrape_rows {E} (query : string → Z → result E (list Sample)) profile now :
  let out := Scrape range_ (Some query) profile now owners in
  let cpu := query (PCPURate profile) now in
  let mem := query (PMemoryWorking profile) now in
  let oom := query (POOMKilled profile) now in
  sorted_by obs_less out.1 ∧ NoDup (map key_of out.1) ∧
  (∀ o, o ∈ out.1 ↔ ∃ wk, row now (samples_of cpu) (samples_of mem) (samples_of oom) wk = Some o) ∧
  out.2 = match oom, mem, cpu with Err e, _, _ => Some e | _, Err e, _ => Some e | _, _, Err e => Some e | _, _, _ => None end.
Proof.
  cbn [Scrape fst snd]. set (cpu := query _ _). set (mem := query (PMemoryWorking _) _). set (oom := query (POOMKilled _) _).
  set (m := merge owners cpu mem oom).
  assert (∀ wk : Workloads.Ref, dated now <$> m !! wk = row now (samples_of cpu) (samples_of mem) (samples_of oom) wk) as Hm
    by (intros; apply merge_lookup).
  assert (sort_slice obs_less (map (dated now) (range_ m)) ≡ₚ map (λ kv, dated now kv.2) (map_to_list m)) as Hperm.
  { rewrite sort_slice_perm, (range_perm m). apply Permutation_refl'. apply (map_map snd (dated now)). }
  split_and!.
  - apply sort_slice_sorted. unfold obs_less. apply _.
  - rewrite Hperm. rewrite map_map.
    assert (map (λ kv, key_of (dated now kv.2)) (map_to_list m) = (map_to_list m).*1) as ->.
    { apply list_fmap_ext. intros i [wk o] Hi. apply list_elem_of_lookup_2, elem_of_map_to_list in Hi.
      apply (row_key now (samples_of cpu) (samples_of mem) (samples_of oom)). cbn [fst snd]. by rewrite <-Hm, Hi. }
    apply NoDup_fst_map_to_list.
  - intros o. rewrite Hperm, list_elem_of_fmap. split.
    + intros ([wk o'] & -> & Hin%elem_of_map_to_list). exists wk. by rewrite <-Hm, Hin.
    + intros [wk Hwk]. rewrite <-Hm in Hwk. apply fmap_Some in Hwk as (o' & Ho & ->).
      exists (wk, o'). split; [done|]. by apply elem_of_map_to_list.
  - by destruct oom, mem, cpu.
Qed.
End ScrapeFacts.
