(* ===== verification/AgentLoop.v ===== *)
(** The agent's tick, from the cluster to the row the service keeps: the snapshot it builds
    (backend/cmd/agent/populate.go), the loop that sends one per interval (main.go), the
    client that signs and posts it (backend/internal/agent/egress/egress.go), the tenant the
    service reads off the client certificate (backend/internal/agent/mtls/mtls.go) and the
    sink that keeps it (backend/internal/ingestion/agent_snapshot_pg.go). TLS, the transport
    and Postgres are answers the definitions are given. *)

From Stdlib Require Import Ascii.
From S2P Require Import Prelude GoNum GoStr Lines Utf8 GoTime Tenancy Json Base64 Token Ingest Strategy Cluster Dynamic PromClient.
Local Open Scope Z_scope.

(** ** The tenant of a certificate *)

Module Mtls.
Definition Trust : string := "optiqor.dev".
Definition URIPrefix : string := "/tenant/".

Inductive error := ErrNoClientCert | ErrNoSPIFFEUSAN | ErrWrongTrust | ErrMalformedSPIFFE.

Record URL := mkURL { Scheme : string; Host : string; Path : string }.

Definition tenantIDFromURI (u : option URL) : result error string :=
  match u with
  | None => Err ErrNoSPIFFEUSAN
  | Some u =>
      if negb (String.eqb (Scheme u) "spiffe") then Err ErrNoSPIFFEUSAN
      else if negb (EqualFold (Host u) Trust) then Err ErrWrongTrust
      else match strip_prefix URIPrefix (Path u) with
      | None => Err ErrMalformedSPIFFE
      | Some id => if String.eqb id "" || negb (no_byte "/" id) then Err ErrMalformedSPIFFE else Ok id
      end
  end.

Fixpoint tenantIDFromCert (uris : list (option URL)) : result error string :=
  match uris with
  | [] => Err ErrNoSPIFFEUSAN
  | u :: uris => match tenantIDFromURI u with Ok id => Ok id | Err _ => tenantIDFromCert uris end
  end.

(** A request carries the URIs of its peer certificates, the client's own first. *)
Definition ExtractTenant (peers : list (list (option URL))) : result error TenantContext :=
  match peers with
  | [] => Err ErrNoClientCert
  | cert :: _ => let* id := tenantIDFromCert cert in Ok (mkTenant id "" "" "")
  end.
End Mtls.

(** ** Building a snapshot *)

(** The caches of the agent. A reader that is there may still lack its informer. *)
Record Readers := mkReaders {
  REvents : option (option (Indexer Events.object));
  RHPA : option (option (Indexer Hpa.object));
  RPolicy : option Policies.PolicyR;
  RKarpenter : option (option (result list_error (list (string * vmap))));
  RWorkloads : option Workloads.WorkloadIndex }.

(** What is detected once: nothing yet, or the outcome of the only attempt. *)
Record populator := mkPopulator {
  clusterID : string; agentVersion : string; eventsCutoff : Z;
  classOnce : bool; cachedClass : option Class_ }.

Section Build.
Context `{!GoPlatform} `{!GoMapOrder} (A : Accessors).

Definition ListKarpenter (r : Readers) : list Karpenter.KarpenterNodePool :=
  match RKarpenter r with
  | None => []
  | Some client => match Karpenter.List_ A client with Ok pools => pools | Err _ => [] end
  end.

Definition workload_snap (w : Workloads.Ref) : WorkloadSnap :=
  mkWorkloadSnap (Workloads.RefNamespace w) (Workloads.RefKind w) (Workloads.RefName w).
Definition event_snap (e : Events.EventSummary) : EventSnap :=
  mkEventSnap (Events.SNamespace e) (Events.SPodName e) (Events.SReason e) (Events.SType e) (Events.SCount e)
    (Events.SLastSeen e) (Events.SMessage e).
Definition hpa_snap (h : Hpa.HPASummary) : HPASnap :=
  mkHPASnap (Hpa.SNamespace h) (Hpa.SName h) (Hpa.SMinReplicas h) (Hpa.SMaxReplicas h) (Hpa.SCurrentReplicas h).
Definition policy_snap (p : Policies.PolicySummary) : PolicySnap :=
  mkPolicySnap (Policies.SumNamespace p) (Policies.HasPDB p) (Policies.HasQuota p) (Policies.HasLimitRng p).
Definition pool_snap (np : Karpenter.KarpenterNodePool) : NodePoolSnap :=
  mkNodePoolSnap (Karpenter.Name np) (Karpenter.NodeCountCurrent np) (Karpenter.ConsolidationMode np)
    (Karpenter.Requirements np).
Definition sample_snap (o : WorkloadObservation) : PromSampleSnap :=
  mkPromSampleSnap (ONamespace o) (OKind o) (OName o) (PromClient.CPUUsageCores o)
    (f_to_i64 (PromClient.MemoryWorking o)) (PromClient.OOMKilledCount o) (OAt o).

(** The class is asked for once in the life of the agent, and an error leaves it unknown. *)
Definition detect_once (probe : option Probe) (p : populator) : populator :=
  match probe with
  | None => p
  | Some probe =>
      if classOnce p then p
      else mkPopulator (clusterID p) (agentVersion p) (eventsCutoff p) true
             (match Strategy.Detect (Some probe) with (class, None) => Some class | (_, Some _) => None end)
  end.

(** A scrape is its observations and its last error. *)
Definition Build {E} (p : populator) (readers : option Readers) (probe : option Probe)
    (scrape : option (list WorkloadObservation * option E)) (batchID : string) (now dataFreshness : Z) :
    populator * AgentSnapshot * option E :=
  let health := Some (mkHealthSnap (agentVersion p) (Z.quot dataFreshness Second)) in
  match readers with
  | None => (p, Ingest.mkSnapshot batchID now (clusterID p) (agentVersion p) [] [] [] [] [] "" [] health, None)
  | Some r =>
      let workloads := match RWorkloads r with None => [] | idx => map workload_snap (Workloads.ListWorkloads idx) end in
      let events := match REvents r with
        | None => []
        | Some idx => map event_snap (Events.DrainEvents idx (time_add now (wrap64 (- eventsCutoff p))) 100)
        end in
      let hpas := match RHPA r with None => [] | Some idx => map hpa_snap (Hpa.ListHPAs idx) end in
      let policies := match RPolicy r with None => [] | Some pr => map policy_snap (Policies.ListPolicySummary pr) end in
      let pools := map pool_snap (ListKarpenter r) in
      let p := detect_once probe p in
      let class := match probe with None => "" | Some _ => default "" (cachedClass p) end in
      let snap := Ingest.mkSnapshot batchID now (clusterID p) (agentVersion p) workloads events hpas policies pools class in
      match scrape with
      | None => (p, snap [] health, None)
      | Some ([], Some e) => (p, snap [] health, Some e)
      | Some (obs, _) => (p, snap (map sample_snap obs) health, None)
      end
  end.
End Build.

(** ** Posting it *)

Module Egress.
Record Config := mkConfig {
  BackendURL : string; TenantID : string; ClusterID : string; AgentVersion : string; IngestSecret : string }.
Record Client := mkClient { cfg : Config; issuer : Ident.Issuer }.

Inductive error :=
  | ErrBackendURL
  | ErrTenantID
  | ErrTLS (e : string)
  | ErrIdent (e : Ident.error)
  | ErrMarshal
  | ErrIssue (e : Ident.error)
  | ErrDo
  | ErrRead
  | ErrBackend (status : Z) (body : string)
  | ErrUnmarshal.

(** The key pair and the bundle load, or how they do not. *)
Definition New (c : Config) (tls : option string) : result error Client :=
  if String.eqb (BackendURL c) "" then Err ErrBackendURL
  else if String.eqb (TenantID c) "" then Err ErrTenantID
  else match tls with
  | Some e => Err (ErrTLS e)
  | None =>
      match Ident.NewIssuer (IngestSecret c) Ident.MaxTTL with
      | Err e => Err (ErrIdent e)
      | Ok iss => Ok (mkClient c iss)
      end
  end.

(** [json.Marshal] refuses a number that is not finite and a year outside of 0 to 9999; the
    rest of a snapshot is text, integers and flags. *)
Definition year_ok (t : Z) : bool := (unix_seconds t >=? -62167219200) && (unix_seconds t <? 253402300800).
Definition marshals (snap : AgentSnapshot) : bool :=
  year_ok (CapturedAt snap) && forallb (λ e, year_ok (EvLastSeen e)) (Events snap) &&
  forallb (λ s, f_finite (Ingest.CPUUsageCores s) && year_ok (PSAt s)) (PromSamples snap).

(** One post: where it goes, the token it carries and what its body says. *)
Record post := mkPost { URL : string; Token : string; UserAgent : string; Payload : AgentSnapshot }.

Definition prepare (c : Client) (now : Z) (snap : AgentSnapshot) : result error post :=
  if negb (marshals snap) then Err ErrMarshal
  else match Ident.Issue (issuer c) now (TenantID (cfg c)) (ClusterID (cfg c)) (BatchID snap) AgentSnapshotAudience with
  | Err e => Err (ErrIssue e)
  | Ok tok =>
      Ok (mkPost (BackendURL (cfg c) +:+ "/v1/agent/snapshot") tok ("optiqor-agent/" +:+ AgentVersion (cfg c)) snap)
  end.

(** What became of a post: no connection, an answer that broke off, or an answer with its
    status, its body and what the body decodes to. *)
Inductive answer := NoAnswer | Broken | Answer (status : Z) (body : string) (decoded : option AgentSnapshotResponse).

Definition read_answer (a : answer) : result error AgentSnapshotResponse :=
  match a with
  | NoAnswer => Err ErrDo
  | Broken => Err ErrRead
  | Answer status body decoded =>
      if negb (Z.quot status 100 =? 2) then Err (ErrBackend status body)
      else match decoded with None => Err ErrUnmarshal | Some r => Ok r end
  end.

Definition PostSnapshot (c : Client) (now : Z) (snap : AgentSnapshot) (send : post → answer) :
    result error AgentSnapshotResponse :=
  let* p := prepare c now snap in read_answer (send p).
End Egress.

(** ** The loop *)

(** What a tick finds: the time, the caches, the answers of the API and of Prometheus, the
    clocks of the scrape and of the post, and what becomes of the post. *)
Record tick := mkTick {
  TNow : Z; TReaders : option Readers; TProbe : option Probe;
  TQuery : option (string → Z → result query_error (list Sample));
  TScrapeNow : Z; TPostNow : Z; TSend : Egress.post → Egress.answer }.

Record loop_state := mkLoop { batch : Z; pop : populator; owners : gmap (string * string) WorkloadKey }.

Section Loop.
Context `{!GoPlatform, !GoSort} `{!GoMapOrder} (A : Accessors).
Context (range_ : gmap Workloads.Ref WorkloadObservation → list WorkloadObservation).
Context (client : Egress.Client) (interval : Z).

Definition batch_id (cluster : string) (n : Z) : string := cluster +:+ "-" +:+ itoa n.

(** The pods' owners are looked up anew when there is a scraper to use them. *)
Definition refresh_owners (t : tick) (s : loop_state) : gmap (string * string) WorkloadKey :=
  match TQuery t, TReaders t with
  | Some _, Some r => match RWorkloads r with Some idx => Workloads.PodOwners (Some idx) | None => owners s end
  | _, _ => owners s
  end.

(** The snapshot of a tick, the error it was built with and the state after it. *)
Definition build_tick (t : tick) (s : loop_state) : loop_state * AgentSnapshot * option query_error :=
  let n := i64_add (batch s) 1 in
  let ow := refresh_owners t s in
  let scrape := match TQuery t with
    | None => None
    | Some q => Some (Scrape range_ (Some q) DefaultProfile (TScrapeNow t) ow)
    end in
  let '(p, snap, err) :=
    Build A (pop s) (TReaders t) (TProbe t) scrape (batch_id (clusterID (pop s)) n) (TNow t) interval in
  (mkLoop n p ow, snap, err).

(** One pass of the loop: an error of the build or of the post is logged and no more. *)
Definition tick_step (t : tick) (s : loop_state) :
    loop_state * (AgentSnapshot * result Egress.error AgentSnapshotResponse) :=
  let '(s, snap, _) := build_tick t s in
  (s, (snap, Egress.PostSnapshot client (TPostNow t) snap (TSend t))).

Fixpoint runSnapshotLoop (ticks : list tick) (s : loop_state) :
    list (AgentSnapshot * result Egress.error AgentSnapshotResponse) :=
  match ticks with
  | [] => []
  | t :: ticks => let r := tick_step t s in r.2 :: runSnapshotLoop ticks r.1
  end.
End Loop.

(** ** Keeping it *)

Module PgSink.
Record AgentRow := mkAgent { Version : string; LastSeenAt : Z; Status : string; Freshness : Z }.
(** The two tables a snapshot touches: the agents by tenant and cluster, the clusters by id
    with their tenant and their class. *)
Record database := mkDB {
  agents : gmap (string * string) AgentRow; clusters : gmap string (string * option string) }.

Inductive error := ErrNilPool | ErrTenant | ErrCluster | ErrExec (statement : nat).

Definition classifyStatus (snap : AgentSnapshot) : string :=
  match Health snap with
  | None => "healthy"
  | Some h =>
      if 6 * 3600 <? DataFreshnessSeconds h then "offline"
      else if 60 * 60 <? DataFreshnessSeconds h then "degraded"
      else "healthy"
  end.

Definition row_now (captured now : Z) : Z := if time_IsZero captured then now else captured.

(** The two statements, on an id as Postgres reads it. *)
Definition upsert (tenant cluster : string) (row : AgentRow) (d : database) : database :=
  mkDB (<[(tenant, cluster) := row]> (agents d)) (clusters d).
Definition update_class (tenant cluster class : string) (d : database) : database :=
  mkDB (agents d) (alter (λ c, if String.eqb c.1 tenant then (c.1, Some class) else c) cluster (clusters d)).

(** [uuid] reads an id; [fails] is the statement of the transaction that fails, if one does:
    begin, bind, upsert, update, commit. *)
Definition Persist (pool : bool) (uuid : string → option string) (fails : option nat) (now : Z)
    (t : TenantContext) (snap : AgentSnapshot) (d : database) : result error unit * database :=
  let broken n := bool_decide (fails = Some n) in
  if negb pool then (Err ErrNilPool, d)
  else match TenantContext_Validate t with
  | Some _ => (Err ErrTenant, d)
  | None =>
      if broken 0%nat then (Err (ErrExec 0), d)
      else if broken 1%nat then (Err (ErrExec 1), d)
      else if String.eqb (SnapClusterID snap) "" then (Err ErrCluster, d)
      else match uuid (SnapClusterID snap), broken 2%nat with
      | None, _ | _, true => (Err (ErrExec 2), d)
      | Some id, false =>
          let freshness := match Health snap with Some h => DataFreshnessSeconds h | None => 0 end in
          let d' := upsert (TenantID t) id
            (mkAgent (AgentVersion snap) (row_now (CapturedAt snap) now) (classifyStatus snap) freshness) d in
          let set_ := negb (String.eqb (ProvisionerClass snap) "") in
          if set_ && broken 3%nat then (Err (ErrExec 3), d)
          else
            let d' := if set_ then update_class (TenantID t) id (ProvisionerClass snap) d' else d' in
            if broken 4%nat then (Err (ErrExec 4), d) else (Ok tt, d')
      end
  end.
End PgSink.

(** ** Facts: the tenant *)

Lemma sapp_inj a b c : a +:+ b = a +:+ c → b = c.
Proof. induction a as [|x a IH]; [done|]. rewrite !sapp_cons. intros [= E]. auto. Qed.

(** A certificate names a tenant when one of its URIs is spiffe://optiqor.dev/tenant/<id> -
    the host in any case, the id not empty and without a slash - and the first such URI
    decides; what another URI says is passed over. *)
Lemma tenant_uri u id : Mtls.tenantIDFromURI u = Ok id ↔ ∃ host, EqualFold host Mtls.Trust = true ∧
  u = Some (Mtls.mkURL "spiffe" host ("/tenant/" +:+ id)) ∧ id ≠ "" ∧ no_byte "/" id = true.
Proof.
  change "/tenant/" with Mtls.URIPrefix. destruct u as [[scheme host path]|]; [|split; [done|]; by intros (? & _ & ? & _)].
  cbn [Mtls.tenantIDFromURI Mtls.Scheme Mtls.Host Mtls.Path].
  destruct (String.eqb_spec scheme "spiffe") as [->|]; cbn [negb]; [|split; [done|]; intros (? & _ & [=] & _); congruence].
  destruct (EqualFold host Mtls.Trust) eqn:Eh; cbn [negb]; [|split; [done|]; intros (? & ? & [= ->] & _); congruence].
  destruct (strip_prefix Mtls.URIPrefix path) as [t|] eqn:Ep.
  - apply strip_prefix_Some in Ep as ->.
    assert (∀ h, Some (Mtls.mkURL "spiffe" host (Mtls.URIPrefix +:+ t)) = Some (Mtls.mkURL "spiffe" h (Mtls.URIPrefix +:+ id)) → t = id)
      as Hinj by (intros h [= _ E]; by apply sapp_inj in E).
    destruct (String.eqb_spec t "") as [->|]; cbn [orb].
    + split; [done|]. intros (? & _ & E%Hinj & Hne & _). congruence.
    + destruct (no_byte "/" t) eqn:Es; cbn [negb].
      * split; [intros [= <-]; eauto|]. by intros (? & _ & ->%Hinj & _).
      * split; [done|]. intros (? & _ & ->%Hinj & _ & ?). congruence.
  - split; [done|]. intros (? & _ & [= _ ->] & _). by rewrite strip_prefix_app in Ep.
Qed.

Lemma tenant_cert uris id : Mtls.tenantIDFromCert uris = Ok id ↔
  ∃ l u r, uris = l ++ u :: r ∧ Mtls.tenantIDFromURI u = Ok id ∧ Forall (λ v, is_ok (Mtls.tenantIDFromURI v) = false) l.
Proof.
  induction uris as [|v uris IH]; cbn [Mtls.tenantIDFromCert]; [split; [done|]; by intros ([|] & ? & ? & ? & _)|].
  destruct (Mtls.tenantIDFromURI v) as [id'|e] eqn:Ev.
  - split; [intros [= ->]; by exists [], v, uris|].
    intros ([|w l] & u & r & [= -> ->] & Hu & Hl); [congruence|]. apply Forall_cons in Hl as [Hw _].
    by rewrite Ev in Hw.
  - rewrite IH. split.
    + intros (l & u & r & -> & Hu & Hl). exists (v :: l), u, r. split_and!; [done..|]. constructor; [by rewrite Ev|done].
    + intros ([|w l] & u & r & [= -> ->] & Hu & Hl); [congruence|]. apply Forall_cons in Hl as [_ Hl].
      by exists l, u, r.
Qed.

(** ** Facts: the loop *)

Section LoopFacts.
Context `{!GoPlatform, !GoSort} `{!GoMapOrder} (A : Accessors).
Context (range_ : gmap Workloads.Ref WorkloadObservation → list WorkloadObservation).
Context (client : Egress.Client) (interval : Z).

Lemma detect_once_ids probe p : clusterID (detect_once probe p) = clusterID p.
Proof. unfold detect_once. destruct probe; [|done]. by destruct (classOnce p). Qed.

Lemma build_ids {E} p readers probe (scrape : option (list WorkloadObservation * option E)) b now fresh :
  let '(p', snap, _) := Build A p readers probe scrape b now fresh in
  clusterID p' = clusterID p ∧ BatchID snap = b ∧ SnapClusterID snap = clusterID p ∧
  CapturedAt snap = now ∧ Health snap = Some (mkHealthSnap (agentVersion p) (Z.quot fresh Second)).
Proof.
  unfold Build. destruct readers; [|done].
  assert (agentVersion (detect_once probe p) = agentVersion p).
  { unfold detect_once. destruct probe; [|done]. by destruct (classOnce p). }
  destruct scrape as [[[|] [|]]|]; cbn [Ingest.BatchID SnapClusterID CapturedAt Health]; by rewrite detect_once_ids.
Qed.

Lemma tick_ids t s :
  batch (tick_step A range_ client interval t s).1 = i64_add (batch s) 1 ∧
  clusterID (pop (tick_step A range_ client interval t s).1) = clusterID (pop s) ∧
  let snap := (tick_step A range_ client interval t s).2.1 in
  BatchID snap = batch_id (clusterID (pop s)) (i64_add (batch s) 1) ∧ SnapClusterID snap = clusterID (pop s) ∧
  CapturedAt snap = TNow t ∧
  (tick_step A range_ client interval t s).2.2 = Egress.PostSnapshot client (TPostNow t) snap (TSend t).
Proof.
  unfold tick_step, build_tick.
  match goal with |- context [Build A ?p ?r ?pr ?sc ?b ?n ?f] => pose proof (build_ids p r pr sc b n f) as Hb;
    destruct (Build A p r pr sc b n f) as [[p' snap] err] end.
  cbn. destruct Hb as (?&?&?&?&_). by split_and!.
Qed.

Lemma loop_lookup ticks : ∀ s i x, 0 <= batch s → batch s + Z.of_nat (length ticks) < 2^63 →
  runSnapshotLoop A range_ client interval ticks s !! i = Some x →
  ∃ t snap, ticks !! i = Some t ∧ x = (snap, Egress.PostSnapshot client (TPostNow t) snap (TSend t)) ∧
    BatchID snap = batch_id (clusterID (pop s)) (batch s + 1 + Z.of_nat i) ∧ SnapClusterID snap = clusterID (pop s).
Proof.
  induction ticks as [|t ticks IH]; intros s i x Hs Hb; [done|]. cbn [length] in Hb.
  assert (i64_add (batch s) 1 = batch s + 1) as Hn by (unfold i64_add; rewrite wrap64_id; unfold in_i64; lia).
  destruct (tick_ids t s) as (Hn1 & Hp1 & Hbat & Hcl & _ & Hres).
  cbn [runSnapshotLoop]. destruct (tick_step A range_ client interval t s) as [s' [snap res]]. cbn [fst snd] in *.
  rewrite Hn in *. destruct i as [|i].
  - intros [= <-]. exists t, snap. rewrite Hres, Hbat. cbn [Z.of_nat]. rewrite Z.add_0_r. done.
  - intros Hi. destruct (IH s' i x) as (t' & snap' & ? & -> & Hb' & Hc'); [lia..|done|].
    exists t', snap'. split_and!; [done..| |congruence]. rewrite Hb', Hn1, Hp1. f_equal. lia.
Qed.

(** No two ticks of a run send the same batch id. *)
Lemma batch_id_inj c n m : in_i64 n → in_i64 m → batch_id c n = batch_id c m → n = m.
Proof.
  intros Hn Hm E. unfold batch_id in E. apply sapp_inj, (sapp_inj "-") in E.
  apply (f_equal parse_int) in E. rewrite !parse_int_itoa in E by done. congruence.
Qed.
End LoopFacts.

(** ** Facts: from a tick to the sink *)

(** A post as the service gets it: under the tenant of the certificate, with the body read. *)
Definition serve (h : AgentSnapshotHandler) (now : Z) (tn : TenantContext) (body : result body_error AgentSnapshot)
    (p : Egress.post) : outcome :=
  Snapshot h now (mkRequest "POST" (WithContext None tn) (Egress.Token p) body).

Definition answer_of (o : outcome) : Egress.answer :=
  match o.1 with
  | Ok r => Egress.Answer 202 "" (Some r)
  | Err e => Egress.Answer (StatusCode e) (Code e) None
  end.

(** The body read back: its two ids are those of the snapshot, as JSON carries them. *)
Definition carries (snap got : AgentSnapshot) : Prop :=
  BatchID got = to_valid_utf8 (BatchID snap) ∧ SnapClusterID got = to_valid_utf8 (SnapClusterID snap).

(** The service's clock is at most half a minute behind the agent's, and the post arrives
    within the life of its token. *)
Definition in_window (now now' : Z) : Prop :=
  0 <= unix_seconds now < 2^62 ∧ 0 <= unix_seconds now' < 2^62 ∧
  unix_seconds now <= unix_seconds now' + 30 ∧ unix_seconds now' <= unix_seconds (now + Ident.MaxTTL) + 30.

Lemma extract_tenant peers tn : Mtls.ExtractTenant peers = Ok tn → TenantID tn ≠ "".
Proof.
  destruct peers as [|cert peers]; cbn [Mtls.ExtractTenant]; [done|].
  destruct (Mtls.tenantIDFromCert cert) as [id|] eqn:E; [|done]. intros [= <-].
  apply tenant_cert in E as (? & u & ? & _ & Hu & _). by apply tenant_uri in Hu as (_ & _ & _ & ? & _).
Qed.

Lemma new_client c client : Egress.New c None = Ok client →
  Egress.cfg client = c ∧ Egress.TenantID c ≠ "" ∧ Ident.NewIssuer (Egress.IngestSecret c) Ident.MaxTTL = Ok (Egress.issuer client).
Proof.
  unfold Egress.New. destruct (String.eqb_spec (Egress.BackendURL c) ""); [done|].
  destruct (String.eqb_spec (Egress.TenantID c) ""); [done|].
  destruct (Ident.NewIssuer _ _) as [i|] eqn:E; [|done]. by intros [= <-].
Qed.

Lemma prepare_token c client now snap : Egress.New c None = Ok client → Egress.marshals snap = true →
  ∃ tok, Ident.Issue (Egress.issuer client) now (Egress.TenantID c) (Egress.ClusterID c) (BatchID snap) AgentSnapshotAudience = Ok tok ∧
    tok ≠ "" ∧ Egress.prepare client now snap =
      Ok (Egress.mkPost (Egress.BackendURL c +:+ "/v1/agent/snapshot") tok ("optiqor-agent/" +:+ Egress.AgentVersion c) snap).
Proof.
  intros Hc Hm. apply new_client in Hc as (Hcfg & Ht & _). unfold Egress.prepare. rewrite Hm, Hcfg. cbn [negb].
  unfold Ident.Issue. rewrite (proj2 (String.eqb_neq _ _) Ht). cbn [orb]. rewrite (proj2 (String.eqb_neq AgentSnapshotAudience "")) by done.
  eexists. split; [done|]. split; [|done]. unfold seal. by destruct (encode _).
Qed.

Section Delivery.
Context `{!GoPlatform, !GoSort} `{!GoMapOrder} (A : Accessors).
Context (range_ : gmap Workloads.Ref WorkloadObservation → list WorkloadObservation).

Lemma batch_id_nonempty c n : to_valid_utf8 (batch_id c n) ≠ "".
Proof. apply to_valid_nonempty. unfold batch_id. by destruct c. Qed.

Lemma serve_posted c client key persist now now' tn snap got cluster p :
  Egress.New c None = Ok client → key = Egress.IngestSecret c →
  Egress.prepare client now snap = Ok p → carries snap got → in_window now now' → TenantID tn ≠ "" →
  SnapClusterID snap = cluster → Egress.ClusterID c = cluster → cluster ≠ "" → to_valid_utf8 (BatchID snap) ≠ "" →
  serve (mkHandler (Some key) (Some persist)) now' tn (Ok got) p =
  if String.eqb (to_valid_utf8 (Egress.TenantID c)) (TenantID tn)
  then let t := with_cluster tn (to_valid_utf8 cluster) in
       (if persist t got then Ok (reply got) else Err Internal, Some (t, got))
  else (Err Unauthorized, None).
Proof.
  intros Hc -> Hp [Hgb Hgc] (Hn & Hn' & Hw1 & Hw2) Htn Hs Hcl Hne Hb.
  destruct (Egress.marshals snap) eqn:Hm; [|by unfold Egress.prepare in Hp; rewrite Hm in Hp].
  destruct (prepare_token c client now snap Hc Hm) as (tok & Hiss & Htok & Hp').
  rewrite Hp' in Hp. injection Hp as <-. apply new_client in Hc as (_ & _ & Hnew).
  destruct (Ident.verify_issued _ _ now now' _ _ _ _ _ AgentSnapshotAudience tok Hnew Hiss) as (_ & _ & Hv);
    [by right; vm_compute|done..|].
  rewrite (proj2 (Z.ltb_ge _ _) Hw1), (proj2 (Z.ltb_ge _ _) Hw2) in Hv.
  unfold serve, Snapshot. cbn [Method Ctx TokenHeader Body Egress.Token String.eqb negb Ascii.eqb Bool.eqb].
  rewrite from_with_context. unfold string_eqb. rewrite (proj2 (String.eqb_neq _ _) Htn).
  rewrite (proj2 (String.eqb_neq _ _) Htok). cbn [Verifier]. rewrite Hv.
  cbn [Ident.as_read Ident.TenantID Ident.ClusterID Sink]. destruct (String.eqb _ (TenantID tn)); cbn [negb]; [|done].
  assert (to_valid_utf8 cluster ≠ "") as Hcv by by apply to_valid_nonempty.
  rewrite Hgb, Hgc, Hs, Hcl, (proj2 (String.eqb_neq _ _) Hcv), (proj2 (String.eqb_neq _ _) Hb), String.eqb_refl. done.
Qed.
End Delivery.

Lemma run_length `{!GoPlatform, !GoSort} `{!GoMapOrder} A range_ client interval ticks : ∀ s,
  length (runSnapshotLoop A range_ client interval ticks s) = length ticks.
Proof. induction ticks as [|t ticks IH]; intros s; [done|]. cbn [runSnapshotLoop length]. by rewrite IH. Qed.

(** C15 A run of the agent, from its ticks to the service's sink. Every tick posts once and the
    loop goes on whatever happens; the i-th snapshot carries the i-th batch id of the cluster.
    One that JSON cannot hold is dropped before it is sent. Any other is sent with a token
    that the service accepts until the token's lifetime ends: posted under the certificate of
    the agent's own tenant it reaches the sink under that tenant and the agent's cluster, and
    if the sink keeps it the agent learns the counts of what was kept; under the certificate
    of any other tenant it is refused and the sink is not called. *)
Theorem agent_run_delivers `{!GoPlatform, !GoSort} `{!GoMapOrder} (A : Accessors)
    (range_ : gmap Workloads.Ref WorkloadObservation → list WorkloadObservation)
    (c : Egress.Config) (client : Egress.Client) (interval : Z) (peers : list (list (option Mtls.URL)))
    (tn : TenantContext) (persist : TenantContext → AgentSnapshot → bool) (p0 : populator) (ticks : list tick) :
  Egress.New c None = Ok client → Mtls.ExtractTenant peers = Ok tn →
  Egress.ClusterID c = clusterID p0 → clusterID p0 ≠ "" → Z.of_nat (length ticks) < 2^63 →
  let run := runSnapshotLoop A range_ client interval ticks (mkLoop 0 p0 ∅) in
  length run = length ticks ∧
  ∀ i t snap res, ticks !! i = Some t → run !! i = Some (snap, res) →
    BatchID snap = batch_id (clusterID p0) (1 + Z.of_nat i) ∧
    (Egress.marshals snap = false → res = Err Egress.ErrMarshal) ∧
    (Egress.marshals snap = true → ∃ p, Egress.prepare client (TPostNow t) snap = Ok p ∧
      ∀ got now', carries snap got → in_window (TPostNow t) now' →
        let o := serve (mkHandler (Some (Egress.IngestSecret c)) (Some persist)) now' tn (Ok got) p in
        let tn' := with_cluster tn (to_valid_utf8 (clusterID p0)) in
        (to_valid_utf8 (Egress.TenantID c) = TenantID tn → o.2 = Some (tn', got) ∧
           (persist tn' got = true → TSend t p = answer_of o → res = Ok (reply got))) ∧
        (to_valid_utf8 (Egress.TenantID c) ≠ TenantID tn → o = (Err Unauthorized, None))).
Proof.
  intros Hc Htn Hcl Hne Hlen run. split; [apply run_length|]. intros i t snap res Ht Hi.
  destruct (loop_lookup A range_ client interval ticks (mkLoop 0 p0 ∅) i _ (Z.le_refl 0) Hlen Hi)
    as (t' & snap' & Ht' & [= <- ->] & Hb & Hcs). rewrite Ht in Ht'. injection Ht' as <-.
  cbn [batch pop] in *. split; [done|]. unfold Egress.PostSnapshot. split.
  - intros Hm. unfold Egress.prepare. by rewrite Hm.
  - intros Hm. destruct (prepare_token c client (TPostNow t) snap Hc Hm) as (tok & _ & _ & Hp).
    rewrite Hp. eexists. split; [done|]. intros got now' Hgot Hw. cbn zeta.
    rewrite (serve_posted c client _ persist (TPostNow t) now' tn snap got (clusterID p0) _ Hc eq_refl Hp Hgot Hw
      (extract_tenant _ _ Htn) Hcs Hcl Hne) by (rewrite Hb; apply batch_id_nonempty).
    split.
    + intros ->. rewrite String.eqb_refl. cbn zeta. split; [done|]. intros Hk. rewrite Hk. cbn [rbind]. by intros ->.
    + intros Hd. by rewrite (proj2 (String.eqb_neq _ _) Hd).
Qed.

(** One tick of an agent without caches, a Prometheus that failed, and the service's answer. *)
Definition demo_config : Egress.Config :=
  Egress.mkConfig "https://api.optiqor.dev" "t-1" "c-1" "dev" Ident.demo_secret.
Definition demo_peers : list (list (option Mtls.URL)) :=
  [[None; Some (Mtls.mkURL "spiffe" "OPTIQOR.dev" "/tenant/t-1")]].
Definition demo_pop : populator := mkPopulator "c-1" "dev" (10 * Minute) false None.
Definition demo_snap : AgentSnapshot :=
  Ingest.mkSnapshot "c-1-1" Ident.demo_now "c-1" "dev" [] [] [] [] [] "" [] (Some (mkHealthSnap "dev" 60)).
Definition demo_tenant : TenantContext := mkTenant "t-1" "" "" "".
Definition demo_answer (p : Egress.post) : Egress.answer :=
  answer_of (serve (mkHandler (Some Ident.demo_secret) (Some (λ _ _, true))) (Ident.demo_now + Minute) demo_tenant (Ok demo_snap) p).
Definition demo_tick : tick := mkTick Ident.demo_now None None None 0 (Ident.demo_now + Second) demo_answer.
Definition no_accessors : Accessors := mkAccessors (λ _ _, "") (λ _ _, []) (λ _ _, None) (λ _ _, 0).

Lemma agent_run_delivers_witness : ∃ client, Egress.New demo_config None = Ok client ∧
  @runSnapshotLoop amd64 stable_GoSort canonical_order no_accessors (λ m, (map_to_list m).*2) client Minute
    [demo_tick] (mkLoop 0 demo_pop ∅) = [(demo_snap, Ok (reply demo_snap))].
Proof.
  destruct (Egress.New demo_config None) as [client|] eqn:Ec; [|discriminate Ec]. exists client. split; [done|].
  destruct (@agent_run_delivers amd64 stable_GoSort canonical_order no_accessors (λ m, (map_to_list m).*2)
    demo_config client Minute demo_peers demo_tenant (λ _ _, true) demo_pop [demo_tick] Ec eq_refl eq_refl)
    as [_ H]; [done..|]. cbn [runSnapshotLoop tick_step] in *.
  destruct (H 0%nat demo_tick demo_snap _ eq_refl eq_refl) as (_ & _ & Hs).
  destruct (Hs eq_refl) as (p & Hp & Hgot).
  destruct (Hgot demo_snap (Ident.demo_now + Minute)) as [Hsame _]; [by vm_compute|by vm_compute|].
  destruct (Hsame eq_refl) as [_ Hres]. rewrite <-(Hres eq_refl eq_refl). reflexivity.
Defined.

(** The sink is all or nothing, and touches nothing of another tenant: with an error the
    tables are as they were; otherwise the agent's row is the snapshot's, its cluster has the
    class the snapshot names, if it names one and the cluster is the tenant's, and every other
    row of either table is as it was. *)
Lemma persist_isolated pool uuid fails now t snap d :
  let '(r, d') := PgSink.Persist pool uuid fails now t snap d in
  match r with
  | Err _ => d' = d
  | Ok _ => TenantID t ≠ "" ∧ ∃ id, uuid (SnapClusterID snap) = Some id ∧
      (∃ row, PgSink.agents d' = <[(TenantID t, id) := row]> (PgSink.agents d) ∧
        PgSink.Status row = PgSink.classifyStatus snap ∧ PgSink.Version row = AgentVersion snap) ∧
      ∀ cl owner class, PgSink.clusters d !! cl = Some (owner, class) →
        PgSink.clusters d' !! cl = Some (owner,
          if bool_decide (owner = TenantID t ∧ cl = id ∧ ProvisionerClass snap ≠ "")
          then Some (ProvisionerClass snap) else class)
  end.
Proof.
  unfold PgSink.Persist. destruct pool; cbn [negb]; [|done].
  destruct (TenantContext_Validate t) eqn:Ev; [done|]. apply validate_iff in Ev.
  do 2 (case_bool_decide; [done|]). destruct (String.eqb (SnapClusterID snap) ""); [done|].
  destruct (uuid (SnapClusterID snap)) as [id|] eqn:Eu; [|done]. case_bool_decide; [done|].
  destruct (String.eqb_spec (ProvisionerClass snap) "") as [Hc|Hc]; cbn [negb andb];
    [|case_bool_decide; [done|]]; (case_bool_decide; [done|]); (split; [done|]); exists id; (split; [done|]);
    (split; [by eexists|]); cbn [PgSink.clusters PgSink.upsert PgSink.update_class]; intros cl owner class Hcl.
  - by rewrite bool_decide_false by naive_solver.
  - destruct (decide (cl = id)) as [->|Hid].
    + rewrite lookup_alter_eq, Hcl. cbn [fmap option_fmap option_map fst].
      destruct (String.eqb_spec owner (TenantID t)) as [->|Ho]; [by rewrite bool_decide_true by done|].
      by rewrite bool_decide_false by naive_solver.
    + rewrite lookup_alter_ne by done. by rewrite bool_decide_false by naive_solver.
Qed.

(** What the sink makes of a snapshot's freshness: the agent sends its own interval, so the
    status says how often it sends, never how old its data is. *)
Lemma status_is_interval `{!GoPlatform} `{!GoMapOrder} A {E} p readers probe
    (scrape : option (list WorkloadObservation * option E)) b now interval :
  PgSink.classifyStatus (Build A p readers probe scrape b now interval).1.2 =
    if 6 * 3600 <? Z.quot interval Second then "offline"
    else if 60 * 60 <? Z.quot interval Second then "degraded" else "healthy".
Proof.
  pose proof (build_ids A p readers probe scrape b now interval) as Hb.
  destruct (Build A p readers probe scrape b now interval) as [[p' snap] err].
  destruct Hb as (_ & _ & _ & _ & Hh). unfold PgSink.classifyStatus. cbn [fst snd]. by rewrite Hh.
Qed.

(** The class is asked for in the first tick with a probe; whatever later probes would say, it
    stays - also when that first question failed and the class is unknown. *)
Lemma class_asked_once `{!GoPlatform} `{!GoMapOrder} A {E E'} p r r' probe probe' (s : option (list WorkloadObservation * option E))
    (s' : option (list WorkloadObservation * option E')) b b' now now' i :
  let '(p1, snap1, _) := Build A p (Some r) (Some probe) s b now i in
  ProvisionerClass (Build A p1 (Some r') (Some probe') s' b' now' i).1.2 = ProvisionerClass snap1.
Proof.
  unfold Build, detect_once. destruct (classOnce p) eqn:Eo; destruct s as [[[|] [|]]|], s' as [[[|] [|]]|]; cbn;
    rewrite ?Eo; cbn; done.
Qed.

Definition nan_text : string := "[{" +:+ quoted "metric" +:+ ":{" +:+ quoted "namespace" +:+ ":" +:+ quoted "shop" +:+ "," +:+
  quoted "pod" +:+ ":" +:+ quoted "web-1" +:+ "}," +:+ quoted "value" +:+ ":[0," +:+ quoted "NaN" +:+ "]}]".
Definition nan_answer : string :=
  "{" +:+ quoted "status" +:+ ":" +:+ quoted "success" +:+ "," +:+ quoted "data" +:+ ":{" +:+ quoted "result" +:+ ":" +:+ nan_text +:+ "}}".

(** One sample that is not a number is read, summed and put in the snapshot, which JSON then
    refuses: nothing of the tick is sent. *)
Lemma nan_drops_tick :
  let query q at_ := if String.eqb q CPURate then @parseInstant amd64 nan_answer else Ok [] in
  let s := @Scrape amd64 stable_GoSort (λ m, (map_to_list m).*2) query_error (Some query) DefaultProfile Ident.demo_now
    {[("shop", "web-1") := Workloads.mkRef "shop" "Deployment" "web"]} in
  let snap := (@Build amd64 canonical_order no_accessors query_error demo_pop
    (Some (mkReaders None None None None None)) None (Some s) "c-1-1" Ident.demo_now Minute).1.2 in
  length (PromSamples snap) = 1%nat ∧ Egress.marshals snap = false.
Proof. vm_compute. by split. Qed.
