(* ===== verification/JsonOut.v ===== *)
(** Go's [json.Marshal] of whole trees, numbers included, and what reading the text back into
    an [any] gives: the encoder of the share hash (internal/share/share.go) and of the
    sandbox's answers (backend/internal/sandbox/sandbox.go), with the JSON form of findings
    (pkg/rules/types.go). *)

From Stdlib Require Import Ascii QArith Qround.
From S2P Require Import Prelude GoNum GoStr Lines Utf8 Json Rules.
Local Open Scope Z_scope.

(** An object lists its members in the order they are written. *)
Inductive jvalue :=
  | ONull
  | OBool (b : bool)
  | OInt (z : Z)
  | ONum (x : float64)
  | OText (s : string)
  | OArr (l : list jvalue)
  | OObj (l : list (string * jvalue)).

(** ** The shortest decimal of a float *)

(** The power of ten above [q]: [10^(k-1) <= q < 10^k]. *)
Fixpoint leading (fuel : nat) (q : Q) (k : Z) : Z :=
  match fuel with
  | O => k
  | S fuel => if Qle_bool 1 q then k + Z.of_nat (String.length (itoa (Qfloor q))) else leading fuel (q * 10)%Q (k - 1)
  end.

(** The value of the digits [d] with the decimal exponent [e]. *)
Definition decimal (d e : Z) : Q := scale10 d e.

(** Of the two decimals of [n] digits around [q], the nearer one that reads as [x] again. *)
Definition with_digits (x : float64) (q : Q) (k : Z) (n : nat) : option Z :=
  let e := k - Z.of_nat n in
  let lo := Qfloor (q / decimal 1 e) in
  let reads d := bool_decide (round64 false (decimal d e) = x) in
  let nearer_hi := negb (Qle_bool (q - decimal lo e)%Q (decimal (lo + 1) e - q)%Q) in
  if reads lo && reads (lo + 1) then Some (if nearer_hi then lo + 1 else lo)
  else if reads lo then Some lo
  else if reads (lo + 1) then Some (lo + 1)
  else None.

Fixpoint first_digits (x : float64) (q : Q) (k : Z) (n fuel : nat) : option (Z * Z) :=
  match fuel with
  | O => None
  | S fuel =>
      match with_digits x q k n with
      | Some d => Some (if d =? 10 ^ Z.of_nat n then (1, k + 1) else (d, k))
      | None => first_digits x q k (S n) fuel
      end
  end.

(** Digits and the place of the point; seventeen digits always do. *)
Definition shortest (x : float64) (q : Q) : option (Z * Z) := first_digits x q (leading 400 q 0) 1 17.

Definition fmt_f (ds : string) (k : Z) : string :=
  let n := Z.of_nat (String.length ds) in
  if k <=? 0 then "0." +:+ zeros (Z.to_nat (- k)) +:+ ds
  else if n <=? k then ds +:+ zeros (Z.to_nat (k - n))
  else str_take (Z.to_nat k) ds +:+ "." +:+ str_drop (Z.to_nat k) ds.

(** The exponent has two digits when positive and is cut to one when negative. *)
Definition fmt_e (ds : string) (k : Z) : string :=
  let e := k - 1 in
  let mant := match ds with
    | String d EmptyString => String d ""
    | String d rest => String d ("." +:+ rest)
    | EmptyString => "" end in
  mant +:+ "e" +:+ (if e <? 0 then "-" +:+ itoa (- e) else "+" +:+ pad_left 2 (itoa e)).

(** [floatEncoder]; a number that is not finite is an error. *)
Definition encode_float (x : float64) : option string :=
  match x with
  | F_fin neg m e =>
      let sign := if neg then "-" else "" in
      if m =? 0 then Some (sign +:+ "0")
      else
        let q := (inject_Z m * pow2 e)%Q in
        let y := F_fin false m e in
        match shortest y q with
        | None => None
        | Some (d, k) =>
            let exp := f_lt y (f_const (1 # 1000000)) || f_le (f_of_Z (10 ^ 21)) y in
            Some (sign +:+ (if exp then fmt_e (itoa d) k else fmt_f (itoa d) k))
        end
  | _ => None
  end.

(** ** Marshal *)

Fixpoint marshal (v : jvalue) : option string :=
  match v with
  | ONull => Some "null"
  | OBool b => Some (if b then "true" else "false")
  | OInt z => Some (itoa z)
  | ONum x => encode_float x
  | OText s => Some (quote true s)
  | OArr l => option_map (λ ss, "[" +:+ join "," ss +:+ "]") (mapM marshal l)
  | OObj l =>
      option_map (λ ss, "{" +:+ join "," ss +:+ "}")
        (mapM (λ kv, option_map (λ s, quote true kv.1 +:+ ":" +:+ s) (marshal kv.2)) l)
  end.

(** [Encoder.SetIndent] with two spaces: the same text with its members on lines of their own. *)
Definition newline : string := String (ascii_of_N 10) "".

Fixpoint pretty (indent : string) (v : jvalue) {struct v} : option string :=
  let inner := newline +:+ indent +:+ "  " in
  let wrap (open close : string) (ss : list string) :=
    match ss with [] => open +:+ close | _ => open +:+ inner +:+ join ("," +:+ inner) ss +:+ newline +:+ indent +:+ close end in
  match v with
  | OArr l => option_map (wrap "[" "]") (mapM (pretty (indent +:+ "  ")) l)
  | OObj l =>
      option_map (wrap "{" "}")
        (mapM (λ kv, option_map (λ s, quote true kv.1 +:+ ": " +:+ s) (pretty (indent +:+ "  ") kv.2)) l)
  | v => marshal v
  end.

(** [Encoder.Encode] ends the text with a newline. *)
Definition encode_pretty (v : jvalue) : option string := option_map (λ s, s +:+ newline) (pretty "" v).

(** Reading back into an [any]: text with its invalid bytes replaced, every number a float,
    an object a map - whose keys a later [Marshal] sorts. *)
Definition key_less (a b : string * jvalue) : bool := String.ltb a.1 b.1.

Fixpoint reread (v : jvalue) : jvalue :=
  match v with
  | OInt z => ONum (f_of_Z z)
  | OText s => OText (to_valid_utf8 s)
  | OArr l => OArr (map reread l)
  | OObj l => OObj (sort_stable key_less (map (λ kv, (to_valid_utf8 kv.1, reread kv.2)) l))
  | _ => v
  end.

(** ** Findings *)

Definition omitempty (name s : string) : list (string * jvalue) :=
  if String.eqb s "" then [] else [(name, OText s)].

Definition signal_json (s : Signal) : jvalue :=
  OObj ([("label", OText (Label s)); ("have", ONum (Have s)); ("want", ONum (Want s));
         ("have_display", OText (HaveDisplay s)); ("want_display", OText (WantDisplay s))] ++ omitempty "note" (SigNote s)).

Definition finding_json (f : Finding) : jvalue :=
  OObj [("DetectorID", OText (DetectorID f)); ("Workload", OText (FWorkload f)); ("Title", OText (Title f));
        ("Detail", OText (Detail f)); ("MonthlyUSDCents", OInt (MonthlyUSDCents f)); ("Severity", OText (FSeverity f));
        ("Confidence", OText (FConfidence f)); ("Category", OText (FCategory f));
        ("Signal", match FSignal f with None => ONull | Some s => signal_json s end)].

Definition findings_json (l : list Finding) : jvalue := OArr (map finding_json l).

(** ** Facts *)

Example encode_float_forms :
  map (λ x, encode_float (f_const x)) [0; 1; 1 # 2; 1 # 10; - (12345 # 100); 100 # 3; 1 # 10000000]%Q =
    map Some ["0"; "1"; "0.5"; "0.1"; "-123.45"; "33.333333333333336"; "1e-7"] ∧
  encode_float (f_of_Z (10 ^ 21)) = Some "1e+21" ∧ encode_float (f_of_Z 123456789012) = Some "123456789012" ∧
  encode_float (F_fin false 1 (-1074)) = Some "5e-324" ∧ encode_float (f_const (2 ^ (-44))%Q) = Some "5.684341886080802e-14".
Proof. by vm_compute. Qed.
