(* ===== verification/Share.v ===== *)
(** The share link of a report (internal/share/share.go and emitShareURL of
    cmd/optiqor/main.go): what of the report is kept, its hash, and the one call the CLI ever
    makes. The transport is the answer the upload is given. *)

From Stdlib Require Import Ascii.
From S2P Require Import Prelude GoNum GoStr Lines Utf8 Json Rules Analyze Sha256 Render JsonOut.
Local Open Scope Z_scope.

Definition BaseURL : string := "https://optiqor.dev/r/".
Definition HashLen : nat := 12.
Definition UploadEndpoint : string := "https://sandbox.optiqor.dev/api/v1/share".

(** ** Objects read back: each key once *)

Fixpoint member (k : string) (l : list (string * jvalue)) : option jvalue :=
  match l with
  | [] => None
  | (k', v) :: l => if String.eqb k' k then Some v else member k l
  end.

Definition set_member (k : string) (v : jvalue) (l : list (string * jvalue)) : list (string * jvalue) :=
  map (λ kv, if String.eqb kv.1 k then (kv.1, v) else kv) l.

(** ** Sanitise *)

Definition clip_detail (f : jvalue) : jvalue :=
  match f with
  | OObj fm =>
      match member "Detail" fm with
      | Some (OText d) =>
          if (256 <? String.length d)%nat then OObj (set_member "Detail" (OText (str_take 256 d +:+ "…")) fm) else f
      | _ => f
      end
  | _ => f
  end.

Definition clip_findings (doc : list (string * jvalue)) : list (string * jvalue) :=
  match member "findings" doc with
  | Some (OArr fs) => set_member "findings" (OArr (map clip_detail fs)) doc
  | _ => doc
  end.

Inductive share_error := ErrMarshal | ErrUnmarshal.

(** The report goes through its JSON into a map. *)
Definition Sanitise (report : jvalue) : result share_error jvalue :=
  match marshal report with
  | None => Err ErrMarshal
  | Some _ =>
      match reread report with
      | ONull => Ok ONull
      | OObj doc => Ok (OObj (clip_findings (set_member "source" (OText "(redacted)") doc)))
      | _ => Err ErrUnmarshal
      end
  end.

Definition canonicalJSON (v : jvalue) : result share_error string :=
  match marshal v with
  | None => Err ErrMarshal
  | Some _ => match marshal (reread v) with None => Err ErrMarshal | Some s => Ok s end
  end.

(** ** Hash *)

Definition Hash (report : jvalue) : result share_error string :=
  let* sanitised := Sanitise report in
  let* canonical := canonicalJSON sanitised in
  Ok (str_take HashLen (hex (sha256 canonical))).

Definition URL (report : jvalue) : result share_error string :=
  let* h := Hash report in Ok (BaseURL +:+ h).

Definition hex_lower (c : ascii) : bool := is_digit c || ((97 <=? byte_val c) && (byte_val c <=? 102)).

Definition IsHash (s : string) : bool :=
  (String.length s =? HashLen)%nat && str_all hex_lower (str_map ascii_lower s).

(** ** Upload *)

Inductive upload_error := UErr (e : share_error) | URequest (e : string) | UTransport (e : string) | URejected (status : Z).

Record UploadResult := mkUpload { UHash : string; UURL : string; Posted : bool; UError : option upload_error }.

(** What the request would be, and how it went: no request, no connection, or a status. *)
Record upload_request := mkUploadRequest { Endpoint : string; HashHeader : string; UBody : string }.
Inductive upload_answer := NoRequest (e : string) | NoConnection (e : string) | Status (n : Z).

Definition Upload (report : jvalue) (endpoint : string) (send : upload_request → upload_answer) :
    UploadResult * option upload_request :=
  match Hash report with
  | Err e => (mkUpload "" "" false (Some (UErr e)), None)
  | Ok hash =>
      let url := BaseURL +:+ hash in
      let endpoint := if String.eqb endpoint "" then UploadEndpoint else endpoint in
      match (let* s := Sanitise report in canonicalJSON s) with
      | Err e => (mkUpload hash url false (Some (UErr e)), None)
      | Ok body =>
          let req := mkUploadRequest endpoint hash body in
          match send req with
          | NoRequest e => (mkUpload hash url false (Some (URequest e)), None)
          | NoConnection e => (mkUpload hash url false (Some (UTransport e)), Some req)
          | Status n =>
              if (n <? 200) || (300 <=? n) then (mkUpload hash url false (Some (URejected n)), Some req)
              else (mkUpload hash url true None, Some req)
          end
      end
  end.

(** ** The CLI *)

Definition report_json (r : Report) : jvalue :=
  OObj [("source", OText (Source r)); ("workloads_analyzed", OInt (Workloads r)); ("findings", findings_json (Findings r))].

(** The JSON the CLI prints ([JSON] of internal/render/text.go). *)
Definition output_json (r : Report) : jvalue :=
  let '(cost, security) := splitByCategory (Findings r) in
  let cents := MonthlySavingsUSDCents r in
  OObj [("accuracy_disclosure", OText AccuracyDisclosure); ("source", OText (Source r));
        ("workloads_analyzed", OInt (Workloads r)); ("findings", findings_json (Findings r));
        ("cost_findings", findings_json cost); ("security_findings_bonus", findings_json security);
        ("monthly_savings_usd", ONum (f_div (f_of_Z cents) (f_of_Z 100)));
        ("annual_savings_usd", ONum (f_div (f_of_Z (i64_mul cents monthsPerYear)) (f_of_Z 100)))].

Definition JSON (r : Report) : option string := encode_pretty (output_json r).

(** The line on stderr, with how the upload ended. *)
Definition emitShareURL (rep : Report) (endpoint : string) (send : upload_request → upload_answer)
    (message : upload_error → string) : option string * option upload_request :=
  let '(res, req) := Upload (report_json rep) endpoint send in
  (if String.eqb (UHash res) "" then None
   else Some ("share URL: " +:+ UURL res +:+
     (if Posted res then " (uploaded)"
      else match UError res with
           | Some e => " (offline / not uploaded — " +:+ message e +:+ ")"
           | None => "" end)), req).

(** ** Facts *)

Lemma hex_byte_lower c : hex_lower (hex_digit (byte_val c / 16)) = true ∧ hex_lower (hex_digit (byte_val c mod 16)) = true.
Proof. all_bytes c; done. Qed.

Lemma hex_length s : String.length (hex s) = (2 * String.length s)%nat.
Proof. induction s as [|c s IH]; [done|]. cbn [hex String.length]. rewrite IH. lia. Qed.

Lemma hex_all_lower s : str_all hex_lower (hex s) = true.
Proof.
  induction s as [|c s IH]; [done|]. cbn [hex str_all]. destruct (hex_byte_lower c) as [-> ->]. done.
Qed.

Lemma lower_hex c : hex_lower c = true → ascii_lower c = c.
Proof. all_bytes c; first [discriminate|done]. Qed.

Lemma str_all_take P n s : str_all P s = true → str_all P (str_take n s) = true.
Proof.
  revert n. induction s as [|c s IH]; intros [|n]; [done..|]. cbn [str_take str_all]. intros [-> Hs]%andb_prop. by apply IH.
Qed.

(** Twelve lower-case hexadecimal digits. *)
Lemma hex_prefix_IsHash s : (6 <= String.length s)%nat → IsHash (str_take HashLen (hex s)) = true.
Proof.
  intros Hs. unfold IsHash. rewrite str_take_length, hex_length, Nat.min_l by (unfold HashLen; lia).
  rewrite Nat.eqb_refl. cbn [andb]. pose proof (str_all_take hex_lower HashLen (hex s) (hex_all_lower s)) as Ha.
  revert Ha. generalize (str_take HashLen (hex s)). induction s0 as [|c t IH]; [done|].
  cbn [str_all str_map]. intros [Hc Ht]%andb_prop. by rewrite (lower_hex c Hc), Hc, IH.
Qed.

Lemma sha256_length msg : String.length (sha256 msg) = 32%nat.
Proof. unfold sha256. by rewrite of_bytes_length, sha256_bytes_length. Qed.

Lemma hash_is_hash report h : Hash report = Ok h → IsHash h = true.
Proof.
  unfold Hash. destruct (Sanitise report) as [v|]; [|done]. cbn [rbind]. destruct (canonicalJSON v) as [c|]; [|done].
  cbn [rbind]. intros [= <-]. apply hex_prefix_IsHash. rewrite sha256_length. lia.
Qed.

Definition from (source : string) (r : Report) : Report :=
  {| Source := source; Workloads := Workloads r; Findings := Findings r |}.

Lemma report_reread r : reread (report_json r) =
  OObj [("findings", reread (findings_json (Findings r))); ("source", OText (to_valid_utf8 (Source r)));
        ("workloads_analyzed", ONum (f_of_Z (Workloads r)))].
Proof. reflexivity. Qed.

Lemma report_marshals r : is_Some (marshal (report_json r)) ↔ is_Some (marshal (findings_json (Findings r))).
Proof.
  unfold report_json. generalize (findings_json (Findings r)). intros f. cbn [marshal mapM mbind option_bind mret option_ret option_map fst snd]. destruct (marshal f); split; intros [? ?]; try done; eauto.
Qed.

(** What is kept of a report: its findings, their details cut, and its counts. *)
Lemma sanitise_report r : Sanitise (report_json r) =
  match marshal (findings_json (Findings r)) with
  | None => Err ErrMarshal
  | Some _ => Ok (OObj [("findings", match reread (findings_json (Findings r)) with
                                     | OArr fs => OArr (map clip_detail fs) | v => v end);
                        ("source", OText "(redacted)"); ("workloads_analyzed", ONum (f_of_Z (Workloads r)))])
  end.
Proof.
  unfold Sanitise. rewrite report_reread. pose proof (report_marshals r) as [Hm1 Hm2].
  destruct (marshal (report_json r)) eqn:E1, (marshal (findings_json (Findings r))) eqn:E2; try done.
  - destruct Hm1 as [? ?]; eauto; congruence.
  - destruct Hm2 as [? ?]; eauto; congruence.
Qed.

(** C17 What leaves the machine with --share says nothing of where the report came from. The
    request - its address, its hash, its body -, the result and the line that is printed are
    the same for every source path; a request is made only for a report that has a JSON form,
    and the link is then the public prefix and twelve lower-case hexadecimal digits. *)
Theorem share_private (r : Report) (path endpoint : string) (send : upload_request → upload_answer)
    (message : upload_error → string) :
  emitShareURL (from path r) endpoint send message = emitShareURL r endpoint send message ∧
  ∀ req, (emitShareURL r endpoint send message).2 = Some req →
    Hash (report_json r) = Ok (HashHeader req) ∧ IsHash (HashHeader req) = true ∧
    Endpoint req ≠ "" ∧ ∃ suffix, (emitShareURL r endpoint send message).1 =
      Some ("share URL: " +:+ BaseURL +:+ HashHeader req +:+ suffix).
Proof.
  split.
  - unfold emitShareURL, Upload, Hash. by rewrite !sanitise_report.
  - unfold emitShareURL, Upload. destruct (Hash (report_json r)) as [h|] eqn:Eh; [|done].
    pose proof (hash_is_hash _ _ Eh) as Hh.
    destruct (let* s := Sanitise (report_json r) in canonicalJSON s) as [body|]; [|done].
    set (rq := mkUploadRequest _ _ _). assert (h ≠ "") as Hne by by intros ->.
    assert (Endpoint rq ≠ "") as Hep by (cbn; destruct (String.eqb_spec endpoint ""); done).
    assert (∀ req' url, Some rq = Some req' → url = BaseURL +:+ h → ∀ suffix,
      Ok (E := share_error) h = Ok (HashHeader req') ∧ IsHash (HashHeader req') = true ∧ Endpoint req' ≠ "" ∧
      ∃ suffix', Some ("share URL: " +:+ url +:+ suffix) = Some ("share URL: " +:+ BaseURL +:+ HashHeader req' +:+ suffix'))
      as Hdone.
    { intros req' url [= <-] -> suffix. split_and!; [done..|]. exists suffix. by rewrite <-!sapp_assoc. }
    intros req. destruct (send rq) as [e|e|n]; cbn [fst snd UHash UURL Posted UError];
      [done|..|destruct (_ || _); cbn [fst snd UHash UURL Posted UError]];
      rewrite (proj2 (String.eqb_neq _ _) Hne); cbn [fst snd]; intros Hreq; by apply Hdone.
Qed.
