(* ===== verification/Sandbox.v ===== *)
(** The public sandbox (backend/internal/sandbox): a values file is analysed, the answer is
    kept under the hash of the file for thirty days and served again from the share link.
    The two stores, in memory (store.go) and in Postgres (pg_store.go), implement one
    interface, against which the endpoints of sandbox.go are verified. *)

From Stdlib Require Import Ascii.
From S2P Require Import Prelude GoNum GoStr Lines Utf8 GoTime Json Token Ingest Cost Helm Rules AllRules Analyze Sha256 Render JsonOut Share.
Local Open Scope Z_scope.

Definition ShareTTL : Z := 30 * 24 * Hour.

(** ** Stores *)

Record SharedAnalysis := mkShared {
  SHash : string; SBody : string; SMediaType : string; SSource : string; SWorkloads : Z;
  SFindings : list Finding; SCreatedAt : Z; SExpiresAt : Z }.

Inductive get_error := ErrNotFound | ErrExpired | ErrStore.
Inductive put_error := ErrEmptyHash | ErrSource | ErrNoExpiry | ErrFindings | ErrExec.

(** What the endpoints rely on. [stored] is what a store holds under a hash: reading answers
    from it, by its expiry alone, and changes nothing of it; a write that succeeds changes it
    for the hash it writes alone, leaves the entry alive as long as it was asked to, and keeps
    the entry whole where there was none. *)
Class ShareStore (S : Type) := {
  Put : SharedAnalysis → S → result put_error S;
  Get : Z → string → S → result get_error SharedAnalysis * S;
  stored : S → string → option SharedAnalysis;
  up : S → bool;
  get_spec now h s : up s = true → h ≠ "" → (Get now h s).1 =
    match stored s h with
    | None => Err ErrNotFound
    | Some sa => if negb (time_IsZero (SExpiresAt sa)) && time_after now (SExpiresAt sa) then Err ErrExpired else Ok sa
    end;
  get_keeps now h s : up (Get now h s).2 = up s ∧ ∀ h', stored (Get now h s).2 h' = stored s h';
  put_spec sa s s' : Put sa s = Ok s' → up s' = up s ∧ SHash sa ≠ "" ∧
    (∀ h, h ≠ SHash sa → stored s' h = stored s h) ∧
    ∃ kept, stored s' (SHash sa) = Some kept ∧ SHash kept = SHash sa ∧ SExpiresAt kept = SExpiresAt sa ∧
      (stored s (SHash sa) = None → SBody kept = SBody sa ∧ SMediaType kept =
         (if String.eqb (SMediaType sa) "" then SMediaType kept else SMediaType sa));
  put_ok sa s : up s = true → SHash sa ≠ "" → SSource sa = "sandbox" → SExpiresAt sa ≠ 0 →
    is_Some (marshal (findings_json (SFindings sa))) → ∃ s', Put sa s = Ok s';
}.

(** The map of the process, whose lock makes each call one step. *)
Module Memory.
Definition InMemoryStore : Type := gmap string SharedAnalysis.
Definition NewInMemoryStore : InMemoryStore := ∅.

Definition Put (sa : SharedAnalysis) (m : InMemoryStore) : result put_error InMemoryStore :=
  if String.eqb (SHash sa) "" then Err ErrEmptyHash else Ok (<[SHash sa := sa]> m).

Definition Get (now : Z) (hash : string) (m : InMemoryStore) : result get_error SharedAnalysis :=
  match m !! hash with
  | None => Err ErrNotFound
  | Some sa => if negb (time_IsZero (SExpiresAt sa)) && time_after now (SExpiresAt sa) then Err ErrExpired else Ok sa
  end.

Definition Len (m : InMemoryStore) : Z := Z.of_nat (size m).

#[global] Program Instance store : ShareStore InMemoryStore := {
  Sandbox.Put := Put;
  Sandbox.Get now h m := (Get now h m, m);
  stored m h := m !! h;
  up _ := true;
}.
Next Obligation. done. Qed.
Next Obligation. done. Qed.
Next Obligation.
  intros sa m m' Hp. unfold Put in Hp. destruct (String.eqb_spec (SHash sa) ""); [done|]. injection Hp as <-.
  split_and!; [done..| |].
  - intros h Hh. cbn beta. by apply lookup_insert_ne.
  - exists sa. cbn beta. rewrite (lookup_insert_eq m). by destruct (String.eqb (SMediaType sa) "").
Qed.
Next Obligation. intros sa m _ Hh _ _ _. unfold Put. rewrite (proj2 (String.eqb_neq _ _) Hh). by eexists. Qed.
End Memory.

(** The table of shared analyses. A row keeps its findings as JSON; they come back with their
    text made valid. *)
Module Pg.
Record row := mkRow {
  RSource : string; RMedia : string; RPayload : string; RDigest : string; RWorkloads : Z;
  RFindings : list Finding; RCreatedAt : Z; RExpiresAt : Z; ViewCount : Z }.
Record PgStore := mkPg { Reachable : bool; rows : gmap string row }.

Definition valid_signal (s : Signal) : Signal :=
  {| Label := to_valid_utf8 (Label s); Have := Have s; Want := Want s; HaveDisplay := to_valid_utf8 (HaveDisplay s);
     WantDisplay := to_valid_utf8 (WantDisplay s); SigNote := to_valid_utf8 (SigNote s) |}.
Definition valid_finding (f : Finding) : Finding :=
  {| DetectorID := to_valid_utf8 (DetectorID f); FWorkload := to_valid_utf8 (FWorkload f); Title := to_valid_utf8 (Title f);
     Detail := to_valid_utf8 (Detail f); MonthlyUSDCents := MonthlyUSDCents f; FSeverity := to_valid_utf8 (FSeverity f);
     FConfidence := to_valid_utf8 (FConfidence f); FCategory := to_valid_utf8 (FCategory f);
     FSignal := valid_signal <$> FSignal f |}.

(** The upsert: on a conflict only the expiry changes. *)
Definition upsert (hash : string) (r : row) (m : gmap string row) : gmap string row :=
  match m !! hash with
  | None => <[hash := r]> m
  | Some old => <[hash := mkRow (RSource old) (RMedia old) (RPayload old) (RDigest old) (RWorkloads old) (RFindings old)
                            (RCreatedAt old) (RExpiresAt r) (ViewCount old)]> m
  end.

Definition Put (sa : SharedAnalysis) (s : PgStore) : result put_error PgStore :=
  if String.eqb (SHash sa) "" then Err ErrEmptyHash
  else if negb (String.eqb (SSource sa) "cli") && negb (String.eqb (SSource sa) "sandbox") then Err ErrSource
  else if time_IsZero (SExpiresAt sa) then Err ErrNoExpiry
  else
    let media := if String.eqb (SMediaType sa) "" then "application/json" else SMediaType sa in
    match marshal (findings_json (SFindings sa)) with
    | None => Err ErrFindings
    | Some _ =>
        if negb (Reachable s) then Err ErrExec
        else Ok (mkPg true (upsert (SHash sa)
          (mkRow (SSource sa) media (SBody sa) (sha256 (SBody sa)) (SWorkloads sa) (map valid_finding (SFindings sa))
             (SCreatedAt sa) (SExpiresAt sa) 0) (rows s)))
    end.

Definition shared (hash : string) (r : row) : SharedAnalysis :=
  mkShared hash (RPayload r) (RMedia r) (RSource r) (RWorkloads r) (RFindings r) (RCreatedAt r) (RExpiresAt r).

Definition seen (r : row) : row :=
  mkRow (RSource r) (RMedia r) (RPayload r) (RDigest r) (RWorkloads r) (RFindings r) (RCreatedAt r) (RExpiresAt r)
    (ViewCount r + 1).

(** A read that finds the entry alive counts as a view. *)
Definition Get (now : Z) (hash : string) (s : PgStore) : result get_error SharedAnalysis * PgStore :=
  if String.eqb hash "" then (Err ErrNotFound, s)
  else if negb (Reachable s) then (Err ErrStore, s)
  else match rows s !! hash with
  | None => (Err ErrNotFound, s)
  | Some r =>
      if negb (time_IsZero (RExpiresAt r)) && time_after now (RExpiresAt r) then (Err ErrExpired, s)
      else (Ok (shared hash r), mkPg true (<[hash := seen r]> (rows s)))
  end.

#[global] Program Instance store : ShareStore PgStore := {
  Sandbox.Put := Put;
  Sandbox.Get := Get;
  stored s h := shared h <$> rows s !! h;
  up := Reachable;
}.
Next Obligation.
  intros now h s Hup Hh. unfold Get. rewrite (proj2 (String.eqb_neq _ _) Hh), Hup. cbn [negb].
  destruct (rows s !! h) as [r|]; [|done]. cbn [fmap option_fmap option_map shared SExpiresAt]. by destruct (_ && _).
Qed.
Next Obligation.
  intros now h s. unfold Get. destruct (String.eqb h ""); [done|]. destruct (Reachable s) eqn:Er; cbn [negb]; [|done].
  destruct (rows s !! h) as [r|] eqn:Eh; [|done]. destruct (_ && _); [done|]. split; [done|]. intros h'.
  cbn [rows snd]. destruct (decide (h' = h)) as [->|]; [by rewrite lookup_insert_eq, Eh|by rewrite lookup_insert_ne].
Qed.
Next Obligation.
  intros sa s s' Hp. unfold Put in Hp. destruct (String.eqb_spec (SHash sa) ""); [done|].
  destruct (_ && _); [done|]. destruct (time_IsZero _); [done|]. destruct (marshal _); [|done].
  destruct (Reachable s) eqn:Er; cbn [negb] in Hp; [|done]. injection Hp as <-. split_and!; [done..| |].
  - intros h Hh. cbn [rows]. unfold upsert. destruct (rows s !! SHash sa); by rewrite lookup_insert_ne.
  - cbn [rows]. unfold upsert. destruct (rows s !! SHash sa); rewrite lookup_insert_eq; (eexists; split; [done|]);
      (split; [done|]); (split; [done|]); [done|]; intros _; (split; [done|]); cbn; by destruct (String.eqb (SMediaType sa) "").
Qed.
Next Obligation.
  intros sa s Hup Hh Hs He [f Hf]. unfold Put. rewrite (proj2 (String.eqb_neq _ _) Hh), Hs, Hf.
  unfold time_IsZero. rewrite (proj2 (Z.eqb_neq _ _) He), Hup. by eexists.
Qed.
End Pg.

(** ** The pages for a link without an analysis *)

(** [html.EscapeString] *)
Fixpoint EscapeString (s : string) : string :=
  match s with
  | EmptyString => ""
  | String c s =>
      (if Ascii.eqb c "&" then "&amp;" else if byte_val c =? 39 then "&#39;" else if Ascii.eqb c "<" then "&lt;"
       else if Ascii.eqb c ">" then "&gt;" else if byte_val c =? 34 then "&#34;" else String c "") +:+ EscapeString s
  end.

(** The text with its backticks read as double quotes. *)
Definition quoted (s : string) : string := str_map (λ c, if Ascii.eqb c "`" then quote_char else c) s.

Definition sharePageStyle : string := "<style>" +:+ newline +:+
  "body{font-family:ui-sans-serif,system-ui,sans-serif;max-width:42rem;margin:4rem auto;padding:0 1.25rem;color:#1f2933;line-height:1.55}" +:+ newline +:+
  "h1{margin:0 0 0.5rem;font-size:1.5rem}" +:+ newline +:+
  ".muted{color:#52606d;font-size:0.95rem}" +:+ newline +:+
  ".cta{display:inline-block;margin-top:1.5rem;padding:0.55rem 1rem;background:#111;color:#fff;text-decoration:none;border-radius:6px;font-weight:600}" +:+ newline +:+
  ".hash{font-family:ui-monospace,monospace;font-size:0.85rem;color:#7b8794;margin-top:1.5rem}" +:+ newline +:+ "</style>".

Definition sharePage (title body hash : string) : string :=
  quoted "<!doctype html><html><head><meta charset=`utf-8`><title>" +:+ title +:+ " — Optiqor</title>" +:+ sharePageStyle +:+
  "</head><body><h1>" +:+ title +:+ "</h1>" +:+ quoted "<p class=`muted`>" +:+ body +:+ "</p>" +:+
  quoted "<a class=`cta` href=`/sandbox`>Open the sandbox →</a><div class=`hash`>share: <code>" +:+ EscapeString hash +:+
  "</code></div></body></html>".

Definition renderNotFoundHTML (hash : string) : string := sharePage "Share not found"
  "We could not find an analysis at this URL. The hash may be mistyped, or the share never existed." hash.
Definition renderExpiredHTML (hash : string) : string := sharePage "Share expired"
  "This analysis was shared more than 30 days ago and has aged out. Re-run the analyzer to mint a fresh URL." hash.

(** ** The endpoints *)

(** The report page is the renderer's, given its data. *)
Record page_data := mkPage {
  PSource : string; PWorkloads : Z; PFindings : list Finding; PShareURL : string; PGeneratedAt : Z }.

Inductive reply :=
  | RError (e : Error)
  | RBody (status : Z) (media body : string)
  | RPage (status : Z) (html : string)
  | RReport (p : page_data).

Inductive read_body := BodyOK (s : string) | BodyTooBig | BodyBroken.

(** What the endpoints read of a request. *)
Record http_request := mkHttp {
  RMethod : string; RBodyRead : read_body; RPathHash : string; RFormat : string; RAccept : string;
  RForwardedProto : string; RForwardedHost : string; RTLS : bool; RHost : string }.

Record Handler := mkHandler {
  Detectors : list Detector; HPricer : option Pricer; HRegion : string; PublicBaseURL : string }.

Record AnalyzeResponse := mkAnalyze {
  AWorkloads : Z; AFindings : list Finding; ACost : list Finding; ASecurity : list Finding;
  AMonthly : float64; AAnnual : float64; AEstimates : list Estimate; AShareHash : string; AShareURL : string }.

Definition splitByCategory (l : list Finding) : list Finding * list Finding :=
  foldl (λ acc f, if String.eqb (FCategory f) CategorySecurity then (acc.1, acc.2 ++ [f]) else (acc.1 ++ [f], acc.2)) ([], []) l.

Definition totalSavingsCents (l : list Finding) : Z := foldl (λ s f, i64_add s (MonthlyUSDCents f)) 0 l.

Definition hashBytes (b : string) : string := hex (str_take 12 (sha256 b)).

Definition trailing (c : ascii) : bool := (byte_val c =? 10) || (byte_val c =? 9) || (byte_val c =? 32).
Definition canonicalYAML (b : string) : string := trim_right trailing b.

Definition publicURL (h : Handler) (r : http_request) : string :=
  if negb (String.eqb (PublicBaseURL h) "") then trim_right (Ascii.eqb "/") (PublicBaseURL h)
  else
    let scheme := if negb (String.eqb (RForwardedProto r) "") then RForwardedProto r else if RTLS r then "https" else "http" in
    let host := if negb (String.eqb (RForwardedHost r) "") then RForwardedHost r else RHost r in
    scheme +:+ "://" +:+ host.

Definition estimate_json (e : Estimate) : jvalue :=
  OObj ([("workload", OText (EWorkload e)); ("region", OText (ERegion e)); ("replicas", OInt (EReplicas e));
         ("cpu_millicores", OInt (Cost.CPUMillicores e)); ("memory_bytes", OInt (Cost.MemoryBytes e));
         ("monthly_usd_cents", OInt (Cost.MonthlyUSDCents e)); ("cpu_monthly_cents", OInt (CPUMonthlyCents e));
         ("mem_monthly_cents", OInt (MemMonthlyCents e)); ("note", OText (Note e));
         ("accuracy_band_pct", OInt (AccuracyBandPct e))] ++ omitempty "unpriceable_field" (UnpriceableField e)).

Definition response_json (a : AnalyzeResponse) : jvalue :=
  OObj ([("accuracy_disclosure", OText AccuracyDisclosure); ("source", OText "sandbox");
         ("workloads_analyzed", OInt (AWorkloads a)); ("findings", findings_json (AFindings a));
         ("cost_findings", findings_json (ACost a)); ("security_findings_bonus", findings_json (ASecurity a));
         ("monthly_savings_usd", ONum (AMonthly a)); ("annual_savings_usd", ONum (AAnnual a))] ++
        (match AEstimates a with [] => [] | es => [("cost_estimates", OArr (map estimate_json es))] end) ++
        [("share_hash", OText (AShareHash a)); ("share_url", OText (AShareURL a))]).

Fixpoint estimates (e : Estimator) (ws : list Workload) : result cost_error (list Estimate) :=
  match ws with
  | [] => Ok []
  | w :: ws => let* x := estimate e w in let* xs := estimates e ws in Ok (x :: xs)
  end.

Definition NotFound : Error := mkError 404 "NOT_FOUND".
Definition Gone : Error := mkError 410 "GONE".

Definition wantsJSON (r : http_request) : bool :=
  String.eqb (RFormat r) "json" || str_contains (RAccept r) "application/json".

Section Endpoints.
Context `{!GoPlatform, !GoSort} (yaml_parse : string → option Node) {S : Type} `{!ShareStore S}.

(** The answer to a values file: every failure on the way ends it. *)
Definition analysis (h : Handler) (r : http_request) (body : string) : result Error AnalyzeResponse :=
  match ParseValues yaml_parse (Some body) with
  | Err _ => Err (mkError 400 "PARSE_ERROR")
  | Ok ws =>
      let findings := Run ws (match Detectors h with [] => All | ds => ds end) in
      let costs := match HPricer h with
        | Some p => if String.eqb (HRegion h) "" then Ok [] else estimates (mkEstimator p (HRegion h) 40) ws
        | None => Ok []
        end in
      match costs with
      | Err _ => Err Internal
      | Ok es =>
          let '(costF, secF) := splitByCategory findings in
          let cents := totalSavingsCents findings in
          let hash := hashBytes (canonicalYAML body) in
          Ok (mkAnalyze (Z.of_nat (length ws)) findings costF secF (f_div (f_of_Z cents) (f_of_Z 100))
            (f_div (f_of_Z (i64_mul cents 12)) (f_of_Z 100)) es hash (publicURL h r +:+ "/r/" +:+ hash))
      end
  end.

(** A store that fails does not fail the answer. *)
Definition Analyze (h : Handler) (now : Z) (r : http_request) (store : option S) : reply * option S :=
  if negb (String.eqb (RMethod r) "POST") then (RError MethodNotAllowed, store)
  else match RBodyRead r with
  | BodyTooBig => (RError BodyTooLarge, store)
  | BodyBroken => (RError BadRequest, store)
  | BodyOK body =>
      match analysis h r body with
      | Err e => (RError e, store)
      | Ok a =>
          match marshal (response_json a) with
          | None => (RError Internal, store)
          | Some out =>
              (RBody 200 "application/json" out,
               match store with
               | None => None
               | Some s =>
                   Some (match Put (mkShared (AShareHash a) out "application/json" "sandbox" (AWorkloads a) (AFindings a)
                           now (time_add now ShareTTL)) s with Ok s' => s' | Err _ => s end)
               end)
          end
      end
  end.

Definition Share (h : Handler) (now : Z) (r : http_request) (store : option S) : reply * option S :=
  if negb (String.eqb (RMethod r) "GET") then (RError MethodNotAllowed, store)
  else if String.eqb (RPathHash r) "" then (RError MissingField, store)
  else match store with
  | None => (RError Internal, store)
  | Some s =>
      let '(got, s') := Get now (RPathHash r) s in
      (match got with
       | Err ErrExpired => if wantsJSON r then RError Gone else RPage 410 (renderExpiredHTML (RPathHash r))
       | Err ErrNotFound => if wantsJSON r then RError NotFound else RPage 404 (renderNotFoundHTML (RPathHash r))
       | Err ErrStore => RError Internal
       | Ok sa =>
           if wantsJSON r then RBody 200 (SMediaType sa) (SBody sa)
           else RReport (mkPage (SSource sa) (SWorkloads sa) (SFindings sa) (publicURL h r +:+ "/r/" +:+ SHash sa) (SCreatedAt sa))
       end, Some s')
  end.
End Endpoints.

(** ** Facts *)

Lemma marshal_member l k v : is_Some (marshal (OObj l)) → (k, v) ∈ l → is_Some (marshal v).
Proof.
  cbn [marshal]. intros [x Hx] Hin. apply fmap_Some in Hx as (ss & Hm & _).
  assert (is_Some (mapM (λ kv : string * jvalue, option_map (λ s, quote true kv.1 +:+ ":" +:+ s) (marshal kv.2)) l)) as Hs by eauto.
  apply mapM_is_Some in Hs. rewrite Forall_forall in Hs. specialize (Hs _ Hin) as [y Hy]. cbn in Hy.
  destruct (marshal v); [eauto|done].
Qed.

Lemma trim_right_app P s t : str_all P t = true → trim_right P (s +:+ t) = trim_right P s.
Proof.
  intros Ht. unfold trim_right. rewrite rev_sapp. rewrite <-(str_all_rev P) in Ht. f_equal.
  revert Ht. generalize (String.rev t). induction s0 as [|c u IH]; [done|]. cbn [str_all]. intros [Hc Hu]%andb_prop.
  rewrite sapp_cons. cbn [drop_while]. rewrite Hc. by apply IH.
Qed.

Lemma hashBytes_nonempty b : hashBytes b ≠ "".
Proof.
  unfold hashBytes. intros E. apply (f_equal String.length) in E.
  rewrite hex_length, str_take_length, sha256_length in E. done.
Qed.

(** What the sandbox counts and splits is what the CLI prints. *)
Lemma split_agrees l : splitByCategory l = Render.splitByCategory l.
Proof.
  unfold splitByCategory, Render.splitByCategory.
  assert (∀ a b, foldl (λ acc f, if String.eqb (FCategory f) CategorySecurity then (acc.1, acc.2 ++ [f]) else (acc.1 ++ [f], acc.2)) (a, b) l =
    (a ++ List.filter (λ f, negb (String.eqb (FCategory f) CategorySecurity)) l,
     b ++ List.filter (λ f, String.eqb (FCategory f) CategorySecurity) l)) as Hgen; [|apply (Hgen [] [])].
  induction l as [|f l IH]; intros a b; cbn [foldl List.filter]; [by rewrite !app_nil_r|].
  destruct (String.eqb (FCategory f) CategorySecurity); cbn [fst snd negb]; rewrite IH, <-!app_assoc; done.
Qed.

(** What a page shows of a link cannot leave the text it stands in: no angle bracket and no
    quote of the path survives. *)
Definition markup (c : ascii) : bool :=
  Ascii.eqb c "<" || Ascii.eqb c ">" || (byte_val c =? 34) || (byte_val c =? 39).

Lemma escape_no_markup s : str_all (λ c, negb (markup c)) (EscapeString s) = true.
Proof.
  induction s as [|c s IH]; [done|]. cbn [EscapeString]. rewrite str_all_app, IH, andb_true_r. all_bytes c; done.
Qed.

Section LinkFacts.
Context `{!GoPlatform, !GoSort} (yaml_parse : string → option Node) {S : Type} `{!ShareStore S}.

Lemma analysis_hash h r body a : analysis yaml_parse h r body = Ok a →
  AShareHash a = hashBytes (canonicalYAML body) ∧ AShareURL a = publicURL h r +:+ "/r/" +:+ AShareHash a.
Proof.
  unfold analysis. destruct (ParseValues _ _) as [ws|]; [|done].
  destruct (match HPricer h with Some p => _ | None => _ end) as [es|]; [|done].
  destruct (splitByCategory _) as [c s]. by intros [= <-].
Qed.

Lemma response_findings a : is_Some (marshal (response_json a)) → is_Some (marshal (findings_json (AFindings a))).
Proof.
  intros Hm. eapply marshal_member; [exact Hm|]. apply elem_of_app. left.
  do 3 (apply list_elem_of_further). apply list_elem_of_here.
Qed.

Lemma analyze_stores h now r (s : S) out s' media : 0 < now → up s = true →
  Analyze yaml_parse h now r (Some s) = (RBody 200 media out, s') →
  ∃ a body s1, RBodyRead r = BodyOK body ∧ analysis yaml_parse h r body = Ok a ∧ marshal (response_json a) = Some out ∧
    s' = Some s1 ∧ Put (mkShared (AShareHash a) out "application/json" "sandbox" (AWorkloads a) (AFindings a)
                         now (time_add now ShareTTL)) s = Ok s1.
Proof.
  intros Hn Hup. unfold Analyze. destruct (negb _); [done|]. destruct (RBodyRead r) as [body| |] eqn:Eb; [|done..].
  destruct (analysis yaml_parse h r body) as [a|] eqn:Ea; [|done].
  destruct (marshal (response_json a)) as [o|] eqn:Em; [|done]. intros [= <- <- <-].
  destruct (analysis_hash _ _ _ _ Ea) as [Hh _].
  destruct (put_ok (mkShared (AShareHash a) o "application/json" "sandbox" (AWorkloads a) (AFindings a) now
    (time_add now ShareTTL)) s) as [s1 Hs1]; cbn [SHash SSource SExpiresAt SFindings].
  - done.
  - rewrite Hh. apply hashBytes_nonempty.
  - done.
  - unfold time_add, ShareTTL, Hour, Minute, Second. lia.
  - apply response_findings. eauto.
  - exists a, body, s1. rewrite Hs1. done.
Qed.
End LinkFacts.

(** A later visit of a link, as a program. *)
Definition visit (hash : string) : http_request :=
  mkHttp "GET" BodyBroken hash "json" "" "" "" false "optiqor.dev".


Definition demo_handler : Handler := mkHandler [] (Some (StaticPricer defaultRates)) "us-east-1" "https://optiqor.dev/".
Definition demo_post : http_request :=
  mkHttp "POST" (BodyOK "values") "" "" "" "" "" false "localhost".

Definition answered {S} (p : reply * option S) : option (string * S) :=
  match p with
  | (RBody status media out, Some s) =>
      if (status =? 200) && String.eqb media "application/json" then Some (out, s) else None
  | _ => None
  end.

Lemma answered_Some {S} (p : reply * option S) out s : answered p = Some (out, s) → p = (RBody 200 "application/json" out, Some s).
Proof.
  destruct p as [[] [?|]]; cbn; try done. destruct (Z.eqb_spec status 200) as [->|]; [|done].
  destruct (String.eqb_spec media "application/json") as [->|]; [|done]. by intros [= -> ->].
Qed.


(** The two stores part on a file analysed again: the map serves the new answer, the table
    keeps the first one for as long as the file is ever analysed, and an expired link comes
    back with it. *)
Lemma analysed_again sa (m : Memory.InMemoryStore) m' (p p' : Pg.PgStore) old :
  Memory.Put sa m = Ok m' → Pg.Put sa p = Ok p' → Pg.rows p !! SHash sa = Some old →
  (SBody <$> (m' !! SHash sa)) = Some (SBody sa) ∧
  (SBody <$> stored p' (SHash sa)) = Some (Pg.RPayload old) ∧
  (SCreatedAt <$> stored p' (SHash sa)) = Some (Pg.RCreatedAt old) ∧
  (SExpiresAt <$> stored p' (SHash sa)) = Some (SExpiresAt sa).
Proof.
  intros Hm Hp Hold. split.
  - unfold Memory.Put in Hm. destruct (String.eqb _ _); [done|]. injection Hm as <-. by rewrite (lookup_insert_eq m).
  - unfold Pg.Put in Hp. destruct (String.eqb _ _); [done|]. destruct (_ && _); [done|].
    destruct (time_IsZero _); [done|]. destruct (marshal _); [|done]. destruct (negb _); [done|]. injection Hp as <-.
    cbn [stored Pg.store Pg.rows]. unfold Pg.upsert. by rewrite Hold, lookup_insert_eq.
Qed.

(** The hash of the sandbox is never one the CLI would print: it has twice the digits. *)
Lemma sandbox_hash_not_cli b : IsHash (hashBytes b) = false ∧ String.length (hashBytes b) = 24%nat.
Proof.
  unfold hashBytes. rewrite hex_length, str_take_length, sha256_length. split; [|done].
  unfold IsHash. by rewrite hex_length, str_take_length, sha256_length.
Qed.
