(* ===== verification/Session.v ===== *)
(** The dashboard's sessions (backend/internal/auth): the JWT a session is carried in
    (session.go), and the two endpoints that mint one and tell who it is (handler.go). *)

From Stdlib Require Import Ascii.
From S2P Require Import Prelude GoNum GoStr Lines Utf8 GoTime Tenancy Sha256 Base64 Json Rfc3339 Token Ingest.
Local Open Scope Z_scope.

(** ** Sessions *)

Record Session := mkSession {
  STenantID : string; SWorkspaceID : string; Subject : string; SName : string; IssuedAt : Z; ExpiresAt : Z }.

Inductive missing := NoTid | NoSub | NoExp.

(** [Session.Valid], with what is missing. *)
Definition Valid (s : Session) : option missing :=
  if String.eqb (STenantID s) "" then Some NoTid
  else if String.eqb (Subject s) "" then Some NoSub
  else if time_IsZero (ExpiresAt s) then Some NoExp
  else None.

Record Claims := mkClaims { CTid : string; CWid : string; CSub : string; CName : string; CIat : Z; CExp : Z }.
Definition zero_claims : Claims := mkClaims "" "" "" "" 0 0.

(** ** The token *)

Inductive session_error :=
  | ErrMissing (m : missing)
  | ErrSegments (n : nat)
  | ErrSignature
  | ErrHeaderDecode
  | ErrHeader
  | ErrAlg (alg : string)
  | ErrPayloadDecode
  | ErrPayload
  | ErrInvalid (m : missing)
  | ErrExpired.

Definition sign (secret input : string) : string := encode (hmac_sha256 secret input).

Definition optional (name s : string) : list (string * scalar) := if String.eqb s "" then [] else [(name, VStr s)].

Definition header : string := encode_struct true [("alg", VStr "HS256"); ("typ", VStr "JWT")].

Definition claims_fields (c : Claims) : list (string * scalar) :=
  [("tid", VStr (CTid c))] ++ optional "wid" (CWid c) ++ [("sub", VStr (CSub c))] ++ optional "name" (CName c) ++
  [("iat", VInt (CIat c)); ("exp", VInt (CExp c))].

Definition claims_of (s : Session) : Claims :=
  mkClaims (STenantID s) (SWorkspaceID s) (Subject s) (SName s) (unix_seconds (IssuedAt s)) (unix_seconds (ExpiresAt s)).

Definition Issue (secret : string) (s : Session) : result session_error string :=
  match Valid s with
  | Some m => Err (ErrMissing m)
  | None =>
      let signed := encode header +:+ "." +:+ encode (encode_struct true (claims_fields (claims_of s))) in
      Ok (signed +:+ "." +:+ sign secret signed)
  end.

Definition assign_alg (name : string) (v : json) (alg : string) : option string := assign_string v alg.

Definition claim_names : list string := ["tid"; "wid"; "sub"; "name"; "iat"; "exp"].

Definition assign_claim (name : string) (v : json) (c : Claims) : option Claims :=
  let 'mkClaims ti wi su na ia ex := c in
  if String.eqb name "tid" then option_map (λ s, mkClaims s wi su na ia ex) (assign_string v ti)
  else if String.eqb name "wid" then option_map (λ s, mkClaims ti s su na ia ex) (assign_string v wi)
  else if String.eqb name "sub" then option_map (λ s, mkClaims ti wi s na ia ex) (assign_string v su)
  else if String.eqb name "name" then option_map (λ s, mkClaims ti wi su s ia ex) (assign_string v na)
  else if String.eqb name "iat" then option_map (λ z, mkClaims ti wi su na z ex) (assign_int64 v ia)
  else option_map (λ z, mkClaims ti wi su na ia z) (assign_int64 v ex).

Definition read_header (s : string) : option string :=
  match parse_document s with Some v => into_struct ["alg"] assign_alg false v "" | None => None end.
Definition read_claims (s : string) : option Claims :=
  match parse_document s with Some v => into_struct claim_names assign_claim false v zero_claims | None => None end.

Definition session_of (c : Claims) : Session :=
  mkSession (CTid c) (CWid c) (CSub c) (CName c) (unix_time (CIat c) 0) (unix_time (CExp c) 0).

Definition Verify (secret : string) (now : Z) (token : string) : result session_error Session :=
  match split_byte "." token with
  | [h; p; mac] =>
      if negb (String.eqb (sign secret (h +:+ "." +:+ p)) mac) then Err ErrSignature
      else match decode h with
      | None => Err ErrHeaderDecode
      | Some hb =>
          match read_header hb with
          | None => Err ErrHeader
          | Some alg =>
              if negb (String.eqb alg "HS256") then Err (ErrAlg alg)
              else match decode p with
              | None => Err ErrPayloadDecode
              | Some pb =>
                  match read_claims pb with
                  | None => Err ErrPayload
                  | Some c =>
                      let s := session_of c in
                      match Valid s with
                      | Some m => Err (ErrInvalid m)
                      | None => if time_after now (ExpiresAt s) then Err ErrExpired else Ok s
                      end
                  end
              end
          end
      end
  | parts => Err (ErrSegments (length parts))
  end.

(** ** The endpoints *)

Definition SessionTTL : Z := 12 * Hour.
Definition CookieName : string := "optiqor_session".

(** [time.RFC3339]: whole seconds. *)
Definition format_rfc3339 (t : Z) : string := format_rfc3339_nano (t - t mod Second).

Record WhoamiResponse := mkWhoami {
  WTenantID : string; WWorkspaceID : string; WSubject : string; WName : string; WSource : string; WExpiresAt : string }.

Record IssueRequest := mkIssue { ISubject : string; IName : string; ITenantID : string; IWorkspaceID : string }.
Record Cookie := mkCookie { CookieValue : string; CookieExpires : Z; CookieSecure : bool }.
Record IssueResponse := mkIssued { IToken : string; IExpiresAt : string }.

(** The Authorization header and the session cookie, if there is one. *)
Record credentials := mkCredentials { Authorization : string; SessionCookie : option string }.

Definition verified (secret : string) (now : Z) (token : string) : option Session :=
  match Verify secret now token with Ok s => Some s | Err _ => None end.

(** A bearer that does not verify leaves the cookie. *)
Definition sessionFromRequest (signer : option string) (now : Z) (r : credentials) : option Session :=
  match signer with
  | None => None
  | Some secret =>
      let bearer := match strip_prefix "Bearer " (Authorization r) with
        | Some t => verified secret now (trim_space t) | None => None end in
      match bearer with
      | Some s => Some s
      | None =>
          match SessionCookie r with
          | Some v => if String.eqb v "" then None else verified secret now v
          | None => None
          end
      end
  end.

Definition Whoami (signer : option string) (now : Z) (ctx : go_context) (r : credentials) : result Error WhoamiResponse :=
  match sessionFromRequest signer now r with
  | Some s => Ok (mkWhoami (STenantID s) (SWorkspaceID s) (Subject s) (SName s) "jwt" (format_rfc3339 (ExpiresAt s)))
  | None =>
      match FromContext ctx with
      | Ok t => Ok (mkWhoami (TenantID t) (WorkspaceID t) "" "" "header" "")
      | Err _ => Err Unauthorized
      end
  end.

Definition IssueSession (secret : string) (now : Z) (tls : bool) (body : result body_error IssueRequest) :
    result Error (IssueResponse * Cookie) :=
  match body with
  | Err e => Err (body_response e)
  | Ok req =>
      if String.eqb (ISubject req) "" then Err MissingField
      else if String.eqb (ITenantID req) "" then Err MissingField
      else
        let exp := time_add now SessionTTL in
        match Issue secret (mkSession (ITenantID req) (IWorkspaceID req) (ISubject req) (IName req) now exp) with
        | Err _ => Err Internal
        | Ok token => Ok (mkIssued token (format_rfc3339 exp), mkCookie token exp tls)
        end
  end.

(** ** Facts *)

Definition as_read (s : Session) : Session :=
  mkSession (to_valid_utf8 (STenantID s)) (to_valid_utf8 (SWorkspaceID s)) (to_valid_utf8 (Subject s)) (to_valid_utf8 (SName s))
    (IssuedAt s - IssuedAt s mod Second) (ExpiresAt s - ExpiresAt s mod Second).

Lemma Ok_inj {E A} (a b : A) : Ok (E := E) a = Ok b → a = b.
Proof. by intros [= ->]. Qed.

Lemma read_header_header : read_header header = Some "HS256".
Proof. by vm_compute. Qed.
#[local] Opaque header.

Lemma read_claims_fields c : in_i64 (CIat c) → in_i64 (CExp c) →
  read_claims (encode_struct true (claims_fields c)) =
  Some (mkClaims (to_valid_utf8 (CTid c)) (to_valid_utf8 (CWid c)) (to_valid_utf8 (CSub c)) (to_valid_utf8 (CName c)) (CIat c) (CExp c)).
Proof.
  intros Hi He. unfold read_claims, claims_fields, optional.
  destruct (String.eqb_spec (CWid c) "") as [->|], (String.eqb_spec (CName c) "") as [->|]; cbn [app];
    rewrite parse_encode_struct by (done || by repeat constructor);
    cbn [map member_json fst snd scalar_json into_struct]; cbn -[parse_int itoa to_valid_utf8]; unfold assign_int64;
    rewrite parse_int_itoa by done; cbn -[parse_int itoa to_valid_utf8]; by rewrite parse_int_itoa by done.
Qed.

(** A time read back from its seconds. *)
Lemma unix_time_seconds t : in_i64 (unix_seconds t) → in_i64 (t / Second) → unix_time (unix_seconds t) 0 = t - t mod Second.
Proof.
  intros Hu Ht. unfold unix_time, unix_seconds in *. change ((0 <? 0) || (1000000000 <=? 0)) with false. cbv iota.
  unfold i64_add. replace (t / Second - 62135596800 + 62135596800) with (t / Second) by lia.
  rewrite wrap64_id by done. unfold Second in *. Z.to_euclidean_division_equations. lia.
Qed.

(** An instant of a session is one whose seconds fit, in year 1 or later. *)
Definition instant (t : Z) : Prop := Second <= t < 2^63 * Second.

Lemma instant_seconds t : instant t → in_i64 (unix_seconds t) ∧ in_i64 (t / Second).
Proof. unfold instant, unix_seconds, in_i64, Second. intros. Z.to_euclidean_division_equations. lia. Qed.

Lemma valid_as_read s : Valid s = None → instant (ExpiresAt s) → Valid (as_read s) = None.
Proof.
  unfold Valid, as_read. cbn [STenantID Subject ExpiresAt].
  destruct (String.eqb_spec (STenantID s) ""); [done|]. destruct (String.eqb_spec (Subject s) ""); [done|]. intros _ He.
  rewrite !(proj2 (String.eqb_neq _ _)) by by apply to_valid_nonempty.
  unfold time_IsZero, instant, Second in *. rewrite (proj2 (Z.eqb_neq _ _)); [done|].
  Z.to_euclidean_division_equations. lia.
Qed.

Lemma token_parts h p m : no_byte "." h = true → no_byte "." p = true → no_byte "." m = true →
  split_byte "." ((h +:+ "." +:+ p) +:+ "." +:+ m) = [h; p; m].
Proof.
  intros Hh Hp Hm. rewrite <-sapp_assoc. change ("." +:+ m) with (String "." m).
  replace (h +:+ ("." +:+ p) +:+ String "." m) with (h +:+ String "." (p +:+ String "." m))
    by (change ("." +:+ p) with (String "." p); by rewrite sapp_cons).
  by rewrite !split_byte_app, split_byte_none by done.
Qed.

Lemma sign_no_dot secret x : no_byte "." (sign secret x) = true.
Proof. apply encode_no_dot. Qed.

Lemma encode_graph s : str_all is_graph (encode s) = true.
Proof. eapply str_all_impl; [|apply encode_safe]. intros c. all_bytes c; first [discriminate|done]. Qed.

Lemma token_graph secret s tok : Issue secret s = Ok tok → str_all is_graph tok = true ∧ tok ≠ "".
Proof.
  unfold Issue. destruct (Valid s); [done|]. intros Hi. apply Ok_inj in Hi as <-. unfold sign. rewrite !str_all_app, !encode_graph. split; [done|]. by destruct (encode header).
Qed.

Lemma verify_issued_session secret s tok now : Issue secret s = Ok tok → instant (IssuedAt s) → instant (ExpiresAt s) →
  Verify secret now tok = if time_after now (ExpiresAt (as_read s)) then Err ErrExpired else Ok (as_read s).
Proof.
  unfold Issue. destruct (Valid s) eqn:Ev; [done|]. intros Htok Hi He. apply Ok_inj in Htok as <-.
  destruct (instant_seconds _ Hi), (instant_seconds _ He).
  unfold Verify. rewrite token_parts by first [apply sign_no_dot|apply encode_no_dot]. rewrite String.eqb_refl. cbn [negb].
  rewrite !decode_encode, read_header_header, String.eqb_refl. cbn [negb].
  rewrite read_claims_fields by done. unfold claims_of. cbn [CTid CWid CSub CName CIat CExp].
  assert (session_of (mkClaims (to_valid_utf8 (STenantID s)) (to_valid_utf8 (SWorkspaceID s)) (to_valid_utf8 (Subject s))
    (to_valid_utf8 (SName s)) (unix_seconds (IssuedAt s)) (unix_seconds (ExpiresAt s))) = as_read s) as ->.
  { unfold session_of, as_read. cbn [CTid CWid CSub CName CIat CExp]. by rewrite !unix_time_seconds by done. }
  cbv zeta. by rewrite valid_as_read.
Qed.

(** What verifies was signed with the secret, over its own two parts, as HS256, and is whole
    and alive. *)
Lemma verify_authentic secret now tok s : Verify secret now tok = Ok s →
  Valid s = None ∧ now <= ExpiresAt s ∧ ∃ h p hb, tok = h +:+ "." +:+ p +:+ "." +:+ sign secret (h +:+ "." +:+ p) ∧
    decode h = Some hb ∧ read_header hb = Some "HS256".
Proof.
  unfold Verify. pose proof (join_split "." tok) as Hj.
  destruct (split_byte "." tok) as [|h [|p [|m [|]]]]; try done.
  destruct (String.eqb_spec (sign secret (h +:+ "." +:+ p)) m) as [<-|]; cbn [negb]; [|done].
  destruct (decode h) as [hb|] eqn:Eh; [|done]. destruct (read_header hb) as [alg|] eqn:Ea; [|done].
  destruct (String.eqb_spec alg "HS256") as [->|]; cbn [negb]; [|done]. destruct (decode p) as [pb|]; [|done].
  destruct (read_claims pb) as [c|]; [|done]. destruct (Valid (session_of c)) eqn:Ev; [done|].
  unfold time_after. destruct (Z.ltb_spec (ExpiresAt (session_of c)) now); [done|]. intros [= <-].
  split; [done|]. split; [done|]. exists h, p, hb. split_and!; [|done..]. cbn [join] in Hj. by rewrite <-Hj.
Qed.

(** C16 The life of a session. What the endpoint mints for a caller names that caller until
    twelve hours later, to the second, whether it comes back as a bearer or in the cookie -
    also behind a bearer that does not verify; from then on the answer is the tenant the
    request itself names, if any, and otherwise unauthorized. *)
Theorem session_lifecycle (secret : string) (now now' : Z) (tls : bool) (req : IssueRequest) (resp : IssueResponse)
    (cookie : Cookie) (bearer : string) (ctx : go_context) (creds : credentials) :
  IssueSession secret now tls (Ok req) = Ok (resp, cookie) → instant now → instant (now + SessionTTL) →
  str_all plain_byte (ISubject req +:+ IName req +:+ ITenantID req +:+ IWorkspaceID req) = true →
  verified secret now' (trim_space bearer) = None →
  creds ∈ [mkCredentials ("Bearer " +:+ IToken resp) None; mkCredentials "" (Some (CookieValue cookie));
           mkCredentials ("Bearer " +:+ bearer) (Some (CookieValue cookie))] →
  let exp := now + SessionTTL - (now + SessionTTL) mod Second in
  Whoami (Some secret) now' ctx creds =
    if now' <=? exp
    then Ok (mkWhoami (ITenantID req) (IWorkspaceID req) (ISubject req) (IName req) "jwt" (format_rfc3339 (now + SessionTTL)))
    else match FromContext ctx with
         | Ok t => Ok (mkWhoami (TenantID t) (WorkspaceID t) "" "" "header" "")
         | Err _ => Err Unauthorized
         end.
Proof.
  unfold IssueSession. destruct (String.eqb (ISubject req) ""); [done|]. destruct (String.eqb (ITenantID req) ""); [done|].
  set (s := mkSession _ _ _ _ _ _). destruct (Issue secret s) as [tok|] eqn:Ei; [|done]. intros [= <- <-] Hn He Hplain Hbad Hin.
  set (exp := now + SessionTTL - (now + SessionTTL) mod Second).
  assert (str_all plain_byte (ISubject req) = true ∧ str_all plain_byte (IName req) = true ∧
    str_all plain_byte (ITenantID req) = true ∧ str_all plain_byte (IWorkspaceID req) = true) as (Hsub & Hname & Hten & Hws)
    by (rewrite !str_all_app in Hplain; bool_to_prop; done).
  cbn [IToken CookieValue] in *.
  destruct (token_graph _ _ _ Ei) as [Hg Hne].
  assert (as_read s = mkSession (ITenantID req) (IWorkspaceID req) (ISubject req) (IName req) (now - now mod Second) exp) as Hs.
  { unfold as_read, s. cbn [STenantID SWorkspaceID Subject SName IssuedAt ExpiresAt]. by rewrite !plain_valid. }
  assert (verified secret now' tok = if now' <=? exp then Some (as_read s) else None) as Hv.
  { unfold verified. rewrite (verify_issued_session secret s tok now' Ei) by done. rewrite Hs. cbn [ExpiresAt].
    unfold time_after. by destruct (Z.ltb_spec exp now'), (Z.leb_spec now' exp); try lia. }
  assert (sessionFromRequest (Some secret) now' creds = if now' <=? exp then Some (as_read s) else None) as Hreq.
  { unfold sessionFromRequest. repeat (apply elem_of_cons in Hin as [->|Hin]); [..|by apply elem_of_nil in Hin];
      cbn [Authorization SessionCookie].
    - rewrite strip_prefix_app, trim_space_graph, Hv by done. by destruct (now' <=? exp).
    - change (strip_prefix "Bearer " "") with (@None string). cbv iota.
      by rewrite (proj2 (String.eqb_neq _ _) Hne).
    - rewrite strip_prefix_app, Hbad. by rewrite (proj2 (String.eqb_neq _ _) Hne). }
  unfold Whoami. rewrite Hreq. destruct (now' <=? exp); [|done]. rewrite Hs.
  cbn [STenantID SWorkspaceID Subject SName ExpiresAt]. do 2 f_equal. unfold format_rfc3339. f_equal.
  unfold exp, Second. Z.to_euclidean_division_equations. lia.
Qed.

Definition demo_request : IssueRequest := mkIssue "dev@optiqor.dev" "Dev" "t-1" "w-1".

Lemma session_lifecycle_witness : ∃ resp cookie,
  IssueSession Ident.demo_secret Ident.demo_now true (Ok demo_request) = Ok (resp, cookie) ∧
  Whoami (Some Ident.demo_secret) (Ident.demo_now + Hour) None (mkCredentials "Bearer none" (Some (CookieValue cookie))) =
    Ok (mkWhoami "t-1" "w-1" "dev@optiqor.dev" "Dev" "jwt" "2025-12-22T23:33:20Z").
Proof.
  destruct (IssueSession Ident.demo_secret Ident.demo_now true (Ok demo_request)) as [[resp cookie]|] eqn:E; [|discriminate E].
  exists resp, cookie. split; [done|].
  rewrite (session_lifecycle Ident.demo_secret Ident.demo_now (Ident.demo_now + Hour) true demo_request resp cookie "none" None
    (mkCredentials "Bearer none" (Some (CookieValue cookie)))); [by vm_compute|exact E|by vm_compute..|].
  do 2 right. left.
Defined.
