(* ===== verification/Preflight.v ===== *)
(** The install wizard's preview (backend/internal/onboarding/preflight): the checks run against
    a cluster before [helm install], and the endpoint that serves them. *)

From Stdlib Require Import Ascii.
From S2P Require Import Prelude GoNum GoStr Lines Utf8 GoTime Ingest.
Local Open Scope Z_scope.

(** ** Versions *)

(** One digit of a number; [range] yields the bytes below 128 and one rune for any other
    sequence, which is no digit. *)
Definition digit_rune (c : Z) : bool := negb ((c <? 48) || (57 <? c)).

Fixpoint atoi_runes (n : Z) (rs : list Z) : option Z :=
  match rs with
  | [] => Some n
  | c :: rs => if digit_rune c then atoi_runes (i64_add (i64_mul n 10) (c - 48)) rs else None
  end.

Definition atoi (s : string) : option Z := if String.eqb s "" then None else atoi_runes 0 (runes s).

(** The digits of a positive number, most significant first. *)
Fixpoint itoa_digits (fuel : nat) (n : Z) (digits : string) : string :=
  match fuel with
  | O => digits
  | S f => if n <=? 0 then digits else itoa_digits f (Z.quot n 10) (String (chr (48 + Z.rem n 10)) digits)
  end.

(** Nineteen digits hold every 64-bit integer. *)
Definition itoa (n : Z) : string :=
  if n =? 0 then "0"
  else if n <? 0 then "-" +:+ itoa_digits 19 (i64_neg n) "" else itoa_digits 19 n "".

Definition stripNonDigits (s : string) : string := of_bytes (List.filter (λ c, (48 <=? c) && (c <=? 57)) (runes s)).

(** [strings.SplitN(v, ".", 3)]: the major and the minor part, if there are two. *)
Definition split_version (v : string) : option (string * string) :=
  match split_byte "." v with
  | major :: minor :: _ => Some (major, minor)
  | _ => None
  end.

Definition versionAtLeast (v : string) (wantMajor wantMinor : Z) : bool :=
  match split_version (trim_prefix v "v") with
  | None => false
  | Some (p0, p1) =>
      match atoi p0 with
      | None => false
      | Some major =>
          match (match atoi (trim_suffix p1 "+") with Some m => Some m | None => atoi (stripNonDigits p1) end) with
          | None => false
          | Some minor => if wantMajor <? major then true else if major <? wantMajor then false else wantMinor <=? minor
          end
      end
  end.

(** ** The checks *)

Inductive Status := StatusPass | StatusWarn | StatusFail.
#[export] Instance Status_eq_dec : EqDecision Status.
Proof. solve_decision. Defined.

Record CheckRow := mkCheck { CheckName : string; CheckStatus : Status; Detail : string; RemediationLink : string }.

(** What a probe answers: its value, and its error if it had one. *)
Definition answer (A : Type) : Type := (A * option string)%type.

(** The cluster as the runner sees it; every question is asked under the one deadline of the
    run. *)
Record Probe := mkProbe {
  K8sServerVersion : Z → answer string;
  PrometheusReachable : Z → string → answer bool;
  HasKarpenterCRD : Z → answer bool;
  HasClusterAutoscaler : Z → answer bool;
  HasRBAC : Z → list string → list string → answer bool;
  NamespaceCount : Z → answer Z;
  DetectUnsupportedProvisioners : Z → answer (list string) }.

Record Config := mkConfig { PrometheusURL : string }.
Record Runner := mkRunner { RProbe : option Probe; Timeout : Z }.

Definition k8sVersionCheck (p : Probe) (d : Z) : CheckRow :=
  match K8sServerVersion p d with
  | (_, Some err) => mkCheck "Kubernetes 1.28+" StatusFail ("could not probe apiserver: " +:+ err) ""
  | (v, None) =>
      if negb (versionAtLeast v 1 28)
      then mkCheck "Kubernetes 1.28+" StatusFail ("server version " +:+ v +:+ " is below the supported floor")
             "https://optiqor.dev/runbooks/k8s-version"
      else mkCheck "Kubernetes 1.28+" StatusPass ("server " +:+ v) ""
  end.

Definition prometheusCheck (p : Probe) (d : Z) (url : string) : CheckRow :=
  if String.eqb url ""
  then mkCheck "Prometheus URL" StatusWarn "no Prometheus URL supplied; agent will ship K8s state but no per-workload metrics"
         "https://optiqor.dev/runbooks/prometheus"
  else match PrometheusReachable p d url with
  | (_, Some err) => mkCheck "Prometheus reachable" StatusFail err ""
  | (ok, None) =>
      if negb ok
      then mkCheck "Prometheus reachable" StatusFail
             ("could not reach " +:+ url +:+ " from the cluster; check Service name + namespace")
             "https://optiqor.dev/runbooks/prometheus"
      else mkCheck "Prometheus reachable" StatusPass url ""
  end.

Definition rbac_verbs : list string := ["get"; "list"; "watch"].
Definition rbac_resources : list string := ["events"; "pods"; "deployments"; "horizontalpodautoscalers"; "poddisruptionbudgets"].

Definition rbacCheck (p : Probe) (d : Z) : CheckRow :=
  match HasRBAC p d rbac_verbs rbac_resources with
  | (_, Some err) => mkCheck "ServiceAccount RBAC" StatusFail err ""
  | (ok, None) =>
      if negb ok
      then mkCheck "ServiceAccount RBAC" StatusFail "the agent's ServiceAccount cannot get/list/watch all six Tier-1 GVRs"
             "https://optiqor.dev/runbooks/agent-rbac"
      else mkCheck "ServiceAccount RBAC" StatusPass "all 6 GVRs reachable" ""
  end.

Definition karpenterCheck (p : Probe) (d : Z) : CheckRow :=
  if fst (HasKarpenterCRD p d) then mkCheck "Karpenter detected" StatusPass "T1 provisioner-class will register" ""
  else mkCheck "Karpenter detected" StatusWarn
         "no Karpenter NodePool CRD; agent will fall through to cluster-autoscaler / static detection" "".

Definition autoscalerCheck (p : Probe) (d : Z) : CheckRow :=
  if fst (HasClusterAutoscaler p d)
  then mkCheck "cluster-autoscaler detected" StatusPass "T2 provisioner-class will register" ""
  else mkCheck "cluster-autoscaler detected" StatusWarn "no Deployment named cluster-autoscaler in kube-system" "".

Definition unsupportedProvisionerCheck (p : Probe) (d : Z) : CheckRow :=
  match DetectUnsupportedProvisioners p d with
  | (_, Some err) =>
      mkCheck "Unsupported provisioner gate" StatusWarn ("could not probe for unsupported provisioners: " +:+ err) ""
  | ([], None) => mkCheck "Unsupported provisioner gate" StatusPass "no unsupported provisioner CRDs detected" ""
  | (names, None) =>
      mkCheck "Unsupported provisioner gate" StatusFail
        ("detected " +:+ join ", " names +:+
         ": Optiqor has no Year-1 adapter for these provisioners. Year-1 supported: Karpenter, EKS MNG, EKS+CAS+ASG, standalone ASG, static node groups.")
        "https://github.com/optiqor/optiqor/issues/new?labels=provisioner-adapter&template=unsupported-provisioner.md"
  end.

Definition namespaceCountCheck (p : Probe) (d : Z) : CheckRow :=
  match NamespaceCount p d with
  | (_, Some err) => mkCheck "Namespace footprint" StatusWarn err ""
  | (n, None) => mkCheck "Namespace footprint" StatusPass (itoa n +:+ " namespaces will be watched") ""
  end.

(** [context.WithTimeout]: the sooner of the request's deadline and the runner's. *)
Definition run_deadline (now : Z) (parent : option Z) (timeout : Z) : Z :=
  let own := time_add now (if timeout <=? 0 then 6 * Second else timeout) in
  match parent with Some d => Z.min d own | None => own end.

Definition Run (r : option Runner) (now : Z) (parent : option Z) (cfg : Config) : result string (list CheckRow) :=
  match r with
  | None => Err "preflight: nil Probe"
  | Some r =>
      match RProbe r with
      | None => Err "preflight: nil Probe"
      | Some p =>
          let d := run_deadline now parent (Timeout r) in
          Ok [k8sVersionCheck p d; prometheusCheck p d (PrometheusURL cfg); rbacCheck p d; karpenterCheck p d;
              autoscalerCheck p d; unsupportedProvisionerCheck p d; namespaceCountCheck p d]
      end
  end.

(** The endpoint. The body is read when its length is announced and positive. *)
Definition Handler_Run (r : option Runner) (now : Z) (parent : option Z) (method : string) (contentLength : Z)
    (body : result body_error Config) : result Error (list CheckRow) :=
  if negb (String.eqb method "POST") then Err MethodNotAllowed
  else match r with
  | None => Err Internal
  | Some _ =>
      match (if 0 <? contentLength then body else Ok (mkConfig "")) with
      | Err e => Err (body_response e)
      | Ok cfg => match Run r now parent cfg with Ok checks => Ok checks | Err _ => Err Internal end
      end
  end.

(** ** Numbers *)

Definition ascii_byte (c : ascii) : bool := byte_val c <? 128.

Lemma runes_cons c s : ascii_byte c = true → runes (String c s) = byte_val c :: runes s.
Proof. unfold ascii_byte, runes. cbn [String.length runes_fuel]. unfold decode_rune. by intros ->. Qed.

Lemma is_digit_ascii c : is_digit c = true → ascii_byte c = true ∧ digit_rune (byte_val c) = true ∧ 48 <= byte_val c <= 57.
Proof.
  unfold is_digit, ascii_byte, digit_rune. intros H. bool_to_prop.
  rewrite (proj2 (Z.ltb_lt _ 128)), (proj2 (Z.ltb_ge _ 48)), (proj2 (Z.ltb_ge 57 _)) by lia. split_and!; [done..|lia|lia].
Qed.

Lemma digits_val_le n s v : 0 <= n → str_all is_digit s = true → digits_val n s = Some v → n <= v.
Proof.
  revert n. induction s as [|c s IH]; intros n Hn Hd; cbn [digits_val].
  - intros [= ->]. lia.
  - cbn in Hd. bool_to_prop. destruct (is_digit_ascii c) as (_ & _ & ?); [done|].
    rewrite digit_val_spec by done. intros Hv. apply IH in Hv; [lia| |done]. lia.
Qed.

Lemma atoi_runes_digits n s v : 0 <= n → str_all is_digit s = true → digits_val n s = Some v → v < 2^63 →
  atoi_runes n (runes s) = Some v.
Proof.
  revert n. induction s as [|c s IH]; intros n Hn Hd; cbn [digits_val]; [done|].
  cbn in Hd. bool_to_prop. destruct (is_digit_ascii c) as (Ha & Hr & ?); [done|].
  rewrite digit_val_spec, runes_cons by done. cbn [atoi_runes]. rewrite Hr. intros Hv Hlt.
  pose proof (digits_val_le (n * 10 + (byte_val c - 48)) s v ltac:(lia) ltac:(done) Hv).
  unfold i64_mul. rewrite (wrap64_id (n * 10)) by (unfold in_i64; lia).
  unfold i64_add. rewrite wrap64_id by (unfold in_i64; lia). apply IH; [lia|done..].
Qed.

Lemma atoi_itoa n : 0 <= n < 2^63 → atoi (GoStr.itoa n) = Some n.
Proof.
  intros Hn. destruct (itoa_nonneg n) as (Hd & Hne & Hv); [lia|].
  unfold atoi. rewrite (proj2 (String.eqb_neq _ _) Hne). apply atoi_runes_digits; [lia|done..|lia].
Qed.

(** A fork's tag: bytes below 128, none a digit or a point. *)
Definition tag_byte (c : ascii) : bool := ascii_byte c && negb (is_digit c) && negb (Ascii.eqb c ".").

Lemma strip_tag s : str_all tag_byte s = true → stripNonDigits s = "".
Proof.
  unfold stripNonDigits. induction s as [|c s IH]; [done|]. cbn [str_all]. intros H. apply andb_prop in H as [Hc Hs].
  unfold tag_byte in Hc. apply andb_prop in Hc as [Hc _]. apply andb_prop in Hc as [Ha Hd].
  rewrite runes_cons by done. cbn [List.filter]. unfold is_digit in Hd. apply negb_true_iff in Hd. rewrite Hd. by apply IH.
Qed.

Lemma strip_digits s t : str_all is_digit s = true → stripNonDigits (s +:+ t) = s +:+ stripNonDigits t.
Proof.
  unfold stripNonDigits. induction s as [|c s IH]; [done|]. cbn [str_all]. intros H. apply andb_prop in H as [Hc Hs].
  rewrite !sapp_cons. destruct (is_digit_ascii c) as (Ha & _ & _); [done|]. rewrite runes_cons by done.
  cbn [List.filter]. unfold is_digit in Hc. rewrite Hc. cbn [of_bytes foldr]. f_equal; [|by apply IH].
  unfold chr, byte_val. by rewrite N2Z.id, ascii_N_embedding.
Qed.

Lemma atoi_bad s c t : str_all is_digit s = true → tag_byte c = true → atoi (s +:+ String c t) = None.
Proof.
  intros Hs Hc. unfold atoi. destruct (String.eqb_spec (s +:+ String c t) "") as [|_]; [done|].
  unfold tag_byte in Hc. apply andb_prop in Hc as [Hc _]. apply andb_prop in Hc as [Ha Hd].
  generalize 0. induction s as [|a s IH]; intros n.
  - change ("" +:+ String c t) with (String c t). rewrite runes_cons by done. cbn [atoi_runes].
    assert (digit_rune (byte_val c) = false) as ->; [|done].
    unfold digit_rune, is_digit in *. destruct (Z.ltb_spec (byte_val c) 48), (Z.ltb_spec 57 (byte_val c)); cbn in *; bool_to_prop; try done; lia.
  - cbn in Hs. apply andb_prop in Hs as [Hda Hs]. destruct (is_digit_ascii a) as (Haa & Hra & _); [done|].
    rewrite sapp_cons, runes_cons by done. cbn [atoi_runes]. rewrite Hra. by apply IH.
Qed.

Lemma trim_plus s tag : str_all is_digit s = true → str_all tag_byte tag = true →
  ∃ tag', trim_suffix (s +:+ tag) "+" = s +:+ tag' ∧ str_all tag_byte tag' = true.
Proof.
  intros Hs Htag. unfold trim_suffix, strip_suffix. rewrite rev_sapp. change (String.rev "+") with "+".
  rewrite <-str_all_rev in Hs. pose proof Htag as Hr. rewrite <-str_all_rev in Hr.
  destruct (String.rev tag) as [|c u] eqn:Et.
  - exists tag. split; [|done]. change ("" +:+ String.rev s) with (String.rev s).
    destruct (String.rev s) as [|c r]; [done|]. cbn in Hs. apply andb_prop in Hs as [Hc _].
    cbn [strip_prefix]. destruct (Ascii.eqb_spec "+" c) as [<-|]; [discriminate Hc|done].
  - rewrite sapp_cons. cbn [strip_prefix]. destruct (Ascii.eqb_spec "+" c) as [<-|]; [|by exists tag].
    exists (String.rev u). cbn. rewrite rev_sapp, rev_involutive. split; [done|].
    cbn in Hr. by rewrite str_all_rev.
Qed.

(** The minor part of a version is read through any tag. *)
Lemma minor_read n tag : 0 <= n < 2^63 → str_all tag_byte tag = true →
  match atoi (trim_suffix (GoStr.itoa n +:+ tag) "+") with
  | Some m => Some m | None => atoi (stripNonDigits (GoStr.itoa n +:+ tag)) end = Some n.
Proof.
  intros Hn Htag. destruct (itoa_nonneg n) as (Hd & Hne & _); [lia|].
  rewrite strip_digits, strip_tag, sapp_nil_r, atoi_itoa by done.
  destruct (trim_plus (GoStr.itoa n) tag Hd Htag) as (tag' & -> & Ht').
  destruct tag' as [|c t]; [by rewrite sapp_nil_r, atoi_itoa by done|].
  cbn in Ht'. apply andb_prop in Ht' as [Hc _]. by rewrite atoi_bad by done.
Qed.

(** A version as the API server writes it: an optional [v], the two numbers, a tag, and
    whatever follows the next point. *)
Lemma version_order (pre tail tag : string) (major minor wantMajor wantMinor : Z) :
  pre = "" ∨ pre = "v" → 0 <= major < 2^63 → 0 <= minor < 2^63 → str_all tag_byte tag = true →
  tail = "" ∨ has_prefix tail "." = true →
  versionAtLeast (pre +:+ GoStr.itoa major +:+ "." +:+ (GoStr.itoa minor +:+ tag) +:+ tail) wantMajor wantMinor = true ↔
  wantMajor < major ∨ wantMajor = major ∧ wantMinor <= minor.
Proof.
  intros Hpre Hmaj Hmin Htag Htail. set (m := GoStr.itoa minor +:+ tag).
  destruct (itoa_nonneg major) as (Hdmaj & Hnmaj & _); [lia|]. destruct (itoa_nonneg minor) as (Hdmin & Hnmin & _); [lia|].
  assert (no_byte "." m = true) as Hm.
  { unfold m. rewrite no_byte_app. apply andb_true_intro. split; [by apply digits_no_byte|].
    eapply str_all_impl; [|exact Htag]. intros c Hc. unfold tag_byte in Hc. by apply andb_prop in Hc as [_ ?]. }
  assert (trim_prefix (pre +:+ GoStr.itoa major +:+ "." +:+ m +:+ tail) "v" = GoStr.itoa major +:+ String "." (m +:+ tail)) as Htrim.
  { destruct Hpre as [->| ->]; unfold trim_prefix; [|by rewrite strip_prefix_app].
    change ("" +:+ GoStr.itoa major +:+ "." +:+ m +:+ tail) with (GoStr.itoa major +:+ String "." (m +:+ tail)).
    destruct (GoStr.itoa major) as [|c r]; [done|]. cbn in Hdmaj. apply andb_prop in Hdmaj as [Hc _]. rewrite sapp_cons. cbn [strip_prefix].
    destruct (Ascii.eqb_spec "v" c) as [<-|]; [discriminate Hc|done]. }
  unfold versionAtLeast, split_version. rewrite Htrim, split_byte_app by by apply digits_no_byte.
  assert (∃ rest, split_byte "." (m +:+ tail) = m :: rest) as (rest & ->).
  { destruct Htail as [->|Ht]; [rewrite sapp_nil_r, split_byte_none by done; by exists []|].
    unfold has_prefix in Ht. destruct (strip_prefix "." tail) as [t|] eqn:E; [|done]. apply strip_prefix_Some in E as ->.
    change ("." +:+ t) with (String "." t). rewrite split_byte_app by done. by eexists. }
  rewrite atoi_itoa by done. unfold m. rewrite minor_read by done.
  destruct (Z.ltb_spec wantMajor major), (Z.ltb_spec major wantMajor); try (split; [lia|done]); [split; [done|lia]|].
  rewrite Z.leb_le. lia.
Qed.

Lemma itoa_digits_spec fuel n s : 0 <= n < 10 ^ Z.of_nat fuel → itoa_digits fuel n s = pretty_N_go (Z.to_N n) s.
Proof.
  revert n s. induction fuel as [|fuel IH]; intros n s Hn; cbn [itoa_digits].
  - change (10 ^ Z.of_nat 0) with 1 in Hn. by assert (n = 0) as -> by lia.
  - destruct (Z.leb_spec n 0); [by assert (n = 0) as -> by lia|].
    rewrite Nat2Z.inj_succ, Z.pow_succ_r in Hn by lia.
    rewrite Z.quot_div_nonneg, Z.rem_mod_nonneg by lia. rewrite IH by (split; [apply Z.div_pos|apply Z.div_lt_upper_bound]; lia).
    rewrite (pretty_N_go_step (Z.to_N n)) by lia. rewrite Z2N.inj_div by lia. f_equal. f_equal.
    change 10%N with (Z.to_N 10). rewrite <-Z2N.inj_mod by lia.
    pose proof (Z.mod_pos_bound n 10 ltac:(lia)).
    assert (n mod 10 = 0 ∨ n mod 10 = 1 ∨ n mod 10 = 2 ∨ n mod 10 = 3 ∨ n mod 10 = 4 ∨ n mod 10 = 5 ∨ n mod 10 = 6 ∨
      n mod 10 = 7 ∨ n mod 10 = 8 ∨ n mod 10 = 9) as Hd by lia.
    by destruct_or! Hd; rewrite Hd.
Qed.

(** The hand-written [itoa] is the decimal rendering, the least integer apart. *)
Lemma itoa_agrees n : in_i64 n → itoa n = if n =? - 2^63 then "-" else GoStr.itoa n.
Proof.
  intros Hn. unfold itoa. destruct (Z.eqb_spec n 0) as [->|]; [done|].
  destruct (Z.eqb_spec n (- 2^63)) as [->|Hmin]; [by vm_compute|].
  unfold in_i64 in Hn. destruct (Z.ltb_spec n 0).
  - unfold i64_neg. rewrite wrap64_id, itoa_digits_spec by (unfold in_i64; lia). rewrite itoa_neg by done. by destruct n.
  - rewrite itoa_digits_spec by lia. by destruct n.
Qed.

(** ** The page *)

(** What stops an install: an API server that does not answer or is too old, a Prometheus that
    was named and does not answer, rights that are missing, a provisioner without an adapter. *)
Definition blocked (p : Probe) (d : Z) (url : string) : Prop :=
  (is_Some (snd (K8sServerVersion p d)) ∨ versionAtLeast (fst (K8sServerVersion p d)) 1 28 = false) ∨
  (url ≠ "" ∧ (is_Some (snd (PrometheusReachable p d url)) ∨ fst (PrometheusReachable p d url) = false)) ∨
  (is_Some (snd (HasRBAC p d rbac_verbs rbac_resources)) ∨ fst (HasRBAC p d rbac_verbs rbac_resources) = false) ∨
  (∃ names, DetectUnsupportedProvisioners p d = (names, None) ∧ names ≠ []).

Ltac fails_iff := cbn; split; first [done|intros _; left; by eexists|by right|by intros [[? ?]|?]].

Lemma k8s_fails p d : CheckStatus (k8sVersionCheck p d) = StatusFail ↔
  is_Some (snd (K8sServerVersion p d)) ∨ versionAtLeast (fst (K8sServerVersion p d)) 1 28 = false.
Proof. unfold k8sVersionCheck, is_Some. destruct (K8sServerVersion p d) as [v [e|]]; cbn; [fails_iff|]. destruct (versionAtLeast v 1 28); fails_iff. Qed.

Lemma prometheus_fails p d url : CheckStatus (prometheusCheck p d url) = StatusFail ↔
  url ≠ "" ∧ (is_Some (snd (PrometheusReachable p d url)) ∨ fst (PrometheusReachable p d url) = false).
Proof.
  unfold prometheusCheck, is_Some. destruct (String.eqb_spec url "") as [->|]; [by split; [|intros []]|].
  trans (is_Some (snd (PrometheusReachable p d url)) ∨ fst (PrometheusReachable p d url) = false); [|tauto].
  destruct (PrometheusReachable p d url) as [[] [e|]]; fails_iff.
Qed.

Lemma rbac_fails p d : CheckStatus (rbacCheck p d) = StatusFail ↔
  is_Some (snd (HasRBAC p d rbac_verbs rbac_resources)) ∨ fst (HasRBAC p d rbac_verbs rbac_resources) = false.
Proof. unfold rbacCheck, is_Some. destruct (HasRBAC p d rbac_verbs rbac_resources) as [[] [e|]]; fails_iff. Qed.

Lemma provisioner_fails p d : CheckStatus (unsupportedProvisionerCheck p d) = StatusFail ↔
  ∃ names, DetectUnsupportedProvisioners p d = (names, None) ∧ names ≠ [].
Proof. unfold unsupportedProvisionerCheck. destruct (DetectUnsupportedProvisioners p d) as [[|n ns] [e|]]; cbn; split; first [done|by eauto|by intros (? & [= <-] & ?)]. Qed.

Lemma advisory_rows p d : CheckStatus (karpenterCheck p d) ≠ StatusFail ∧ CheckStatus (autoscalerCheck p d) ≠ StatusFail ∧
  CheckStatus (namespaceCountCheck p d) ≠ StatusFail.
Proof. unfold karpenterCheck, autoscalerCheck, namespaceCountCheck. repeat case_match; done. Qed.

(** The preview has its seven rows in their order whatever the cluster answers, each asked
    under the one deadline, and a row fails exactly when the install would be [blocked]. *)
Theorem preflight_page (p : Probe) (timeout now : Z) (parent : option Z) (url : string) : ∃ rows,
  Run (Some (mkRunner (Some p) timeout)) now parent (mkConfig url) = Ok rows ∧
  map CheckName rows = ["Kubernetes 1.28+"; (if String.eqb url "" then "Prometheus URL" else "Prometheus reachable");
    "ServiceAccount RBAC"; "Karpenter detected"; "cluster-autoscaler detected"; "Unsupported provisioner gate"; "Namespace footprint"] ∧
  ((∃ row, row ∈ rows ∧ CheckStatus row = StatusFail) ↔ blocked p (run_deadline now parent timeout) url).
Proof.
  eexists. split; [reflexivity|]. cbn [Timeout PrometheusURL]. set (d := run_deadline now parent timeout).
  split.
  - unfold k8sVersionCheck, prometheusCheck, rbacCheck, karpenterCheck, autoscalerCheck, unsupportedProvisionerCheck,
      namespaceCountCheck. cbn. repeat f_equal; repeat case_match; done.
  - unfold blocked. rewrite <-k8s_fails, <-prometheus_fails, <-rbac_fails, <-provisioner_fails.
    destruct (advisory_rows p d) as (Hk & Ha & Hn). rewrite <-(Exists_exists (λ row, CheckStatus row = StatusFail)).
    rewrite !Exists_cons, Exists_nil. tauto.
Qed.

(** A cluster that is ready. *)
Definition demo_probe : Probe :=
  mkProbe (λ _, ("v1.30.5", None)) (λ _ _, (true, None)) (λ _, (true, None)) (λ _, (false, None)) (λ _ _ _, (true, None))
    (λ _, (12, None)) (λ _, ([], None)).

(** The page of the preview against a ready cluster, and where its answers part from what they say:
    a fork's tag with digits counts as minor version, so 1.24 passes the floor of 1.28; a cluster
    whose provisioners cannot be probed is only warned about, though the gate is to fail closed; a
    body whose length is not announced is not read; and the five resources are called six. *)
Lemma preflight_divergences :
  (∃ rows, Handler_Run (Some (mkRunner (Some demo_probe) 0)) 0 None "POST" 0 (Err NotJSON) = Ok rows ∧
    map CheckStatus rows = [StatusPass; StatusWarn; StatusPass; StatusPass; StatusWarn; StatusPass; StatusPass]) ∧
  versionAtLeast "v1.24-eks1.2" 1 28 = true ∧ versionAtLeast "v1.24" 1 28 = false ∧
  (∀ p d names err, DetectUnsupportedProvisioners p d = (names, Some err) →
     CheckStatus (unsupportedProvisionerCheck p d) = StatusWarn) ∧
  (∀ r now parent len body, len <= 0 → Handler_Run r now parent "POST" len body = Handler_Run r now parent "POST" 0 (Err NotJSON)) ∧
  length rbac_resources = 5%nat.
Proof.
  split_and!; [eexists; split; [reflexivity|by vm_compute]|by vm_compute..| | |done].
  - intros p d names err E. unfold unsupportedProvisionerCheck. rewrite E. by destruct names.
  - intros r now parent len body Hlen. unfold Handler_Run. by rewrite (proj2 (Z.ltb_ge 0 len)) by done.
Qed.
