(* ===== verification/Registry.v ===== *)
(** The backend's registries of named parts: cost sources (backend/internal/billing), source
    control (backend/internal/vcs), readiness checks (backend/internal/platform/healthz) and
    the feature flags (backend/internal/platform/featureflags).  Each registry is a map from
    names, filled at boot; a [panic] is [None]. *)

From S2P Require Import Prelude GoNum GoStr GoTime Tenancy Dispatcher.
Local Open Scope Z_scope.

(** ** The registry the packages share in shape *)

Section Registry.
Context {V : Type}.
Implicit Types r : gmap string V.

Definition register (r : gmap string V) (name : string) (v : V) : option (gmap string V) :=
  if String.eqb name "" then None
  else match r !! name with Some _ => None | None => Some (<[name := v]> r) end.

Definition sorted_names `{GoMapOrder} (r : gmap string V) : list string := sortStrings (fst <$> map_iter r).

(** Filling an empty registry, one entry after the other. *)
Definition fill (vs : list (string * V)) : option (gmap string V) :=
  foldl (λ acc v, match acc with Some r => register r v.1 v.2 | None => None end) (Some ∅) vs.

Lemma sorted_names_perm `{GoMapOrder} r : sorted_names r ≡ₚ (map_to_list r).*1.
Proof. etrans; [apply sortStrings_spec|]. by rewrite map_iter_perm. Qed.

(** The listing is in order and does not depend on how the map is ranged over. *)
Lemma sorted_names_canonical `{O : GoMapOrder, O' : GoMapOrder} r : sorted_names (H := O) r = sorted_names (H := O') r.
Proof.
  eapply (sorted_by_unique String.ltb); [|apply sortStrings_spec..|by rewrite (sorted_names_perm (H := O)), (sorted_names_perm (H := O'))].
  intros x y _ _. unfold equiv_key. rewrite andb_true_iff, !negb_true_iff. intros [? ?]. by apply ltb_false_eq.
Qed.

Lemma elem_sorted_names `{GoMapOrder} r n : n ∈ sorted_names r ↔ is_Some (r !! n).
Proof.
  rewrite (elem_of_Permutation_proper _ _ _ (sorted_names_perm r)), list_elem_of_fmap. split.
  - intros ([k v] & -> & Hm). apply elem_of_map_to_list in Hm. by eexists.
  - intros [v Hv]. exists (n, v). by rewrite elem_of_map_to_list.
Qed.

Lemma fill_None vs : foldl (λ acc v, match acc with Some r => register r v.1 v.2 | None => None end) None vs = None.
Proof. by induction vs. Qed.

(** A registry fills without a panic exactly when the names are all given and distinct; it then
    holds the entries, and nothing else. *)
Lemma fill_spec vs : fill vs = if decide (NoDup vs.*1 ∧ "" ∉ vs.*1) then Some (list_to_map vs) else None.
Proof.
  induction vs as [|[n v] vs IH] using rev_ind; [by vm_compute|].
  unfold fill in *. rewrite foldl_app, IH. clear IH. cbn [foldl fst snd].
  assert (NoDup (vs ++ [(n, v)]).*1 ∧ "" ∉ (vs ++ [(n, v)]).*1 ↔ (NoDup vs.*1 ∧ "" ∉ vs.*1) ∧ n ≠ "" ∧ n ∉ vs.*1) as Hiff.
  { rewrite !fmap_app, NoDup_app, not_elem_of_app. cbn [fmap list_fmap fst].
    setoid_rewrite list_elem_of_singleton. pose proof (NoDup_singleton n). naive_solver. }
  rewrite (decide_ext _ _ _ _ Hiff). clear Hiff.
  destruct (decide (NoDup vs.*1 ∧ "" ∉ vs.*1)) as [[Hnd Hne]|Hno]; [|by rewrite decide_False by tauto].
  unfold register. destruct (String.eqb_spec n "") as [->|Hn]; [by rewrite decide_False by tauto|].
  destruct (list_to_map vs !! n) as [w|] eqn:E.
  - apply elem_of_list_to_map_2, (list_elem_of_fmap_2 fst) in E. by rewrite decide_False by tauto.
  - apply not_elem_of_list_to_map_2 in E. rewrite decide_True by done. f_equal. symmetry. by apply list_to_map_snoc.
Qed.
End Registry.

(** ** Cost sources *)

Module Billing.
Record Window := mkWindow { Start : Z; End : Z }.
Inductive error := ErrInvalidWindow | ErrTenant (e : tenancy_error) | ErrNotImplemented | ErrNotRegistered (name : string).

Definition Window_Validate (w : Window) : option error :=
  if time_before (End w) (Start w) || (End w =? Start w) then Some ErrInvalidWindow else None.

Record LineItem := mkItem {
  ClusterID : string; WorkloadID : string; Resource : string; UsageQty : float64; UnitUSDCents : Z;
  ItemUSDCents : Z; ItemCurrency : string }.
Record Result := mkResult {
  RSource : string; RCloud : string; RTier : string; RWindow : Window; Items : list LineItem; RCurrency : string }.

Definition skipped (it : LineItem) : bool := negb (String.eqb (ItemCurrency it) "") && negb (String.eqb (ItemCurrency it) "USD").
Definition TotalUSDCents (r : Result) : Z :=
  foldl (λ sum it, if skipped it then sum else i64_add sum (ItemUSDCents it)) 0 (Items r).

Record Source := mkSource {
  Name : string; Cloud : string; Tier : string; Query : TenantContext → Window → result error Result }.

Definition stub_query (t : TenantContext) (w : Window) : result error Result :=
  match TenantContext_Validate t with
  | Some e => Err (ErrTenant e)
  | None => match Window_Validate w with Some e => Err e | None => Err ErrNotImplemented end
  end.
Definition AWSCUR : Source := mkSource "aws-cur" "aws" "cloud" stub_query.
Definition Capacity : Source := mkSource "capacity" "" "capacity" stub_query.

(** What a source promises the aggregation: nothing is read for a request without a tenant. *)
Class Isolated (s : Source) := query_needs_tenant t w : TenantID t = "" → ∃ e, Query s t w = Err e.

Definition Register (r : gmap string Source) (s : option Source) : option (gmap string Source) :=
  match s with Some s => register r (Name s) s | None => None end.
Definition Lookup (r : gmap string Source) (name : string) : result error Source :=
  match r !! name with Some s => Ok s | None => Err (ErrNotRegistered name) end.
Definition Names `{GoMapOrder} (r : gmap string Source) : list string := sorted_names r.

#[export] Instance AWSCUR_isolated : Isolated AWSCUR.
Proof. intros t w Ht. cbn. unfold stub_query, TenantContext_Validate. rewrite Ht. by eexists. Qed.
#[export] Instance Capacity_isolated : Isolated Capacity.
Proof. intros t w Ht. cbn. unfold stub_query, TenantContext_Validate. rewrite Ht. by eexists. Qed.

(** The total is the sum of the dollar items, modulo 2^64; an item in another currency does not
    count. *)
Definition sum_items (l : list LineItem) : Z := foldr (λ it n, ItemUSDCents it + n) 0 l.

Lemma total_from l n : foldl (λ sum it, if skipped it then sum else i64_add sum (ItemUSDCents it)) (wrap64 n) l =
  wrap64 (n + sum_items (List.filter (λ it, negb (skipped it)) l)).
Proof.
  unfold sum_items. revert n. induction l as [|it l IH]; intros n; cbn [foldl List.filter]; [cbn; by rewrite Z.add_0_r|].
  destruct (skipped it); cbn [negb foldr]; [apply IH|].
  unfold i64_add. rewrite wrap64_add_l, IH. f_equal. lia.
Qed.

Lemma total_usd r : TotalUSDCents r = wrap64 (sum_items (List.filter (λ it, negb (skipped it)) (Items r))).
Proof. exact (total_from (Items r) 0). Qed.
End Billing.

(** ** Source control *)

Module Vcs.
Definition ProviderGitHub : string := "github".
Record Repo := mkRepo { RProvider : string; Owner : string; RepoName : string }.
Definition Repo_String (r : Repo) : string := RProvider r +:+ ":" +:+ Owner r +:+ "/" +:+ RepoName r.
End Vcs.

(** ** Readiness *)

Module Health.
(** A check answers with its error if the dependency is not reachable by the deadline. *)
Definition CheckFunc : Type := Z → option string.
Record Result := mkResult { RName : string; OK : bool; RError : string; Latency : Z }.
Definition Registry : Type := gmap string CheckFunc.

Definition Register (r : Registry) (name : string) (fn : option CheckFunc) : option Registry :=
  match fn with Some fn => register r name fn | None => None end.

(** [clock] reads the time before and after a check. *)
Definition run_one (clock : string → Z * Z) (timeout : Z) (name : string) (fn : CheckFunc) : Result :=
  let '(start, stop) := clock name in
  match fn (start + timeout) with
  | None => mkResult name true "" (time_sub stop start)
  | Some e => mkResult name false e (time_sub stop start)
  end.

(** A check is never removed: every name has its function. *)
Definition run_step (clock : string → Z * Z) (timeout : Z) (r : Registry) (acc : list Result * bool) (n : string) : list Result * bool :=
  match r !! n with
  | Some fn => let res := run_one clock timeout n fn in (acc.1 ++ [res], if OK res then acc.2 else false)
  | None => acc
  end.

Definition Run `{GoMapOrder} (clock : string → Z * Z) (timeout : Z) (r : Registry) : list Result * bool :=
  foldl (run_step clock timeout r) ([], true) (sorted_names r).
Definition Names `{GoMapOrder} (r : Registry) : list string := sorted_names r.
Definition AlwaysOK : CheckFunc := λ _, None.

Definition passes (clock : string → Z * Z) (timeout : Z) (n : string) (fn : CheckFunc) : Prop := fn ((clock n).1 + timeout) = None.

Lemma run_one_spec clock timeout n fn : RName (run_one clock timeout n fn) = n ∧
  (OK (run_one clock timeout n fn) = true ↔ passes clock timeout n fn) ∧
  Latency (run_one clock timeout n fn) = time_sub (clock n).2 (clock n).1.
Proof. unfold run_one, passes. destruct (clock n) as [a b]. cbn [fst snd]. by destruct (fn (a + timeout)). Qed.

Lemma run_steps clock timeout r names acc : Forall (λ n, is_Some (r !! n)) names →
  let out := foldl (run_step clock timeout r) acc names in
  (map RName out.1 = map RName acc.1 ++ names) ∧
  (out.2 = true ↔ acc.2 = true ∧ ∀ n fn, n ∈ names → r !! n = Some fn → passes clock timeout n fn).
Proof.
  intros Hall. revert acc. induction Hall as [|n names [fn E] Hall IH]; intros acc; cbn [foldl]; cbv zeta.
  { rewrite app_nil_r. split; [done|]. split; [|by intros [? _]]. intros ->. split; [done|]. by intros n fn ?%elem_of_nil. }
  destruct (run_one_spec clock timeout n fn) as (Hn & Hok & _).
  destruct (IH (run_step clock timeout r acc n)) as [H1 H2]. unfold run_step in *. rewrite E in *. cbn [fst snd] in *. split.
  - rewrite H1, map_app. cbn [map]. by rewrite Hn, <-app_assoc.
  - rewrite H2. destruct (OK (run_one clock timeout n fn)) eqn:Eo.
    + split; intros [Ha Hrest]; (split; [done|]); intros m f; [|intros Hm; apply Hrest; by right].
      intros [->|Hm]%elem_of_cons Hf; [|by eapply Hrest]. rewrite E in Hf. injection Hf as <-. by apply Hok.
    + split; [by intros [? _]|]. intros [_ Hrest]. exfalso. assert (false = true); [|done]. apply Hok. apply (Hrest n fn); [by left|done].
Qed.

(** Readiness: one row per registered check, by name, and all is well exactly when every check
    passes - whatever order the map is ranged over in. *)
Lemma health_run `{O : GoMapOrder} clock timeout r :
  map RName (Run clock timeout r).1 = Names r ∧
  ((Run clock timeout r).2 = true ↔ ∀ n fn, r !! n = Some fn → passes clock timeout n fn) ∧
  (∀ O' : GoMapOrder, @Run O' clock timeout r = Run clock timeout r).
Proof.
  unfold Run, Names. destruct (run_steps clock timeout r (sorted_names r) ([], true)) as [H1 H2].
  { apply Forall_forall. intros n Hn. by apply elem_sorted_names in Hn. }
  cbv zeta in *. split_and!; [done| |intros O'; by rewrite (sorted_names_canonical (O := O') (O' := O))].
  rewrite H2. split.
  - intros [_ Hp] n fn E. apply Hp; [|done]. apply elem_sorted_names. by eexists.
  - intros Hp. split; [done|]. eauto.
Qed.
End Health.

(** ** Feature flags *)

Module Flags.
(** The provider's answers; a value of any kind falls back to the default given. *)
Record EvalContext := mkEval { ETenantID : string; EWorkspaceID : string; UserID : string }.
Definition EvalFromTenant (t : TenantContext) : EvalContext := mkEval (TenantID t) (WorkspaceID t) "".

Record Provider := mkProvider {
  BoolValue : string → bool → EvalContext → bool;
  StringValue : string → string → EvalContext → string;
  NumberValue : string → float64 → EvalContext → float64 }.

(** A client holds its provider, if one is set. *)
Definition Client : Type := option Provider.
Definition Set_ (c : Client) (p : option Provider) : Client := p.
Definition Bool (c : Client) (flag : string) (def : bool) (e : EvalContext) : bool :=
  match c with None => def | Some p => BoolValue p flag def e end.
Definition String_ (c : Client) (flag def : string) (e : EvalContext) : string :=
  match c with None => def | Some p => StringValue p flag def e end.
Definition Number (c : Client) (flag : string) (def : float64) (e : EvalContext) : float64 :=
  match c with None => def | Some p => NumberValue p flag def e end.

Definition NoopProvider : Provider := mkProvider (λ _ d _, d) (λ _ d _, d) (λ _ d _, d).

Record StaticProvider := mkStatic { Bools : gmap string bool; Strings : gmap string string; Numbers : gmap string float64 }.
Definition NewStaticProvider : StaticProvider := mkStatic ∅ ∅ ∅.
Definition static (s : StaticProvider) : Provider :=
  mkProvider (λ f d _, default d (Bools s !! f)) (λ f d _, default d (Strings s !! f)) (λ f d _, default d (Numbers s !! f)).

(** Without a flag service every flag is its default; a static provider overrides exactly the
    flags it holds, for every tenant alike. *)
Lemma flags_default s e : (∀ f d, Bool (Some NoopProvider) f d e = d ∧ Bool None f d e = d) ∧
  (∀ f d, Bool (Some (static s)) f d e = from_option id d (Bools s !! f)) ∧
  (∀ f d e', String_ (Some (static s)) f d e = String_ (Some (static s)) f d e').
Proof. done. Qed.
End Flags.
