(* ===== verification/Duration.v ===== *)
(** Go's [Duration.String] and [time.ParseDuration], which the configuration and the dashboard
    responses read and write. *)

From Stdlib Require Import Ascii.
From S2P Require Import Prelude GoNum GoStr Lines GoTime.
Local Open Scope Z_scope.

Definition Microsecond : Z := 1000.
Definition Millisecond : Z := 1000000.
Definition micro_sign : string := bytes [194; 181]%nat.
Definition greek_mu : string := bytes [206; 188]%nat.

(** ** Printing *)

(** [fmtFrac]: the last [prec] digits as a fraction, without its trailing zeros, and no point
    when nothing is left. *)
Definition fmtFrac (u : Z) (prec : nat) : string :=
  let digits := trim_right (λ c, Ascii.eqb c "0") (pad_left prec (itoa (u mod 10 ^ Z.of_nat prec))) in
  if String.eqb digits "" || (prec =? 0)%nat then "" else "." +:+ digits.

Definition format_abs (u : Z) : string :=
  let unit prec name := itoa (u / 10 ^ Z.of_nat prec) +:+ fmtFrac u prec +:+ name in
  if u =? 0 then "0s"
  else if u <? Microsecond then unit 0%nat "ns"
  else if u <? Millisecond then unit 3%nat (micro_sign +:+ "s")
  else if u <? Second then unit 6%nat "ms"
  else
    let secs := u / Second in
    let s := itoa (secs mod 60) +:+ fmtFrac u 9 +:+ "s" in
    let mins := secs / 60 in
    if mins <=? 0 then s
    else
      let hours := mins / 60 in
      (if 0 <? hours then itoa hours +:+ "h" else "") +:+ itoa (mins mod 60) +:+ "m" +:+ s.

Definition duration_String (d : Z) : string :=
  (if d <? 0 then "-" else "") +:+ format_abs (Z.abs d).

Example duration_strings :
  map duration_String [0; 999; 1500; 2500000; 3 * Second; 10 * Minute; 30 * Minute; 35 * 24 * Hour; 90 * Second + 500000000; - 2^63] =
  ["0s"; "999ns"; "1.5" +:+ micro_sign +:+ "s"; "2.5ms"; "3s"; "10m0s"; "30m0s"; "840h0m0s"; "1m30.5s"; "-2562047h47m16.854775808s"].
Proof. by vm_compute. Qed.

(** ** Parsing *)

(** [leadingInt]: the digits at the head; [None] past 2^63. *)
Fixpoint leadingInt (x : Z) (s : string) : option (Z * string) :=
  match s with
  | String c s' =>
      match digit_val c with
      | Some d =>
          if 2^63 / 10 <? x then None
          else let x := x * 10 + d in if 2^63 <? x then None else leadingInt x s'
      | None => Some (x, s)
      end
  | EmptyString => Some (x, "")
  end.

(** [leadingFraction]: the digits of a fraction with their scale; digits past the range are
    dropped. *)
Fixpoint leadingFraction (x : Z) (scale : float64) (overflow : bool) (s : string) : Z * float64 * string :=
  match s with
  | String c s' =>
      match digit_val c with
      | Some d =>
          if overflow then leadingFraction x scale true s'
          else if (2^63 - 1) / 10 <? x then leadingFraction x scale true s'
          else
            let y := x * 10 + d in
            if 2^63 <? y then leadingFraction x scale true s'
            else leadingFraction y (f_mul scale (f_of_Z 10)) false s'
      | None => (x, scale, s)
      end
  | EmptyString => (x, scale, "")
  end.

(** The unit: the bytes up to the next digit or point. *)
Definition unit_byte (c : ascii) : bool := negb (Ascii.eqb c "." || match digit_val c with Some _ => true | None => false end).
Fixpoint leading_unit (s : string) : string * string :=
  match s with
  | String c s' => if unit_byte c then let '(u, rest) := leading_unit s' in (String c u, rest) else ("", s)
  | EmptyString => ("", "")
  end.

Definition unitMap (u : string) : option Z :=
  if String.eqb u "ns" then Some 1
  else if String.eqb u "us" || String.eqb u (micro_sign +:+ "s") || String.eqb u (greek_mu +:+ "s") then Some Microsecond
  else if String.eqb u "ms" then Some Millisecond
  else if String.eqb u "s" then Some Second
  else if String.eqb u "m" then Some Minute
  else if String.eqb u "h" then Some Hour
  else None.

Definition shorter (s' s : string) : bool := (String.length s' <? String.length s)%nat.

(** The fraction after a point, if there is one, and whether it has digits. *)
Definition fraction (s : string) : Z * float64 * string * bool :=
  match strip_prefix "." s with
  | Some s1 => let '(f, scale, s2) := leadingFraction 0 (f_of_Z 1) false s1 in (f, scale, s2, shorter s2 s1)
  | None => (0, f_of_Z 1, s, false)
  end.

(** One number with its unit, and the rest; every one takes at least a byte. *)
Definition parse_component (s : string) : option (Z * string) :=
  match s with
  | String c _ =>
      if negb (Ascii.eqb c "." || match digit_val c with Some _ => true | None => false end) then None
      else match leadingInt 0 s with
      | None => None
      | Some (v, s1) =>
          let pre := shorter s1 s in
          let '(f, scale, s2, post) := fraction s1 in
          if negb pre && negb post then None
          else
            let '(u, rest) := leading_unit s2 in
            match unitMap u with
            | None => None
            | Some unit =>
                if 2^63 / unit <? v then None
                else
                  let v := v * unit in
                  let v := if 0 <? f then v + f_trunc (f_mul (f_of_Z f) (f_div (f_of_Z unit) scale)) else v in
                  if (0 <? f) && (2^63 <? v) then None else Some (v, rest)
            end
      end
  | EmptyString => None
  end.

Fixpoint parse_components (fuel : nat) (d : Z) (s : string) : option Z :=
  match fuel, s with
  | _, EmptyString => Some d
  | O, _ => None
  | S fuel, _ =>
      match parse_component s with
      | None => None
      | Some (v, rest) => let d := d + v in if 2^63 <? d then None else parse_components fuel d rest
      end
  end.

Definition ParseDuration (s : string) : option Z :=
  let '(neg, s) := match s with
    | String "-"%char s' => (true, s') | String "+"%char s' => (false, s') | _ => (false, s) end in
  if String.eqb s "0" then Some 0
  else if String.eqb s "" then None
  else match parse_components (String.length s) 0 s with
  | None => None
  | Some d => if neg then Some (- d) else if 2^63 - 1 <? d then None else Some d
  end.

Example parse_durations :
  map ParseDuration ["30s"; "1h2m3.5s"; "10m"; "-1.5h"; "0"; "5"; "1d"; ".s"; "100" +:+ micro_sign +:+ "s"; "9223372036854775807ns"; "9223372036854775808ns"; "-9223372036854775808ns"; ""] =
  [Some (30 * Second); Some (3723 * Second + 500000000); Some (10 * Minute); Some (- 90 * Minute); Some 0; None; None; None;
   Some 100000; Some (2^63 - 1); None; Some (- 2^63); None].
Proof. by vm_compute. Qed.

(** ** The fuel *)

Lemma leadingInt_suffix s x v rest : leadingInt x s = Some (v, rest) → (String.length rest <= String.length s)%nat.
Proof.
  revert x. induction s as [|c s IH]; intros x; cbn; [by intros [= _ <-]|].
  destruct (digit_val c); [|intros [= _ <-]; done]. repeat case_match; try done. intros ?%IH. lia.
Qed.

Lemma leadingFraction_suffix s x scale o : (String.length (leadingFraction x scale o s).2 <= String.length s)%nat.
Proof.
  revert x scale o. induction s as [|c s IH]; intros x scale o; cbn; [done|].
  destruct (digit_val c); [|done]. repeat case_match; etrans; try apply IH; lia.
Qed.

Lemma leading_unit_suffix s : s = (leading_unit s).1 +:+ (leading_unit s).2.
Proof. induction s as [|c s IH]; cbn; [done|]. destruct (unit_byte c); [|done]. destruct (leading_unit s). cbn in *. by rewrite IH. Qed.

Lemma fraction_suffix s : (String.length (fraction s).1.2 <= String.length s)%nat.
Proof.
  unfold fraction. destruct (strip_prefix "." s) as [t|] eqn:E; [|done]. apply strip_prefix_Some in E as ->.
  pose proof (leadingFraction_suffix t 0 (f_of_Z 1) false). destruct (leadingFraction _ _ _ t) as [[? ?] ?].
  rewrite slength_app. cbn in *. lia.
Qed.

Lemma parse_component_shorter s v rest : parse_component s = Some (v, rest) → (String.length rest < String.length s)%nat.
Proof.
  unfold parse_component. destruct s as [|c0 s0] eqn:Es; [done|]. rewrite <-Es. destruct (negb _); [done|].
  destruct (leadingInt 0 s) as [[v1 s1]|] eqn:Ei; [|done]. apply leadingInt_suffix in Ei.
  pose proof (fraction_suffix s1) as Hm. destruct (fraction s1) as [[[f scale] s2] post]. cbn [fst snd] in Hm. destruct (_ && _); [done|].
  pose proof (leading_unit_suffix s2) as Hu. destruct (leading_unit s2) as [u r]. cbn [fst snd] in Hu.
  destruct u as [|cu u]; [done|]. destruct (unitMap _) as [unit|]; [|done].
  apply (f_equal String.length) in Hu. rewrite slength_app in Hu. cbn [String.length] in Hu.
  destruct (_ <? v1); [done|]. destruct (_ && _); [done|]. intros [= _ <-]. lia.
Qed.

(** Any fuel as long as the text gives the same answer: the loop ends by itself. *)
Lemma parse_components_fuel n m d s : (String.length s <= n)%nat → (String.length s <= m)%nat →
  parse_components n d s = parse_components m d s.
Proof.
  revert m d s. induction n as [|n IH]; intros m d s Hn Hm.
  { destruct s; [by destruct m|cbn in Hn; lia]. }
  destruct m as [|m]; [destruct s; [done|cbn in Hm; lia]|].
  cbn [parse_components]. destruct s as [|c s]; [done|].
  destruct (parse_component (String c s)) as [[v rest]|] eqn:E; [|done]. apply parse_component_shorter in E.
  destruct (_ <? _); [done|]. apply IH; lia.
Qed.
