(* ===== verification/Dashboard.v ===== *)
(** What the dashboard reads: the onboarding endpoints (backend/internal/onboarding/handler.go)
    over the onboarding service, and the savings, apply-fix and agent-health endpoints
    (backend/internal/dashboard), the last over the rows the agent's snapshots leave. *)

From Stdlib Require Import Ascii QArith Qround Lqa.
From S2P Require Import Prelude GoNum GoStr GoTime Duration Tenancy Onboarding Token Ingest AgentLoop.
Local Open Scope Z_scope.

(** ** Onboarding *)

Module Onb.
Definition SLOSandboxLatency : Z := 3 * Second.
Definition SLOInstallToFirstPR : Z := 10 * Minute.
Definition SLOInstallToFirstReco : Z := 30 * Minute.

Record DurationFormatted := mkDuration { Seconds : Z; Label : string }.
Record SLOTable := mkSLOs {
  SandboxLatency : string; InstallToFirstPR : string; InstallToFirstReco : string; InstallToFirstReceipt : string }.
Record Blocker := mkBlocker { BStage : Stage; Reason : string; Action : string; Link : string }.

Record StateResponse := mkStateResponse {
  SCurrent : Stage; ReachedAt : gmap Stage string; SProgress : Z; SActivated : bool; SWindow : string;
  STimeToReceipt : option DurationFormatted; SNextStage : Stage; SSLOs : SLOTable }.
Record HealthResponse := mkHealthResponse {
  HCurrent : Stage; HNextStage : Stage; HProgress : Z; HActivated : bool; HWindow : string;
  TimeInStage : option DurationFormatted; HTimeToReceipt : option DurationFormatted; HealthyTTFR : bool;
  Blockers : list Blocker; HSLOs : SLOTable }.

Definition SLOs : SLOTable :=
  mkSLOs (duration_String SLOSandboxLatency) (duration_String SLOInstallToFirstPR)
    (duration_String SLOInstallToFirstReco) (duration_String SLOInstallToFirstReceipt).

Definition blockersFor (s : Stage) : list Blocker :=
  if String.eqb s StageSignedUp then
    [mkBlocker StageSignedUp "GitHub App not yet installed" "Install the Optiqor GitHub App" "https://optiqor.dev/install/github"]
  else if String.eqb s StageVCSConnected then
    [mkBlocker StageVCSConnected "no repo selected for analysis" "Pick the chart repo Optiqor should analyze" "https://optiqor.dev/install/repo"]
  else if String.eqb s StageRepoSelected then
    [mkBlocker StageRepoSelected "first sandbox analysis not yet run" "Open the sandbox and analyze a values.yaml" "https://optiqor.dev/sandbox"]
  else if String.eqb s StageFirstPRAnalyzed then
    [mkBlocker StageFirstPRAnalyzed "agent not installed in the cluster"
       ("helm install optiqor-agent " +:+ bytes [226; 128; 148]%nat +:+ " the install wizard generates the values for you")
       "https://optiqor.dev/install/agent"]
  else if String.eqb s StageAgentInstalled then
    [mkBlocker StageAgentInstalled "no Apply Fix PRs merged yet" "Review the open Apply Fix PRs and merge one" "https://optiqor.dev/app/apply-fixes"]
  else if String.eqb s StageFirstApplyFix then
    [mkBlocker StageFirstApplyFix "first Receipt pending, waiting for 7-day bill window"
       "Watch for the Receipt in the dashboard; nothing to do" "https://optiqor.dev/app/receipts"]
  else [].

(** The stage after the current one, if there is one. *)
Definition next_stage (s : Stage) : Stage :=
  let idx := Index s in
  if (0 <=? idx) && (idx <? Z.of_nat (length Stages) - 1) then from_option id "" (Stages !! Z.to_nat (idx + 1)) else "".

Definition formatted `{GoPlatform} (d : Z) : DurationFormatted := mkDuration (f_to_i64 (duration_seconds d)) (duration_String d).

(** [Duration.Truncate], down to whole seconds towards zero. *)
Definition truncate_seconds (d : Z) : Z := d - Z.rem d Second.

Definition buildStateResponse `{GoPlatform} (st : State) : StateResponse :=
  mkStateResponse (Current st) (format_rfc3339 <$> Reached st) (ProgressPercent st) (Activated st SLOActivationWindow)
    (duration_String SLOActivationWindow) (option_map formatted (TimeToFirstReceipt st)) (next_stage (Current st)) SLOs.

Definition buildHealthResponse `{GoPlatform} (st : State) (now : Z) : HealthResponse :=
  mkHealthResponse (Current st) (next_stage (Current st)) (ProgressPercent st) (Activated st SLOActivationWindow)
    (duration_String SLOActivationWindow)
    (option_map (λ t, let d := time_sub now t in let d := if d <? 0 then 0 else d in
                      mkDuration (f_to_i64 (duration_seconds d)) (duration_String (truncate_seconds d)))
       (Reached st !! Current st))
    (option_map formatted (TimeToFirstReceipt st)) (HealthyTimeToFirstReceipt st) (blockersFor (Current st)) SLOs.

Definition GetState `{GoPlatform} (now : Z) (st : store) (ctx : go_context) : store * result Error StateResponse :=
  match FromContext ctx with
  | Err _ => (st, Err Unauthorized)
  | Ok t =>
      match Service_Get now st (TenantID t) with
      | (st, Err _) => (st, Err Internal)
      | (st, Ok s) => (st, Ok (buildStateResponse s))
      end
  end.

(** [later] is the clock when the response is built. *)
Definition GetHealth `{GoPlatform} (now later : Z) (st : store) (ctx : go_context) : store * result Error HealthResponse :=
  match FromContext ctx with
  | Err _ => (st, Err Unauthorized)
  | Ok t =>
      match Service_Get now st (TenantID t) with
      | (st, Err _) => (st, Err Internal)
      | (st, Ok s) => (st, Ok (buildHealthResponse s later))
      end
  end.

(** A refusal, and the current and the requested stage it reports with ILLEGAL_TRANSITION. *)
Inductive refusal := Refused (e : Error) | IllegalTransition (current requested : Stage).
Definition refusal_status (r : refusal) : Z := match r with Refused e => StatusCode e | IllegalTransition _ _ => 409 end.

(** A failed [Service.Transition] returns the zero state with its error. *)
Definition Handler_Transition `{GoPlatform} (now : Z) (st : store) (ctx : go_context) (body : result body_error Stage) :
    store * result refusal StateResponse :=
  match FromContext ctx with
  | Err _ => (st, Err (Refused Unauthorized))
  | Ok t =>
      match body with
      | Err e => (st, Err (Refused (body_response e)))
      | Ok to =>
          if String.eqb to "" then (st, Err (Refused MissingField))
          else match Transition now st (TenantID t) to with
          | (st, Err (ErrUnknownStage _)) | (st, Err (ErrRewind _ _)) => (st, Err (IllegalTransition "" to))
          | (st, Err _) => (st, Err (Refused Internal))
          | (st, Ok s) => (st, Ok (buildStateResponse s))
          end
      end
  end.
End Onb.

(** ** The dashboard *)

Record SavingsSummary := mkSummary {
  LifetimeCents : Z; MTDCents : Z; YTDCents : Z; MergedCount : Z; IsDemo : bool; DemoDisclaimer : string }.
Record ApplyFix := mkApplyFix {
  FixID : string; FixRepo : string; PRURL : string; FixState : string; FixCents : Z; OpenedAt : Z; FixMergedAt : option Z }.
Record AgentHealth := mkHealth { HStatus : string; LastCheckin : Z; HFreshness : Z; HVersion : string }.

(** The sources; a nil one is [None], a failed read of one is [Err]. *)
Definition SavingsSource : Type := TenantContext → result string SavingsSummary.
Definition ApplyFixesSource : Type := TenantContext → string → Z → result string (list ApplyFix).
Definition AgentHealthSource : Type := TenantContext → result string AgentHealth.

Definition demoSummary : SavingsSummary :=
  mkSummary 240000 80000 240000 3 true "Demo data shown until the agent reports merged Apply Fix PRs.".

Definition Summary (src : option SavingsSource) (ctx : go_context) : result Error SavingsSummary :=
  match FromContext ctx with
  | Err _ => Err Unauthorized
  | Ok t =>
      match src with
      | None => Ok demoSummary
      | Some src =>
          match src t with
          | Err _ => Err Internal
          | Ok out => Ok (if (LifetimeCents out =? 0) && (MergedCount out =? 0) then demoSummary else out)
          end
      end
  end.

Definition validState (s : string) : bool := str_mem s ["open"; "merged"; "closed"; "rolled-back"].

(** [state] and [limit] are the query's parameters, empty when absent. *)
Definition page_limit (limit : string) : Z :=
  match (if String.eqb limit "" then None else parse_int limit) with
  | Some n => if (0 <? n) && (n <=? 200) then n else 50
  | None => 50
  end.

Definition ListApplyFixes (src : option ApplyFixesSource) (ctx : go_context) (state limit : string) : result Error (list ApplyFix) :=
  match FromContext ctx with
  | Err _ => Err Unauthorized
  | Ok t =>
      let state := if String.eqb state "" then "open" else state in
      if negb (validState state) then Err BadRequest
      else match src with
      | None => Ok []
      | Some src => match src t state (page_limit limit) with Err _ => Err Internal | Ok items => Ok items end
      end
  end.

Definition offline : AgentHealth := mkHealth "offline" 0 0 "".

Definition Handler_AgentHealth (src : option AgentHealthSource) (ctx : go_context) : result Error AgentHealth :=
  match FromContext ctx with
  | Err _ => Err Unauthorized
  | Ok t => match src with
            | None => Ok offline
            | Some src => match src t with Err _ => Err Internal | Ok h => Ok h end
            end
  end.

(** ** The agent's row, read back *)

Definition recomputeFreshness `{GoPlatform} (now lastSeen reported : Z) : Z :=
  let wall := f_to_i64 (duration_seconds (time_sub now lastSeen)) in
  let wall := if wall <? 0 then 0 else wall in
  if reported <? wall then wall else reported.

Definition degradeStatus (stored : string) (freshSeconds : Z) : string :=
  if 6 * 3600 <? freshSeconds then "offline"
  else if 60 * 60 <? freshSeconds then (if String.eqb stored "healthy" then "degraded" else stored)
  else stored.

(** ORDER BY last_seen_at DESC LIMIT 1, over the rows in the order the scan meets them. *)
Definition freshest (rows : list PgSink.AgentRow) : option PgSink.AgentRow :=
  foldl (λ best r, match best with
                   | Some b => if PgSink.LastSeenAt b <? PgSink.LastSeenAt r then Some r else best
                   | None => Some r end) None rows.

(** The rows the policy lets a tenant read; [scan] is the order the database returns them in. *)
Definition tenant_rows (scan : list ((string * string) * PgSink.AgentRow) → list ((string * string) * PgSink.AgentRow))
    (d : PgSink.database) (tenant : string) : list PgSink.AgentRow :=
  snd <$> List.filter (λ kv, String.eqb kv.1.1 tenant) (scan (map_to_list (PgSink.agents d))).

Definition project `{GoPlatform} (now : Z) (row : option PgSink.AgentRow) : AgentHealth :=
  match row with
  | None => offline
  | Some r =>
      let live := recomputeFreshness now (PgSink.LastSeenAt r) (PgSink.Freshness r) in
      mkHealth (degradeStatus (PgSink.Status r) live) (PgSink.LastSeenAt r) live (PgSink.Version r)
  end.

(** [fails] is the statement of the transaction that fails, if one does: begin, bind, query. *)
Definition Latest `{GoPlatform} (pool : bool) (scan : list ((string * string) * PgSink.AgentRow) → list ((string * string) * PgSink.AgentRow))
    (d : PgSink.database) (fails : option nat) (now : Z) (t : TenantContext) : result string AgentHealth :=
  if negb pool then Err "dashboard/agent_pg: nil pool"
  else match TenantContext_Validate t with
  | Some _ => Err "tenancy"
  | None => match fails with
            | Some 0%nat => Err "dashboard/agent_pg: begin"
            | Some 1%nat => Err "dashboard/agent_pg: bind"
            | Some _ => Err "dashboard/agent_pg: scan"
            | None => Ok (project now (freshest (tenant_rows scan d (TenantID t))))
            end
  end.

(** ** Whole seconds *)

(** Below 2^22 seconds (48 days) the seconds of a duration, read as an integer, are its whole
    seconds; above, they may be one more, where the sum rounds up. *)
Lemma seconds_floor `{GoPlatform} d : 0 <= d < 2^63 →
  d / Second <= f_to_i64 (duration_seconds d) <= d / Second + 1 ∧
  (d / Second < 2^22 → f_to_i64 (duration_seconds d) = d / Second).
Proof.
  intros Hd. unfold duration_seconds. rewrite Z.quot_div_nonneg, Z.rem_mod_nonneg by (unfold Second; lia).
  set (q := d / Second). set (r := d mod Second).
  assert (0 <= q <= 2^34 ∧ 0 <= r < 1000000000) as [Hq Hr] by (unfold q, r, Second; Z.to_euclidean_division_equations; lia).
  destruct (rep_div (f_of_Z r) (f_of_Z Second) (inject_Z r) (inject_Z Second)) as (fr & Hfr & Hdiv); try (apply rep_of_Z; unfold Second; lia); [|done| |].
  { change 0%Q with (inject_Z 0). rewrite <-Zle_Qle. lia. }
  { apply Qle_shift_div_r; [done|]. apply (Qle_trans _ (inject_Z Second)); [rewrite <-Zle_Qle; unfold Second; lia|]. by vm_compute. }
  assert (0 <= fr)%Q as Hfr0.
  { rewrite Hfr. apply Qle_shift_div_l; [done|]. rewrite Qmult_0_l. change 0%Q with (inject_Z 0). rewrite <-Zle_Qle. lia. }
  assert (rnd fr <= inject_Z (2^30 - 1) * pow2 (-30))%Q as Hfr1.
  { destruct (Qlt_le_dec 0 fr) as [Hpos|Hneg].
    - eapply (rnd_le_rep _ _ (2^30 - 1) (-30)); [reflexivity|lia|lia|done|]. rewrite Hfr. apply Qle_shift_div_r; [done|].
      apply (Qle_trans _ (inject_Z 999999999)); [rewrite <-Zle_Qle; lia|by vm_compute].
    - rewrite (rnd_0 fr) by lra. by vm_compute. }
  pose proof (rnd_nonneg fr Hfr0) as Hrn.
  assert (0 <= inject_Z q)%Q as Hq0 by (change 0%Q with (inject_Z 0); rewrite <-Zle_Qle; lia).
  assert (inject_Z (2^30 - 1) * pow2 (-30) == 1 - pow2 (-30))%Q as E30 by by vm_compute.
  assert (0 < pow2 (-30))%Q as H30 by apply pow2_pos.
  assert (inject_Z q <= inject_Z (2^34))%Q as Hqb by (rewrite <-Zle_Qle; lia).
  destruct (rep_add (f_of_Z q) _ (inject_Z q) (rnd fr) (rep_of_Z q ltac:(lia)) Hdiv Hq0 Hrn) as (s & Hs & Hadd).
  { apply (Qle_trans _ (inject_Z (2^34) + 1)%Q); [lra|by vm_compute]. }
  assert (∀ t m e, (t == inject_Z m * pow2 e)%Q → 0 < m <= 2^53 → -1074 <= e → (s <= t)%Q → (rnd s <= t)%Q) as Hup.
  { intros t m e Ht Hm He Hst. destruct (Qlt_le_dec 0 s) as [Hpos|Hneg]; [by eapply rnd_le_rep|].
    rewrite (rnd_0 s) by lra. lra. }
  assert (inject_Z q <= rnd s)%Q as Hlow.
  { destruct (Z.eq_dec q 0) as [->|]; [change (inject_Z 0) with 0%Q; apply rnd_nonneg; lra|].
    eapply (rnd_ge_rep _ _ q 0); [apply inject_Z_pow2_0|lia|lia|..]; [|lra].
    change 0%Q with (inject_Z 0). rewrite <-Zlt_Qlt. lia. }
  assert (rnd s <= inject_Z (q + 1))%Q as Hhigh.
  { eapply (Hup _ (q + 1) 0); [apply inject_Z_pow2_0|lia|lia|]. rewrite inject_Z_plus. change (inject_Z 1) with 1%Q. lra. }
  apply Qfloor_resp_le in Hlow, Hhigh. rewrite Qfloor_Z in Hlow, Hhigh.
  rewrite (rep_to_i64 _ _ Hadd) by (unfold in_i64; lia). split; [lia|]. intros Hsmall.
  apply Z.le_antisymm; [|done]. apply Z.lt_succ_r. rewrite Zlt_Qlt. eapply Qle_lt_trans; [apply Qfloor_le|].
  apply (Qle_lt_trans _ (inject_Z ((q + 1) * 2^30 - 1) * pow2 (-30))).
  - eapply (Hup _ _ (-30)); [reflexivity|lia|lia|]. rewrite Hs.
    assert (inject_Z ((q + 1) * 2 ^ 30 - 1) * pow2 (-30) == inject_Z q + (1 - pow2 (-30)))%Q as ->; [|lra].
    unfold Z.sub. rewrite inject_Z_plus, inject_Z_mult, inject_Z_plus. change (inject_Z (2^30)) with (inject_Z 1073741824).
    change (pow2 (-30)) with (1 # 1073741824)%Q. change (inject_Z (-(1))) with (-1)%Q. change (inject_Z 1) with 1%Q. field_simplify. unfold inject_Z. lra.
  - unfold Z.succ, Z.sub. rewrite inject_Z_plus, inject_Z_mult, !inject_Z_plus.
    change (pow2 (-30)) with (1 # 1073741824)%Q. change (inject_Z (2^30)) with (1073741824 # 1)%Q. change (inject_Z (-(1))) with (-1)%Q. change (inject_Z 1) with 1%Q. lra.
Qed.

(** A negative duration reads as no more than zero. *)
Lemma seconds_negative `{GoPlatform} d : - 2^63 <= d < 0 → f_to_i64 (duration_seconds d) <= 0.
Proof.
  intros Hd. unfold duration_seconds.
  assert (∀ z, - 2^53 <= z <= 0 → f_finite (f_of_Z z) = true ∧ (fval (f_of_Z z) == inject_Z z)%Q) as Hz.
  { intros z Hz. destruct (Z.eq_dec z 0) as [->|]; [by vm_compute|].
    destruct (rep_of_Z (- z) ltac:(lia)) as (Hf & _ & Hv). replace z with (- - z) by lia. rewrite f_of_Z_opp by lia.
    destruct (f_of_Z (- z)) as [| |sg m e]; try done. split; [done|]. cbn [f_neg fval] in *.
    rewrite inject_Z_opp, <-Hv. destruct sg; cbn [negb]; lra. }
  set (q := Z.quot d Second). set (r := Z.rem d Second).
  assert (- 2^34 <= q <= 0 ∧ - 1000000000 < r <= 0) as [Hq Hr]
    by (unfold q, r, Second; Z.to_euclidean_division_equations; lia).
  destruct (Hz q ltac:(lia)) as [Hqf Hqv].
  assert (f_finite (f_div (f_of_Z r) (f_of_Z Second)) = true ∧ (- 1 <= fval (f_div (f_of_Z r) (f_of_Z Second)) <= 0)%Q) as [Hff Hfv].
  { destruct (Z.eq_dec r 0) as [->|]; [by vm_compute|]. replace r with (- - r) by lia. rewrite f_of_Z_opp, f_div_neg by lia.
    destruct (rep_div (f_of_Z (- r)) (f_of_Z Second) (inject_Z (- r)) (inject_Z Second)) as (fr & Hfr & (Hf & Hs & Hv));
      try (apply rep_of_Z; unfold Second; lia); [|done| |].
    { change 0%Q with (inject_Z 0). rewrite <-Zle_Qle. lia. }
    { apply Qle_shift_div_r; [done|]. apply (Qle_trans _ (inject_Z Second)); [rewrite <-Zle_Qle; unfold Second; lia|]. by vm_compute. }
    assert (0 < fr)%Q as Hpos.
    { rewrite Hfr. apply Qlt_shift_div_l; [done|]. rewrite Qmult_0_l. change 0%Q with (inject_Z 0). rewrite <-Zlt_Qlt. lia. }
    assert (rnd fr <= 1)%Q as Hle.
    { eapply (rnd_le_rep _ _ 1 0); [by vm_compute|lia|lia|done|]. rewrite Hfr. apply Qle_shift_div_r; [done|].
      rewrite Qmult_1_l, <-Zle_Qle. unfold Second. lia. }
    pose proof (rnd_nonneg fr ltac:(lra)).
    destruct (f_div (f_of_Z (- r)) (f_of_Z Second)) as [| |sg m e]; try done. split; [done|].
    cbn [f_sign] in Hs. subst sg. cbn [f_neg fval negb] in *. rewrite Hv. lra. }
  destruct (f_of_Z q) as [| |sa ma ea]; try done. destruct (f_div _ _) as [| |sb mb eb]; try done.
  cbn [f_add]. set (s := (fval (F_fin sa ma ea) + fval (F_fin sb mb eb))%Q) in *.
  assert (s <= 0 ∧ - inject_Z (2^34) - 1 <= s)%Q as [Hs0 Hsb].
  { unfold s. rewrite Hqv. assert (- inject_Z (2^34) <= inject_Z q <= 0)%Q; [|split; lra].
    change 0%Q with (inject_Z 0). rewrite <-inject_Z_opp, <-!Zle_Qle. lia. }
  destruct (Z.eqb_spec (Qnum s) 0) as [E|E]; [by destruct sa, sb|].
  assert (Qnum s < 0) as Hn by (clearbody s; destruct s; unfold Qle in Hs0; cbn in *; lia).
  unfold f_const. rewrite (proj2 (Z.ltb_lt _ _) Hn).
  assert (Z.abs (Qnum s) # Qden s == - s)%Q as Habs by (clearbody s; destruct s; unfold Qeq, Qopp; cbn in *; lia).
  destruct (round64_spec true (Z.abs (Qnum s) # Qden s)) as (Hf & Hv & Hsg).
  { rewrite Habs. lra. } { rewrite Habs. apply (Qle_trans _ (inject_Z (2^34) + 1)%Q); [lra|by vm_compute]. }
  destruct (round64 true _) as [| |s0 m e]; try done. cbn [f_sign] in Hsg. subst s0. unfold f_to_i64. cbn [f_finite f_trunc andb].
  assert (0 <= rnd (Z.abs (Qnum s) # Qden s))%Q as Hrn by (apply rnd_nonneg; rewrite Habs; lra).
  cbn [fval signed] in Hv.
  assert (0 <= inject_Z m * pow2 e)%Q as Hm by lra.
  apply Qfloor_resp_le in Hm. change (Qfloor 0) with 0 in Hm.
  assert (rnd (Z.abs (Qnum s) # Qden s) <= inject_Z (2^34 + 1))%Q as Hle.
  { eapply (rnd_le_rep _ _ (2^34 + 1) 0); [apply inject_Z_pow2_0|lia|lia|rewrite Habs; clearbody s; destruct s; unfold Qlt, Qopp; cbn in *; lia|].
    rewrite Habs, inject_Z_plus. change (inject_Z 1) with 1%Q. lra. }
  assert (inject_Z m * pow2 e <= inject_Z (2^34 + 1))%Q as Hm' by lra. apply Qfloor_resp_le in Hm'. rewrite Qfloor_Z in Hm'.
  rewrite (proj2 (in_i64b_spec _)) by (unfold in_i64; lia). lia.
Qed.

(** ** The pill *)

(** The status a freshness deserves. *)
Definition grade (seconds : Z) : string :=
  if 6 * 3600 <? seconds then "offline" else if 60 * 60 <? seconds then "degraded" else "healthy".

(** What the snapshots of the agents leave in the database. *)
Inductive stored : PgSink.database → Prop :=
  | stored_new clusters : stored (PgSink.mkDB ∅ clusters)
  | stored_persist pool uuid fails now t snap d : stored d → stored (PgSink.Persist pool uuid fails now t snap d).2.

Lemma classify_grade snap : PgSink.classifyStatus snap = grade match Health snap with Some h => DataFreshnessSeconds h | None => 0 end.
Proof. unfold PgSink.classifyStatus, grade. by destruct (Health snap). Qed.

Lemma stored_graded d k row : stored d → PgSink.agents d !! k = Some row → PgSink.Status row = grade (PgSink.Freshness row).
Proof.
  intros Hd. revert k row. induction Hd as [cl|pool uuid fails now t snap d Hd IH]; intros k row; [done|].
  unfold PgSink.Persist. repeat (case_match; cbn [snd]); try apply IH; unfold PgSink.upsert, PgSink.update_class; cbn [PgSink.agents];
    intros [[? <-]|[? ?]]%lookup_insert_Some; cbn [PgSink.Status PgSink.Freshness]; try (by eapply IH); rewrite classify_grade; by simplify_option_eq.
Qed.

Lemma degrade_graded f live : f <= live → degradeStatus (grade f) live = grade live.
Proof.
  intros. unfold degradeStatus, grade.
  destruct (Z.ltb_spec (6 * 3600) live), (Z.ltb_spec (60 * 60) live), (Z.ltb_spec (6 * 3600) f), (Z.ltb_spec (60 * 60) f); by try lia.
Qed.

(** The age of a row, in whole seconds; a row from the future has none. *)
Definition age (now seen : Z) : Z := Z.max 0 ((now - seen) / Second).

Lemma freshness_age `{GoPlatform} now seen reported :
  Z.max reported (Z.min (age now seen) (2^33)) <= recomputeFreshness now seen reported ∧
  grade (recomputeFreshness now seen reported) = grade (Z.max reported (age now seen)) ∧
  (reported <= recomputeFreshness now seen reported).
Proof.
  unfold recomputeFreshness. set (w := f_to_i64 _).
  assert (∃ wall, wall = (if w <? 0 then 0 else w) ∧ (wall = age now seen ∨ 2^22 <= wall ∧ 2^22 <= age now seen ∧ Z.min (age now seen) (2^33) <= wall)) as (wall & -> & Hw).
  { eexists. split; [done|]. unfold w, age. destruct (Z.lt_ge_cases (now - seen) 0) as [Hneg|Hpos].
    - pose proof (seconds_negative (time_sub now seen)) as Hs. unfold time_sub, maxDuration in *. specialize (Hs ltac:(lia)).
      left. assert ((now - seen) / Second < 0) by (apply Z.div_lt_upper_bound; unfold Second; lia).
      destruct (Z.ltb_spec (f_to_i64 (duration_seconds (Z.max (- 2 ^ 63) (Z.min (now - seen) (2 ^ 63 - 1))))) 0); lia.
    - assert (time_sub now seen = Z.min (now - seen) (2^63 - 1)) as Hts by (unfold time_sub, maxDuration; lia).
      destruct (seconds_floor (time_sub now seen)) as [Hs Hex]; [rewrite Hts; lia|].
      clear w. set (x := f_to_i64 (duration_seconds (time_sub now seen))) in *. clearbody x. rewrite Hts in Hs, Hex.
      assert (0 <= Z.min (now - seen) (2^63 - 1) / Second) by (apply Z.div_pos; unfold Second; lia).
      assert (0 <= (now - seen) / Second) by (apply Z.div_pos; unfold Second; lia).
      rewrite (proj2 (Z.ltb_ge x 0)) by lia. rewrite Z.max_r by lia.
      destruct (Z.lt_ge_cases ((now - seen) / Second) (2^22)) as [Hlt|Hge].
      + left. assert (now - seen < 2^22 * Second) as Hb by (pose proof (Z.mul_div_le (now - seen) Second); pose proof (Z.mod_pos_bound (now - seen) Second); pose proof (Z.div_mod (now - seen) Second); unfold Second in *; lia).
        assert (Z.min (now - seen) (2^63 - 1) = now - seen) as Hmin by (unfold Second in Hb; lia). rewrite Hmin in Hex. by apply Hex.
      + right. assert (Z.min ((now - seen) / Second) (2^33) <= Z.min (now - seen) (2^63 - 1) / Second) as Hm.
        { apply Z.div_le_lower_bound; [unfold Second; lia|]. pose proof (Z.mul_div_le (now - seen) Second). unfold Second in *. lia. }
        split; [lia|]. split; [done|lia]. }
  set (wl := if w <? 0 then 0 else w) in *. destruct (Z.ltb_spec reported wl).
  - split; [lia|]. split; [|lia]. destruct Hw as [->|(? & ? & ?)]; [f_equal; lia|]. unfold grade.
    rewrite !(proj2 (Z.ltb_lt (6 * 3600) _)) by lia. done.
  - split; [lia|]. split; [|lia]. destruct Hw as [->|(? & ? & ?)]; [f_equal; lia|]. unfold grade.
    rewrite !(proj2 (Z.ltb_lt (6 * 3600) _)) by lia. done.
Qed.

Lemma freshest_spec rows : match freshest rows with
  | None => rows = []
  | Some r => r ∈ rows ∧ ∀ r', r' ∈ rows → PgSink.LastSeenAt r' <= PgSink.LastSeenAt r
  end.
Proof.
  unfold freshest. induction rows as [|x rows IH] using rev_ind; [done|]. rewrite foldl_app. cbn [foldl].
  destruct (foldl _ None rows) as [b|].
  - destruct IH as [Hin Hmax]. destruct (Z.ltb_spec (PgSink.LastSeenAt b) (PgSink.LastSeenAt x)).
    + split; [apply elem_of_app; right; by apply list_elem_of_singleton|].
      intros r' [Hr| ->%list_elem_of_singleton]%elem_of_app; [|lia]. specialize (Hmax _ Hr). lia.
    + split; [by apply elem_of_app; left|]. intros r' [Hr| ->%list_elem_of_singleton]%elem_of_app; [by apply Hmax|lia].
  - subst. split; [by left|]. by intros r' ->%list_elem_of_singleton.
Qed.

Lemma tenant_rows_spec scan d tenant row : (∀ l, scan l ≡ₚ l) →
  row ∈ tenant_rows scan d tenant ↔ ∃ cluster, PgSink.agents d !! (tenant, cluster) = Some row.
Proof.
  intros Hscan. unfold tenant_rows. rewrite list_elem_of_fmap. split.
  - intros ([[te cl] r] & -> & Hin). apply list_elem_of_In, filter_In in Hin as [Hin Ht]. apply list_elem_of_In in Hin.
    rewrite Hscan in Hin. apply elem_of_map_to_list in Hin. cbn in *. apply String.eqb_eq in Ht as ->. by exists cl.
  - intros [cl Hr]. exists ((tenant, cl), row). split; [done|]. apply list_elem_of_In, filter_In. split; [|apply String.eqb_refl].
    apply list_elem_of_In. rewrite Hscan. by apply elem_of_map_to_list.
Qed.

(** The agent-health pill is live. Whatever snapshots the agents have posted, and in
    whatever order the database returns the rows, the pill a tenant sees is that of the newest
    row of the tenant - of no other's - with the status that the larger of the age the agent
    reported and of the row's own age deserves: a row is healthy up to an hour, degraded up to
    six, offline after. Without a row it is offline. *)
Theorem agent_pill `{GoPlatform} (d : PgSink.database) (now : Z) (t : TenantContext)
    (scan : list ((string * string) * PgSink.AgentRow) → list ((string * string) * PgSink.AgentRow))
    (Hd : stored d) (Hscan : ∀ l, scan l ≡ₚ l) (Ht : TenantID t ≠ "") :
  ∃ h, Handler_AgentHealth (Some (Latest true scan d None now)) (Some t) = Ok h ∧
    ((∀ cluster, PgSink.agents d !! (TenantID t, cluster) = None) ∧ h = offline ∨
     ∃ cluster row, PgSink.agents d !! (TenantID t, cluster) = Some row ∧
       (∀ cluster' row', PgSink.agents d !! (TenantID t, cluster') = Some row' → PgSink.LastSeenAt row' <= PgSink.LastSeenAt row) ∧
       LastCheckin h = PgSink.LastSeenAt row ∧ HVersion h = PgSink.Version row ∧
       HStatus h = grade (Z.max (PgSink.Freshness row) (age now (PgSink.LastSeenAt row)))).
Proof.
  unfold Handler_AgentHealth, FromContext, Latest.
  assert (TenantContext_Validate t = None) as Hv by by apply validate_iff.
  rewrite Hv. cbn [negb]. rewrite Hv. eexists. split; [reflexivity|]. pose proof (freshest_spec (tenant_rows scan d (TenantID t))) as Hf.
  destruct (freshest _) as [row|].
  - right. destruct Hf as [Hin Hmax]. apply tenant_rows_spec in Hin as [cl Hrow]; [|done]. exists cl, row. split; [done|].
    split; [intros cl' row' Hr; apply Hmax, tenant_rows_spec; [done|by eexists]|]. split; [done|]. split; [done|].
    cbn [project HStatus]. destruct (freshness_age now (PgSink.LastSeenAt row) (PgSink.Freshness row)) as (_ & Hg & Hle).
    by rewrite (stored_graded _ _ _ Hd Hrow), degrade_graded.
  - left. split; [|done]. intros cl. destruct (PgSink.agents d !! (TenantID t, cl)) as [row|] eqn:E; [|done].
    assert (row ∈ tenant_rows scan d (TenantID t)) as Hin by (apply tenant_rows_spec; [done|by eexists]). rewrite Hf in Hin. by apply elem_of_nil in Hin.
Qed.

Definition demo_db : PgSink.database :=
  (PgSink.Persist true Some None Ident.demo_now demo_tenant demo_snap (PgSink.mkDB ∅ ∅)).2.

Lemma demo_db_row : PgSink.agents demo_db = {[("t-1", "c-1") := PgSink.mkAgent "dev" Ident.demo_now "healthy" 60]}.
Proof. by vm_compute. Qed.

Lemma agent_pill_witness `{GoPlatform} : ∃ h,
  Handler_AgentHealth (Some (Latest true id demo_db None (Ident.demo_now + 2 * Hour))) (Some demo_tenant) = Ok h ∧
  (∀ cluster row, PgSink.agents demo_db !! (TenantID demo_tenant, cluster) = Some row → HStatus h ≠ "healthy").
Proof.
  destruct (agent_pill demo_db (Ident.demo_now + 2 * Hour) demo_tenant id) as (h & Hh & Hcase).
  - apply stored_persist, stored_new.
  - done.
  - discriminate.
  - exists h. split; [exact Hh|]. intros cl' row' Hr'. destruct Hcase as [[Hnone _]|(cl & row & Hr & _ & _ & _ & Hs)].
    { rewrite Hnone in Hr'. discriminate Hr'. }
    rewrite Hs. clear Hr' Hs Hh. rewrite demo_db_row in Hr. revert Hr.
    intros [_ <-]%lookup_singleton_Some. by vm_compute.
Defined.

(** The answers of the transition endpoint. Without a tenant it is unauthorized, on a body
    that is too large, not JSON or without a stage a bad request, and nothing is stored; an
    unknown stage or a step back is a conflict that leaves the tenant as it was, or as signed
    up if this was its first request; any other stage is recorded, answered, and what the state
    endpoint shows from then on. No other tenant is touched, and no answer is a server error. *)
Theorem transition_answers `{GoPlatform} (now : Z) (st : store) (ctx : go_context) (body : result body_error Stage) :
  let r := Onb.Handler_Transition now st ctx body in
  (∀ other, (∀ t, FromContext ctx = Ok t → TenantID t ≠ other) → r.1 !! other = st !! other) ∧
  match FromContext ctx, body with
  | Err _, _ => r = (st, Err (Onb.Refused Unauthorized))
  | Ok _, Err e => r = (st, Err (Onb.Refused (body_response e)))
  | Ok t, Ok to =>
      if decide (to = "") then r = (st, Err (Onb.Refused MissingField))
      else match Advance (default (New now) (st !! TenantID t)) to now with
      | Err _ => r.2 = Err (Onb.IllegalTransition "" to) ∧ r.1 !! TenantID t = Some (default (New now) (st !! TenantID t))
      | Ok s => r.2 = Ok (Onb.buildStateResponse s) ∧
          ∀ later, Onb.GetState later r.1 ctx = (r.1, Ok (Onb.buildStateResponse s))
      end
  end.
Proof.
  cbv zeta. unfold Onb.Handler_Transition, Onb.GetState. destruct (FromContext ctx) as [t|] eqn:Ectx; [|done].
  assert (TenantID t ≠ "") as Ht.
  { unfold FromContext in Ectx. destruct ctx as [v|]; [|done]. destruct (TenantContext_Validate v) eqn:Ev; [done|].
    injection Ectx as <-. by apply validate_iff. }
  destruct body as [to|e]; [|done]. destruct (String.eqb_spec to "") as [->|Hto]; [by rewrite decide_True|]. rewrite decide_False by done.
  unfold Transition, Service_Get, store_Put, store_Get. rewrite (proj2 (String.eqb_neq _ _) Ht).
  assert (∀ s s0 : State, ∀ m : store, ∀ e, Advance s0 to now = Err e → (∃ n, e = ErrUnknownStage n) ∨ ∃ a b, e = ErrRewind a b) as Herr.
  { intros _ s0 _ e. unfold Advance. repeat case_match; intros [= <-]; eauto. }
  destruct (st !! TenantID t) as [s|] eqn:Es.
  - change (default (New now) (Some s)) with s. destruct (Advance s to now) as [s'|e] eqn:Ea; cbn [fst snd].
    + split; [intros o Ho; apply (lookup_insert_ne st); by apply Ho|]. split; [done|]. intros later. by rewrite (lookup_insert_eq st).
    + destruct (Herr s s st e Ea) as [[n ->]|(a & b & ->)]; (split; [done|]); by split.
  - change (default (New now) None) with (New now). cbn -[Advance New].
    destruct (Advance (New now) to now) as [s'|e] eqn:Ea; cbn [fst snd].
    + split; [intros o Ho; etrans; [apply (lookup_insert_ne (<[TenantID t := New now]> st))|apply (lookup_insert_ne st)]; by apply Ho|].
      split; [done|]. intros later. by rewrite (lookup_insert_eq (<[TenantID t := New now]> st)).
    + destruct (Herr (New now) (New now) st e Ea) as [[n ->]|(a & b & ->)];
        (split; [intros o Ho; apply (lookup_insert_ne st); by apply Ho|]); (split; [done|apply (lookup_insert_eq st)]).
Qed.

(** The conflict's details name no current stage, whatever the tenant's is; a limit out of range
    is the default; a tenant whose savings are nil sees the demo. *)
Lemma dashboard_details `{GoPlatform} :
  (∀ now st ctx body cur to, (Onb.Handler_Transition now st ctx body).2 = Err (Onb.IllegalTransition cur to) → cur = "") ∧
  page_limit "201" = 50 ∧ page_limit "200" = 200 ∧ page_limit "-1" = 50 ∧
  (∀ t out, TenantID t ≠ "" → LifetimeCents out = 0 → MergedCount out = 0 → Summary (Some (λ _, Ok out)) (Some t) = Ok demoSummary).
Proof.
  split_and!; [|by vm_compute..|].
  - intros now st ctx body cur to. unfold Onb.Handler_Transition. repeat (case_match; cbn [snd]); by intros [= <- <-].
  - intros t out Ht Hl Hm. unfold Summary, FromContext. assert (TenantContext_Validate t = None) as -> by by apply validate_iff.
    by rewrite Hl, Hm.
Qed.
