(* ===== verification/Config.v ===== *)
(** The backend's configuration (backend/internal/platform/config), read from the environment
    and validated at boot, and the statements that bind a transaction to its tenant
    (backend/internal/platform/db/postgres.go). *)

From S2P Require Import Prelude GoNum GoStr GoTime Duration Tenancy.
Local Open Scope Z_scope.

(** ** The configuration *)

Definition EnvDev : string := "dev".
Definition EnvStaging : string := "staging".
Definition EnvProd : string := "prod".
Definition Env_Valid (e : string) : bool := str_mem e [EnvDev; EnvStaging; EnvProd].

Record Config := mkConfig {
  Env : string; LogLevel : string; HTTPAddr : string; MetricsAddr : string;
  PostgresDSN : string; RedisAddr : string; TemporalHost : string; AnthropicAPIKey : string;
  GitHubAppID : string; GitHubAppClientID : string; GitHubAppClientSecret : string;
  GitHubAppPrivateKeyPEM : string; GitHubAppWebhookSecret : string; AWSRegion : string;
  SentryDSN : string; SentryEnvironment : string; SentryRelease : string; SentrySampleRate : float64;
  OTELHTTP : string; ShutdownGrace : Z }.

Inductive problem := InvalidEnv (e : string) | InvalidLogLevel (l : string) | RequiredInProd (name : string) | GraceNotPositive.

(** An unset variable reads as the empty string. *)
Definition environment : Type := string → string.

Definition envOr (getenv : environment) (key fallback : string) : string :=
  if String.eqb (getenv key) "" then fallback else getenv key.
Definition envDuration (getenv : environment) (key : string) (fallback : Z) : Z :=
  if String.eqb (getenv key) "" then fallback else from_option id fallback (ParseDuration (getenv key)).
Definition envFloat (getenv : environment) (key : string) (fallback : float64) : float64 :=
  if String.eqb (getenv key) "" then fallback else from_option id fallback (parse_float (getenv key)).

Definition validLogLevel (s : string) : bool := str_mem (to_lower s) ["debug"; "info"; "warn"; "error"].

Definition required (name value : string) : list problem := if String.eqb value "" then [RequiredInProd name] else [].

(** The problems, in the order the message joins them. *)
Definition Validate (c : Config) : list problem :=
  (if Env_Valid (Env c) then [] else [InvalidEnv (Env c)]) ++
  (if validLogLevel (LogLevel c) then [] else [InvalidLogLevel (LogLevel c)]) ++
  (if String.eqb (Env c) EnvProd
   then required "OPTIQOR_POSTGRES_DSN" (PostgresDSN c) ++ required "OPTIQOR_ANTHROPIC_API_KEY" (AnthropicAPIKey c) ++
        required "OPTIQOR_GITHUB_APP_ID" (GitHubAppID c) ++ required "OPTIQOR_GITHUB_APP_WEBHOOK_SECRET" (GitHubAppWebhookSecret c)
   else []) ++
  (if ShutdownGrace c <=? 0 then [GraceNotPositive] else []).

Definition read_config (getenv : environment) : Config :=
  mkConfig (envOr getenv "OPTIQOR_ENV" "dev") (envOr getenv "OPTIQOR_LOG_LEVEL" "info")
    (envOr getenv "OPTIQOR_HTTP_ADDR" ":8080") (envOr getenv "OPTIQOR_METRICS_ADDR" ":9090")
    (getenv "OPTIQOR_POSTGRES_DSN") (envOr getenv "OPTIQOR_REDIS_ADDR" "localhost:6379")
    (envOr getenv "OPTIQOR_TEMPORAL_HOSTPORT" "localhost:7233") (getenv "OPTIQOR_ANTHROPIC_API_KEY")
    (getenv "OPTIQOR_GITHUB_APP_ID") (getenv "OPTIQOR_GITHUB_APP_CLIENT_ID") (getenv "OPTIQOR_GITHUB_APP_CLIENT_SECRET")
    (getenv "OPTIQOR_GITHUB_APP_PRIVATE_KEY_PEM") (getenv "OPTIQOR_GITHUB_APP_WEBHOOK_SECRET") (envOr getenv "AWS_REGION" "us-east-1")
    (getenv "OPTIQOR_SENTRY_DSN") (getenv "OPTIQOR_SENTRY_ENVIRONMENT") (getenv "OPTIQOR_SENTRY_RELEASE")
    (envFloat getenv "OPTIQOR_SENTRY_SAMPLE_RATE" (f_of_Z 1)) (envOr getenv "OPTIQOR_OTEL_EXPORTER_OTLP_ENDPOINT" "")
    (envDuration getenv "OPTIQOR_SHUTDOWN_GRACE" (10 * Second)).

Definition Load (getenv : environment) : result (list problem) Config :=
  let c := read_config getenv in
  match Validate c with [] => Ok c | errs => Err errs end.

(** *** Body-size caps *)

Definition GitHubWebhookMaxBytes : Z := Z.shiftl 8 20.
Definition IngestMaxBytes : Z := Z.shiftl 16 20.
Definition SandboxAnalyzeMaxBytes : Z := Z.shiftl 1 20.
Definition PRApplyFixMaxBytes : Z := Z.shiftl 1 20.
Definition BillingSpikeWebhookMaxBytes : Z := Z.shiftl 64 10.
Definition SessionIssueMaxBytes : Z := Z.shiftl 16 10.
Definition OnboardingTransitionMaxBytes : Z := Z.shiftl 4 10.

(** ** Binding a transaction *)

Inductive bind := BindTenant (tenant : string) | BindTenantWorkspace (tenant workspace : string).

Definition TenantBindArgs (t : TenantContext) : result tenancy_error bind :=
  match TenantContext_Validate t with
  | Some e => Err e
  | None => Ok (if String.eqb (WorkspaceID t) "" then BindTenant (TenantID t) else BindTenantWorkspace (TenantID t) (WorkspaceID t))
  end.

(** ** Facts *)

Lemma required_nil name value : required name value = [] ↔ value ≠ "".
Proof. unfold required. destruct (String.eqb_spec value ""); by split. Qed.

(** A boot succeeds exactly with a known environment, a known level and a positive grace, and
    in production with every secret the code requires; the configuration is then the one
    read. *)
Lemma load_iff getenv c : Load getenv = Ok c ↔ c = read_config getenv ∧
  Env c ∈ [EnvDev; EnvStaging; EnvProd] ∧ to_lower (LogLevel c) ∈ ["debug"; "info"; "warn"; "error"] ∧ 0 < ShutdownGrace c ∧
  (Env c = EnvProd → PostgresDSN c ≠ "" ∧ AnthropicAPIKey c ≠ "" ∧ GitHubAppID c ≠ "" ∧ GitHubAppWebhookSecret c ≠ "").
Proof.
  unfold Load. set (d := read_config getenv). trans (Validate d = [] ∧ c = d).
  { destruct (Validate d); split; [by intros [= <-]|by intros [_ ->]|done|by intros [? _]]. }
  assert (Validate d = [] ↔ Env d ∈ [EnvDev; EnvStaging; EnvProd] ∧ to_lower (LogLevel d) ∈ ["debug"; "info"; "warn"; "error"] ∧
    0 < ShutdownGrace d ∧ (Env d = EnvProd → PostgresDSN d ≠ "" ∧ AnthropicAPIKey d ≠ "" ∧ GitHubAppID d ≠ "" ∧ GitHubAppWebhookSecret d ≠ "")) as Hv.
  { unfold Validate. rewrite !app_nil. unfold Env_Valid, validLogLevel. rewrite <-!str_mem_spec.
    destruct (str_mem (Env d) _), (str_mem (to_lower (LogLevel d)) _), (Z.leb_spec (ShutdownGrace d) 0),
      (String.eqb_spec (Env d) EnvProd); rewrite ?app_nil, ?required_nil; intuition (congruence || lia). }
  rewrite Hv. split; [intros [? ->]; tauto|intros (-> & ?); tauto].
Qed.

(** The boots of a development and of a production environment; a duration that does not parse,
    and a sample rate that does not, are the defaults in silence. *)
Definition dev_env : environment := λ _, "".
Definition prod_env (key : string) : string :=
  if String.eqb key "OPTIQOR_ENV" then "prod" else if String.eqb key "OPTIQOR_SHUTDOWN_GRACE" then "soon"
  else if str_mem key ["OPTIQOR_POSTGRES_DSN"; "OPTIQOR_ANTHROPIC_API_KEY"; "OPTIQOR_GITHUB_APP_ID"; "OPTIQOR_GITHUB_APP_WEBHOOK_SECRET"]
  then "x" else "".

Lemma boots : (∃ c, Load dev_env = Ok c ∧ Env c = "dev" ∧ GitHubAppWebhookSecret c = "") ∧
  (∃ c, Load prod_env = Ok c ∧ ShutdownGrace c = 10 * Second) ∧
  Load (λ key, if String.eqb key "OPTIQOR_ENV" then "prod" else "") =
    Err (map RequiredInProd ["OPTIQOR_POSTGRES_DSN"; "OPTIQOR_ANTHROPIC_API_KEY"; "OPTIQOR_GITHUB_APP_ID"; "OPTIQOR_GITHUB_APP_WEBHOOK_SECRET"]).
Proof. split_and!; [eexists; split_and!; [reflexivity|by vm_compute..]|eexists; split; [reflexivity|by vm_compute]|by vm_compute]. Qed.
