(* ===== verification/Http.v ===== *)
(** The api's HTTP layer (backend/cmd/api/main.go): what a handler does to its response writer,
    the error envelope (backend/internal/platform/httperr), and the middleware every request
    goes through - request id, panic recovery, access log - and the one that gives a request
    its tenant. *)

From Stdlib Require Import Ascii.
From S2P Require Import Prelude GoNum GoStr Lines GoTime Tenancy Config Ingest AgentLoop JsonOut.
Local Open Scope Z_scope.

(** ** Requests and responses *)

(** The path comes as its segments, unescaped; a header that is absent reads as the empty
    string; [Peers] are the URIs of the verified client certificates. *)
Record http_request := mkReq {
  ReqMethod : string; ReqPath : list string; Header : string → string; Query : string → string;
  Peers : list (list (option Mtls.URL)); ReqBody : result body_error string; ClientKey : string }.

Record context := mkContext { CtxTenant : go_context; CtxRequestID : string }.

(** What a handler does to its [ResponseWriter], in order. *)
Inductive action := SetHeader (k v : string) | WriteHeader (code : Z) | Write (b : string).

(** The response under way: the header map, what was committed of it, the body. *)
Record response := mkResponse { pending : gmap string string; committed : option (Z * gmap string string); sent : string }.
Definition new_response : response := mkResponse ∅ None "".

(** net/http: the first status commits the headers, a write commits 200, a later status is
    dropped. *)
Definition commit (code : Z) (r : response) : response :=
  match committed r with
  | Some _ => r
  | None => mkResponse (pending r) (Some (code, pending r)) (sent r)
  end.
Definition act (r : response) (a : action) : response :=
  match a with
  | SetHeader k v => mkResponse (<[k := v]> (pending r)) (committed r) (sent r)
  | WriteHeader code => commit code r
  | Write b => let r := commit 200 r in mkResponse (pending r) (committed r) (sent r +:+ b)
  end.
Definition run_actions (r : response) (l : list action) : response := foldl act r l.

(** What the client gets once the handler has returned. *)
Record reply := mkReply { RStatus : Z; RHeaders : gmap string string; RBody : string }.
Definition finish (r : response) : reply :=
  match committed (commit 200 r) with Some (code, hs) => mkReply code hs (sent r) | None => mkReply 200 (pending r) (sent r) end.

(** The lines of the log that middleware writes, and the metrics it keeps. *)
Inductive line :=
  | LAccess (method : string) (path : list string) (status bytes dur : Z)
  | LPanic (method : string) (path : list string) (value : string)
  | LCaptured (value : string).

Record world (D : Type) := mkWorld { dom : D; log : list line; http_requests : Z; durations : list Z }.
Arguments mkWorld {D}. Arguments dom {D}. Arguments log {D}. Arguments http_requests {D}. Arguments durations {D}.

Definition write_log {D} (ls : list line) (w : world D) : world D := mkWorld (dom w) (log w ++ ls) (http_requests w) (durations w).

(** A handler: its actions, the world it leaves, and the value it panicked with, if it did. *)
Definition handler (D : Type) : Type := context → http_request → world D → list action * world D * option string.

(** ** The error envelope *)

Definition envelope (status : Z) (code message reqID : string) (details : list (string * jvalue)) : jvalue :=
  OObj [("error", OObj ([("code", OText code); ("message", OText message); ("status_code", OInt status)] ++
                        omitempty "request_id" reqID ++ match details with [] => [] | _ => [("details", OObj details)] end))].

Definition WriteWithDetails (c : context) (status : Z) (code message : string) (details : list (string * jvalue)) : list action :=
  [SetHeader "Content-Type" "application/json; charset=utf-8"] ++
  (if String.eqb (CtxRequestID c) "" then [] else [SetHeader "X-Request-ID" (CtxRequestID c)]) ++
  [WriteHeader status; Write (from_option id "" (marshal (envelope status code message (CtxRequestID c) details)) +:+ JsonOut.newline)].
Definition http_Write (c : context) (status : Z) (code message : string) : list action := WriteWithDetails c status code message [].

Definition http_Unauthorized (c : context) (msg : string) : list action :=
  http_Write c 401 "UNAUTHORIZED" (if String.eqb msg "" then "tenant context required" else msg).
Definition http_Internal (c : context) (msg : string) : list action :=
  http_Write c 500 "INTERNAL_ERROR" (if String.eqb msg "" then "internal server error" else msg).
Definition http_BadRequest (c : context) (msg : string) : list action := http_Write c 400 "BAD_REQUEST" msg.
Definition http_BodyTooLarge (c : context) (maxBytes : Z) : list action :=
  WriteWithDetails c 413 "REQUEST_BODY_TOO_LARGE" ("request body exceeds " +:+ itoa maxBytes +:+ " bytes") [("max_bytes", OInt maxBytes)].
(** [%q] of a field name, which is plain. *)
Definition http_MissingField (c : context) (field : string) : list action :=
  WriteWithDetails c 400 "MISSING_FIELD" ("required field " +:+ String Json.quote_char (field +:+ String Json.quote_char "") +:+ " is missing")
    [("field", OText field)].
Definition http_ServiceUnavailable (c : context) (msg : string) : list action := http_Write c 503 "SERVICE_UNAVAILABLE" msg.

(** ** [recordingWriter] *)

Record recorder := mkRecorder { rec_status : Z; rec_bytes : Z; wroteHeader : bool }.
Definition new_recorder : recorder := mkRecorder 200 0 false.

(** One call on the recorder: its new state and the calls it makes on the writer below. *)
Definition record_action (r : recorder) (a : action) : recorder * list action :=
  match a with
  | SetHeader k v => (r, [a])
  | WriteHeader code => if wroteHeader r then (r, []) else (mkRecorder code (rec_bytes r) true, [a])
  | Write b =>
      let '(r, first) := if wroteHeader r then (r, []) else (mkRecorder 200 (rec_bytes r) true, [WriteHeader 200]) in
      (mkRecorder (rec_status r) (rec_bytes r + Z.of_nat (String.length b)) (wroteHeader r), first ++ [a])
  end.

Fixpoint record_actions (r : recorder) (l : list action) : recorder * list action :=
  match l with
  | [] => (r, [])
  | a :: l =>
      let '(r, out) := record_action r a in
      let '(r, rest) := record_actions r l in (r, out ++ rest)
  end.

(** ** The middleware *)

(** [dur] is the time the handler took. *)
Definition withAccessLog {D} (dur : Z) (next : handler D) : handler D := λ c req w,
  let '(acts, w, panic) := next c req w in
  let '(r, out) := record_actions new_recorder acts in
  match panic with
  | Some v => (out, w, Some v)
  | None =>
      (out, mkWorld (dom w) (log w ++ [LAccess (ReqMethod req) (ReqPath req) (rec_status r) (rec_bytes r) dur])
              (http_requests w + 1) (durations w ++ [dur]), None)
  end.

Definition withPanicRecovery {D} (next : handler D) : handler D := λ c req w,
  match next c req w with
  | (acts, w, None) => (acts, w, None)
  | (acts, w, Some v) =>
      (acts ++ http_Internal c "", write_log [LPanic (ReqMethod req) (ReqPath req) v; LCaptured ("panic: " +:+ v)] w, None)
  end.

(** [fresh] is the id [newRequestID] makes. *)
Definition with_request_id (c : context) (id : string) : context :=
  if String.eqb id "" then c else mkContext (CtxTenant c) id.
Definition request_id (fresh : string) (req : http_request) : string :=
  if String.eqb (Header req "X-Request-ID") "" then fresh else Header req "X-Request-ID".
Definition withRequestID {D} (fresh : string) (next : handler D) : handler D := λ c req w,
  let id := request_id fresh req in
  let '(acts, w, panic) := next (with_request_id c id) req w in
  (SetHeader "X-Request-ID" id :: acts, w, panic).

(** The chain the server is given. *)
Definition chain {D} (fresh : string) (dur : Z) (mux : handler D) : handler D :=
  withRequestID fresh (withPanicRecovery (withAccessLog dur mux)).

Definition serve {D} (fresh : string) (dur : Z) (mux : handler D) (req : http_request) (w : world D) : option reply * world D :=
  match chain fresh dur mux (mkContext None "") req w with
  | (acts, w, None) => (Some (finish (run_actions new_response acts)), w)
  | (_, w, Some _) => (None, w)
  end.

(** *** The tenant *)

Definition TenantExtractor : Type := http_request → option TenantContext.

Definition HeaderTenantExtractor : TenantExtractor := λ req,
  if String.eqb (Header req "X-Optiqor-Tenant") "" then None
  else Some (mkTenant (Header req "X-Optiqor-Tenant") (Header req "X-Optiqor-Workspace") (Header req "X-Optiqor-Cluster") (Header req "X-Optiqor-Namespace")).

Definition MTLSTenantExtractor (env : string) : TenantExtractor := λ req,
  match Mtls.ExtractTenant (Peers req) with
  | Ok t => Some t
  | Err _ => if String.eqb env EnvProd then None else HeaderTenantExtractor req
  end.

Definition no_tenant_message : string :=
  "tenant required " +:+ bytes [226; 128; 148]%nat +:+ " set X-Optiqor-Tenant header or attach a session JWT".

Definition requireTenant {D} (extract : TenantExtractor) (next : handler D) : handler D := λ c req w,
  match extract req with
  | None => (http_Unauthorized c no_tenant_message, w, None)
  | Some t =>
      match TenantContext_Validate t with
      | Some _ =>
          (WriteWithDetails c 401 "UNAUTHORIZED" "invalid tenant context: tenancy: no tenant in context"
             [("hint", OText "tenant id must be a non-empty UUID")], w, None)
      | None => next (mkContext (WithContext (CtxTenant c) t) (CtxRequestID c)) req w
      end
  end.

(** ** Facts: the writer *)

Lemma commit_committed code r : is_Some (committed (commit code r)).
Proof. unfold commit. destruct (committed r) eqn:E; [by rewrite E|by eexists]. Qed.

Lemma run_actions_app r l l' : run_actions r (l ++ l') = run_actions (run_actions r l) l'.
Proof. apply foldl_app. Qed.

(** Once committed, the status and the headers stay. *)
Lemma committed_stays r l st : committed r = Some st → committed (run_actions r l) = Some st.
Proof.
  revert r. induction l as [|a l IH]; intros r Hr; [done|]. cbn [run_actions foldl]. apply IH.
  destruct a; cbn [act committed]; unfold commit; by rewrite Hr.
Qed.

(** The recorder passes on what the writer below would have done anyway. *)
Lemma record_transparent l : ∀ rc r, (wroteHeader rc = true ↔ is_Some (committed r)) →
  (∀ code hs, committed r = Some (code, hs) → rec_status rc = code) →
  (committed r = None → rec_status rc = 200) → rec_bytes rc = Z.of_nat (String.length (sent r)) →
  let out := record_actions rc l in
  run_actions r out.2 = run_actions r l ∧
  rec_status out.1 = RStatus (finish (run_actions r l)) ∧
  rec_bytes out.1 = Z.of_nat (String.length (RBody (finish (run_actions r l)))).
Proof.
  induction l as [|a l IH]; intros rc r Hw Hs H200 Hb; cbv zeta.
  { cbn. unfold finish, commit. destruct (committed r) as [[code hs]|] eqn:E; rewrite ?E; cbn [committed RStatus RBody];
      (split; [done|]); split; eauto. }
  cbn [record_actions]. destruct a as [k v|code|b]; cbn [record_action].
  - destruct (record_actions rc l) as [rc' out] eqn:E. cbn [fst snd app run_actions foldl].
    specialize (IH rc (act r (SetHeader k v))). rewrite E in IH. cbn [fst snd] in IH. by apply IH.
  - destruct (wroteHeader rc) eqn:Ew.
    + destruct (proj1 Hw eq_refl) as [[c0 h0] Ec]. assert (act r (WriteHeader code) = r) as Ha by (cbn [act]; unfold commit; by rewrite Ec).
      destruct (record_actions rc l) as [rc' out] eqn:E. cbn [fst snd app run_actions foldl]. rewrite Ha.
      specialize (IH rc r). rewrite E in IH. apply IH; [|done..]. by rewrite Ew.
    + destruct (committed r) as [[c0 h0]|] eqn:Ec; [by assert (false = true) by (apply Hw; by eexists)|].
      destruct (record_actions (mkRecorder code (rec_bytes rc) true) l) as [rc' out] eqn:E. cbn [fst snd app run_actions foldl].
      specialize (IH (mkRecorder code (rec_bytes rc) true) (act r (WriteHeader code))). rewrite E in IH. cbn [fst snd] in IH.
      cbn [act] in IH |- *. unfold commit in *. rewrite Ec in *. apply IH; cbn [committed rec_status wroteHeader sent]; [|by intros ? ? [= <- _]|done|done].
      split; [by eexists|done].
  - destruct (wroteHeader rc) eqn:Ew.
    + destruct (proj1 Hw eq_refl) as [[c0 h0] Ec].
      set (rc1 := mkRecorder (rec_status rc) _ (wroteHeader rc)). destruct (record_actions rc1 l) as [rc' out] eqn:E.
      cbn [fst snd app run_actions foldl]. specialize (IH rc1 (act r (Write b))). rewrite E in IH. cbn [fst snd] in IH.
      cbn [act] in IH |- *. unfold commit in *. rewrite Ec in *. apply IH; unfold rc1; cbn [committed rec_status rec_bytes wroteHeader sent].
      * rewrite Ew, ?Ec. split; [by eexists|done]. * rewrite ?Ec. exact Hs. * by rewrite ?Ec. * rewrite slength_app. lia.
    + destruct (committed r) as [[c0 h0]|] eqn:Ec; [by assert (false = true) by (apply Hw; by eexists)|].
      set (rc1 := mkRecorder _ _ _). destruct (record_actions rc1 l) as [rc' out] eqn:E.
      cbn [fst snd app run_actions foldl]. specialize (IH rc1 (act r (Write b))). rewrite E in IH. cbn [fst snd] in IH.
      cbn [act] in IH |- *. unfold commit in *. rewrite Ec in *. cbn [committed] in *.
      apply IH; unfold rc1; cbn [committed rec_status rec_bytes wroteHeader sent].
      * split; [by eexists|done]. * by intros ? ? [= <- <-]. * done. * rewrite slength_app. lia.
Qed.

(** A header whose every setting is the same value has that value in the reply. *)
Definition header_is (k v : string) (r : response) : Prop :=
  pending r !! k = Some v ∧ ∀ code hs, committed r = Some (code, hs) → hs !! k = Some v.

Lemma run_header k v l r : (∀ v', SetHeader k v' ∈ l → v' = v) → header_is k v r → header_is k v (run_actions r l).
Proof.
  revert r. induction l as [|a l IH]; intros r Hall Hr; [done|]. cbn [run_actions foldl]. apply IH; [intros v' ?; apply Hall; by right|].
  assert (∀ code, header_is k v (commit code r)) as Hc.
  { intros code. destruct Hr as [Hp Hc]. unfold commit. destruct (committed r) eqn:E; [by split; [|rewrite E in *]|].
    split; [done|]. by intros ? ? [= _ <-]. }
  destruct a as [k' v'|code|b]; cbn [act].
  - destruct Hr as [Hp Hcm]. split; [|done]. cbn [pending]. destruct (decide (k' = k)) as [->|Hne].
    + rewrite (lookup_insert_eq (pending r)). f_equal. apply Hall. by left.
    + by rewrite (lookup_insert_ne (pending r)).
  - apply Hc.
  - destruct (Hc 200). by split.
Qed.

Lemma finish_header k v r : header_is k v r → RHeaders (finish r) !! k = Some v.
Proof. intros [Hp Hc]. unfold finish, commit. destruct (committed r) as [[code hs]|] eqn:E; rewrite ?E; cbn; [by eapply Hc|done]. Qed.

(** A response that ends in the envelope of a 500: what was committed stays. *)
Lemma run_internal c r : 
  RStatus (finish (run_actions r (http_Internal c ""))) = match committed r with Some (code, _) => code | None => 500 end ∧
  RBody (finish (run_actions r (http_Internal c ""))) =
    sent r +:+ from_option id "" (marshal (envelope 500 "INTERNAL_ERROR" "internal server error" (CtxRequestID c) [])) +:+ JsonOut.newline.
Proof.
  unfold http_Internal, http_Write, WriteWithDetails. change (String.eqb "" "") with true. cbv iota.
  set (e := _ +:+ JsonOut.newline). clearbody e.
  destruct (String.eqb (CtxRequestID c) ""); cbn [app run_actions foldl act]; unfold commit, finish; cbn [committed sent pending];
    destruct (committed r) as [[code hs]|] eqn:E; cbn [committed sent pending]; rewrite ?E; cbn [committed sent pending]; unfold commit; cbn [committed sent];
    rewrite ?E; done.
Qed.

