(* ===== verification/Api.v ===== *)
(** The api's routes (backend/cmd/api/main.go, routes.go, pprof.go): the mux, which handler
    sits behind which guard, the GitHub webhook with its signature
    (backend/internal/vcs/github.go), and what the boot wires to what. *)

From Stdlib Require Import Ascii.
From S2P Require Import Prelude GoNum GoStr Lines Utf8 GoTime Sha256 Tenancy Config Ingest AgentLoop RateLimit Attribution Session Registry JsonOut Http.
Local Open Scope Z_scope.

(** ** The mux *)

Inductive seg := Lit (s : string) | Wild (name : string).

(** A pattern: method and segments; [Subtree] is a trailing slash. *)
Record pattern := mkPattern { PMethod : string; Segs : list seg; Subtree : bool }.

Definition seg_match (p : seg) (s : string) : bool := match p with Lit l => String.eqb l s | Wild _ => negb (String.eqb s "") end.
Fixpoint segs_match (ps : list seg) (subtree : bool) (ss : list string) : bool :=
  match ps, ss with
  | [], [] => negb subtree
  | [], _ :: _ => subtree
  | p :: ps, s :: ss => seg_match p s && segs_match ps subtree ss
  | _ :: _, [] => false
  end.
Definition path_match (p : pattern) (req : http_request) : bool := segs_match (Segs p) (Subtree p) (ReqPath req).

(** A GET pattern serves HEAD as well. *)
Definition method_match (p : pattern) (m : string) : bool :=
  String.eqb (PMethod p) m || (String.eqb (PMethod p) "GET" && String.eqb m "HEAD").
Definition matches (p : pattern) (req : http_request) : bool := method_match p (ReqMethod req) && path_match p req.

Section Mux.
Context {D : Type}.
Definition route : Type := pattern * handler D.

Definition not_found : list action :=
  [SetHeader "Content-Type" "text/plain; charset=utf-8"; SetHeader "X-Content-Type-Options" "nosniff"; WriteHeader 404; Write ("404 page not found" +:+ newline)].
Definition method_not_allowed (allow : list string) : list action :=
  [SetHeader "Allow" (join ", " allow); SetHeader "Content-Type" "text/plain; charset=utf-8";
   SetHeader "X-Content-Type-Options" "nosniff"; WriteHeader 405; Write ("Method Not Allowed" +:+ newline)].

(** The methods of the patterns that match the path, HEAD next to GET, in order. *)
Definition allowed (rs : list route) (req : http_request) : list string :=
  Dispatcher.sortStrings (remove_dups (concat (map (λ r : route, if path_match r.1 req
    then (if String.eqb (PMethod r.1) "GET" then ["GET"; "HEAD"] else [PMethod r.1]) else []) rs))).

Definition mux_handler (rs : list route) : handler D := λ c req w,
  match List.find (λ r : route, matches r.1 req) rs with
  | Some r => r.2 c req w
  | None =>
      match allowed rs req with
      | [] => (not_found, w, None)
      | allow => (method_not_allowed allow, w, None)
      end
  end.
End Mux.

(** Two patterns of one method that some path could match both. *)
Fixpoint segs_clash (p q : list seg) (sp sq : bool) : bool :=
  match p, q with
  | [], [] => Bool.eqb sp sq
  | [], _ :: _ => sp
  | _ :: _, [] => sq
  | Lit a :: p, Lit b :: q => String.eqb a b && segs_clash p q sp sq
  | _ :: p, _ :: q => segs_clash p q sp sq
  end.
Definition clash (p q : pattern) : bool := String.eqb (PMethod p) (PMethod q) && segs_clash (Segs p) (Segs q) (Subtree p) (Subtree q).

(** ** The webhook *)

Fixpoint unhex (s : string) : option string :=
  match s with
  | EmptyString => Some ""
  | String a (String b s) =>
      match hex_val a, hex_val b, unhex s with
      | Some x, Some y, Some r => Some (String (chr (x * 16 + y)) r)
      | _, _, _ => None
      end
  | String _ EmptyString => None
  end.

Definition VerifyWebhook (secret signatureHeader body : string) : bool :=
  match strip_prefix "sha256=" signatureHeader with
  | None => false
  | Some h => match unhex h with None => false | Some got => String.eqb got (hmac_sha256 secret body) end
  end.

(** A world whose domain keeps the effects of attribution. *)
Definition dispatchGitHubEvent (h : option Attribution.Handler) (now : Z) (event body : string) : list effect :=
  if negb (String.eqb event "pull_request") then []
  else match h with None => [] | Some h => on_webhook h now body end.

Definition accepted_body (event delivery : string) : jvalue :=
  OObj [("delivery", OText delivery); ("event", OText event); ("retry_after_seconds", OInt 5); ("status", OText "accepted")].

Definition github_webhook {D} (secret : string) (h : option Attribution.Handler) (now : Z) (record : list effect → D → D) : handler D := λ c req w,
  match ReqBody req with
  | Err TooLarge => (http_BodyTooLarge c GitHubWebhookMaxBytes, w, None)
  | Err NotJSON => (http_BadRequest c "could not read webhook body", w, None)
  | Ok body =>
      if negb (String.eqb secret "") && negb (VerifyWebhook secret (Header req "X-Hub-Signature-256") body)
      then (http_Unauthorized c "invalid webhook signature", w, None)
      else
        let event := Header req "X-GitHub-Event" in let delivery := Header req "X-GitHub-Delivery" in
        let w := mkWorld (record (dispatchGitHubEvent h now event body) (dom w)) (log w) (http_requests w) (durations w) in
        ([SetHeader "Content-Type" "application/json"; SetHeader "Retry-After" "5"; WriteHeader 202;
          Write (from_option (λ s, s) "" (marshal (accepted_body event delivery)) +:+ newline)], w, None)
  end.

(** ** The other routes of [buildMux] *)

Definition healthz {D} : handler D := λ c req w, ([WriteHeader 200; Write ("ok" +:+ newline)], w, None).

Definition result_json (r : Health.Result) : jvalue :=
  OObj ([("name", OText (Health.RName r)); ("ok", OBool (Health.OK r))] ++ omitempty "error" (Health.RError r) ++
        [("latency_ns", OInt (Health.Latency r))]).
Definition readyz {D} `{GoMapOrder} (version : string) (checks : Health.Registry) (clock : string → Z * Z) : handler D := λ c req w,
  let '(results, ok) := Health.Run clock (2 * Second) checks in
  ([SetHeader "Content-Type" "application/json"; WriteHeader (if ok : bool then 200 else 503);
    Write (from_option (λ s, s) "" (marshal (OObj [("checks", OArr (map result_json results)); ("ok", OBool ok); ("version", OText version)])) +:+ newline)], w, None).

(** [oauthStateRE]: one to 256 bytes of a fixed alphabet. *)
Definition state_byte (c : ascii) : bool :=
  let b := byte_val c in between 65 90 b || between 97 122 b || between 48 57 b || str_mem (String c "") ["."; "_"; "~"; "+"; "/"; "="; "-"].
Definition oauthStateRE (s : string) : bool := str_all state_byte s && (1 <=? Z.of_nat (String.length s)) && (Z.of_nat (String.length s) <=? 256).

(** [url.QueryEscape]. *)
Definition unreserved (c : ascii) : bool :=
  let b := byte_val c in between 65 90 b || between 97 122 b || between 48 57 b || str_mem (String c "") ["-"; "_"; "."; "~"].
Definition upper_hex (n : Z) : ascii := chr (if n <? 10 then 48 + n else 55 + n).
Fixpoint QueryEscape (s : string) : string :=
  match s with
  | EmptyString => ""
  | String c s =>
      (if unreserved c then String c "" else if Ascii.eqb c " " then "+"
       else String "%" (String (upper_hex (byte_val c / 16)) (String (upper_hex (byte_val c mod 16)) ""))) +:+ QueryEscape s
  end.

(** The dashboard's URL as [url.Parse] reads it: scheme, user and host as they are written,
    and the fragment. *)
Record base_url := mkBase { BScheme : string; BUserHost : string; BHasHost : bool; BFragment : string }.

Definition localhost : base_url := mkBase "http" "localhost:3000" true "".
Definition oauthRedirectTarget (parse : string → option base_url) (dashboard state : string) : string :=
  let base := if String.eqb dashboard "" then "http://localhost:3000" else dashboard in
  let u := match parse base with
    | Some u => if (negb (String.eqb (BScheme u) "http") && negb (String.eqb (BScheme u) "https")) || negb (BHasHost u) then localhost else u
    | None => localhost end in
  BScheme u +:+ "://" +:+ BUserHost u +:+ "/app?oauth=github" +:+
    (if oauthStateRE state then "&state=" +:+ QueryEscape state else "") +:+
    (if String.eqb (BFragment u) "" then "" else "#" +:+ BFragment u).

(** [http.Redirect] of a GET writes the location and a short page. *)
Definition oauth_callback {D} (parse : string → option base_url) (dashboard : string) : handler D := λ c req w,
  if String.eqb (Query req "code") "" then (http_MissingField c "code", w, None)
  else
    let dest := oauthRedirectTarget parse dashboard (Query req "state") in
    ([SetHeader "Cache-Control" "no-store"; SetHeader "Location" dest; SetHeader "Content-Type" "text/html; charset=utf-8"; WriteHeader 303], w, None).

Definition subtleConstantTimeEq (a b : string) : bool :=
  if negb (String.length a =? String.length b)%nat then false else String.eqb a b.

Definition admin_only {D} (token : string) (next : handler D) : handler D := λ c req w,
  if negb (subtleConstantTimeEq (Header req "X-Admin-Token") token)
  then (http_Unauthorized c "X-Admin-Token header missing or invalid", w, None)
  else next c req w.

(** ** Domain routes *)

Record endpoints (D : Type) := mkEndpoints {
  Analyze : handler D; Share : handler D; ReceiptsGet : handler D; VerifyPage : handler D; Spike : handler D;
  EWhoami : handler D; EIssue : handler D; EIngest : handler D; EAgentSnapshot : option (handler D);
  ESavings : handler D; EApplyFixes : handler D; EAgentHealth : handler D; EPreview : handler D;
  EOnbState : handler D; EOnbTransition : handler D; EOnbHealth : handler D; EPreflight : handler D }.
Arguments Analyze {D}. Arguments Share {D}. Arguments ReceiptsGet {D}. Arguments VerifyPage {D}. Arguments Spike {D}.
Arguments EWhoami {D}. Arguments EIssue {D}. Arguments EIngest {D}. Arguments EAgentSnapshot {D}. Arguments ESavings {D}.
Arguments EApplyFixes {D}. Arguments EAgentHealth {D}. Arguments EPreview {D}. Arguments EOnbState {D}.
Arguments EOnbTransition {D}. Arguments EOnbHealth {D}. Arguments EPreflight {D}.

Definition get (segs : list seg) : pattern := mkPattern "GET" segs false.
Definition post (segs : list seg) : pattern := mkPattern "POST" segs false.

(** The limiter in front of the sandbox, with the headers it writes; [at_] reads the clock. *)
Definition quota_actions (q : option quota_headers) : list action :=
  match q with
  | None => []
  | Some q => [SetHeader "X-RateLimit-Limit" (itoa (h_limit q)); SetHeader "X-RateLimit-Remaining" (itoa (h_remaining q))] ++
      match h_reset q with Some t => [SetHeader "X-RateLimit-Reset" (itoa t)] | None => [] end
  end.

Definition sandboxRateLimit : Z := 60.
Definition sandboxRateWindow : Z := Minute.

Definition limited_actions (c : context) (hs : option quota_headers) (secs : Z) : list action :=
  quota_actions hs ++ [SetHeader "Retry-After" (itoa secs)] ++
  WriteWithDetails c 429 "RATE_LIMITED" ("rate limit exceeded; retry after " +:+ itoa secs +:+ " seconds") [("retry_after_seconds", OInt secs)].

Definition with_dom {D} (d : D) (w : world D) : world D := mkWorld d (log w) (http_requests w) (durations w).

(** The domain keeps the limiter's memory beside the rest. *)
Definition sandboxMW {E} `{GoMapOrder, GoPlatform} (at_ : Z) (next : handler (Memory * E)) : handler (Memory * E) := λ c req w,
  match RateLimit.Middleware memory_limiter true (dom w).1 (ClientKey req) at_ at_ at_ with
  | (m, Served hs) =>
      let '(acts, w, p) := next c req (with_dom (m, (dom w).2) w) in (quota_actions hs ++ acts, w, p)
  | (m, ServiceUnavailable) => (http_ServiceUnavailable c "rate limiter unavailable", with_dom (m, (dom w).2) w, None)
  | (m, TooManyRequests hs secs) => (limited_actions c hs secs, with_dom (m, (dom w).2) w, None)
  end.

(** What guards a route. *)
Inductive guard := Public | Limited | Tenant | Agent.

(** The table [mountDomainRoutes] fills, in its order. *)
Definition domain_table {D} (e : endpoints D) : list (pattern * guard * handler D) :=
  [(post [Lit "v1"; Lit "analyze"], Limited, Analyze e); (get [Lit "r"; Wild "hash"], Limited, Share e);
   (get [Lit "v1"; Lit "receipts"; Wild "id"], Public, ReceiptsGet e); (get [Lit "v"; Wild "id"], Public, VerifyPage e);
   (post [Lit "v1"; Lit "cost-spikes"], Public, Spike e);
   (get [Lit "v1"; Lit "session"; Lit "whoami"], Public, EWhoami e); (post [Lit "v1"; Lit "session"; Lit "issue"], Public, EIssue e);
   (post [Lit "v1"; Lit "ingest"], Tenant, EIngest e)] ++
  match EAgentSnapshot e with Some h => [(post [Lit "v1"; Lit "agent"; Lit "snapshot"], Agent, h)] | None => [] end ++
  [(get [Lit "v1"; Lit "savings"; Lit "summary"], Tenant, ESavings e); (get [Lit "v1"; Lit "apply-fixes"], Tenant, EApplyFixes e);
   (get [Lit "v1"; Lit "agent"; Lit "health"], Tenant, EAgentHealth e);
   (post [Lit "v1"; Lit "apply-fixes"], Tenant, EPreview e);
   (get [Lit "v1"; Lit "onboarding"; Lit "state"], Tenant, EOnbState e);
   (post [Lit "v1"; Lit "onboarding"; Lit "transition"], Tenant, EOnbTransition e);
   (get [Lit "v1"; Lit "onboarding"; Lit "health"], Tenant, EOnbHealth e);
   (post [Lit "v1"; Lit "onboarding"; Lit "preflight"], Tenant, EPreflight e)].

Section Routes.
Context {E : Type} `{GoMapOrder, GoPlatform}.
Implicit Types e : endpoints (Memory * E).

Definition guarded (env : string) (at_ : Z) (g : guard) (h : handler (Memory * E)) : handler (Memory * E) :=
  match g with
  | Public => h
  | Limited => sandboxMW at_ h
  | Tenant => requireTenant HeaderTenantExtractor h
  | Agent => requireTenant (MTLSTenantExtractor env) h
  end.

Definition domain_routes (env : string) (at_ : Z) e : list route :=
  map (λ r, (r.1.1, guarded env at_ r.1.2 r.2)) (domain_table e).

(** The routes [buildMux] adds, and the manifest: all public. [pprof] are the profiling
    handlers, mounted when an admin token is set. *)
Record base_handlers := mkBaseHandlers {
  Metrics : handler (Memory * E); Callback : handler (Memory * E); Webhook : handler (Memory * E);
  Ready : handler (Memory * E); Meta : handler (Memory * E); AdminToken : string; Pprof : string → handler (Memory * E) }.

Definition pprof_names : list string := ["cmdline"; "profile"; "symbol"; "trace"].
Definition mountPProf (b : base_handlers) : list route :=
  if String.eqb (AdminToken b) "" then []
  else map (λ n, (get [Lit "debug"; Lit "pprof"; Lit n], admin_only (AdminToken b) (Pprof b n))) pprof_names ++
       [(mkPattern "GET" [Lit "debug"; Lit "pprof"] true, admin_only (AdminToken b) (Pprof b ""))].

Definition base_routes (b : base_handlers) : list route :=
  [(get [Lit "healthz"], healthz); (get [Lit "readyz"], Ready b); (get [Lit "metrics"], Metrics b);
   (get [Lit "oauth"; Lit "github"; Lit "callback"], Callback b); (post [Lit "webhooks"; Lit "github"], Webhook b);
   (get [Lit "v1"; Lit "meta"], Meta b)].

(** A literal last segment goes before the subtree it lies in. *)
Definition api (env : string) (at_ : Z) e (b : base_handlers) : handler (Memory * E) :=
  mux_handler (base_routes b ++ mountPProf b ++ domain_routes env at_ e).
End Routes.

(** ** Facts: the mux *)

Lemma segs_apart p : ∀ q sp sq ss, segs_clash p q sp sq = false → segs_match p sp ss = true → segs_match q sq ss = true → False.
Proof.
  induction p as [|x p IH]; intros q sp sq ss.
  - destruct q as [|y q]; cbn; [by destruct ss, sp, sq|]. intros ->. by destruct ss.
  - destruct q as [|y q]; cbn; [intros Hc; destruct x; subst sq; by destruct ss|].
    destruct ss as [|s ss]; [done|]. cbn. intros Hc [Hx Hp]%andb_prop [Hy Hq]%andb_prop.
    destruct x as [a|a], y as [b|b]; try by eapply IH.
    cbn in Hx, Hy. apply String.eqb_eq in Hx as ->, Hy as ->. rewrite String.eqb_refl in Hc. by eapply IH.
Qed.

(** The program registers GET and POST patterns only. *)
Definition known_method (p : pattern) : bool := str_mem (PMethod p) ["GET"; "POST"].

Lemma apart p q req : clash p q = false → known_method p = true → known_method q = true →
  matches p req = true → matches q req = true → False.
Proof.
  unfold clash, matches, known_method, method_match, path_match. rewrite !str_mem_spec, !elem_of_cons, !elem_of_nil.
  intros Hc Hp Hq [Hmp Hsp]%andb_prop [Hmq Hsq]%andb_prop.
  destruct (String.eqb_spec (PMethod p) (PMethod q)); [by eapply segs_apart|].
  rewrite orb_true_iff, andb_true_iff, !String.eqb_eq in Hmp, Hmq. intuition congruence.
Qed.

Section Find.
Context {D : Type}.
Implicit Types rs : list (@route D).

Lemma find_skip rs rs' req : (∀ r, r ∈ rs → matches r.1 req = false) →
  List.find (λ r, matches r.1 req) (rs ++ rs') = List.find (λ r : route, matches r.1 req) rs'.
Proof. induction rs as [|x rs IH]; intros Hall; [done|]. cbn [List.find app]. rewrite (Hall x) by left. apply IH. intros r Hr. apply Hall. by right. Qed.

Lemma find_only rs r req : Forall (λ r : route, known_method r.1 = true) rs → ForallOrdPairs (λ x y : route, clash x.1 y.1 = false) rs →
  r ∈ rs → matches r.1 req = true → List.find (λ r, matches r.1 req) rs = Some r.
Proof.
  intros Hk Hp Hin Hm. induction Hp as [|x rs Hx Hp IH]; [by apply elem_of_nil in Hin|].
  apply Forall_cons in Hk as [Hkx Hk]. cbn [List.find]. apply elem_of_cons in Hin as [->|Hin]; [by rewrite Hm|].
  destruct (matches x.1 req) eqn:Ex; [|by apply IH]. exfalso.
  pose proof (proj1 (Forall_forall _ _) Hx r Hin) as Hc. pose proof (proj1 (Forall_forall _ _) Hk r Hin) as Hkr.
  exact (apart _ _ _ Hc Hkx Hkr Ex Hm).
Qed.
End Find.

(** ** The guards *)

Definition header_tenant (req : http_request) : TenantContext :=
  mkTenant (Header req "X-Optiqor-Tenant") (Header req "X-Optiqor-Workspace") (Header req "X-Optiqor-Cluster") (Header req "X-Optiqor-Namespace").

Lemma tenant_guard {D} (h : handler D) c req w : requireTenant HeaderTenantExtractor h c req w =
  if String.eqb (Header req "X-Optiqor-Tenant") "" then (http_Unauthorized c no_tenant_message, w, None)
  else h (mkContext (Some (header_tenant req)) (CtxRequestID c)) req w.
Proof.
  unfold requireTenant, HeaderTenantExtractor. destruct (String.eqb_spec (Header req "X-Optiqor-Tenant") ""); [done|].
  assert (TenantContext_Validate (header_tenant req) = None) as Hv by by apply validate_iff. unfold header_tenant in *. by rewrite Hv.
Qed.

(** The agent's tenant is the certificate's; in production nothing else counts. *)
Lemma agent_guard {D} env (h : handler D) c req w : requireTenant (MTLSTenantExtractor env) h c req w =
  match Mtls.ExtractTenant (Peers req) with
  | Ok t => h (mkContext (Some t) (CtxRequestID c)) req w
  | Err _ => if String.eqb env EnvProd then (http_Unauthorized c no_tenant_message, w, None)
             else requireTenant HeaderTenantExtractor h c req w
  end.
Proof.
  unfold requireTenant, MTLSTenantExtractor. destruct (Mtls.ExtractTenant (Peers req)) as [t|] eqn:E; [|by destruct (String.eqb env EnvProd)].
  assert (TenantContext_Validate t = None) as -> by by apply validate_iff, (extract_tenant _ _ E). done.
Qed.

Section Routes.
Context {E : Type} `{GoMapOrder, GoPlatform}.
Implicit Types (e : endpoints (Memory * E)) (b : base_handlers (E := E)).

(** Every domain route is found by its own requests. *)
Lemma domain_find env at_ e b row req : row ∈ domain_table e → matches row.1.1 req = true →
  List.find (λ r : route, matches r.1 req) (base_routes b ++ mountPProf b ++ domain_routes env at_ e) =
  Some (row.1.1, guarded env at_ row.1.2 row.2).
Proof.
  intros Hin Hm.
  assert (Forall (λ r : route, known_method r.1 = true) (domain_routes env at_ e) ∧
    ForallOrdPairs (λ x y : route, clash x.1 y.1 = false) (domain_routes env at_ e) ∧
    ∀ r : route, r ∈ base_routes b ++ mountPProf b → known_method r.1 = true ∧ Forall (λ y : route, clash r.1 y.1 = false) (domain_routes env at_ e))
    as (Hk & Hp & Hbase).
  { unfold domain_routes, domain_table. destruct (EAgentSnapshot e); cbn [app map fst snd];
      (split; [repeat constructor|]); (split; [repeat constructor|]); unfold base_routes, mountPProf;
      destruct (String.eqb (AdminToken b) ""); apply Forall_forall; cbn [app map pprof_names]; repeat constructor. }
  assert ((row.1.1, guarded env at_ row.1.2 row.2) ∈ domain_routes env at_ e) as Hr by (unfold domain_routes; by apply (list_elem_of_fmap_2 (λ r, (r.1.1, guarded env at_ r.1.2 r.2)))).
  rewrite app_assoc. etrans; [apply find_skip|by apply find_only].
  intros r Hrb. destruct (matches r.1 req) eqn:Er; [|done]. exfalso. destruct (Hbase r Hrb) as [Hkr Hc].
  eapply (apart r.1 row.1.1); [|done| |done|done].
  - exact (proj1 (Forall_forall _ _) Hc _ Hr).
  - exact (proj1 (Forall_forall _ _) Hk _ Hr).
Qed.

End Routes.

(** The demo: every endpoint leaves the tenant it acted for in the domain. *)
Definition note {E} (name : string) : handler (E * list (string * go_context)) := λ c req w,
  ([Write name], with_dom ((dom w).1, (dom w).2 ++ [(name, CtxTenant c)]) w, None).
Definition demo_endpoints {E} : endpoints (E * list (string * go_context)) :=
  mkEndpoints _ (note "analyze") (note "share") (note "receipt") (note "verify") (note "spike") (note "whoami") (note "issue") (note "ingest")
    (Some (note "snapshot")) (note "savings") (note "fixes") (note "health") (note "preview") (note "state") (note "transition")
    (note "onboarding") (note "preflight").
Definition demo_base {E} : base_handlers (E := E) := mkBaseHandlers healthz healthz healthz healthz healthz "" (λ _, healthz).
Definition demo_req (method : string) (path : list string) (tenant : string) (peers : list (list (option Mtls.URL))) : http_request :=
  mkReq method path (λ k, if String.eqb k "X-Optiqor-Tenant" then tenant else "") (λ _, "") peers (Ok "") "10.0.0.1".
Definition demo_world : world (Memory * list (string * go_context)) := mkWorld (mkMemory 60 Minute ∅ 0, []) [] 0 [].


(** ** The webhook *)

Lemma hex_digit_val n : 0 <= n < 16 → hex_val (hex_digit n) = Some n.
Proof.
  intros Hn. assert (n = 0 ∨ n = 1 ∨ n = 2 ∨ n = 3 ∨ n = 4 ∨ n = 5 ∨ n = 6 ∨ n = 7 ∨ n = 8 ∨ n = 9 ∨ n = 10 ∨ n = 11 ∨ n = 12 ∨ n = 13 ∨ n = 14 ∨ n = 15) as Hd by lia.
  by destruct_or! Hd; subst.
Qed.

Lemma unhex_hex s : unhex (hex s) = Some s.
Proof.
  induction s as [|c s IH]; [done|]. cbn [hex unhex].
  assert (0 <= byte_val c < 256) as Hc by (unfold byte_val; pose proof (N_ascii_bounded c); lia).
  rewrite !hex_digit_val by (Z.to_euclidean_division_equations; lia). rewrite IH. do 2 f_equal.
  replace (byte_val c / 16 * 16 + byte_val c mod 16) with (byte_val c) by (Z.to_euclidean_division_equations; lia).
  unfold chr, byte_val. by rewrite N2Z.id, ascii_N_embedding.
Qed.

Lemma verify_webhook_iff secret header body : VerifyWebhook secret header body = true ↔
  ∃ h, header = "sha256=" +:+ h ∧ unhex h = Some (hmac_sha256 secret body).
Proof.
  unfold VerifyWebhook. destruct (strip_prefix "sha256=" header) as [h|] eqn:E.
  - apply strip_prefix_Some in E as ->. split.
    + destruct (unhex h) as [g|] eqn:Eh; [|done]. intros ->%String.eqb_eq. by exists h.
    + intros (h' & Heq & Hh). assert (h = h') as -> by by apply (sapp_inj "sha256="). by rewrite Hh, String.eqb_refl.
  - split; [done|]. intros (h & -> & _). by rewrite strip_prefix_app in E.
Qed.

(** C13 The webhook. With a secret, a delivery has an effect only if its body was read and its
    signature is the hexadecimal HMAC of it under the secret - which the signature GitHub sends
    is; it then has the effects of attribution if it is a pull-request event and attribution is
    wired, and none otherwise. The answer never depends on them: accepted, or unauthorized, or
    that the body could not be read. *)
Theorem webhook_authentic {D} (secret : string) (h : option Attribution.Handler) (now : Z) (record : list effect → D → D)
    (c : context) (req : http_request) (w : world D) :
  secret ≠ "" →
  let run := github_webhook secret h now record c req w in
  let genuine := ∃ body hexed, ReqBody req = Ok body ∧ Header req "X-Hub-Signature-256" = "sha256=" +:+ hexed ∧
                   unhex hexed = Some (hmac_sha256 secret body) in
  run.2 = None ∧
  (genuine → ∃ body, ReqBody req = Ok body ∧ RStatus (finish (run_actions new_response run.1.1)) = 202 ∧
     dom run.1.2 = record (match h with
                           | Some h => if String.eqb (Header req "X-GitHub-Event") "pull_request" then on_webhook h now body else []
                           | None => [] end) (dom w)) ∧
  (¬ genuine → run.1.2 = w ∧ RStatus (finish (run_actions new_response run.1.1)) ∈ [400; 401; 413]) ∧
  (∀ body, ReqBody req = Ok body → Header req "X-Hub-Signature-256" = "sha256=" +:+ hex (hmac_sha256 secret body) → genuine).
Proof.
  intros Hs. cbv zeta. unfold github_webhook. rewrite (proj2 (String.eqb_neq _ _) Hs). cbn [negb andb].
  assert (∀ status code msg details, RStatus (finish (run_actions new_response (WriteWithDetails c status code msg details))) = status) as Hst.
  { intros. unfold WriteWithDetails. set (e := _ +:+ newline). clearbody e. by destruct (String.eqb (CtxRequestID c) ""). }
  split; [by repeat case_match|]. split; [|split].
  - intros (body & hexed & Hb & Hh & Hx). exists body. rewrite Hb.
    assert (VerifyWebhook secret (Header req "X-Hub-Signature-256") body = true) as -> by (apply verify_webhook_iff; eauto).
    cbn [negb fst snd dom]. split; [done|]. split; [|by unfold dispatchGitHubEvent; destruct h, (String.eqb _ _)].
    set (e := _ +:+ newline). clearbody e. done.
  - intros Hno. destruct (ReqBody req) as [body|[]] eqn:Eb; [|cbn [fst snd]; split; [done|unfold http_BodyTooLarge, http_BadRequest, http_Write; rewrite Hst]..].
    + destruct (VerifyWebhook secret (Header req "X-Hub-Signature-256") body) eqn:Ev.
      { exfalso. apply Hno. apply verify_webhook_iff in Ev as (hx & ? & ?). by exists body, hx. }
      cbn [negb fst snd]. split; [done|]. unfold http_Unauthorized, http_Write. rewrite Hst. right. left.
    + do 2 right. left.
    + left.
  - intros body Hb Hh. exists body, (hex (hmac_sha256 secret body)). split_and!; [done..|apply unhex_hex].
Qed.

Definition signed_delivery : http_request :=
  mkReq "POST" ["webhooks"; "github"]
    (λ k, if String.eqb k "X-Hub-Signature-256" then "sha256=" +:+ hex (hmac_sha256 "hush" merged_webhook)
          else if String.eqb k "X-GitHub-Event" then "pull_request" else "")
    (λ _, "") [] (Ok merged_webhook) "140.82.112.1".

Lemma webhook_authentic_witness :
  let t := 63900000000 * Second in
  let run := github_webhook "hush" (Some demo_handler) t (λ new old, (old ++ new)%list) (mkContext None "") signed_delivery (mkWorld [] [] 0 []) in
  length (dom run.1.2) = 2%nat ∧ RStatus (finish (run_actions new_response run.1.1)) = 202.
Proof.
  cbv zeta.
  destruct (webhook_authentic "hush" (Some demo_handler) (63900000000 * Second) (λ new old, (old ++ new)%list) (mkContext None "") signed_delivery
    (mkWorld [] [] 0 [])) as (_ & Hgen & _ & Hours); [discriminate|].
  destruct Hgen as (body & Hb & Hst & Hdom); [exact (Hours merged_webhook eq_refl eq_refl)|].
  injection Hb as <-. split; [|exact Hst]. rewrite Hdom. by vm_compute.
Defined.

(** ** The callback *)

(** Wherever the callback sends a browser, the origin is the configured dashboard's, or the
    development one if the configuration is unusable; the request contributes a state of
    unreserved and escaped bytes, or nothing. *)
Lemma redirect_origin parse dashboard : ∃ origin fragment,
  (origin = "http://localhost:3000" ∨ ∃ u, parse dashboard = Some u ∧ origin = BScheme u +:+ "://" +:+ BUserHost u ∧
     (BScheme u = "http" ∨ BScheme u = "https") ∨ dashboard = "" ∧ parse "http://localhost:3000" = Some u ∧ origin = BScheme u +:+ "://" +:+ BUserHost u) ∧
  ∀ state, oauthRedirectTarget parse dashboard state =
    origin +:+ "/app?oauth=github" +:+ (if oauthStateRE state then "&state=" +:+ QueryEscape state else "") +:+ fragment.
Proof.
  unfold oauthRedirectTarget.
  set (u := match parse _ with Some _ => _ | None => _ end).
  exists (BScheme u +:+ "://" +:+ BUserHost u), (if String.eqb (BFragment u) "" then "" else "#" +:+ BFragment u).
  split; [|intros state; by rewrite <-!sapp_assoc].
  unfold u. clear u. destruct (String.eqb_spec dashboard "") as [->|Hd].
  - destruct (parse "http://localhost:3000") as [v|]; [|by left]. destruct (_ || _); [by left|]. right. exists v. right. done.
  - destruct (parse dashboard) as [v|]; [|by left]. destruct (_ || _) eqn:Eb; [by left|]. right. exists v. left.
    apply orb_false_iff in Eb as [Eb _]. split_and!; [done..|].
    destruct (String.eqb_spec (BScheme v) "http"); [by left|]. destruct (String.eqb_spec (BScheme v) "https"); [by right|done].
Qed.

(** ** What the boot wires *)

Definition dev_session_secret : string := "00000000000000000000000000000-dev".
Definition buildSessionSigner (getenv : environment) : string :=
  if String.eqb (getenv "OPTIQOR_SESSION_SECRET") "" then dev_session_secret else getenv "OPTIQOR_SESSION_SECRET".

(** The sink is there when the pool is. *)
Definition buildAgentSnapshotHandler (getenv : environment) (pool : option (TenantContext → AgentSnapshot → bool)) : option AgentSnapshotHandler :=
  if String.eqb (getenv "OPTIQOR_AGENT_INGEST_SECRET") "" then None
  else match Token.Ident.NewVerifier (getenv "OPTIQOR_AGENT_INGEST_SECRET") with
  | Err _ => None
  | Ok key => Some (Ingest.mkHandler (Some key) pool)
  end.

(** A production configuration that passes validation may lack the session secret: the signer's
    is then the one in the source, and what anyone signs with it is a session. *)
Lemma boot_divergences :
  (∃ cfg, Load prod_env = Ok cfg ∧ Env cfg = EnvProd ∧ buildSessionSigner prod_env = dev_session_secret) ∧
  (∃ tok s, Session.Issue dev_session_secret (mkSession "any-tenant" "" "anyone" "" Token.Ident.demo_now (Token.Ident.demo_now + Hour)) = Ok tok ∧
     Session.Verify (buildSessionSigner prod_env) Token.Ident.demo_now tok = Ok s ∧ STenantID s = "any-tenant") ∧
  (∀ pool, buildAgentSnapshotHandler prod_env pool = None).
Proof.
  split_and!; [eexists; split; [reflexivity|by vm_compute]|eexists _, _; split_and!; [vm_compute; reflexivity..|done]|done].
Qed.
