(* ===== verification/JsonTree.v ===== *)
(** What is read back from the JSON that Go writes: [json.Unmarshal] of the text [json.Marshal]
    makes of a tree of texts, integers, booleans, lists and objects gives the tree again. The
    two ends of every wire format of the back end meet here. *)

From Stdlib Require Import Ascii.
From S2P Require Import Prelude GoNum GoStr Lines Utf8 Json JsonOut.
Local Open Scope Z_scope.
Local Notation len := String.length.

(** The tree without floats, and how deep it is. *)
Fixpoint whole (v : jvalue) : bool :=
  match v with
  | ONum _ => false
  | OArr l => forallb whole l
  | OObj l => forallb (λ kv, whole kv.2) l
  | _ => true
  end.

Fixpoint height (v : jvalue) : nat :=
  match v with
  | OArr l => S (list_max (map height l))
  | OObj l => S (list_max (map (λ kv, height kv.2) l))
  | _ => 0
  end.

(** The document a reader finds: texts and keys with their invalid bytes replaced, numbers
    as they are written. *)
Fixpoint tree (v : jvalue) : json :=
  match v with
  | ONull => JNull
  | OBool b => JBool b
  | OInt z => JNum (itoa z)
  | ONum x => JNum (default "" (encode_float x))
  | OText s => JStr (quote_body true (len s) s) (to_valid_utf8 s)
  | OArr l => JArr (map tree l)
  | OObj l => JObj (map (λ kv, (to_valid_utf8 kv.1, tree kv.2)) l)
  end.

(** Induction that reaches the elements and the members. *)
Lemma jvalue_nested (P : jvalue → Prop) :
  P ONull → (∀ b, P (OBool b)) → (∀ z, P (OInt z)) → (∀ x, P (ONum x)) → (∀ s, P (OText s)) →
  (∀ l, Forall P l → P (OArr l)) → (∀ l, Forall (λ kv, P kv.2) l → P (OObj l)) → ∀ v, P v.
Proof.
  intros Hn Hb Hi Hf Ht Ha Ho. fix IH 1. intros [|b|z|x|s|l|l]; [done|apply Hb|apply Hi|apply Hf|apply Ht| |].
  - apply Ha. induction l; constructor; [apply IH|done].
  - apply Ho. induction l; constructor; [apply IH|done].
Qed.

(** A tree without floats has a text. *)
Lemma marshal_whole v : whole v = true → is_Some (marshal v).
Proof.
  induction v as [| | | | |l IH|l IH] using jvalue_nested; intros Hw; try done; cbn [whole marshal] in *.
  - assert (is_Some (mapM marshal l)) as [ss ->]; [|done]. apply mapM_is_Some.
    apply Forall_forall. intros v Hv. apply (proj1 (Forall_forall _ _) IH v Hv).
    apply (proj1 (forallb_forall _ _) Hw). by apply list_elem_of_In.
  - match goal with |- is_Some (option_map _ ?m) => assert (is_Some m) as [ss ->]; [|done] end. apply mapM_is_Some.
    apply Forall_forall. intros kv Hv.
    assert (is_Some (marshal kv.2)) as [s Es]; [|cbn; by rewrite Es].
    apply (proj1 (Forall_forall _ _) IH kv Hv). apply (proj1 (forallb_forall _ _) Hw kv). by apply list_elem_of_In.
Qed.

(** ** Lists *)

(** What the reader makes of a text wherever it stands, given room and fuel. *)
Definition reads (v : jvalue) (s : string) : Prop :=
  s ≠ "" ∧ (∀ c r, s = String c r → is_ws c = false ∧ byte_val c ≠ 93) ∧
  ∀ fuel d x, stops x = true → (2 * len (s +:+ x) + 2 <= fuel)%nat → d + Z.of_nat (height v) <= maxNestingDepth →
    parse_value fuel d (s +:+ x) = Some (tree v, x).

Lemma join_cons_match (a s : string) l : join a (s :: l) = match l with [] => s | _ => s +:+ a +:+ join a l end.
Proof. by destruct l. Qed.

Lemma list_max_cons n l : (n <= list_max (n :: l) ∧ list_max l <= list_max (n :: l))%nat.
Proof. change (list_max (n :: l)) with (Nat.max n (list_max l)). lia. Qed.

Lemma parse_elements_join l ss d x : l ≠ [] → Forall2 reads l ss → ∀ fuel,
  (2 * len (join "," ss +:+ String "]" x) + 3 <= fuel)%nat →
  d + Z.of_nat (list_max (map height l)) <= maxNestingDepth →
  parse_elements fuel d (join "," ss +:+ String "]" x) = Some (map tree l, x).
Proof.
  intros Hne Hl. induction Hl as [|v s l ss (Hs & _ & Hv) Hl IH]; [done|]. clear Hne. intros fuel Hf Hd.
  destruct fuel as [|fuel]; [lia|].
  set (tail := match ss with [] => String "]" x | _ => String "," (join "," ss +:+ String "]" x) end).
  assert (join "," (s :: ss) +:+ String "]" x = s +:+ tail) as E.
  { rewrite join_cons_match. unfold tail. destruct ss; [done|]. by rewrite <-!sapp_assoc, sapp_cons. }
  rewrite E in *. clear E. cbn [map parse_elements] in *. pose proof (list_max_cons (height v) (map height l)).
  rewrite Hv; [|by unfold tail; destruct ss|lia|lia].
  unfold tail in *. destruct ss as [|s' ss].
  - apply Forall2_nil_inv_r in Hl as ->. rewrite skip_ws_stop by done. done.
  - inversion Hl; subst. rewrite skip_ws_stop by done.
    change (byte_val "," =? 93) with false. change (byte_val "," =? 44) with true. cbv iota.
    rewrite IH; [done|done| |lia]. rewrite slength_app in Hf.
    change (len (String "," ?t)) with (S (len t)) in Hf. lia.
Qed.

Lemma parse_members_join (l : list (string * jvalue)) ss d x : l ≠ [] →
  Forall2 (λ kv s, ∃ t, s = quote true kv.1 +:+ ":" +:+ t ∧ reads kv.2 t) l ss → ∀ fuel,
  (2 * len (join "," ss +:+ String "}" x) + 2 <= fuel)%nat →
  d + Z.of_nat (list_max (map (λ kv, height kv.2) l)) <= maxNestingDepth →
  parse_members fuel d (join "," ss +:+ String "}" x) = Some (map (λ kv, (to_valid_utf8 kv.1, tree kv.2)) l, x).
Proof.
  intros Hne Hl. induction Hl as [|[k v] s l ss (t & -> & Ht & _ & Hv) Hl IH]; [done|]. clear Hne. intros fuel Hf Hd.
  destruct fuel as [|fuel]; [lia|].
  set (tail := match ss with [] => String "}" x | _ => String "," (join "," ss +:+ String "}" x) end).
  assert (join "," ((quote true k +:+ ":" +:+ t) :: ss) +:+ String "}" x = quote true k +:+ String ":" (t +:+ tail)) as E.
  { rewrite join_cons_match. unfold tail. destruct ss; rewrite <-!sapp_assoc, ?sapp_cons; [done|]. by rewrite <-?sapp_assoc, ?sapp_cons. }
  cbn [fst snd] in *. rewrite E in *. clear E. cbn [map] in *. pose proof (list_max_cons (height v) (map (λ kv, height kv.2) l)) as Hmax.
  cbn [snd] in *.
  destruct (parse_quote true k (String ":" (t +:+ tail)) fuel) as (r & Er & Hp & _); [lia|].
  rewrite Er. cbn [parse_members]. rewrite skip_ws_stop by done. change (byte_val quote_char =? 34) with true. cbv iota.
  rewrite Hp. rewrite skip_ws_stop by done. change (byte_val ":" =? 58) with true. cbv iota.
  rewrite slength_app in Hf. change (len (String ":" ?t)) with (S (len t)) in Hf.
  rewrite Hv; [|by unfold tail; destruct ss|lia|lia].
  unfold tail in *. destruct ss as [|s' ss].
  - apply Forall2_nil_inv_r in Hl as ->. rewrite skip_ws_stop by done. done.
  - inversion Hl; subst. rewrite skip_ws_stop by done.
    change (byte_val "," =? 125) with false. change (byte_val "," =? 44) with true. cbv iota.
    rewrite IH; [done|done| |lia]. rewrite slength_app in Hf.
    change (len (String "," ?t)) with (S (len t)) in Hf. lia.
Qed.

(** ** Trees *)

Lemma reads_scalar v t : encode_scalar true v = t → ∀ w, tree w = scalar_json true v → height w = 0%nat → reads w t.
Proof.
  intros <- w Ht Hh. assert (∃ c r, encode_scalar true v = String c r ∧ is_ws c = false ∧ byte_val c ≠ 93) as (c & r & E & Hc).
  { destruct v as [s|z]; cbn [encode_scalar].
    - by eexists _, _.
    - destruct (itoa_first z) as (c & t & E & Hc). exists c, t. split; [done|].
      destruct Hc as [->|Hc]; [done|]. all_bytes c; first [discriminate Hc|done]. }
  split; [by rewrite E|]. split; [intros c' r' E'; rewrite E in E'; by injection E' as <- <-|].
  intros fuel d x Hx Hf _. rewrite Ht. apply parse_scalar; [done|lia].
Qed.

Lemma reads_word v s : s ∈ [("null", JNull); ("true", JBool true); ("false", JBool false)] → tree v = s.2 → reads v s.1.
Proof.
  intros Hs Ht. repeat (apply elem_of_cons in Hs as [->|Hs]); [..|by apply not_elem_of_nil in Hs];
    (split; [done|]; split; [intros c r [= <- _]; done|]; intros [|fuel] d x Hx Hf _; [lia|]; rewrite Ht; by destruct x).
Qed.

Lemma reads_braces (op cl : ascii) body (v : jvalue) :
  is_ws op = false → byte_val op ≠ 93 →
  (∀ fuel d x, stops x = true → (2 * len (String op (body +:+ String cl x)) + 2 <= fuel)%nat →
     d + Z.of_nat (height v) <= maxNestingDepth →
     parse_value fuel d (String op (body +:+ String cl x)) = Some (tree v, x)) →
  reads v (String op (body +:+ String cl "")).
Proof.
  intros Hw H93 Hp. split; [done|]. split; [by intros c r [= <- _]|]. intros fuel d x Hx Hf Hd.
  assert (String op (body +:+ String cl "") +:+ x = String op (body +:+ String cl x)) as E
    by (rewrite sapp_cons, <-sapp_assoc; done). rewrite E in *. by apply Hp.
Qed.

(** Every tree without floats is read back from its text. *)
Lemma marshal_reads v s : whole v = true → marshal v = Some s → reads v s.
Proof.
  revert s. induction v as [|b|z|x|t|l IH|l IH] using jvalue_nested; intros s Hw Hs; cbn [whole marshal] in Hw, Hs.
  - injection Hs as <-. by apply (reads_word ONull ("null", JNull)); [left|].
  - injection Hs as <-. destruct b.
    + apply (reads_word (OBool true) ("true", JBool true)); [right; left|done].
    + apply (reads_word (OBool false) ("false", JBool false)); [right; right; left|done].
  - injection Hs as <-. by apply (reads_scalar (VInt z)).
  - done.
  - injection Hs as <-. by apply (reads_scalar (VStr t)).
  - destruct (mapM marshal l) as [ss|] eqn:Em; [|done]. injection Hs as <-. apply mapM_Some in Em.
    assert (Forall2 reads l ss) as Hl.
    { clear -IH Hw Em. induction Em as [|v s l ss Hv Em IHm]; [constructor|]. cbn [forallb] in Hw.
      apply andb_prop in Hw as [Hw Hws]. inversion IH; subst. constructor; [auto|by apply IHm]. }
    apply (reads_braces "[" "]" (join "," ss) (OArr l)); [done..|].
    intros [|fuel] d x Hx Hf Hd; [lia|]. cbn [parse_value]. rewrite skip_ws_stop by done.
    change (byte_val "[" =? 123) with false. change (byte_val "[" =? 91) with true. cbv iota.
    cbn [height] in Hd. rewrite (proj2 (Z.leb_gt _ _)) by lia.
    destruct ss as [|s ss].
    + apply Forall2_nil_inv_r in Hl as ->. done.
    + inversion Hl as [|v ? l' ? (Hs & Hh & _)]; subst.
      destruct s as [|c r]; [done|]. destruct (Hh _ _ eq_refl) as [Hc1 Hc2].
      assert (∃ r', join "," (String c r :: ss) +:+ String "]" x = String c r') as [r' Er]
        by (rewrite join_cons_match; destruct ss; rewrite ?sapp_cons; by eexists).
      rewrite Er. rewrite skip_ws_stop by done. rewrite (proj2 (Z.eqb_neq _ _)) by done. rewrite <-Er.
      rewrite (parse_elements_join (v :: l')); [done|done|done| |lia].
      change (len (String "[" ?t)) with (S (len t)) in Hf. lia.
  - destruct (mapM _ l) as [ss|] eqn:Em; [|done]. injection Hs as <-. apply mapM_Some in Em.
    assert (Forall2 (λ kv s, ∃ t, s = quote true kv.1 +:+ ":" +:+ t ∧ reads kv.2 t) l ss) as Hl.
    { clear -IH Hw Em. induction Em as [|[k v] s l ss Hv Em IHm]; [constructor|]. cbn [forallb snd] in Hw.
      apply andb_prop in Hw as [Hw Hws]. inversion IH; subst. constructor; [|by apply IHm]. cbn [fst snd] in *.
      destruct (marshal v) as [t|]; [|done]. injection Hv as <-. exists t. auto. }
    apply (reads_braces "{" "}" (join "," ss) (OObj l)); [done..|].
    intros [|fuel] d x Hx Hf Hd; [lia|]. cbn [parse_value]. rewrite skip_ws_stop by done.
    change (byte_val "{" =? 123) with true. cbv iota.
    cbn [height] in Hd. rewrite (proj2 (Z.leb_gt _ _)) by lia.
    destruct ss as [|s ss].
    + apply Forall2_nil_inv_r in Hl as ->. done.
    + inversion Hl as [|kv ? l' ? (t & -> & _)]; subst.
      assert (∃ r', join "," ((quote true kv.1 +:+ ":" +:+ t) :: ss) +:+ String "}" x = String quote_char r') as [r' Er]
        by (rewrite join_cons_match; destruct ss; unfold quote; rewrite ?sapp_cons; by eexists).
      rewrite Er. rewrite skip_ws_stop by done. change (byte_val quote_char =? 125) with false. cbv iota. rewrite <-Er.
      rewrite (parse_members_join (kv :: l')); [done|done|done| |lia].
      change (len (String "{" ?t)) with (S (len t)) in Hf. lia.
Qed.

(** Decoding inverts encoding. *)
Lemma marshal_roundtrip v : whole v = true → Z.of_nat (height v) <= maxNestingDepth →
  ∃ s, marshal v = Some s ∧ parse_document s = Some (tree v) ∧ decode_first s = Some (tree v).
Proof.
  intros Hw Hd. destruct (marshal_whole v Hw) as [s Hs]. exists s. split; [done|].
  destruct (marshal_reads v s Hw Hs) as (_ & _ & Hr).
  assert (parse_document s = Some (tree v)) as E.
  { unfold parse_document. pose proof (Hr (2 * len s + 2)%nat 0 "" eq_refl) as H. rewrite sapp_nil_r in H.
    rewrite H by (done || lia). done. }
  split; [done|by apply decode_first_document].
Qed.
