(* ===== verification/Anthropic.v ===== *)
(** The production model behind the composer: the adapter of the Anthropic messages API
    (backend/internal/agent/llm/anthropic/client.go), the row of a call in the database
    (agent/recorder.go) and its audit trail (agent/llm/audit/audit.go). The HTTP transport and
    the texts of foreign errors are parameters. *)

From Stdlib Require Import Ascii.
From S2P Require Import Prelude GoNum GoStr Lines Utf8 Sha256 Json JsonOut JsonTree Rules Tenancy Sanitizer Composer PromClient Config.
Local Open Scope Z_scope.

(** ** The adapter *)

Record Config := mkConfig { APIKey : string; BaseURL : string; UserAgent : string }.
Inductive new_error := ErrNoAPIKey.

Definition defaultBaseURL : string := "https://api.anthropic.com".
Definition apiVersion : string := "2023-06-01".
Definition defaultModel : string := "claude-sonnet-4-6".

Definition New (cfg : Config) : result new_error Config :=
  if String.eqb (APIKey cfg) "" then Err ErrNoAPIKey
  else Ok (mkConfig (APIKey cfg)
             (if String.eqb (BaseURL cfg) "" then defaultBaseURL else BaseURL cfg)
             (if String.eqb (UserAgent cfg) "" then "optiqor-backend/1.0" else UserAgent cfg)).

Definition normaliseModel (m : string) : string := if String.eqb m "" then defaultModel else m.

(** *** The request *)

Definition text_block (text : string) : list (string * jvalue) := [("type", OText "text"); ("text", OText text)].
Definition cache_control : string * jvalue := ("cache_control", OObj [("type", OText "ephemeral")]).

Definition system_blocks (req : LLMRequest) : list jvalue :=
  (if String.eqb (CachedSystem req) "" then [] else [OObj (text_block (CachedSystem req) ++ [cache_control])]) ++
  (if String.eqb (System req) "" then [] else [OObj (text_block (System req))]).

Definition messages_request (req : LLMRequest) : jvalue :=
  OObj ([("model", OText (normaliseModel (Model req))); ("max_tokens", OInt (MaxTokens req))] ++
        match system_blocks req with [] => [] | l => [("system", OArr l)] end ++
        [("messages", OArr [OObj [("role", OText "user"); ("content", OText (User req))]])]).

Definition headers (cfg : Config) : list (string * string) :=
  [("Content-Type", "application/json"); ("Accept", "application/json"); ("anthropic-version", apiVersion);
   ("x-api-key", APIKey cfg); ("User-Agent", UserAgent cfg)].

(** *** The answer *)

Record contentItem := mkItem { CType : string; CText : string }.
Record usage := mkUsage { UInput : Z; UOutput : Z; UCacheCreation : Z; UCacheRead : Z }.
Record messagesResponse := mkMessages { Content : list contentItem; MModel : string; Usage : usage }.

Definition assign_item (name : string) (v : json) (i : contentItem) : option contentItem :=
  if String.eqb name "type" then option_map (λ s, mkItem s (CText i)) (assign_string v (CType i))
  else option_map (mkItem (CType i)) (assign_string v (CText i)).
Definition read_item (v : json) : option contentItem := into_struct ["type"; "text"] assign_item false v (mkItem "" "").

Definition assign_usage (name : string) (v : json) (u : usage) : option usage :=
  let 'mkUsage i o c r := u in
  if String.eqb name "input_tokens" then option_map (λ z, mkUsage z o c r) (assign_int64 v i)
  else if String.eqb name "output_tokens" then option_map (λ z, mkUsage i z c r) (assign_int64 v o)
  else if String.eqb name "cache_creation_input_tokens" then option_map (λ z, mkUsage i o z r) (assign_int64 v c)
  else option_map (mkUsage i o c) (assign_int64 v r).
Definition usage_names : list string :=
  ["input_tokens"; "output_tokens"; "cache_creation_input_tokens"; "cache_read_input_tokens"].

Definition assign_messages (name : string) (v : json) (m : messagesResponse) : option messagesResponse :=
  if String.eqb name "content" then option_map (λ l, mkMessages l (MModel m) (Usage m)) (read_list read_item v)
  else if String.eqb name "model" then option_map (λ s, mkMessages (Content m) s (Usage m)) (assign_string v (MModel m))
  else option_map (mkMessages (Content m) (MModel m)) (into_struct usage_names assign_usage false v (Usage m)).
Definition read_messages (body : string) : option messagesResponse :=
  match parse_document body with
  | Some v => into_struct ["content"; "model"; "usage"] assign_messages false v (mkMessages [] "" (mkUsage 0 0 0 0))
  | None => None
  end.

(** The error envelope: its type, which nothing reads, and its error. *)
Record apiError := mkApiError { EType : string; EMessage : string }.
Definition assign_api_error (name : string) (v : json) (e : apiError) : option apiError :=
  if String.eqb name "type" then option_map (λ s, mkApiError s (EMessage e)) (assign_string v (EType e))
  else option_map (mkApiError (EType e)) (assign_string v (EMessage e)).
Definition assign_envelope (name : string) (v : json) (e : string * apiError) : option (string * apiError) :=
  if String.eqb name "type" then option_map (λ s, (s, e.2)) (assign_string v e.1)
  else option_map (λ x, (e.1, x)) (into_struct ["type"; "message"] assign_api_error false v e.2).
Definition read_envelope (body : string) : option apiError :=
  match parse_document body with
  | Some v => option_map snd (into_struct ["type"; "error"] assign_envelope false v ("", mkApiError "" ""))
  | None => None
  end.

Definition joinText (items : list contentItem) : string :=
  foldr (λ it s, (if String.eqb (CType it) "text" then CText it else "") +:+ s) "" items.

(** *** The price *)

Definition perMillion (model : string) : Z * Z :=
  let m := to_lower model in
  if str_contains m "haiku" then (100, 500)
  else if str_contains m "opus" then (1500, 7500)
  else (300, 1500).

Definition cost (model : string) (u : usage) : Z :=
  let '(pin, pout) := perMillion model in
  let cents := i64_quot (i64_add (i64_mul (UInput u) pin) (i64_mul (UOutput u) pout)) 1000000 in
  let cents := i64_add cents (i64_quot (i64_mul (UCacheRead u) pin) (1000000 * 10)) in
  let cents := i64_add cents (i64_quot (i64_mul (i64_mul (UCacheCreation u) pin) 5) (1000000 * 4)) in
  if cents <? 1 then 1 else cents.

(** *** Generate *)

(** What a POST brings: no request, no answer, or a status with a body. *)
Inductive exchange := NoRequest (e : string) | NoAnswer (e : string) | Answer (status : Z) (body : result string string).

Definition no_response : LLMResponse := mkLLMResponse "" 0 0 0 0 0 "".

Section Generate.
(** [http.StatusText], the text of a JSON error, and the transport. *)
Context (StatusText : Z → string) (json_error : string → string)
  (post : string → list (string * string) → string → exchange).

Definition read_answer (status : Z) (body : string) : LLMResponse * option string :=
  if negb (Z.quot status 100 =? 2) then
    (no_response, Some
      match read_envelope body with
      | Some e => if String.eqb (EMessage e) "" then "anthropic: " +:+ itoa status +:+ " " +:+ StatusText status
                  else "anthropic: " +:+ itoa status +:+ " " +:+ EType e +:+ ": " +:+ EMessage e
      | None => "anthropic: " +:+ itoa status +:+ " " +:+ StatusText status
      end)
  else match read_messages body with
  | None => (no_response, Some ("anthropic: unmarshal: " +:+ json_error body))
  | Some m =>
      (mkLLMResponse (joinText (Content m)) (UInput (Usage m)) (UOutput (Usage m)) (UCacheRead (Usage m))
         (UCacheCreation (Usage m)) (cost (MModel m) (Usage m)) (MModel m), None)
  end.

Definition Generate (cfg : Config) : LLMClient := λ req,
  if String.eqb (User req) "" then (no_response, Some "anthropic: empty user prompt")
  else match marshal (messages_request req) with
  | None => (no_response, Some "anthropic: marshal: json: unsupported value")
  | Some buf =>
      match post (BaseURL cfg +:+ "/v1/messages") (headers cfg) buf with
      | NoRequest e => (no_response, Some ("anthropic: new request: " +:+ e))
      | NoAnswer e => (no_response, Some ("anthropic: do: " +:+ e))
      | Answer _ (Err e) => (no_response, Some ("anthropic: read: " +:+ e))
      | Answer status (Ok body) => read_answer status (str_take (Z.to_nat (Z.shiftl 4 20)) body)
      end
  end.
End Generate.

(** ** The row of a call *)

Definition modelEnum (model : string) : string :=
  let m := to_lower model in
  if str_contains m "haiku" then "haiku"
  else if str_contains m "sonnet" then "sonnet"
  else if str_contains m "opus" then "opus"
  else "other".

Record llm_call := mkCall {
  row_tenant : string; row_model : string; row_purpose : string; row_input_hash : string; row_output_hash : string;
  row_input : Z; row_output : Z; row_cache_hit : Z; row_cost : Z; row_duration : Z; row_called_at : Z }.

Inductive recorder_error := RecTenant (e : tenancy_error) | RecBind (e : tenancy_error) | RecBegin | RecExecBind | RecInsert | RecCommit.

(** The statements of the transaction the database refuses. *)
Inductive failing := FailBegin | FailBind | FailInsert | FailCommit.

(** [PgRecorder.Record] on the table; without a pool it does nothing. *)
Definition PgRecorder_Record (pool : bool) (fails : option failing) (now : Z) (t : TenantContext) (c : CallRecord)
    (table : list llm_call) : result recorder_error unit * list llm_call :=
  if negb pool then (Ok tt, table)
  else match TenantContext_Validate t with
  | Some e => (Err (RecTenant e), table)
  | None =>
      match TenantBindArgs t with
      | Err e => (Err (RecBind e), table)
      | Ok _ =>
          match fails with
          | Some FailBegin => (Err RecBegin, table)
          | Some FailBind => (Err RecExecBind, table)
          | Some FailInsert => (Err RecInsert, table)
          | Some FailCommit => (Err RecCommit, table)
          | None =>
              (Ok tt, table ++ [mkCall (TenantID t) (modelEnum (RecModel c))
                 (if String.eqb (Purpose c) "" then "apply-fix" else Purpose c) (InputHash c) (OutputHash c)
                 (RecInputTokens c) (RecOutputTokens c) (CacheHitTokens c) (RecCostUSDCents c) (DurationMS c) now])
          end
      end
  end.

(** ** The audit trail *)

Record AuditRecord := mkAudit {
  AID : string; AWorkload : string; AModel : string; InputSHA256 : string; OutputSHA256 : string;
  InputBytes : Z; OutputBytes : Z; ACostUSDCents : Z; ASuspicious : bool; AAt : Z }.
Inductive audit_error := EmptyTenantID | MissingHash.

Definition Hash (s : string) : string := hex (sha256 s).

Definition InMemoryAuditor_Record (t : TenantContext) (r : AuditRecord) (records : list AuditRecord) :
    result audit_error unit * list AuditRecord :=
  if String.eqb (TenantID t) "" then (Err EmptyTenantID, records)
  else if String.eqb (InputSHA256 r) "" || String.eqb (OutputSHA256 r) "" then (Err MissingHash, records)
  else (Ok tt, records ++ [r]).

(** ** The wire *)

(** Adapter and composer agree on prices, for any model. *)
Lemma perMillion_agrees model : perMillion model = perMillionCents model.
Proof.
  unfold perMillion, perMillionCents, Composer.normaliseModel.
  destruct (str_contains (to_lower model) "haiku"); [done|].
  destruct (str_contains (to_lower model) "opus"); [done|].
  by destruct (str_contains (to_lower model) "sonnet").
Qed.

Lemma request_whole req : whole (messages_request req) = true ∧ (height (messages_request req) <= 4)%nat.
Proof.
  unfold messages_request, system_blocks.
  destruct (String.eqb (CachedSystem req) ""), (String.eqb (System req) ""); cbn; split; try done; lia.
Qed.

(** Does a block of the request, as the service reads it, ask to be cached? *)
Definition asks_cache (block : json) : bool :=
  match block with JObj l => existsb (λ kv, String.eqb kv.1 "cache_control") l | _ => false end.
Definition member (name : string) (v : json) : option json :=
  match v with JObj l => option_map snd (List.find (λ kv, String.eqb kv.1 name) l) | _ => None end.
Definition blocks_of (doc : json) : list json := match member "system" doc with Some (JArr l) => l | _ => [] end.
Definition text_of (block : json) : string := match member "text" block with Some (JStr _ s) => s | _ => "" end.

(** A request with a prompt is posted once, to the messages endpoint, as a document that the
    service reads as the request: the model, the number of tokens, the system blocks - the
    cached one first and it alone marked for the cache - and the user's prompt. *)
Lemma request_wire StatusText json_error post cfg req : User req ≠ "" →
  ∃ buf doc, Generate StatusText json_error post cfg req =
      match post (BaseURL cfg +:+ "/v1/messages") (headers cfg) buf with
      | NoRequest e => (no_response, Some ("anthropic: new request: " +:+ e))
      | NoAnswer e => (no_response, Some ("anthropic: do: " +:+ e))
      | Answer _ (Err e) => (no_response, Some ("anthropic: read: " +:+ e))
      | Answer status (Ok body) => read_answer StatusText json_error status (str_take (Z.to_nat (Z.shiftl 4 20)) body)
      end ∧
    parse_document buf = Some doc ∧
    map text_of (blocks_of doc) = map to_valid_utf8 (filter (λ s, s ≠ "") [CachedSystem req; System req]) ∧
    List.filter asks_cache (blocks_of doc) = (if decide (CachedSystem req = "") then [] else take 1 (blocks_of doc)) ∧
    (∃ raw, member "model" doc = Some (JStr raw (to_valid_utf8 (normaliseModel (Model req))))) ∧
    member "max_tokens" doc = Some (JNum (itoa (MaxTokens req))) ∧
    (∃ raw, option_map (λ l, match l with JArr [m] => member "content" m | _ => None end) (member "messages" doc) =
            Some (Some (JStr raw (to_valid_utf8 (User req))))).
Proof.
  intros Hu. destruct (request_whole req) as [Hw Hh].
  destruct (marshal_roundtrip _ Hw) as (buf & Hm & Hp & _); [unfold maxNestingDepth; lia|].
  exists buf, (tree (messages_request req)). unfold Generate. rewrite (proj2 (String.eqb_neq _ _) Hu), Hm.
  split; [done|]. split; [done|]. unfold messages_request, system_blocks. clear.
  destruct (String.eqb_spec (CachedSystem req) "") as [Hc|Hc], (String.eqb_spec (System req) "") as [Hs|Hs];
    rewrite !filter_cons; repeat case_decide; try (exfalso; tauto);
    (split; [done|]; split; [done|]; split; [by eexists|]; split; [done|]; by eexists).
Qed.

(** ** What a call is billed *)

Definition small_usage (u : usage) : Prop :=
  0 <= UInput u < 2^40 ∧ 0 <= UOutput u < 2^40 ∧ 0 <= UCacheRead u < 2^40 ∧ 0 <= UCacheCreation u < 2^40.

(** The three parts of the bill are rounded down one by one; the sum is at least a cent. *)
Lemma cost_floor model u : small_usage u → cost model u =
  let '(pin, pout) := perMillion model in
  Z.max 1 ((UInput u * pin + UOutput u * pout) / 1000000 + UCacheRead u * pin / 10000000 + UCacheCreation u * pin * 5 / 4000000).
Proof.
  intros ((? & ?) & (? & ?) & (? & ?) & (? & ?)). unfold cost. rewrite perMillion_agrees.
  pose proof (perMillionCents_bounds model) as Hb. destruct (perMillionCents model) as [pin pout].
  unfold i64_quot, i64_add, i64_mul.
  assert (0 <= UInput u * pin <= 2^40 * 1500) by nia. assert (0 <= UOutput u * pout <= 2^40 * 7500) by nia.
  assert (0 <= UCacheRead u * pin <= 2^40 * 1500) by nia. assert (0 <= UCacheCreation u * pin <= 2^40 * 1500) by nia.
  assert (∀ a b, 0 <= a <= 2^56 → 0 < b → 0 <= a / b <= 2^56) as Hdiv.
  { intros a b Ha Hb'. split; [apply Z.div_pos; lia|]. apply Z.div_le_upper_bound; nia. }
  assert (∀ x, 0 <= x <= 2^60 → wrap64 x = x) as Hw by (intros; apply wrap64_id; unfold in_i64; lia).
  change (1000000 * 10) with 10000000. change (1000000 * 4) with 4000000.
  rewrite (Hw (UInput u * pin)), (Hw (UOutput u * pout)), (Hw (UCacheRead u * pin)), (Hw (UCacheCreation u * pin)) by lia.
  rewrite (Hw (UInput u * pin + UOutput u * pout)), (Hw (UCacheCreation u * pin * 5)), !Z.quot_div_nonneg by lia.
  pose proof (Hdiv (UInput u * pin + UOutput u * pout) 1000000 ltac:(lia) ltac:(lia)).
  pose proof (Hdiv (UCacheRead u * pin) 10000000 ltac:(lia) ltac:(lia)).
  pose proof (Hdiv (UCacheCreation u * pin * 5) 4000000 ltac:(lia) ltac:(lia)).
  set (q1 := (UInput u * pin + UOutput u * pout) / 1000000) in *. set (q2 := UCacheRead u * pin / 10000000) in *.
  set (q3 := UCacheCreation u * pin * 5 / 4000000) in *.
  rewrite (Hw q1), (Hw q2), (Hw q3), (Hw (q1 + q2)), (Hw (q1 + q2 + q3)) by lia.
  destruct (Z.ltb_spec (q1 + q2 + q3) 1); lia.
Qed.

(** What the composer assumes of the model: a token for four bytes of the prompt, no longer
    answer than it asked for, and a model of the price asked for. *)
Definition as_projected (lr : LLMRequest) (m : messagesResponse) : Prop :=
  small_usage (Usage m) ∧ perMillion (MModel m) = perMillion (Model lr) ∧
  UInput (Usage m) + UCacheRead (Usage m) + UCacheCreation (Usage m) <= prompt_bytes lr / 4 ∧
  UOutput (Usage m) <= Composer.maxTokens.

(** Then a bill without cache writes is within the projection; writing the prompt to the cache
    costs up to a quarter of its price more. *)
Lemma cost_projected lr m : as_projected lr m →
  cost (MModel m) (Usage m) <= Z.max 1 (price (Model lr) (prompt_bytes lr) / 1000000) +
    (let '(pin, _) := perMillion (Model lr) in (UCacheCreation (Usage m) * pin + 3999999) / 4000000).
Proof.
  intros (Hs & Hm & Hin & Hout). rewrite cost_floor by done. rewrite Hm, perMillion_agrees. unfold price.
  pose proof (perMillionCents_bounds (Model lr)) as Hb. destruct (perMillionCents (Model lr)) as [pin pout].
  destruct Hs as ((? & ?) & (? & ?) & (? & ?) & (? & ?)). destruct (Usage m) as [i o cc cr]. cbn [UInput UOutput UCacheRead UCacheCreation] in *.
  set (b := prompt_bytes lr / 4) in *. unfold Composer.maxTokens in *.
  assert (i * pin + cr * pin + cc * pin + o * pout <= b * pin + 4096 * pout) as Hle by nia.
  assert (0 <= cr * pin) as Hcr by nia. assert (0 <= cc * pin) as Hcc by nia. clear Hb Hin Hout.
  revert Hle Hcr Hcc. generalize (b * pin + 4096 * pout) as P. generalize (cr * pin) as R. generalize (cc * pin) as C.
  intros C R P Hle HR HC.
  assert (i * pin + o * pout <= P - R - C) as Hio by lia. revert Hio. generalize (i * pin + o * pout). intros IO Hio.
  assert (0 <= (C + 3999999) / 4000000) by (apply Z.div_pos; lia).
  assert (IO / 1000000 + R / 10000000 + C * 5 / 4000000 <= P / 1000000 + (C + 3999999) / 4000000); [|lia].
  div_lia.
Qed.

(** So under a cap, a fix whose call wrote nothing to the cache is recorded within the cap. *)
Lemma fix_within_cap StatusText json_error post cfg sha ms cap rec t req fix_ lr log :
  0 < cap → prompt_bytes lr < 2^50 →
  GenerateFix sha ms (mkComposer (Some (Generate StatusText json_error post cfg)) cap rec) t req = (Ok fix_, ECall lr :: log) →
  (∀ url hs buf status body m, post url hs buf = Answer status (Ok body) →
     read_messages (str_take (Z.to_nat (Z.shiftl 4 20)) body) = Some m →
     as_projected lr m ∧ UCacheCreation (Usage m) = 0) →
  FixCostUSDCents fix_ <= cap.
Proof.
  intros Hcap Hsmall Hrun Hpost. unfold GenerateFix in Hrun. cbn [LLM] in Hrun.
  destruct (TenantContext_Validate t); [done|]. destruct (Sanitize _ _) as [san|]; [|done].
  destruct (over_budget _ (llm_request req san)) eqn:Eb; [done|].
  destruct (Generate _ _ _ _ _) as [resp [e|]] eqn:Eg; [done|]. injection Hrun as <- <- _. cbn [FixCostUSDCents].
  unfold Generate in Eg. destruct (String.eqb _ ""); [done|]. destruct (marshal _) as [buf|]; [|done].
  destruct (post _ _ buf) as [| |status [body|]] eqn:Ep; [done..| |done].
  unfold read_answer in Eg. destruct (negb _); [done|]. set (cut := str_take _ body) in *.
  destruct (read_messages cut) as [m|] eqn:Em; [|done]. injection Eg as <-. cbn [CostUSDCents].
  destruct (Hpost _ _ _ _ _ _ Ep Em) as [Hm H0]. pose proof (cost_projected _ _ Hm) as Hc. rewrite H0 in Hc.
  apply over_budget_price in Eb; [|done..]. cbn [PerCallCents] in Eb.
  destruct (perMillion _) as [pin pout]. rewrite Z.mul_0_l, Z.add_0_l in Hc. change (3999999 / 4000000) with 0 in Hc. lia.
Qed.
