(* ===== verification/Template.v ===== *)
(** Go's html/template, as far as the pages of the program use it (pkg/htmlrender, the
    receipt page of backend/internal/receipts/handler.go): the actions, their parser and their
    execution on data, and the escaping of what the data contributes.

    Three checks are computed on a template once and hold for all its data: it [parse]s, it is
    well typed for the shape of its data ([checks]), and every value lands in text or in a
    quoted plain attribute ([contexts]) - which is where the one escaping modelled here is the
    one the package chooses. *)

From Stdlib Require Import Ascii.
From S2P Require Import Prelude GoNum GoStr Lines Utf8 Json.
Local Open Scope Z_scope.

(** ** Data *)

Inductive tval :=
  | VText (s : string)
  | VInt (z : Z)
  | VBool (b : bool)
  | VRec (fields : list (string * tval))
  | VList (l : list tval).

Definition lookup_name {A} (name : string) (l : list (string * A)) : option A :=
  option_map snd (List.find (λ kv, String.eqb kv.1 name) l).

(** A chain of fields [.A.B]; the empty chain is the dot. *)
Fixpoint field (path : list string) (v : tval) : option tval :=
  match path with
  | [] => Some v
  | name :: path => match v with VRec l => match lookup_name name l with Some v => field path v | None => None end | _ => None end
  end.

(** ** Templates *)

Inductive condition := CField (path : list string) | CEq (path : list string) (s : string).

Inductive node :=
  | NText (s : string)
  | NField (path : list string)
  | NLen (path : list string)
  | NIf (c : condition) (yes no : list node)
  | NRange (path : list string) (body : list node)
  | NTemplate (name : string)
  | NDefine (name : string) (body : list node).

(** *** Reading a template *)

Inductive token := TText (s : string) | TAction (words : list string).

Definition tspace (c : ascii) : bool := let b := byte_val c in (b =? 32) || (b =? 9) || (b =? 13) || (b =? 10).

(** The text before an action and the action; [- ] and [ -] cut the white space around it. *)
Fixpoint lex (fuel : nat) (cut : bool) (s : string) : option (list token) :=
  match fuel with
  | O => None
  | S fuel =>
      match cut_str "{{" s with
      | None => Some [TText (if cut then drop_while tspace s else s)]
      | Some (text, rest) =>
          match cut_str "}}" rest with
          | None => None
          | Some (action, rest) =>
              let text := if cut then drop_while tspace text else text in
              let text := if has_prefix action "- " then trim_right tspace text else text in
              let words := strings_Fields (trim_suffix (trim_prefix action "- ") " -") in
              option_map (λ ts, TText text :: TAction words :: ts) (lex fuel (has_suffix action " -") rest)
          end
      end
  end.

Definition unquote (s : string) : option string :=
  match strip_prefix (String quote_char "") s with Some s => strip_suffix (String quote_char "") s | None => None end.

Definition read_path (s : string) : option (list string) :=
  match strip_prefix "." s with
  | Some "" => Some []
  | Some s => Some (split_byte "." s)
  | None => None
  end.

Definition read_condition (words : list string) : option condition :=
  match words with
  | [p] => option_map CField (read_path p)
  | ["eq"; p; s] => match read_path p, unquote s with Some p, Some s => Some (CEq p s) | _, _ => None end
  | _ => None
  end.

(** How a list of nodes ends. *)
Inductive ending := EOF | EElse | EEnd.

Fixpoint parse_nodes (fuel : nat) (ts : list token) : option (list node * ending * list token) :=
  match fuel with
  | O => None
  | S fuel =>
      let continue n ts :=
        match parse_nodes fuel ts with Some (ns, e, ts) => Some (n :: ns, e, ts) | None => None end in
      let body ts (k : list node → node) :=
        match parse_nodes fuel ts with Some (b, EEnd, ts) => continue (k b) ts | _ => None end in
      match ts with
      | [] => Some ([], EOF, [])
      | TText s :: ts => continue (NText s) ts
      | TAction ["else"] :: ts => Some ([], EElse, ts)
      | TAction ["end"] :: ts => Some ([], EEnd, ts)
      | TAction ("if" :: ws) :: ts =>
          match read_condition ws, parse_nodes fuel ts with
          | Some c, Some (yes, EEnd, ts) => continue (NIf c yes []) ts
          | Some c, Some (yes, EElse, ts) => body ts (NIf c yes)
          | _, _ => None
          end
      | TAction ["range"; p] :: ts => match read_path p with Some p => body ts (NRange p) | None => None end
      | TAction ["define"; name] :: ts => match unquote name with Some name => body ts (NDefine name) | None => None end
      | TAction ["template"; name; "."] :: ts =>
          match unquote name with Some name => continue (NTemplate name) ts | None => None end
      | TAction ["len"; p] :: ts => match read_path p with Some p => continue (NLen p) ts | None => None end
      | TAction [p] :: ts => match read_path p with Some p => continue (NField p) ts | None => None end
      | _ => None
      end
  end.

(** A parsed template: its nodes and the templates it defines. *)
Definition template : Type := list node * list (string * list node).

Definition is_define (n : node) : bool := match n with NDefine _ _ => true | _ => false end.
Definition definitions (ns : list node) : list (string * list node) :=
  omap (λ n, match n with NDefine name body => Some (name, body) | _ => None end) ns.

Definition parse (text : string) : option template :=
  match lex (S (String.length text)) false text with
  | Some ts =>
      match parse_nodes (S (length ts)) ts with
      | Some (ns, EOF, _) => Some (List.filter (λ n, negb (is_define n)) ns, definitions ns)
      | _ => None
      end
  | None => None
  end.

(** ** Escaping *)

(** [htmlReplacer] with the replacement table of the package. *)
Fixpoint escape (s : string) : string :=
  match s with
  | EmptyString => ""
  | String c s =>
      let b := byte_val c in
      (if b =? 0 then encode_rune RuneError else if b =? 34 then "&#34;" else if b =? 38 then "&amp;"
       else if b =? 39 then "&#39;" else if b =? 43 then "&#43;" else if b =? 60 then "&lt;"
       else if b =? 62 then "&gt;" else String c "") +:+ escape s
  end.

(** ** Execution *)

(** What the template contributes and what the data does. *)
Inductive piece := Markup (s : string) | Hole (s : string).
Definition piece_text (p : piece) : string := match p with Markup s => s | Hole s => s end.
Definition text_of (ps : list piece) : string := foldr (λ p s, piece_text p +:+ s) "" ps.

Definition truth (v : tval) : bool :=
  match v with
  | VText s => negb (String.eqb s "")
  | VInt z => negb (z =? 0)
  | VBool b => b
  | VList l => match l with [] => false | _ => true end
  | VRec _ => true
  end.

Definition holds (c : condition) (dot : tval) : option bool :=
  match c with
  | CField p => option_map truth (field p dot)
  | CEq p s => match field p dot with Some (VText t) => Some (String.eqb t s) | _ => None end
  end.

(** A value in a hole. *)
Definition printed (v : tval) : option string :=
  match v with VText s => Some (escape s) | VInt z => Some (itoa z) | _ => None end.

Section Exec.
Context (defs : list (string * list node)).

Definition exec_node (rec : tval → list node → option (list piece)) (dot : tval) (n : node) : option (list piece) :=
  match n with
  | NText s => Some [Markup s]
  | NField p => match field p dot with Some v => option_map (λ s, [Hole s]) (printed v) | None => None end
  | NLen p => match field p dot with Some (VList l) => Some [Hole (itoa (Z.of_nat (length l)))] | _ => None end
  | NIf c yes no => match holds c dot with Some b => rec dot (if b then yes else no) | None => None end
  | NRange p body =>
      match field p dot with
      | Some (VList l) => option_map (@concat piece) (mapM (λ v, rec v body) l)
      | _ => None
      end
  | NTemplate name => match lookup_name name defs with Some body => rec dot body | None => None end
  | NDefine _ _ => None
  end.

(** [fuel] bounds the nesting of blocks and calls. *)
Fixpoint exec (fuel : nat) (dot : tval) (ns : list node) {struct fuel} : option (list piece) :=
  match fuel with
  | O => None
  | S fuel => option_map (@concat piece) (mapM (exec_node (exec fuel) dot) ns)
  end.
End Exec.

Definition depth : nat := 16.
Definition Execute (t : template) (data : tval) : option (list piece) := exec t.2 depth data t.1.

(** ** Types *)

Inductive shape := SText | SInt | SBool | SRec (fields : list (string * shape)) | SList (s : shape).

Fixpoint shape_field (path : list string) (s : shape) : option shape :=
  match path with
  | [] => Some s
  | name :: path =>
      match s with SRec l => match lookup_name name l with Some s => shape_field path s | None => None end | _ => None end
  end.

(** A value of a shape; it may have other fields. *)
Fixpoint fits (s : shape) (v : tval) {struct s} : Prop :=
  match s, v with
  | SText, VText _ | SInt, VInt _ | SBool, VBool _ => True
  | SRec fs, VRec l =>
      (fix go (fs : list (string * shape)) : Prop :=
         match fs with [] => True | (name, s) :: fs => (∃ v, lookup_name name l = Some v ∧ fits s v) ∧ go fs end) fs
  | SList s, VList l => Forall (fits s) l
  | _, _ => False
  end.

Section Checks.
Context (defs : list (string * list node)).

Fixpoint checks (fuel : nat) (s : shape) (ns : list node) {struct fuel} : bool :=
  match fuel with
  | O => false
  | S fuel =>
      forallb (λ n,
        match n with
        | NText _ => true
        | NField p => match shape_field p s with Some (SText | SInt) => true | _ => false end
        | NLen p => match shape_field p s with Some (SList _) => true | _ => false end
        | NIf (CField p) yes no => bool_decide (is_Some (shape_field p s)) && checks fuel s yes && checks fuel s no
        | NIf (CEq p _) yes no =>
            match shape_field p s with Some SText => true | _ => false end && checks fuel s yes && checks fuel s no
        | NRange p body => match shape_field p s with Some (SList s) => checks fuel s body | _ => false end
        | NTemplate name => match lookup_name name defs with Some body => checks fuel s body | None => false end
        | NDefine _ _ => false
        end) ns
  end.

Lemma fits_field p : ∀ s v s', fits s v → shape_field p s = Some s' → ∃ v', field p v = Some v' ∧ fits s' v'.
Proof.
  induction p as [|name p IH]; intros s v s' Hv Hp; cbn [shape_field field] in *.
  - injection Hp as ->. eauto.
  - destruct s as [| | |fs|]; try done. destruct v as [| | |l|]; try done. cbn [fits] in Hv.
    unfold lookup_name in Hp. destruct (List.find _ fs) as [[n s]|] eqn:Ef; [|done]. cbn [option_map snd] in Hp.
    assert (∃ v, lookup_name name l = Some v ∧ fits s v) as (v & -> & Hs); [|by eapply IH].
    apply find_some in Ef as [Hin Hn]. apply String.eqb_eq in Hn. cbn [fst] in Hn. subst n. clear Hp IH.
    induction fs as [|[n' t'] fs IH]; [done|]. destruct Hv as [Hv Hfs]. destruct Hin as [[= -> ->]|Hin]; [done|]. by apply IH.
Qed.

Lemma mapM_all {A B} (f : A → option B) l : (∀ x, x ∈ l → is_Some (f x)) → is_Some (mapM f l).
Proof. intros H. apply mapM_is_Some, Forall_forall. apply H. Qed.

(** A well-typed template has an output for every value of its shape. *)
Lemma checks_exec fuel : ∀ s v ns, fits s v → checks fuel s ns = true → is_Some (exec defs fuel v ns).
Proof.
  induction fuel as [|fuel IH]; intros s v ns Hv Hc; [done|]. cbn [checks exec] in *.
  match goal with |- is_Some (option_map _ ?m) => assert (is_Some m) as [ps ->]; [|by eexists] end.
  apply mapM_all. intros n Hn. pose proof (proj1 (forallb_forall _ _) Hc n (proj1 (list_elem_of_In _ _) Hn)) as Hck. clear Hc Hn.
  destruct n as [t|p|p|c yes no|p body|name|name body]; cbn [exec_node]; [done|..|done].
  - destruct (shape_field p s) as [s'|] eqn:E; [|done]. destruct (fits_field _ _ _ _ Hv E) as (v' & -> & Hf).
    destruct s'; try done; destruct v'; try done; by eexists.
  - destruct (shape_field p s) as [s'|] eqn:E; [|done]. destruct (fits_field _ _ _ _ Hv E) as (v' & -> & Hf).
    destruct s'; try done; destruct v'; try done; by eexists.
  - assert (∃ b, holds c v = Some b ∧ checks fuel s yes = true ∧ checks fuel s no = true) as (b & -> & Hy & Hno).
    { destruct c as [p|p t]; apply andb_prop in Hck as [[Hp Hy]%andb_prop Hno]; cbn [holds].
      - apply bool_decide_eq_true in Hp as [s' E]. destruct (fits_field _ _ _ _ Hv E) as (v' & -> & _). by eexists.
      - destruct (shape_field p s) as [s'|] eqn:E; [|done]. destruct (fits_field _ _ _ _ Hv E) as (v' & -> & Hf).
        destruct s'; try done; destruct v'; try done. by eexists. }
    destruct b; by eapply IH.
  - destruct (shape_field p s) as [s'|] eqn:E; [|done]. destruct (fits_field _ _ _ _ Hv E) as (v' & -> & Hf).
    destruct s' as [| | | |s']; try done. destruct v' as [| | | |l]; try done.
    match goal with |- is_Some (option_map _ ?m) => assert (is_Some m) as [ps ->]; [|by eexists] end.
    apply mapM_all. intros x Hx. eapply IH; [|done]. exact (proj1 (Forall_forall _ _) Hf x Hx).
  - destruct (lookup_name name defs) as [body|]; [|done]. by eapply IH.
Qed.
End Checks.

(** ** Contexts *)

(** Where in a document a byte stands: in text, in a tag - with its name, once it is read,
    and the attribute being read -, in a quoted attribute, in the raw text of a style or
    script, or where nothing should be. *)
Inductive ctx :=
  | CText
  | CTag (name : string) (named : bool) (attr : string)
  | CAttr (tag attr : string)
  | CRaw (tag seen : string)
  | CBad.
#[export] Instance ctx_eq_dec : EqDecision ctx.
Proof. solve_decision. Defined.

Definition snoc (s : string) (c : ascii) : string := s +:+ String c "".

Definition ctx_step (st : ctx) (c : ascii) : ctx :=
  match st with
  | CText => if byte_val c =? 60 then CTag "" false "" else CText
  | CTag name named attr =>
      if byte_val c =? 62 then (if str_mem name ["style"; "script"] then CRaw name "" else CText)
      else if byte_val c =? 34 then CAttr name attr
      else if byte_val c =? 39 then CBad
      else if tspace c then CTag name true ""
      else if named then CTag name true (if byte_val c =? 61 then attr else snoc attr c)
      else CTag (snoc name c) false ""
  | CAttr tag attr => if byte_val c =? 34 then CTag tag true "" else st
  | CRaw tag seen =>
      let seen := if byte_val c =? 60 then snoc "" c else if String.eqb seen "" then "" else snoc seen c in
      if String.eqb seen ("</" +:+ tag) then CTag ("/" +:+ tag) true ""
      else if has_prefix ("</" +:+ tag) seen then CRaw tag seen else CRaw tag ""
  | CBad => CBad
  end.

Fixpoint scan (st : ctx) (s : string) : ctx := match s with EmptyString => st | String c s => scan (ctx_step st c) s end.

(** Where a value may stand. *)
Definition plain_attributes : list string := ["content"; "class"; "data-copy"].
Definition good (st : ctx) : bool :=
  match st with CText => true | CAttr _ attr => str_mem attr plain_attributes | _ => false end.

Section Contexts.
Context (defs : list (string * list node)).

Definition same (a b : option ctx) : option ctx :=
  match a, b with Some a, Some b => if decide (a = b) then Some a else None | _, _ => None end.

Definition ctx_node (rec : ctx → list node → option ctx) (st : ctx) (n : node) : option ctx :=
  match n with
  | NText s => Some (scan st s)
  | NField _ | NLen _ => if good st then Some st else None
  | NIf _ yes no => same (rec st yes) (rec st no)
  | NRange _ body => same (Some st) (rec st body)
  | NTemplate name => match lookup_name name defs with Some body => rec st body | None => None end
  | NDefine _ _ => None
  end.

Fixpoint thread {A B} (f : A → B → option A) (a : A) (l : list B) : option A :=
  match l with [] => Some a | b :: l => match f a b with Some a => thread f a l | None => None end end.

Fixpoint contexts (fuel : nat) (st : ctx) (ns : list node) {struct fuel} : option ctx :=
  match fuel with
  | O => None
  | S fuel => thread (ctx_node (contexts fuel)) st ns
  end.
End Contexts.

(** Every value of the output stands in such a place and does not leave it. *)
Fixpoint in_place (st : ctx) (ps : list piece) : Prop :=
  match ps with
  | [] => True
  | Markup s :: ps => in_place (scan st s) ps
  | Hole s :: ps => good st = true ∧ scan st s = st ∧ in_place st ps
  end.

Definition inert (c : ascii) : bool := let b := byte_val c in negb ((b =? 60) || (b =? 62) || (b =? 34) || (b =? 39)).

Lemma escape_inert s : str_all inert (escape s) = true.
Proof. induction s as [|c s IH]; [done|]. cbn [escape]. rewrite str_all_app, IH, andb_true_r. all_bytes c; done. Qed.

Lemma itoa_inert z : str_all inert (itoa z) = true.
Proof.
  assert (∀ n, 0 <= n → str_all inert (itoa n) = true) as Hpos.
  { intros n Hn. destruct (itoa_nonneg n Hn) as (Hd & _). eapply str_all_impl; [|exact Hd].
    intros c Hc. all_bytes c; first [discriminate Hc|done]. }
  destruct (Z.lt_ge_cases z 0) as [Hz|Hz]; [|by apply Hpos]. rewrite itoa_neg by done. cbn [str_all]. by rewrite Hpos by lia.
Qed.

Lemma inert_stays st s : good st = true → str_all inert s = true → scan st s = st.
Proof.
  intros Hst. induction s as [|c s IH]; [done|]. cbn [str_all scan]. intros [Hc Hs]%andb_prop.
  assert (ctx_step st c = st) as ->; [|by apply IH].
  unfold inert in Hc. apply negb_true_iff in Hc. repeat (apply orb_false_iff in Hc as [Hc ?]).
  destruct st as [| | | |]; try done; cbn [ctx_step].
  - by rewrite Hc.
  - by match goal with H : (byte_val c =? 34) = false |- _ => rewrite H end.
Qed.

Lemma scan_app s t st : scan st (s +:+ t) = scan (scan st s) t.
Proof. revert st. induction s as [|c s IH]; intros st; [done|]. rewrite sapp_cons. apply IH. Qed.

Lemma text_of_app ps qs : text_of (ps ++ qs) = text_of ps +:+ text_of qs.
Proof. induction ps as [|p ps IH]; [done|]. cbn [app text_of foldr]. rewrite <-sapp_assoc. f_equal. apply IH. Qed.

Lemma in_place_app st ps qs : in_place st ps → in_place (scan st (text_of ps)) qs → in_place st (ps ++ qs).
Proof.
  revert st. induction ps as [|[s|s] ps IH]; intros st Hp Hq; [done|..]; cbn [app in_place text_of foldr piece_text] in *;
    rewrite scan_app in Hq.
  - by apply IH.
  - destruct Hp as (Hg & Hs & Hp). rewrite Hs in Hq. split_and!; [done..|by apply IH].
Qed.

Lemma same_Some a b st : same a b = Some st → a = Some st ∧ b = Some st.
Proof. unfold same. destruct a as [a|], b as [b|]; try done. case_decide; [|done]. intros [= <-]. by subst. Qed.

Definition lockstep (defs : list (string * list node)) (recc : ctx → list node → option ctx) (rece : tval → list node → option (list piece)) : Prop :=
  ∀ st v ns st' ps, recc st ns = Some st' → rece v ns = Some ps → in_place st ps ∧ scan st (text_of ps) = st'.

Lemma hole_in_place st s : good st = true → str_all inert s = true → in_place st [Hole s] ∧ scan st (text_of [Hole s]) = st.
Proof.
  intros Hg Hi. pose proof (inert_stays st s Hg Hi) as H. cbn [in_place text_of foldr piece_text]. by rewrite sapp_nil_r.
Qed.

Lemma lockstep_concat {V} st (vs : list V) f pss : mapM f vs = Some pss →
  (∀ v ps, f v = Some ps → in_place st ps ∧ scan st (text_of ps) = st) →
  in_place st (concat pss) ∧ scan st (text_of (concat pss)) = st.
Proof.
  intros Hm%mapM_Some Hf. induction Hm as [|v ps vs pss Hv Hm [IH1 IH2]]; [done|].
  destruct (Hf _ _ Hv) as [H1 H2]. cbn [concat]. rewrite text_of_app, scan_app, H2. split; [|done].
  apply in_place_app; [done|by rewrite H2].
Qed.

Lemma lockstep_node defs recc rece : lockstep defs recc rece → ∀ st v n st' ps,
  ctx_node defs recc st n = Some st' → exec_node defs rece v n = Some ps → in_place st ps ∧ scan st (text_of ps) = st'.
Proof.
  unfold lockstep. intros IH st v n st' ps Hc He. destruct n as [t|p|p|c yes no|p body|name|name body]; cbn [ctx_node exec_node] in *; [..|done].
  - injection Hc as <-. injection He as <-. cbn. by rewrite sapp_nil_r.
  - destruct (good st) eqn:Hg; [|done]. injection Hc as <-. destruct (field p v) as [w|]; [|done].
    destruct w; try done; injection He as <-; apply hole_in_place; try done; (apply escape_inert || apply itoa_inert).
  - destruct (good st) eqn:Hg; [|done]. injection Hc as <-. destruct (field p v) as [[]|]; try done.
    injection He as <-. apply hole_in_place; [done|apply itoa_inert].
  - apply same_Some in Hc as [Hy Hn]. destruct (holds c v) as [b|]; [|done]. destruct b; [exact (IH _ _ _ _ _ Hy He)|exact (IH _ _ _ _ _ Hn He)].
  - apply same_Some in Hc as [[= ->] Hb]. destruct (field p v) as [[]|]; try done.
    destruct (mapM _ l) as [pss|] eqn:Em; [|done]. injection He as <-.
    eapply lockstep_concat; [exact Em|]. intros w ps Hw. exact (IH _ _ _ _ _ Hb Hw).
  - destruct (lookup_name name defs); [|done]. exact (IH _ _ _ _ _ Hc He).
Qed.

(** The output goes through the contexts the template goes through. *)
Lemma contexts_exec defs fuel : lockstep defs (contexts defs fuel) (exec defs fuel).
Proof.
  induction fuel as [|fuel IH]; intros st v ns st' ps Hc He; [done|]. cbn [contexts exec] in Hc, He.
  destruct (mapM _ ns) as [pss|] eqn:Em; [|done]. injection He as <-. apply mapM_Some in Em.
  revert st Hc. induction Em as [|n qs ns pss Hn Em IHm]; intros st Hc; cbn [thread] in Hc; [by injection Hc as <-|].
  destruct (ctx_node _ _ st n) as [st1|] eqn:E1; [|done].
  destruct (lockstep_node _ _ _ IH _ _ _ _ _ E1 Hn) as [Hp Hs]. destruct (IHm _ Hc) as [Hp2 Hs2].
  cbn [concat]. rewrite text_of_app, scan_app, Hs. split; [|done]. apply in_place_app; [done|by rewrite Hs].
Qed.

(** ** Finding what a node contributes *)

Lemma exec_part defs fuel v ns ps n : exec defs (S fuel) v ns = Some ps → n ∈ ns →
  ∃ qs pre post, exec_node defs (exec defs fuel) v n = Some qs ∧ ps = pre ++ qs ++ post.
Proof.
  cbn [exec]. destruct (mapM _ ns) as [pss|] eqn:Em; [|done]. intros [= <-] Hn. apply mapM_Some in Em.
  apply list_elem_of_split in Hn as (l1 & l2 & ->). apply Forall2_app_inv_l in Em as (k1 & k2 & H1 & H2 & ->).
  inversion H2 as [|? qs ? k3 Hq Hk]; subst. exists qs, (concat k1), (concat k3). split; [done|]. by rewrite concat_app.
Qed.

Definition field_node (p : list string) (n : node) : bool := match n with NField q => bool_decide (q = p) | _ => false end.

(** A field at the top of a template is in its output. *)
Lemma exec_hole defs fuel v ns ps p s : exec defs (S fuel) v ns = Some ps → existsb (field_node p) ns = true →
  field p v = Some (VText s) → Hole (escape s) ∈ ps.
Proof.
  intros He (n & Hin & Hn)%existsb_exists Hp. apply list_elem_of_In in Hin.
  destruct n; try done. apply bool_decide_eq_true in Hn as ->.
  destruct (exec_part _ _ _ _ _ _ He Hin) as (qs & pre & post & Hq & ->). cbn [exec_node] in Hq. rewrite Hp in Hq.
  injection Hq as <-. apply elem_of_app. right. apply elem_of_app. left. by left.
Qed.

(** A block of the template, shown if the field [c] says so, that lists the field [p] with the
    template [name]. *)
Definition call_node (name : string) (n : node) : bool := match n with NTemplate t => String.eqb t name | _ => false end.
Definition range_node (p : list string) (name : string) (n : node) : bool :=
  match n with NRange q body => bool_decide (q = p) && existsb (call_node name) body | _ => false end.
Definition list_node (c p : list string) (name : string) (n : node) : bool :=
  match n with NIf (CField q) yes _ => bool_decide (q = c) && existsb (range_node p name) yes | _ => false end.

(** The output [qs] of a template, with what surrounds it. *)
Definition wraps (qs b : list piece) : Prop := ∃ pre post, b = pre ++ qs ++ post.

Lemma exec_calls defs fuel name body x bs qs : exec defs (S fuel) x body = Some bs → existsb (call_node name) body = true →
  lookup_name name defs = Some qs → ∃ inner, exec defs fuel x qs = Some inner ∧ wraps inner bs.
Proof.
  intros He (n & Hin & Hn)%existsb_exists Hl. apply list_elem_of_In in Hin. destruct n; try done. apply String.eqb_eq in Hn as ->.
  destruct (exec_part _ _ _ _ _ _ He Hin) as (inner & pre & post & Hq & ->). cbn [exec_node] in Hq. rewrite Hl in Hq.
  exists inner. split; [done|by exists pre, post].
Qed.

Lemma exec_lists defs fuel v ns ps c p name body l : exec defs (S (S (S fuel))) v ns = Some ps →
  existsb (list_node c p name) ns = true → lookup_name name defs = Some body →
  field c v = Some (VBool true) → field p v = Some (VList l) →
  ∃ blocks, wraps (concat blocks) ps ∧ Forall2 (λ x b, ∃ inner, exec defs fuel x body = Some inner ∧ wraps inner b) l blocks.
Proof.
  intros He (n & Hin & Hn)%existsb_exists Hl Hc Hp. apply list_elem_of_In in Hin. destruct n as [| | |[q|] yes no| | |]; try done.
  apply andb_prop in Hn as [Hq Hy]. apply bool_decide_eq_true in Hq as ->.
  destruct (exec_part _ _ _ _ _ _ He Hin) as (outer & pre & post & Ho & ->). cbn [exec_node holds] in Ho. rewrite Hc in Ho. cbn [option_map truth] in Ho.
  apply existsb_exists in Hy as (m & Hmin & Hm). apply list_elem_of_In in Hmin. destruct m as [| | | |q inner| |]; try done.
  apply andb_prop in Hm as [Hq Hcall]. apply bool_decide_eq_true in Hq as ->.
  destruct (exec_part _ _ _ _ _ _ Ho Hmin) as (mid & pre' & post' & Hmid & ->). cbn [exec_node] in Hmid. rewrite Hp in Hmid.
  destruct (mapM _ l) as [blocks|] eqn:Em; [|done]. injection Hmid as <-. exists blocks. split.
  - exists (pre ++ pre'), (post' ++ post). by rewrite <-!app_assoc.
  - apply mapM_Some in Em. eapply Forall2_impl; [exact Em|]. intros x b Hb. exact (exec_calls _ _ _ _ _ _ _ Hb Hcall Hl).
Qed.
