(* ===== verification/Html.v ===== *)
(** The HTML pages: the report (pkg/htmlrender), which the command line writes and the share
    page of the sandbox serves, and the public page of a receipt
    (backend/internal/receipts/handler.go). The templates are the program's own text, with
    backticks for double quotes, read and executed by the model of html/template. *)

From Stdlib Require Import Ascii.
From S2P Require Import Prelude GoNum GoStr Lines Utf8 GoTime Rfc3339 Json JsonOut Rules Analyze PrComment Ingest Receipts Template Sandbox.
Local Open Scope Z_scope.

(** ** The templates *)

Definition page_head : string := "<!doctype html>
<html lang=`en`>
<head>
  <meta charset=`utf-8`>
  <meta name=`viewport` content=`width=device-width,initial-scale=1`>
  <meta name=`robots` content=`noindex`>
  <meta property=`og:title` content=`{{.Title}}`>
  <meta property=`og:description` content=`{{.AccuracyDisclosure}}`>
  <meta property=`og:type` content=`article`>
  <meta name=`twitter:card` content=`summary`>
  <title>{{.Title}}</title>
  <link rel=`preconnect` href=`https://fonts.googleapis.com`>
  <link rel=`preconnect` href=`https://fonts.gstatic.com` crossorigin>
  <link rel=`stylesheet` href=`https://fonts.googleapis.com/css2?family=Geist:wght@400;500;600&family=Geist+Mono:wght@400;500&display=swap`>
  <style>
".

Definition page_style : string := "    :root {
      --ink-0:#0A0A0B; --ink-1:#111114; --ink-2:#16161A; --ink-3:#1C1C22;
      --ink-4:#24242B; --ink-5:#33333D; --ink-6:#5C5C68; --ink-7:#9C9CA8;
      --ink-8:#C8C8D0; --ink-9:#EDEDEE;
      --accent:#22D3EE; --accent-dim:#0E7490;
      --high:#FF6B6B; --med:#F59E0B; --low:#22D3EE; --ok:#34D399;
      --rule:#1F1F25; --rule-default:#2A2A33;
      --radius-sm:3px; --radius-md:6px; --radius-lg:10px;
      --font-sans: Geist, ui-sans-serif, system-ui, -apple-system, `Segoe UI`, Helvetica, Arial, sans-serif;
      --font-mono: `Geist Mono`, ui-monospace, SFMono-Regular, Menlo, Monaco, Consolas, monospace;
    }
    *,*::before,*::after { box-sizing:border-box; }
    html,body { margin:0; padding:0; background:var(--ink-0); color:var(--ink-9); font-family:var(--font-sans); -webkit-font-smoothing:antialiased; }
    body {
      background-image:
        linear-gradient(to right, rgba(255,255,255,.015) 1px, transparent 1px),
        linear-gradient(to bottom, rgba(255,255,255,.015) 1px, transparent 1px);
      background-size: 64px 64px;
      min-height:100vh;
    }
    ::selection { background:rgba(34,211,238,.25); color:var(--ink-9); }
    a { color:var(--accent); text-decoration:none; }
    a:hover { text-decoration:underline; text-underline-offset:2px; }
    .wrap { max-width: 1120px; margin: 0 auto; padding: 56px 32px 96px; }
    .topline {
      display:flex; align-items:center; justify-content:space-between;
      padding-bottom:18px; border-bottom:1px solid var(--rule); margin-bottom:32px;
      color:var(--ink-7);
    }
    .brand { display:inline-flex; align-items:center; gap:10px; color:var(--ink-9); }
    .brand svg { width:22px; height:22px; }
    .brand-text {
      font-family:var(--font-mono); font-size:12px; letter-spacing:.18em;
      text-transform:uppercase;
    }
    .pill {
      display:inline-flex; align-items:center; gap:6px;
      font-family:var(--font-mono); font-size:11px; letter-spacing:.08em;
      padding:3px 10px; border-radius:999px;
      box-shadow: inset 0 0 0 1px var(--rule-default);
      color:var(--ink-7);
    }
    .pill .dot { width:6px; height:6px; border-radius:999px; background:var(--accent); }
    .eyebrow {
      font-family:var(--font-mono); font-size:11px; letter-spacing:.14em;
      text-transform:uppercase; color:var(--ink-7);
    }
    h1 {
      font-size: clamp(28px, 4.4vw, 44px); line-height:1.06; letter-spacing:-.02em;
      font-weight:500; margin:14px 0 8px;
    }
    h1 .muted { color:var(--ink-7); }
    .meta { color:var(--ink-7); font-size:14px; }
    .summary {
      margin-top:28px; display:grid; grid-template-columns: repeat(4, 1fr);
      gap:1px; background:var(--rule);
      box-shadow: inset 0 0 0 1px var(--rule-default);
      border-radius:var(--radius-lg); overflow:hidden;
    }
    @media (max-width:720px) { .summary { grid-template-columns: repeat(2, 1fr); } }
    .stat { background:var(--ink-1); padding:18px 20px; }
    .stat .v { font-family:var(--font-mono); font-variant-numeric:tabular-nums; font-size:24px; letter-spacing:-.02em; }
    .stat .v.accent { color:var(--accent); }
    .stat .v.ok { color:var(--ok); }
    .stat .l { margin-top:4px; font-family:var(--font-mono); font-size:10px;
               letter-spacing:.12em; text-transform:uppercase; color:var(--ink-6); }
    .stat .sub { color:var(--ink-7); margin-left:6px; }

    .share {
      margin-top:16px; display:flex; align-items:center; gap:10px;
      background:var(--ink-2); padding:10px 12px; border-radius:var(--radius-md);
      box-shadow: inset 0 0 0 1px var(--rule-default);
    }
    .share .label { font-family:var(--font-mono); font-size:11px; color:var(--ink-6); }
    .share code {
      flex:1; min-width:0; white-space:nowrap; overflow:hidden; text-overflow:ellipsis;
      font-family:var(--font-mono); font-size:12px; color:var(--ink-8);
    }
    .share button {
      appearance:none; background:transparent; color:var(--ink-9);
      border:none; padding:4px 8px; font-family:var(--font-mono); font-size:11px;
      cursor:pointer; border-radius:var(--radius-sm);
    }
    .share button:hover { background:var(--ink-3); }

    .section-head {
      margin: 56px 0 16px; display:flex; align-items:center; gap:14px;
    }
    .section-head .label {
      font-family:var(--font-mono); font-size:11px; letter-spacing:.12em;
      text-transform:uppercase;
".

Definition page_style_findings : string := "    }
    .section-head .label.cost { color:var(--accent); }
    .section-head .label.bonus { color:var(--med); }
    .section-head .rule { flex:1; height:1px; background:linear-gradient(to right, transparent, var(--rule-default) 8%, var(--rule-default) 92%, transparent); }

    .findings { display:grid; gap:10px; }
    .f {
      background:var(--ink-1); padding:16px 18px; border-radius:var(--radius-md);
      box-shadow: inset 0 0 0 1px var(--rule-default);
    }
    .f-row { display:flex; align-items:center; gap:10px; flex-wrap:wrap; }
    .sev {
      min-width:46px; text-align:center;
      font-family:var(--font-mono); font-size:11px; letter-spacing:.08em;
      padding:2px 8px; border-radius:var(--radius-sm);
    }
    .sev-high { background:rgba(255,107,107,.12); color:var(--high); }
    .sev-med  { background:rgba(245,158,11,.12); color:var(--med); }
    .sev-low  { background:rgba(34,211,238,.12); color:var(--low); }
    .sev-info { background:rgba(156,156,168,.18); color:var(--ink-8); }
    .wl { font-family:var(--font-mono); font-size:12px; letter-spacing:.04em; color:var(--accent); }
    .save { margin-left:auto; font-family:var(--font-mono); font-variant-numeric:tabular-nums; font-size:13px; color:var(--ok); }
    .f-title { margin-top:10px; font-size:14.5px; color:var(--ink-9); }
    .f-detail { margin-top:6px; font-size:13px; line-height:1.6; color:var(--ink-7); }
    .conf {
      margin-top:8px; display:inline-flex; gap:6px;
      font-family:var(--font-mono); font-size:11px; color:var(--ink-6);
    }
    .conf .dots .a { color:var(--accent); }
    .conf .dots .o { color:var(--ink-6); }

    .clean {
      background:var(--ink-1); padding:24px; border-radius:var(--radius-md);
      box-shadow: inset 0 0 0 1px var(--rule-default); margin-top:32px;
    }
    .clean .ok { color:var(--ok); font-size:14px; }
    .clean p { color:var(--ink-7); margin-top:8px; font-size:13px; }

    .accuracy {
      margin-top:64px; padding-top:24px; border-top:1px solid var(--rule);
      display:flex; gap:14px; align-items:flex-start;
      font-family:var(--font-mono); font-size:12px; line-height:1.6; color:var(--ink-7);
    }
    .accuracy svg { width:16px; height:16px; flex-shrink:0; margin-top:2px; opacity:.6; }
    .accuracy strong { color:var(--ink-9); font-weight:500; }

    .footer-meta {
      margin-top:32px; font-family:var(--font-mono); font-size:11px; letter-spacing:.08em;
      color:var(--ink-6); display:flex; justify-content:space-between; flex-wrap:wrap; gap:8px;
    }
    .footer-meta a { color:inherit; border-bottom:1px solid transparent; }
    .footer-meta a:hover { color:var(--ink-9); border-bottom-color:var(--accent); text-decoration:none; }
  </style>
</head>
<body>
  <main class=`wrap`>
    <div class=`topline`>
      <span class=`brand`>
        {{ template `logo` . }}
        <span class=`brand-text`>Optiqor</span>
".

Definition page_body : string := "      </span>
      <span class=`pill`><span class=`dot`></span>{{.Mode}} · ±40%</span>
    </div>

    <p class=`eyebrow`>Analysis</p>
    <h1>
      {{.Source}}<br>
      <span class=`muted`>
        {{- if .Totals.HasSavings -}}
          potential savings {{.Totals.MonthlyUSD}}<span style=`color:var(--ink-7)`> /mo</span>
        {{- else -}}
          no cost optimisations detected
        {{- end -}}
      </span>
    </h1>
    <p class=`meta`>{{.Totals.WorkloadsLabel}} analysed · generated {{.GeneratedAtISO}}</p>

    <div class=`summary`>
      <div class=`stat`>
        <div class=`v`>{{.Workloads}}</div>
        <div class=`l`>Workloads</div>
      </div>
      <div class=`stat`>
        <div class=`v accent`>{{len .Cost}}</div>
        <div class=`l`>Cost opts</div>
      </div>
      <div class=`stat`>
        <div class=`v`>{{len .Security}}<span class=`sub` style=`font-family:var(--font-mono); font-size:10px;`> · bonus</span></div>
        <div class=`l`>Security</div>
      </div>
      <div class=`stat`>
        <div class=`v ok`>{{ if .Totals.HasSavings }}{{.Totals.MonthlyUSD}}{{ else }}—{{ end }}</div>
        <div class=`l`>/mo {{ if .Totals.HasSavings }}<span class=`sub`>· ~{{.Totals.AnnualUSD}}/yr</span>{{ end }}</div>
      </div>
    </div>

    {{ if .HasShareURL }}
    <div class=`share`>
      <span class=`label`>share</span>
      <code id=`share-url`>{{.ShareURL}}</code>
      <button type=`button` id=`copy-btn` data-copy=`{{.ShareURL}}`>copy</button>
    </div>
    {{ end }}

    {{ if .HasCost }}
    <div class=`section-head`>
      <span class=`label cost`>━━ Cost optimizations</span>
      <span class=`rule`></span>
    </div>
    <div class=`findings`>
      {{ range .Cost }}{{ template `finding` . }}{{ end }}
    </div>
    {{ end }}

    {{ if .HasSecurity }}
    <div class=`section-head`>
      <span class=`label bonus`>━━ Security findings · bonus · {{len .Security}}</span>
      <span class=`rule`></span>
    </div>
    <p class=`meta` style=`margin-bottom:14px; font-style:italic;`>
      Spotted while parsing your chart. Cost is the headline; this is a bonus.
    </p>
    <div class=`findings`>
      {{ range .Security }}{{ template `finding` . }}{{ end }}
    </div>
    {{ end }}

    {{ if .Clean }}
    <div class=`clean`>
      <div class=`ok`>✓ Clean. No findings.</div>
      <p>Either your chart is already optimised, or the detectors didn&apos;t see enough signal in the values you supplied.</p>
    </div>
    {{ end }}

    <div class=`accuracy`>
      {{ template `logo` . }}
      <span><strong>{{.AccuracyDisclosure}}</strong></span>
    </div>

".

Definition page_tail : string := "    <div class=`footer-meta`>
      <span>{{.GeneratedAtISO}} · generated by <a href=`https://optiqor.dev`>optiqor.dev</a></span>
      <span>Apache-2.0 · github.com/optiqor/optiqor-cli</span>
    </div>
  </main>

  {{ if .HasShareURL }}
  <script>
    (function () {
      var btn = document.getElementById('copy-btn');
      if (!btn) return;
      btn.addEventListener('click', function () {
        var url = btn.getAttribute('data-copy') || '';
        if (!url) return;
        navigator.clipboard.writeText(url).then(function () {
          var old = btn.textContent;
          btn.textContent = '✓ copied';
          setTimeout(function () { btn.textContent = old; }, 1500);
        });
      });
    })();
  </script>
  {{ end }}
</body>
</html>

{{ define `logo` }}
<svg viewBox=`0 0 64 64` fill=`none` aria-hidden=`true`>
  <path d=`M32 6 a26 26 0 1 1 -18.4 44.4` stroke=`currentColor` stroke-width=`4` stroke-linecap=`round`/>
  <line x1=`32` y1=`32` x2=`50` y2=`50` stroke=`currentColor` stroke-width=`2` stroke-linecap=`round`/>
  <circle cx=`22` cy=`32` r=`4.5` fill=`#22D3EE`/>
  <circle cx=`50` cy=`50` r=`2.5` fill=`#22D3EE`/>
</svg>
{{ end }}

{{ define `finding` }}
<div class=`f`>
  <div class=`f-row`>
    <span class=`sev {{.SeverityCls}}`>{{.Severity}}</span>
    <span class=`wl`>{{.Workload}}</span>
    {{ if .HasSavings }}<span class=`save`>save ~{{.SavingsUSD}}/mo</span>{{ end }}
  </div>
  <div class=`f-title`>{{.Title}}</div>
  {{ if .Detail }}<div class=`f-detail`>{{.Detail}}</div>{{ end }}
  <div class=`conf`>
    confidence:
    <span class=`dots`>
      {{ if eq .Confidence `high` }}<span class=`a`>●●●</span>{{ end }}
      {{ if eq .Confidence `medium` }}<span class=`a`>●●</span><span class=`o`>○</span>{{ end }}
      {{ if eq .Confidence `low` }}<span class=`a`>●</span><span class=`o`>○○</span>{{ end }}
    </span>
    <span>{{.Confidence}}</span>
  </div>
</div>
{{ end }}
".

Definition documentTemplate : string :=
  quoted (page_head +:+ page_style +:+ page_style_findings +:+ page_body +:+ page_tail).

Definition receipt_head : string := "<!doctype html>
<html lang=`en`>
<head>
  <meta charset=`utf-8`>
  <meta name=`viewport` content=`width=device-width,initial-scale=1`>
  <meta name=`robots` content=`noindex`>
  <title>Receipt {{.ID}} · Optiqor</title>
  <link rel=`preconnect` href=`https://fonts.googleapis.com`>
  <link rel=`preconnect` href=`https://fonts.gstatic.com` crossorigin>
  <link rel=`stylesheet` href=`https://fonts.googleapis.com/css2?family=Geist:wght@400;500;600&family=Geist+Mono:wght@400;500&display=swap`>
  <style>
    :root {
".

Definition receipt_style : string := "      --ink-0:#0A0A0B; --ink-1:#111114; --ink-2:#16161A; --ink-3:#1C1C22;
      --ink-6:#5C5C68; --ink-7:#9C9CA8; --ink-8:#C8C8D0; --ink-9:#EDEDEE;
      --accent:#22D3EE; --ok:#34D399; --high:#FF6B6B; --med:#F59E0B;
      --rule:#1F1F25; --rule-default:#2A2A33;
      --font-sans: Geist, ui-sans-serif, system-ui, -apple-system, sans-serif;
      --font-mono: `Geist Mono`, ui-monospace, SFMono-Regular, monospace;
    }
    * { box-sizing:border-box; }
    body {
      margin:0; background:var(--ink-0); color:var(--ink-9);
      font-family:var(--font-sans); -webkit-font-smoothing:antialiased;
      background-image:
        linear-gradient(to right, rgba(255,255,255,.015) 1px, transparent 1px),
        linear-gradient(to bottom, rgba(255,255,255,.015) 1px, transparent 1px);
      background-size:64px 64px; min-height:100vh;
    }
    a { color:var(--accent); text-decoration:none; }
    a:hover { text-decoration:underline; text-underline-offset:2px; }
    .wrap { max-width:880px; margin:0 auto; padding:56px 32px 96px; }
    .topline { display:flex; align-items:center; justify-content:space-between;
               padding-bottom:18px; border-bottom:1px solid var(--rule); margin-bottom:32px; }
    .brand-text { font-family:var(--font-mono); font-size:12px; letter-spacing:.18em; text-transform:uppercase; }
    .verified, .unverified {
      display:inline-flex; align-items:center; gap:8px;
      font-family:var(--font-mono); font-size:11px; letter-spacing:.1em;
      padding:5px 12px; border-radius:999px;
    }
    .verified  { background:rgba(52,211,153,.12); color:var(--ok); box-shadow:inset 0 0 0 1px rgba(52,211,153,.4); }
    .unverified { background:rgba(255,107,107,.12); color:var(--high); box-shadow:inset 0 0 0 1px rgba(255,107,107,.4); }
    .verified .dot, .unverified .dot { width:6px; height:6px; border-radius:999px; background:currentColor; }
    .eyebrow { font-family:var(--font-mono); font-size:11px; letter-spacing:.14em;
               text-transform:uppercase; color:var(--ink-7); margin-bottom:14px; }
    h1 { font-size:clamp(28px,4.4vw,44px); line-height:1.06; letter-spacing:-.02em; font-weight:500; margin:0; }
    h1 .muted { color:var(--ink-7); }
    .hero { margin-bottom:36px; }
    .hero .id { font-family:var(--font-mono); font-size:14px; color:var(--accent); margin-top:8px; }
    .grid {
      display:grid; grid-template-columns:repeat(2, 1fr); gap:1px;
      background:var(--rule); box-shadow: inset 0 0 0 1px var(--rule-default);
      border-radius:10px; overflow:hidden;
    }
    @media (max-width:640px) { .grid { grid-template-columns:1fr; } }
    .cell { background:var(--ink-1); padding:18px 20px; }
    .cell .l { font-family:var(--font-mono); font-size:10px; letter-spacing:.12em;
               text-transform:uppercase; color:var(--ink-6); }
    .cell .v { margin-top:4px; font-size:15px; color:var(--ink-9); }
    .cell .v.mono { font-family:var(--font-mono); font-size:13px; }
    .cell .v.amt { font-family:var(--font-mono); font-variant-numeric:tabular-nums; font-size:22px; letter-spacing:-.02em; color:var(--ok); }
    .section-title { margin:48px 0 14px; font-family:var(--font-mono); font-size:11px;
                     letter-spacing:.12em; text-transform:uppercase; color:var(--ink-7); }
    pre.code {
      background:var(--ink-2); padding:18px 20px; border-radius:6px;
      box-shadow: inset 0 0 0 1px var(--rule-default);
      font-family:var(--font-mono); font-size:12px; line-height:1.7; color:var(--ink-8);
      overflow-x:auto; white-space:pre; margin:0;
    }
    pre.sig { word-break:break-all; white-space:pre-wrap; color:var(--accent); }
    .accuracy { margin-top:56px; padding-top:24px; border-top:1px solid var(--rule);
                font-family:var(--font-mono); font-size:12px; color:var(--ink-7); line-height:1.6; }
    .footer-meta { margin-top:24px; font-family:var(--font-mono); font-size:11px;
                   letter-spacing:.08em; color:var(--ink-6); display:flex; justify-content:space-between; gap:8px; flex-wrap:wrap; }
  </style>
".

Definition receipt_body : string := "</head>
<body>
  <main class=`wrap`>
    <div class=`topline`>
      <span class=`brand-text`>Optiqor · Verified Receipt</span>
      {{ if .Verified -}}
        <span class=`verified`><span class=`dot`></span>signature verified</span>
      {{- else -}}
        <span class=`unverified`><span class=`dot`></span>signature failed verification</span>
      {{- end }}
    </div>

    <div class=`hero`>
      <p class=`eyebrow`>Verified Receipt</p>
      <h1>
        Saved <span class=`muted`>{{.Realised}}</span><br>
        on workload <span style=`color:var(--accent)`>{{.Workload}}</span>
      </h1>
      <p class=`id`>{{.ID}}</p>
    </div>

    <div class=`grid`>
      <div class=`cell`><div class=`l`>Predicted</div><div class=`v amt`>{{.Predicted}}</div></div>
      <div class=`cell`><div class=`l`>Realised</div><div class=`v amt`>{{.Realised}}</div></div>
      <div class=`cell`><div class=`l`>Observation window</div><div class=`v mono`>{{.Observed}}</div></div>
      <div class=`cell`><div class=`l`>Cloud bill source</div><div class=`v mono`>{{.CloudBill}}</div></div>
      <div class=`cell`><div class=`l`>Tenant</div><div class=`v mono`>{{.TenantID}}</div></div>
      <div class=`cell`><div class=`l`>Apply Fix ID</div><div class=`v mono`>{{.ApplyFixID}}</div></div>
      <div class=`cell`><div class=`l`>Issuer key</div><div class=`v mono`>{{.IssuerKeyID}}</div></div>
      <div class=`cell`><div class=`l`>Issued (UTC)</div><div class=`v mono`>{{.IssuedAtUTC}}</div></div>
    </div>

    <h3 class=`section-title`>Signed payload (canonical JSON)</h3>
    <pre class=`code`>{{.PayloadJSON}}</pre>

    <h3 class=`section-title`>Signature (Ed25519, base64url)</h3>
    <pre class=`code sig`>{{.Signature}}</pre>

    <div class=`accuracy`>
      <strong style=`color:var(--ink-9); font-weight:500`>{{.Disclosure}}</strong><br>
      To verify offline: fetch <a href=`https://optiqor.dev/keys`>/keys</a>,
      then verify <code style=`color:var(--ink-9)`>signed = signature + `.` + payload</code>
      with <code style=`color:var(--ink-9)`>ed25519.Verify</code>.
    </div>

    <div class=`footer-meta`>
      <span>Public verifier · no auth · no telemetry</span>
      <span><a href=`https://optiqor.dev`>optiqor.dev</a></span>
    </div>
  </main>
</body>
</html>".

Definition verifyTmpl : string := quoted (receipt_head +:+ receipt_style +:+ receipt_body).

(** Both are read once. *)
Definition report_template : template := Eval vm_compute in default ([], []) (parse documentTemplate).
Definition receipt_template : template := Eval vm_compute in default ([], []) (parse verifyTmpl).

Lemma templates_parse : parse documentTemplate = Some report_template ∧ parse verifyTmpl = Some receipt_template.
Proof. split; vm_compute; reflexivity. Qed.

(** ** The report *)

Inductive Mode := ModeSandbox | ModeAgent.

Record Data := mkData {
  DSource : string; DWorkloads : Z; DFindings : list Finding; DShareURL : string; DGeneratedAt : Z;
  DMode : Mode; PageTitle : string }.

Definition AccuracyDisclosure : string :=
  "Sandbox accuracy: ±40%. Install the Optiqor agent for exact numbers (optiqor.dev/get).".
Definition accuracyFor (m : Mode) : string :=
  match m with
  | ModeAgent => "Agent accuracy: ±15%. Backed by 30 days of Prometheus + your AWS bill."
  | ModeSandbox => AccuracyDisclosure
  end.
Definition modeLabel (m : Mode) : string := match m with ModeAgent => "agent" | ModeSandbox => "sandbox" end.

Definition firstNonEmpty (a b : string) : string := if String.eqb a "" then b else a.
Definition titleOrDefault (d : Data) : string :=
  if String.eqb (PageTitle d) "" then "Optiqor — " +:+ firstNonEmpty (DSource d) "analysis" else PageTitle d.

(** Down to the minute; without a time, the present one. *)
Definition stamp (now t : Z) : string :=
  format_rfc3339 (time_truncate (if time_IsZero t then now else t) Minute).

Definition pluralised (n : Z) (base : string) : string :=
  if n =? 1 then itoa n +:+ " " +:+ base else itoa n +:+ " " +:+ base +:+ "s".

Definition html_fmtUSD (cents : Z) : string :=
  let neg := cents <? 0 in
  let cents := if neg then i64_neg cents else cents in
  let rem := Z.rem cents 100 in
  (if neg then "-" else "") +:+ "$" +:+ withCommas (Z.quot cents 100) +:+
  (if rem =? 0 then "" else "." +:+ fmt_02d rem).

Definition html_cost_less (a b : Finding) : bool :=
  if negb (Bool.eqb (0 <? MonthlyUSDCents a) (0 <? MonthlyUSDCents b)) then 0 <? MonthlyUSDCents a
  else if negb (MonthlyUSDCents a =? MonthlyUSDCents b) then MonthlyUSDCents b <? MonthlyUSDCents a
  else if negb (String.eqb (FWorkload a) (FWorkload b)) then String.ltb (FWorkload a) (FWorkload b)
  else String.ltb (DetectorID a) (DetectorID b).
Definition sortCost (l : list Finding) : list Finding := sort_stable html_cost_less l.

(** Costs first, in the order given. *)
Definition html_split (l : list Finding) : list Finding * list Finding :=
  foldl (λ acc f, if String.eqb (FCategory f) CategorySecurity then (acc.1, acc.2 ++ [f]) else (acc.1 ++ [f], acc.2)) ([], []) l.

Definition toView (f : Finding) : tval :=
  VRec [("Severity", VText (FSeverity f)); ("SeverityCls", VText ("sev-" +:+ to_lower (FSeverity f)));
        ("Workload", VText (FWorkload f)); ("Title", VText (Title f)); ("Detail", VText (Detail f));
        ("HasSavings", VBool (0 <? MonthlyUSDCents f));
        ("SavingsUSD", VText (if 0 <? MonthlyUSDCents f then html_fmtUSD (MonthlyUSDCents f) else ""));
        ("Confidence", VText (FConfidence f)); ("ConfidenceCls", VText ("conf-" +:+ to_lower (FConfidence f)))].

Definition totalCents (l : list Finding) : Z := foldl (λ s f, i64_add s (MonthlyUSDCents f)) 0 l.
Definition nonempty {A} (l : list A) : bool := match l with [] => false | _ => true end.

Definition buildView (now : Z) (d : Data) : tval :=
  let cost := sortCost (html_split (DFindings d)).1 in
  let sec := (html_split (DFindings d)).2 in
  let total := totalCents (DFindings d) in
  VRec [("Title", VText (titleOrDefault d)); ("Source", VText (firstNonEmpty (DSource d) "(stdin)"));
        ("Workloads", VInt (DWorkloads d)); ("GeneratedAtISO", VText (stamp now (DGeneratedAt d)));
        ("ShareURL", VText (DShareURL d)); ("HasShareURL", VBool (negb (String.eqb (DShareURL d) "")));
        ("AccuracyDisclosure", VText (accuracyFor (DMode d))); ("Mode", VText (modeLabel (DMode d)));
        ("Totals", VRec [("HasSavings", VBool (0 <? total)); ("MonthlyUSD", VText (html_fmtUSD total));
                         ("AnnualUSD", VText (html_fmtUSD (i64_mul total 12)));
                         ("WorkloadsLabel", VText (pluralised (DWorkloads d) "workload"))]);
        ("Cost", VList (map toView cost)); ("Security", VList (map toView sec));
        ("HasCost", VBool (nonempty cost)); ("HasSecurity", VBool (nonempty sec));
        ("Clean", VBool (negb (nonempty cost) && negb (nonempty sec)))].

(** The document: one newline at its end. *)
Definition is_newline (c : ascii) : bool := byte_val c =? 10.
Definition finish_page (ps : list piece) : string := trim_right is_newline (text_of ps) +:+ newline.
Definition Render (now : Z) (d : Data) : option string := option_map finish_page (Execute report_template (buildView now d)).

(** What the command line writes with [--html], and what the share page serves. *)
Definition writeHTMLReport (now : Z) (r : Analyze.Report) : option string :=
  Render now (mkData (Analyze.Source r) (Analyze.Workloads r) (Analyze.Findings r) "" 0 ModeSandbox "").
Definition share_page (now : Z) (p : page_data) : option string :=
  Render now (mkData (PSource p) (PWorkloads p) (PFindings p) (PShareURL p) (PGeneratedAt p) ModeSandbox "").

(** ** The receipt *)

Definition date_of (t : Z) : string :=
  let '(year, yday, leap) := civil_year (t / Second / 86400) in
  let '(month, day) := civil_month 1 (month_lengths leap) yday in
  append_int 4 year +:+ "-" +:+ append_int 2 month +:+ "-" +:+ append_int 2 day.
Definition minute_of (t : Z) : string :=
  let sod := t / Second mod 86400 in
  date_of t +:+ " " +:+ append_int 2 (sod / 3600) +:+ ":" +:+ append_int 2 (sod / 60 mod 60) +:+ " UTC".

(** [json.MarshalIndent]; its error is dropped and leaves no text. *)
Definition receipt_json (r : Receipt) : jvalue :=
  OObj (map (λ kv, (kv.1, match kv.2 with VStr s => OText s | Json.VInt z => OInt z end)) (receipt_fields r)).
Definition pretty_receipt (r : Receipt) : string :=
  if year_ok (ObservedFromUTC r) && year_ok (ObservedToUTC r) && year_ok (IssuedAtUTC r)
  then default "" (pretty "" (receipt_json r)) else "".

Definition verify_view (r : Receipt) (signed : string) (verified : bool) : tval :=
  let '(sig, payload) := default (signed, "") (cut_byte "." signed) in
  VRec [("ID", VText (ID r)); ("TenantID", VText (RTenantID r)); ("Workload", VText (Receipts.Workload r));
        ("ApplyFixID", VText (ApplyFixID r));
        ("Observed", VText (date_of (ObservedFromUTC r) +:+ " → " +:+ date_of (ObservedToUTC r)));
        ("Predicted", VText (fmtCentsUSD (PredictedSavingsUSDCents r)));
        ("Realised", VText (fmtCentsUSD (RealisedSavingsUSDCents r)));
        ("CloudBill", VText (CloudBillSource r)); ("IssuerKeyID", VText (IssuerKeyID r));
        ("IssuedAtUTC", VText (minute_of (IssuedAtUTC r))); ("Verified", VBool verified);
        ("Signature", VText sig); ("PayloadB64", VText payload); ("PayloadJSON", VText (pretty_receipt r));
        ("Disclosure", VText "Agent accuracy: ±15%. Backed by 30 days of Prometheus + your AWS bill.")].

(** [template.HTMLEscapeString] *)
Fixpoint HTMLEscapeString (s : string) : string :=
  match s with
  | EmptyString => ""
  | String c s =>
      let b := byte_val c in
      (if b =? 0 then encode_rune RuneError else if b =? 34 then "&#34;" else if b =? 38 then "&amp;"
       else if b =? 39 then "&#39;" else if b =? 60 then "&lt;" else if b =? 62 then "&gt;" else String c "")
      +:+ HTMLEscapeString s
  end.

Definition notFoundPage (id : string) : string :=
  quoted ("<!doctype html><html><head><meta charset=`utf-8`><meta name=`robots` content=`noindex`>" +:+
  "<title>Receipt not found · Optiqor</title>" +:+
  "<style>body{font-family:ui-sans-serif,system-ui,sans-serif;max-width:40rem;margin:5rem auto;padding:0 1.25rem;color:#1f2933;line-height:1.55}" +:+
  "h1{margin:0 0 .5rem;font-size:1.5rem}.muted{color:#52606d;font-size:.95rem}" +:+
  ".cta{display:inline-block;margin-top:1.5rem;padding:.55rem 1rem;background:#111;color:#fff;text-decoration:none;border-radius:6px;font-weight:600}" +:+
  ".id{font-family:ui-monospace,monospace;font-size:.85rem;color:#7b8794;margin-top:1.5rem}</style></head><body>" +:+
  "<h1>Receipt not found</h1>" +:+
  "<p class=`muted`>No Receipt matches this id. Check the link, or browse public Receipts at optiqor.dev.</p>" +:+
  "<a class=`cta` href=`https://optiqor.dev`>optiqor.dev</a>" +:+
  "<div class=`id`>id: <code>") +:+ HTMLEscapeString id +:+ "</code></div>" +:+ "</body></html>".

(** [GET /v/{id}]: a refusal, or a status and a page. *)
Definition VerifyPage `{!Signatures} (st : Store) (reg : option Registry) (method id : string) : result Ingest.Error (Z * string) :=
  if negb (String.eqb method "GET") then Err MethodNotAllowed
  else if String.eqb id "" then Err MissingField
  else match Load st id with
  | None => Ok (404, notFoundPage id)
  | Some (signed, parsed) =>
      let verified := match reg with
        | Some reg => match Verify signed reg with Ok _ => true | Err _ => false end
        | None => false end in
      Ok (200, default "" (option_map text_of (Execute receipt_template (verify_view parsed signed verified))))
  end.

(** ** What holds of the templates, once and for all data *)

Definition finding_shape : shape :=
  SRec [("Severity", SText); ("SeverityCls", SText); ("Workload", SText); ("Title", SText); ("Detail", SText);
        ("HasSavings", SBool); ("SavingsUSD", SText); ("Confidence", SText); ("ConfidenceCls", SText)].
Definition report_shape : shape :=
  SRec [("Title", SText); ("Source", SText); ("Workloads", SInt); ("GeneratedAtISO", SText); ("ShareURL", SText);
        ("HasShareURL", SBool); ("AccuracyDisclosure", SText); ("Mode", SText);
        ("Totals", SRec [("HasSavings", SBool); ("MonthlyUSD", SText); ("AnnualUSD", SText); ("WorkloadsLabel", SText)]);
        ("Cost", SList finding_shape); ("Security", SList finding_shape); ("HasCost", SBool); ("HasSecurity", SBool); ("Clean", SBool)].
Definition receipt_shape : shape :=
  SRec (map (λ name, (name, if String.eqb name "Verified" then SBool else SText))
    ["ID"; "TenantID"; "Workload"; "ApplyFixID"; "Observed"; "Predicted"; "Realised"; "CloudBill"; "IssuerKeyID"; "IssuedAtUTC";
     "Verified"; "Signature"; "PayloadB64"; "PayloadJSON"; "Disclosure"]).

Lemma templates_typed :
  checks report_template.2 depth report_shape report_template.1 = true ∧
  checks receipt_template.2 depth receipt_shape receipt_template.1 = true.
Proof. split; vm_compute; reflexivity. Qed.

Lemma templates_contexts :
  contexts report_template.2 depth CText report_template.1 = Some CText ∧
  contexts receipt_template.2 depth CText receipt_template.1 = Some CText.
Proof. split; vm_compute; reflexivity. Qed.

Lemma fits_finding f : fits finding_shape (toView f).
Proof. cbn. split_and!; try done; eexists; done. Qed.

Lemma fits_report now d : fits report_shape (buildView now d).
Proof.
  assert (∀ l, Forall (fits finding_shape) (map toView l)) as Hl.
  { intros l. apply Forall_map, Forall_forall. intros f _. apply fits_finding. }
  unfold report_shape, buildView. cbn [fits].
  repeat (split; [eexists; (split; [reflexivity|]); first [exact I|apply Hl|idtac]|]); [|done].
  cbn [fits]. repeat (split; [eexists; split; [reflexivity|exact I]|]). done.
Qed.

Lemma fits_receipt r signed verified : fits receipt_shape (verify_view r signed verified).
Proof.
  unfold verify_view. destruct (default _ _) as [sig payload]. cbn.
  repeat (split; [eexists; split; [reflexivity|exact I]|]). done.
Qed.

(** ** The pages *)

Definition shows (f : Finding) (block : list piece) : Prop :=
  Forall (λ s, Hole (escape s) ∈ block) [FSeverity f; FWorkload f; Title f; FConfidence f].

Definition finding_body : list node := default [] (lookup_name "finding" report_template.2).

Lemma finding_shown fuel f inner b : exec report_template.2 (S fuel) (toView f) finding_body = Some inner → wraps inner b → shows f b.
Proof.
  intros He (pre & post & ->).
  assert (∀ p s, existsb (field_node [p]) finding_body = true → field [p] (toView f) = Some (VText s) → Hole (escape s) ∈ pre ++ inner ++ post) as H.
  { intros p s Hp Hs. pose proof (exec_hole _ _ _ _ _ _ _ He Hp Hs). apply elem_of_app. right. apply elem_of_app. by left. }
  repeat constructor; [eapply (H "Severity")|eapply (H "Workload")|eapply (H "Title")|eapply (H "Confidence")]; by vm_compute.
Qed.

Lemma half_shown ps now d c p l : Execute report_template (buildView now d) = Some ps →
  existsb (list_node [c] [p] "finding") report_template.1 = true →
  field [c] (buildView now d) = Some (VBool (nonempty l)) → field [p] (buildView now d) = Some (VList (map toView l)) →
  ∃ blocks, wraps (concat blocks) ps ∧ Forall2 shows l blocks.
Proof.
  intros He Hn Hc Hp. destruct l as [|f l]; [exists []; split; [by exists [], ps|constructor]|].
  assert (lookup_name "finding" report_template.2 = Some finding_body) as Hl by (vm_compute; reflexivity).
  destruct (exec_lists _ 13 _ _ _ _ _ _ _ _ He Hn Hl Hc Hp) as (blocks & Hw & Hb). exists blocks. split; [done|].
  apply Forall2_fmap_l in Hb. eapply Forall2_impl; [exact Hb|]. intros g b (inner & Hi & Hg). by eapply (finding_shown 12).
Qed.

(** The order is that of the pull-request comment. *)
Lemma html_order l : sortCost l = sortCostForDisplay l.
Proof.
  apply sort_stable_ext. intros a b _ _. unfold html_cost_less, PrComment.cost_less.
  destruct (Z.ltb_spec 0 (MonthlyUSDCents a)), (Z.ltb_spec 0 (MonthlyUSDCents b)); cbn [Bool.eqb negb]; try done;
    symmetry; [apply Z.ltb_lt|apply Z.ltb_ge]; lia.
Qed.

Lemma html_split_spec l : html_split l = PrComment.split l.
Proof.
  unfold html_split, PrComment.split.
  assert (∀ acc, foldl (λ acc f, if String.eqb (FCategory f) CategorySecurity then (acc.1, acc.2 ++ [f]) else (acc.1 ++ [f], acc.2)) acc l =
    (acc.1 ++ List.filter (λ f, negb (String.eqb (FCategory f) CategorySecurity)) l,
     acc.2 ++ List.filter (λ f, String.eqb (FCategory f) CategorySecurity) l)) as H; [|by rewrite H].
  induction l as [|f l IH]; intros [a b]; cbn [foldl List.filter fst snd]; [by rewrite !app_nil_r|].
  rewrite IH. destruct (String.eqb (FCategory f) CategorySecurity); cbn [negb fst snd]; by rewrite <-app_assoc.
Qed.

Lemma split_perm l : (html_split l).1 ++ (html_split l).2 ≡ₚ l.
Proof.
  rewrite html_split_spec. unfold PrComment.split. cbn [fst snd]. induction l as [|f l IH]; [done|]. cbn [List.filter].
  destruct (String.eqb (FCategory f) CategorySecurity); cbn [negb]; [by rewrite <-Permutation_middle, IH|by rewrite <-app_comm_cons, IH].
Qed.

(** Every report has a page: the types and the contexts of the template see to it. *)
Lemma report_exists now d : ∃ ps, Execute report_template (buildView now d) = Some ps ∧ Render now d = Some (finish_page ps).
Proof.
  destruct (checks_exec _ _ _ _ _ (fits_report now d) (proj1 templates_typed)) as [ps He].
  exists ps. split; [exact He|]. unfold Render, Execute. by rewrite He.
Qed.

(** C21 The report page. There is one for every report. Whatever the report says, each of its
    texts stays where the template puts it, in text or in a plain attribute, and the document
    closes what it opens. The accuracy disclosure is always there. Cost findings, in the order of the
    pull-request comment, and security findings, in their own, are each shown once, with
    severity, workload, title and confidence, and every finding is one of these. *)
Theorem report_page (now : Z) (d : Data) :
  let costs := sortCostForDisplay (html_split (DFindings d)).1 in
  let bonus := (html_split (DFindings d)).2 in
  ∃ ps, Execute report_template (buildView now d) = Some ps ∧ Render now d = Some (finish_page ps) ∧
    in_place CText ps ∧ scan CText (text_of ps) = CText ∧
    Hole (escape (accuracyFor (DMode d))) ∈ ps ∧
    (∃ blocks, wraps (concat blocks) ps ∧ Forall2 shows costs blocks) ∧
    (∃ blocks, wraps (concat blocks) ps ∧ Forall2 shows bonus blocks) ∧
    costs ++ bonus ≡ₚ DFindings d.
Proof.
  cbv zeta. destruct (report_exists now d) as (ps & He & Hr).
  exists ps. rewrite <-html_order. split; [exact He|]. split; [exact Hr|].
  destruct (contexts_exec _ _ _ _ _ _ _ (proj1 templates_contexts) He) as [Hp Hs].
  split; [done|]. split; [done|]. split; [|split; [|split]].
  - unfold Execute in He. apply (exec_hole _ _ _ _ _ ["AccuracyDisclosure"] _ He); [vm_compute|]; reflexivity.
  - apply (half_shown _ now d "HasCost" "Cost" _ He); [vm_compute| |]; reflexivity.
  - apply (half_shown _ now d "HasSecurity" "Security" _ He); [vm_compute| |]; reflexivity.
  - unfold sortCost. rewrite sort_stable_perm. apply split_perm.
Qed.

(** Every share page a visitor is shown, and every file of [--html]. *)
Lemma pages_exist now : (∀ r, is_Some (writeHTMLReport now r)) ∧ (∀ p, is_Some (share_page now p)).
Proof.
  split; intros x; unfold writeHTMLReport, share_page;
    match goal with |- is_Some (Render _ ?d) => destruct (report_exists now d) as (ps & _ & ->); by eexists end.
Qed.

(** Within a minute the document is the same. *)
Lemma same_minute now d t : time_IsZero t = false → time_IsZero (DGeneratedAt d) = false →
  time_truncate t Minute = time_truncate (DGeneratedAt d) Minute →
  Render now (mkData (DSource d) (DWorkloads d) (DFindings d) (DShareURL d) t (DMode d) (PageTitle d)) = Render now d.
Proof. intros Ht Hd Hm. unfold Render, buildView, stamp. cbn [DGeneratedAt DSource DWorkloads DFindings DShareURL DMode PageTitle]. by rewrite Ht, Hd, Hm. Qed.

(** The page of a receipt. An unknown id is Not Found, the id inert in the page; a stored
    receipt has a page, its texts in their places, that shows its amounts, and whose pill
    is green exactly if the signed form verifies - whatever the receipt stored beside it says. *)
Lemma receipt_page `{!Signatures} (st : Store) (reg : option Registry) (id : string) : id ≠ "" →
  match st !! id with
  | None => VerifyPage st reg "GET" id = Ok (404, notFoundPage id)
  | Some (signed, r) => ∃ ps verified,
      VerifyPage st reg "GET" id = Ok (200, text_of ps) ∧ in_place CText ps ∧ scan CText (text_of ps) = CText ∧
      (verified = true ↔ ∃ reg' r', reg = Some reg' ∧ Verify signed reg' = Ok r') ∧
      Execute receipt_template (verify_view r signed verified) = Some ps ∧
      Hole (escape (fmtCentsUSD (RealisedSavingsUSDCents r))) ∈ ps
  end.
Proof.
  intros Hid. unfold VerifyPage, Load. change (negb (String.eqb "GET" "GET")) with false. cbv iota.
  rewrite (proj2 (String.eqb_neq _ _) Hid). destruct (st !! id) as [[signed r]|]; [|done].
  set (verified := match reg with Some reg => _ | None => false end).
  destruct (checks_exec _ _ _ _ _ (fits_receipt r signed verified) (proj2 templates_typed)) as [ps He].
  exists ps, verified. unfold Execute. rewrite He. split; [done|].
  destruct (contexts_exec _ _ _ _ _ _ _ (proj2 templates_contexts) He) as [Hp Hs]. split; [done|]. split; [done|]. split; [|split; [done|]].
  - unfold verified. destruct reg as [reg|].
    + destruct (Verify signed reg) as [r'|e] eqn:E; split; try done; [by eauto|]. intros (reg' & r' & [= <-] & E'). by rewrite E in E'.
    + split; [done|]. by intros (? & ? & ? & _).
  - apply (exec_hole _ _ _ _ _ ["Realised"] _ He); [vm_compute; reflexivity|]. unfold verify_view. by destruct (default _ _).
Qed.

Lemma not_found_inert id : scan CText (notFoundPage id) = CText ∧ str_all inert (HTMLEscapeString id) = true.
Proof.
  assert (∀ s, str_all inert (HTMLEscapeString s) = true) as H.
  { induction s as [|c s IH]; [done|]. cbn [HTMLEscapeString]. rewrite str_all_app, IH, andb_true_r. all_bytes c; done. }
  split; [|apply H]. unfold notFoundPage. rewrite !scan_app.
  match goal with |- scan (scan (scan ?st _) _) _ = _ => assert (st = CText) as -> by (vm_compute; reflexivity) end.
  rewrite (inert_stays CText) by (done || apply H). vm_compute. reflexivity.
Qed.

(** Where pages and comments part. The pill of an agent's report claims the accuracy of the
    sandbox; the file of [--html] is not the share page of the same report; and a receipt page
    says that the signature verifies while showing amounts that nobody signed, and ships no
    script to check anything in the browser. *)
Definition sample_finding : Finding := Build_Finding "cpu" "web" "t" "d" 4500 "HIGH" "high" "cost" None.
Definition tampered : Receipt :=
  mkReceipt "rcpt-1" "t-1" "web" "fix-9" demo_from (demo_from + 30 * Day) 120000 99999900 "aws-cur" "k1" (demo_from + 31 * Day).

Lemma page_divergences :
  option_map (λ s, str_contains s "agent · ±40%") (Render demo_from (mkData "x" 1 [] "" 0 ModeAgent "")) = Some true ∧
  (let r := Analyze.Build_Report "values.yaml" 1 [sample_finding] in
   let p := mkPage "values.yaml" 1 [sample_finding] "https://optiqor.dev/r/abc" demo_from in
   bool_decide (writeHTMLReport demo_from r = share_page demo_from p) = false) ∧
  (∃ signed page, @Sign tag_signatures (mkIssuer "k1" demo_priv) demo_receipt = Ok signed ∧
     @VerifyPage tag_signatures {["rcpt-1" := (signed, tampered)]} (Some (static {["k1" := str_take 32 demo_priv]})) "GET" "rcpt-1" = Ok (200, page) ∧
     str_contains page "signature verified" = true ∧ str_contains page "$999,999.00" = true ∧ str_contains page "<script" = false).
Proof.
  split; [vm_compute; reflexivity|]. split; [vm_compute; reflexivity|].
  eexists _, _. split; [vm_compute; reflexivity|]. split; [vm_compute; reflexivity|]. vm_compute. auto.
Qed.
