(* ===== verification/Preview.v ===== *)
(** The endpoints around the composer and the cost-spike workflow: POST /v1/apply-fixes
    (backend/internal/prwriter/handler.go) previews the pull-request comment of a fix, POST
    /v1/cost-spikes (backend/internal/billing/spike_handler.go) accepts an anomaly, and the
    workflows cost_spike and echo (backend/internal/worker/workflows) handle one. *)

From Stdlib Require Import Ascii.
From S2P Require Import Prelude GoNum GoStr Lines Utf8 GoTime Rfc3339 Json JsonOut JsonTree Tenancy Rules Sanitizer PrComment Composer Config Ingest Receipts Http.
Local Open Scope Z_scope.

(** ** Reading requests *)

Definition assign_float (v : json) (old : float64) : option float64 :=
  match v with JNull => Some old | JNum lit => parse_float lit | _ => None end.

(** [rules.Signal], behind a pointer, and [rules.Finding], which has no tags. *)
Definition zero_signal : Signal := Build_Signal "" (f_zero false) (f_zero false) "" "" "".
Definition assign_signal (name : string) (v : json) (s : Signal) : option Signal :=
  let 'Build_Signal la ha wa hd wd no := s in
  if String.eqb name "label" then option_map (λ x, Build_Signal x ha wa hd wd no) (assign_string v la)
  else if String.eqb name "have" then option_map (λ x, Build_Signal la x wa hd wd no) (assign_float v ha)
  else if String.eqb name "want" then option_map (λ x, Build_Signal la ha x hd wd no) (assign_float v wa)
  else if String.eqb name "have_display" then option_map (λ x, Build_Signal la ha wa x wd no) (assign_string v hd)
  else if String.eqb name "want_display" then option_map (λ x, Build_Signal la ha wa hd x no) (assign_string v wd)
  else option_map (Build_Signal la ha wa hd wd) (assign_string v no).
Definition assign_signal_pointer (v : json) (s : option Signal) : option (option Signal) :=
  match v with
  | JNull => Some None
  | _ => option_map Some (into_struct ["label"; "have"; "want"; "have_display"; "want_display"; "note"] assign_signal true v (default zero_signal s))
  end.

Definition zero_finding : Finding := Build_Finding "" "" "" "" 0 "" "" "" None.
Definition finding_names : list string :=
  ["DetectorID"; "Workload"; "Title"; "Detail"; "MonthlyUSDCents"; "Severity"; "Confidence"; "Category"; "Signal"].
Definition assign_finding (name : string) (v : json) (f : Finding) : option Finding :=
  let 'Build_Finding id wl ti de m se co ca si := f in
  if String.eqb name "DetectorID" then option_map (λ x, Build_Finding x wl ti de m se co ca si) (assign_string v id)
  else if String.eqb name "Workload" then option_map (λ x, Build_Finding id x ti de m se co ca si) (assign_string v wl)
  else if String.eqb name "Title" then option_map (λ x, Build_Finding id wl x de m se co ca si) (assign_string v ti)
  else if String.eqb name "Detail" then option_map (λ x, Build_Finding id wl ti x m se co ca si) (assign_string v de)
  else if String.eqb name "MonthlyUSDCents" then option_map (λ x, Build_Finding id wl ti de x se co ca si) (assign_int64 v m)
  else if String.eqb name "Severity" then option_map (λ x, Build_Finding id wl ti de m x co ca si) (assign_string v se)
  else if String.eqb name "Confidence" then option_map (λ x, Build_Finding id wl ti de m se x ca si) (assign_string v co)
  else if String.eqb name "Category" then option_map (λ x, Build_Finding id wl ti de m se co x si) (assign_string v ca)
  else option_map (Build_Finding id wl ti de m se co ca) (assign_signal_pointer v si).

Record PreviewRequest := mkPreview {
  PChart : string; PWorkload : string; PChartYAML : string; PModel : string; PFinding : Finding }.
Definition assign_preview (name : string) (v : json) (r : PreviewRequest) : option PreviewRequest :=
  let 'mkPreview ch wl ya mo fi := r in
  if String.eqb name "chart" then option_map (λ x, mkPreview x wl ya mo fi) (assign_string v ch)
  else if String.eqb name "workload" then option_map (λ x, mkPreview ch x ya mo fi) (assign_string v wl)
  else if String.eqb name "chart_yaml" then option_map (λ x, mkPreview ch wl x mo fi) (assign_string v ya)
  else if String.eqb name "model" then option_map (λ x, mkPreview ch wl ya x fi) (assign_string v mo)
  else option_map (mkPreview ch wl ya mo) (into_struct finding_names assign_finding true v fi).
Definition read_preview (body : string) : option PreviewRequest :=
  match decode_first body with
  | Some v => into_struct ["chart"; "workload"; "chart_yaml"; "model"; "finding"] assign_preview true v (mkPreview "" "" "" "" zero_finding)
  | None => None
  end.

(** ** Answers *)

Definition http_MethodNotAllowed (c : context) (method allowed : string) : list action :=
  SetHeader "Allow" allowed :: http_Write c 405 "METHOD_NOT_ALLOWED" ("method " +:+ method +:+ " not allowed; expected " +:+ allowed).
Definition http_Upstream (c : context) (msg : string) : list action := http_Write c 502 "UPSTREAM_ERROR" msg.

(** [json_error] is the text of the decoder's error, without its prefix. *)
Definition http_InvalidJSON (c : context) (json_error : string) : list action :=
  http_Write c 400 "INVALID_JSON" ("request body is not valid JSON: " +:+ json_error).

Definition encoded (v : jvalue) : string := from_option (λ s, s) "" (marshal v) +:+ newline.

Definition strings_json (l : list string) : jvalue := match l with [] => ONull | _ => OArr (map OText l) end.
Definition preview_json (md : string) (fix_ : FixResponse) : jvalue :=
  OObj [("markdown_body", OText md); ("unified_diff", OText (Composer.UnifiedDiff fix_)); ("explanation", OText (Explanation fix_));
        ("sanitizer", OObj [("reasons", strings_json (Reasons (Sanitised fix_))); ("suspicious", OBool (Suspicious (Sanitised fix_)));
                            ("truncated", OBool (Truncated (Sanitised fix_)))])].

(** ** POST /v1/apply-fixes *)

Definition preview_comment (t : TenantContext) (r : PreviewRequest) (fix_ : FixResponse) : Comment :=
  mkComment (PChart r) (TenantID t) 1 [PFinding r] (MonthlyUSDCents (PFinding r)) (i64_mul (MonthlyUSDCents (PFinding r)) 12)
    ModeAgent 0 "" "" (Composer.UnifiedDiff fix_) (Explanation fix_) "" (String.eqb (FCategory (PFinding r)) CategorySecurity).

Definition fix_request (r : PreviewRequest) : FixRequest :=
  mkFixRequest (PFinding r) (PChartYAML r) (PModel r) (PWorkload r) "".

Section Endpoints.
Context {D : Type} (json_error : string → string).

(** [record] is what the calls of the composer leave behind. *)
Definition Preview (sha256 : string → string) (ms now : Z) (composer : option Composer) (record : list event → D → D) : handler D := λ c req w,
  if negb (String.eqb (ReqMethod req) "POST") then (http_MethodNotAllowed c (ReqMethod req) "POST", w, None)
  else match composer with
  | None => (http_Internal c "Apply Fix is not configured on this api node", w, None)
  | Some composer =>
      match FromContext (CtxTenant c) with
      | Err _ => (http_Unauthorized c "tenant context required to preview an Apply Fix", w, None)
      | Ok t =>
          match ReqBody req with
          | Err TooLarge => (http_BodyTooLarge c PRApplyFixMaxBytes, w, None)
          | Err NotJSON => (http_InvalidJSON c (json_error ""), w, None)
          | Ok body =>
              match read_preview body with
              | None => (http_InvalidJSON c (json_error body), w, None)
              | Some r =>
                  if String.eqb (PChart r) "" then (http_MissingField c "chart", w, None)
                  else if String.eqb (PChartYAML r) "" then (http_MissingField c "chart_yaml", w, None)
                  else
                    let '(fix_, events) := GenerateFix sha256 ms composer t (fix_request r) in
                    let w := mkWorld (record events (dom w)) (log w) (http_requests w) (durations w) in
                    match fix_ with
                    | Err (Composer.ErrBudgetExceeded _ _) =>
                        (WriteWithDetails c 402 "BUDGET_EXCEEDED" "Apply Fix would exceed the per-call cost cap" [("per_call_cents", OInt 40)], w, None)
                    | Err _ => (http_Upstream c "LLM did not return a usable fix", w, None)
                    | Ok fix_ =>
                        match Render now (preview_comment t r fix_) with
                        | Err _ => (http_Internal c "could not render PR comment", w, None)
                        | Ok md => ([SetHeader "Content-Type" "application/json"; Write (encoded (preview_json md fix_))], w, None)
                        end
                    end
              end
          end
      end
  end.

(** ** POST /v1/cost-spikes *)

Record SpikeEnvelope := mkSpike {
  STenant : string; SWorkloadID : string; SObservedDeltaUSD : float64; SObservedAtUTC : Z;
  SLikelyPRCommitSHA : string; SLikelyPRURL : string }.
Definition assign_spike (name : string) (v : json) (s : SpikeEnvelope) : option SpikeEnvelope :=
  let 'mkSpike te wl de ob sh ur := s in
  if String.eqb name "tenant" then option_map (λ x, mkSpike x wl de ob sh ur) (assign_string v te)
  else if String.eqb name "workload_id" then option_map (λ x, mkSpike te x de ob sh ur) (assign_string v wl)
  else if String.eqb name "observed_delta_usd" then option_map (λ x, mkSpike te wl x ob sh ur) (assign_float v de)
  else if String.eqb name "observed_at_utc" then option_map (λ x, mkSpike te wl de x sh ur) (assign_time v ob)
  else if String.eqb name "likely_pr_commit_sha" then option_map (λ x, mkSpike te wl de ob x ur) (assign_string v sh)
  else option_map (mkSpike te wl de ob sh) (assign_string v ur).
Definition read_spike (body : string) : option SpikeEnvelope :=
  match decode_first body with
  | Some v => into_struct ["tenant"; "workload_id"; "observed_delta_usd"; "observed_at_utc"; "likely_pr_commit_sha"; "likely_pr_url"]
      assign_spike true v (mkSpike "" "" (f_zero false) 0 "" "")
  | None => None
  end.

(** The dispatcher: whether it takes the event, and what is left of it. *)
Definition Receive (dispatch : option (TenantContext → SpikeEnvelope → D → bool * D)) : handler D := λ c req w,
  if negb (String.eqb (ReqMethod req) "POST") then (http_MethodNotAllowed c (ReqMethod req) "POST", w, None)
  else match dispatch with
  | None => (http_Internal c "cost-spike dispatcher not configured", w, None)
  | Some dispatch =>
      match ReqBody req with
      | Err TooLarge => (http_BodyTooLarge c BillingSpikeWebhookMaxBytes, w, None)
      | Err NotJSON => (http_InvalidJSON c (json_error ""), w, None)
      | Ok body =>
          match read_spike body with
          | None => (http_InvalidJSON c (json_error body), w, None)
          | Some env =>
              if String.eqb (STenant env) "" then (http_MissingField c "tenant", w, None)
              else if String.eqb (SWorkloadID env) "" then (http_MissingField c "workload_id", w, None)
              else
                let '(ok, d) := dispatch (mkTenant (STenant env) "" "" "") env (dom w) in
                let w := mkWorld d (log w) (http_requests w) (durations w) in
                if (ok : bool) then
                  ([SetHeader "Retry-After" "5"; SetHeader "Content-Type" "application/json"; WriteHeader 202;
                    Write (encoded (OObj [("retry_after_seconds", OInt 5); ("status", OText "accepted"); ("workflow", OText "cost_spike")]))], w, None)
                else (http_Upstream c "could not dispatch cost-spike workflow", w, None)
          end
      end
  end.
End Endpoints.

(** ** The workflow cost_spike *)

Record SpikeEvent := mkSpikeEvent {
  EWorkloadID : string; EObservedDeltaUSD : float64; EObservedAt : Z; ELikelyPRCommitSHA : string; ELikelyPRURL : string }.
Record CostSpikePayload := mkSpikePayload { PayEvent : SpikeEvent; MinDeltaThreshold : float64 }.
Definition assign_payload (name : string) (v : json) (p : CostSpikePayload) : option CostSpikePayload :=
  let 'mkSpikePayload (mkSpikeEvent wl de ob sh ur) th := p in
  if String.eqb name "workload_id" then option_map (λ x, mkSpikePayload (mkSpikeEvent x de ob sh ur) th) (assign_string v wl)
  else if String.eqb name "observed_delta_usd" then option_map (λ x, mkSpikePayload (mkSpikeEvent wl x ob sh ur) th) (assign_float v de)
  else if String.eqb name "observed_at" then option_map (λ x, mkSpikePayload (mkSpikeEvent wl de x sh ur) th) (assign_time v ob)
  else if String.eqb name "min_delta_threshold" then option_map (mkSpikePayload (PayEvent p)) (assign_float v th)
  else if String.eqb name "likely_pr_commit_sha" then option_map (λ x, mkSpikePayload (mkSpikeEvent wl de ob x ur) th) (assign_string v sh)
  else option_map (λ x, mkSpikePayload (mkSpikeEvent wl de ob sh x) th) (assign_string v ur).
Definition read_spike_payload (raw : string) : option CostSpikePayload :=
  match parse_document raw with
  | Some v => into_struct ["workload_id"; "observed_delta_usd"; "observed_at"; "min_delta_threshold"; "likely_pr_commit_sha"; "likely_pr_url"]
      assign_payload false v (mkSpikePayload (mkSpikeEvent "" (f_zero false) 0 "" "") (f_zero false))
  | None => None
  end.

Inductive spike_error := NilNotifier | SpikeDecode | NotifierFailed (e : string).

(** The result, and the notification if one was tried. *)
Definition CostSpike_Execute (notifier : option (TenantContext → SpikeEvent → option string)) (t : TenantContext) (raw : string) :
    result spike_error unit * option SpikeEvent :=
  match notifier with
  | None => (Err NilNotifier, None)
  | Some notify =>
      match read_spike_payload raw with
      | None => (Err SpikeDecode, None)
      | Some p =>
          if f_lt (EObservedDeltaUSD (PayEvent p)) (MinDeltaThreshold p) then (Ok tt, None)
          else (match notify t (PayEvent p) with Some e => Err (NotifierFailed e) | None => Ok tt end, Some (PayEvent p))
      end
  end.

(** ** The workflow echo: what it logs. *)
Definition Echo_Execute (t : TenantContext) (payload : string) : list (string * jvalue) :=
  [("tenant_id", OText (TenantID t)); ("workspace_id", OText (WorkspaceID t)); ("payload_len", OInt (Z.of_nat (String.length payload)))].

(** ** What the endpoints answer *)

Definition status_of (acts : list action) : Z := RStatus (finish (run_actions new_response acts)).

Lemma envelope_status c status code msg details : status_of (WriteWithDetails c status code msg details) = status.
Proof. unfold status_of, WriteWithDetails. set (e := _ +:+ newline). clearbody e. by destruct (String.eqb (CtxRequestID c) ""). Qed.

Lemma strings_json_whole l : whole (strings_json l) = true ∧ (height (strings_json l) <= 1)%nat.
Proof.
  destruct l as [|s l]; [split; [done|cbn; lia]|]. unfold strings_json. cbn [whole height].
  assert (forallb whole (map OText (s :: l)) = true ∧ list_max (map height (map OText (s :: l))) = 0%nat) as [-> ->]; [|split; [done|lia]].
  induction (s :: l) as [|x l' [IH1 IH2]]; [done|]. cbn [map forallb whole height andb]. split; [done|].
  change (Nat.max 0 (list_max (map height (map OText l'))) = 0%nat). by rewrite IH2.
Qed.

Lemma preview_json_whole md fix_ : whole (preview_json md fix_) = true ∧ (height (preview_json md fix_) <= 3)%nat.
Proof.
  destruct (strings_json_whole (Reasons (Sanitised fix_))) as [Hw Hh]. unfold preview_json.
  generalize dependent (strings_json (Reasons (Sanitised fix_))). intros j Hw Hh.
  cbn [whole height forallb map snd andb]. rewrite Hw. split; [done|]. unfold list_max. cbn [fold_right]. lia.
Qed.

Lemma encoded_read md fix_ : ∃ doc, encoded (preview_json md fix_) = doc +:+ newline ∧ parse_document doc = Some (tree (preview_json md fix_)).
Proof.
  destruct (preview_json_whole md fix_) as [Hw Hh].
  destruct (marshal_roundtrip _ Hw) as (doc & Hm & Hp & _); [unfold maxNestingDepth; lia|].
  exists doc. unfold encoded. by rewrite Hm.
Qed.

(** The request the composer is asked to serve, if the endpoint gets that far. *)
Definition asked (composer : option Composer) (c : context) (req : http_request) : option (Composer * TenantContext * PreviewRequest) :=
  match composer, FromContext (CtxTenant c), ReqBody req with
  | Some composer, Ok t, Ok body =>
      match read_preview body with
      | Some r => if negb (String.eqb (ReqMethod req) "POST") || String.eqb (PChart r) "" || String.eqb (PChartYAML r) "" then None
                  else Some (composer, t, r)
      | None => None
      end
  | _, _, _ => None
  end.


(** A chart between the sanitizer's cap and the endpoint's is answered as if the model had
    failed, and no model was asked. *)
Lemma preview_large_chart {D} json_error sha256 ms now composer (record : list event → D → D) c req w t r llm :
  asked (Some composer) c req = Some (composer, t, r) → LLM composer = Some llm → TenantID t ≠ "" →
  DefaultMaxTotalLen < Z.of_nat (String.length (PChartYAML r)) →
  let run := Preview json_error sha256 ms now (Some composer) record c req w in
  status_of run.1.1 = 502 ∧ dom run.1.2 = record [] (dom w).
Proof.
  unfold asked, Preview. intros Ha Hllm Ht Hlen. destruct (FromContext (CtxTenant c)) as [t'|]; [|done].
  destruct (ReqBody req) as [body|]; [|done]. destruct (read_preview body) as [r'|]; [|done].
  destruct (negb _); [done|]. destruct (String.eqb (PChart r') ""); [done|]. destruct (String.eqb (PChartYAML r') ""); [done|].
  cbn [orb] in Ha. injection Ha as -> ->. cbv zeta. unfold GenerateFix. rewrite Hllm.
  assert (TenantContext_Validate t = None) as -> by by apply validate_iff.
  unfold Sanitize. cbn [fix_request ChartYAML]. unfold total_limit. cbn [MaxTotalLen].
  change (0 <=? 0) with true. cbv iota. rewrite (proj2 (Z.ltb_lt _ _)) by done. cbn [fst snd dom]. split; [|done].
  unfold http_Upstream, http_Write. apply envelope_status.
Qed.

(** ** Spikes *)

(** Whoever posts an envelope that names a tenant and a workload has it dispatched under
    that tenant - no credential is looked at - and is told so; nothing else is dispatched. *)
Lemma spike_answers {D} (json_error : string → string) (dispatch : TenantContext → SpikeEnvelope → D → bool * D) c req w :
  let run := Receive json_error (Some dispatch) c req w in
  match ReqBody req with
  | Ok body =>
      match read_spike body with
      | Some env =>
          if String.eqb (ReqMethod req) "POST" && negb (String.eqb (STenant env) "") && negb (String.eqb (SWorkloadID env) "") then
            dom run.1.2 = (dispatch (mkTenant (STenant env) "" "" "") env (dom w)).2 ∧
            status_of run.1.1 = (if (dispatch (mkTenant (STenant env) "" "" "") env (dom w)).1 then 202 else 502)
          else run.1.2 = w
      | None => run.1.2 = w
      end
  | Err _ => run.1.2 = w
  end.
Proof.
  cbv zeta. unfold Receive. destruct (String.eqb (ReqMethod req) "POST"); cbn [negb andb].
  2: { destruct (ReqBody req) as [body|]; [|done]. by destruct (read_spike body). }
  destruct (ReqBody req) as [body|[]]; [|done..]. destruct (read_spike body) as [env|]; [|done].
  destruct (String.eqb (STenant env) ""); cbn [negb andb]; [done|].
  destruct (String.eqb (SWorkloadID env) ""); cbn [negb]; [done|].
  destruct (dispatch _ _ _) as [[] d]; cbn [fst snd dom]; (split; [done|]).
  - set (e := encoded _). clearbody e. done.
  - unfold http_Upstream, http_Write. apply envelope_status.
Qed.

(** The workflow notifies of what its payload says, once, unless the delta is below the
    threshold; without one every delta that is not negative is worth a notification. *)
Lemma cost_spike_notifies notify t raw p : read_spike_payload raw = Some p →
  (CostSpike_Execute (Some notify) t raw).2 =
    (if f_lt (EObservedDeltaUSD (PayEvent p)) (MinDeltaThreshold p) then None else Some (PayEvent p)).
Proof. intros Hr. unfold CostSpike_Execute. rewrite Hr. by destruct (f_lt _ _). Qed.

Definition q (s : string) : string := String quote_char (s +:+ String quote_char "").
Definition spike_text : string :=
  "{" +:+ q "workload_id" +:+ ":" +:+ q "web" +:+ "," +:+ q "observed_delta_usd" +:+ ":412.5," +:+
  q "observed_at" +:+ ":" +:+ q "2026-01-01T00:00:00Z" +:+ "," +:+ q "min_delta_threshold" +:+ ":".
Example spike_payloads :
  (CostSpike_Execute (Some (λ _ _, None)) (mkTenant "t" "" "" "") (spike_text +:+ "500}")) = (Ok tt, None) ∧
  (∃ e, CostSpike_Execute (Some (λ _ _, Some "boom")) (mkTenant "t" "" "" "") (spike_text +:+ "412.5}") = (Err (NotifierFailed "boom"), Some e) ∧
     EWorkloadID e = "web" ∧ Some (EObservedDeltaUSD e) = parse_float "412.5") ∧
  CostSpike_Execute (Some (λ _ _, None)) (mkTenant "t" "" "" "") (spike_text +:+ "1e400}") = (Err SpikeDecode, None).
Proof. split; [by vm_compute|]. split; [eexists; by vm_compute|by vm_compute]. Qed.
