(* ===== verification/Notify.v ===== *)
(** Slack notifications (backend/internal/notify/slack): what the messages say (render.go), and
    where and how they are posted (slack.go). The URL parser and the transport are parameters. *)

From Stdlib Require Import Ascii.
From S2P Require Import Prelude GoNum GoStr Lines Utf8 Json JsonOut JsonTree PrComment.
Local Open Scope Z_scope.

(** ** Messages *)

(** A block is its type and, behind a pointer, its text: the text's type and the text. *)
Record Text := mkText { TType : string; TText : string }.
Record Block := mkBlock { BType : string; BText : option Text }.
Record Payload := mkPayload { PText : string; Blocks : list Block }.

Definition header_block (s : string) : Block := mkBlock "header" (Some (mkText "plain_text" s)).
Definition section_block (s : string) : Block := mkBlock "section" (Some (mkText "mrkdwn" s)).

Record SFinding := mkSFinding { SFWorkload : string; SFTitle : string; SFMonthlyUSDCents : Z }.
Record DigestData := mkDigest {
  OpenApplyFixes : Z; MergedApplyFixes : Z; SavingsThisWeek : Z; TopFindings : list SFinding; DDashboardURL : string }.
Record WeeklyData := mkWeekly {
  MergedThisWeek : Z; ReceiptsIssued : Z; SavingsRealised : Z; WDashboardURL : string }.
Record SpikePayload := mkSpikeMessage {
  SPWorkload : string; SPObservedDeltaUSD : float64; SPLikelyPRURL : string; SPDashboardURL : string }.
Record ApplyFixDiff := mkApplyFixDiff {
  AWorkload : string; RepoSlug : string; PRNumber : Z; PRURL : string; ChartPath : string; AUnifiedDiff : string;
  AMonthlyUSDCents : Z; AnnualUSDCents : Z; AConfidence : string; BlastRadius : Z; DiffPreviewLines : Z; ADashboardURL : string }.

Definition slack_fmtUSD (cents : Z) : string :=
  if cents <=? 0 then "$0"
  else
    let dollars := Z.quot cents 100 in
    let c := Z.rem cents 100 in
    if c =? 0 then "$" +:+ itoa dollars else "$" +:+ itoa dollars +:+ "." +:+ fmt_02d c.

Definition link (url text : string) : string := "<" +:+ url +:+ "|" +:+ text +:+ ">".

Definition digest_line (f : SFinding) : string :=
  "• *" +:+ SFWorkload f +:+ "* — " +:+ SFTitle f +:+ " (save " +:+ slack_fmtUSD (SFMonthlyUSDCents f) +:+ "/mo)" +:+ nl.

Definition RenderDigest (d : DigestData) : Payload :=
  let top := foldr (λ f s, digest_line f +:+ s) "" (take 3 (TopFindings d)) in
  let top := if String.eqb top "" then "• _No new findings in the last 24h — chart is clean._" +:+ nl else top in
  mkPayload ("Optiqor daily — " +:+ itoa (OpenApplyFixes d) +:+ " open Apply Fixes, " +:+ slack_fmtUSD (SavingsThisWeek d) +:+ " saved this week")
    [header_block "Optiqor — daily digest";
     section_block ("*Open Apply Fixes:* " +:+ itoa (OpenApplyFixes d) +:+ "   ·   *Merged (7d):* " +:+ itoa (MergedApplyFixes d) +:+
       "   ·   *Saved this week:* " +:+ slack_fmtUSD (SavingsThisWeek d));
     section_block ("*Top findings*" +:+ nl +:+ top);
     section_block (link (DDashboardURL d) "Open dashboard →")].

Definition RenderWeekly (d : WeeklyData) : Payload :=
  mkPayload ("Optiqor weekly — " +:+ itoa (MergedThisWeek d) +:+ " merged, " +:+ slack_fmtUSD (SavingsRealised d) +:+ " realised")
    [header_block "Optiqor — weekly report";
     section_block ("*Apply Fixes merged this week:* " +:+ itoa (MergedThisWeek d) +:+ nl +:+ "*Receipts issued:* " +:+ itoa (ReceiptsIssued d) +:+ nl +:+
       "*Realised savings:* " +:+ slack_fmtUSD (SavingsRealised d));
     section_block (link (WDashboardURL d) "Open dashboard →")].

Definition maxWidth : nat := 80.
Definition defaultDiffPreviewLines : Z := 20.

(** A line past 80 bytes is cut to 79 and an ellipsis. *)
Definition preview_line (line : string) : string :=
  if (maxWidth <? String.length line)%nat then str_take (maxWidth - 1) line +:+ "…" else line.

Definition truncateDiff (diff : string) (maxLines : Z) : string :=
  if String.eqb diff "" then "(empty diff)"
  else
    let lines := split_byte Lines.newline diff in
    let limit := Z.min maxLines (Z.of_nat (length lines)) in
    let extra := Z.of_nat (length lines) - limit in
    join nl (map preview_line (take (Z.to_nat limit) lines)) +:+
    (if 0 <? extra then nl +:+ "(+" +:+ itoa extra +:+ " more lines — open PR for the full diff)" else "").

Definition preview_lines (d : ApplyFixDiff) : Z := if DiffPreviewLines d <=? 0 then defaultDiffPreviewLines else DiffPreviewLines d.
Definition fence : string := str_repeat backtick 3.

Definition RenderApplyFixDiff (d : ApplyFixDiff) : Payload :=
  let confidence := if String.eqb (AConfidence d) "" then "unset" else AConfidence d in
  let blast := if 0 <? BlastRadius d then itoa (BlastRadius d) +:+ "/5" else "—" in
  let header := "Apply Fix · " +:+ AWorkload d +:+ " · save " +:+ slack_fmtUSD (AMonthlyUSDCents d) +:+ "/mo" in
  mkPayload header
    [header_block header;
     section_block ("*Repo:* `" +:+ RepoSlug d +:+ "`#" +:+ itoa (PRNumber d) +:+ nl +:+ "*Chart:* `" +:+ ChartPath d +:+ "`" +:+ nl +:+
       "*Monthly:* " +:+ slack_fmtUSD (AMonthlyUSDCents d) +:+ "   ·   *Annual:* " +:+ slack_fmtUSD (AnnualUSDCents d) +:+ nl +:+
       "*Confidence:* " +:+ confidence +:+ "   ·   *Blast radius:* " +:+ blast);
     section_block (fence +:+ nl +:+ truncateDiff (AUnifiedDiff d) (preview_lines d) +:+ nl +:+ fence);
     section_block (link (PRURL d) "Open PR →" +:+ (if String.eqb (ADashboardURL d) "" then "" else "   ·   " +:+ link (ADashboardURL d) "Dashboard"))].

Definition RenderSpike (p : SpikePayload) : Payload :=
  let prLink := if String.eqb (SPLikelyPRURL p) "" then "_no PR matched_" else link (SPLikelyPRURL p) "likely PR" in
  let delta := fmt_fixed 0 (SPObservedDeltaUSD p) in
  mkPayload ("Optiqor cost spike — " +:+ SPWorkload p +:+ " +$" +:+ delta +:+ " (24h)")
    [header_block "Optiqor — cost spike";
     section_block ("*Workload:* `" +:+ SPWorkload p +:+ "`" +:+ nl +:+ "*Observed delta (24h):* *$" +:+ delta +:+ "*" +:+ nl +:+
       "*Likely cause:* " +:+ prLink);
     section_block (link (SPDashboardURL p) "Open dashboard →")].

(** ** Posting *)

Definition MaxBody : Z := 32 * 1024.

Definition text_json (t : Text) : jvalue := OObj [("type", OText (TType t)); ("text", OText (TText t))].
Definition block_json (b : Block) : jvalue :=
  OObj ([("type", OText (BType b))] ++ match BText b with Some t => [("text", text_json t)] | None => [] end).
Definition payload_json (p : Payload) : jvalue :=
  OObj ([("text", OText (PText p))] ++ match Blocks p with [] => [] | l => [("blocks", OArr (map block_json l))] end).

(** What the code reads of a parsed URL. *)
Record url := mkUrl { UScheme : string; UHost : string; UPath : string }.

Inductive slack_error := EmptyURL | BadURL | NotHTTPS | WrongHost | WrongPath | TooBig (n : Z) | NewRequestFailed | DoFailed
  | Refused (status : Z) (short : string).

Section Post.
(** [url.Parse]; the transport, given address and body. *)
Context (parse : string → option url).

Definition ValidateWebhookURL (raw : string) : option slack_error :=
  if String.eqb raw "" then Some EmptyURL
  else match parse raw with
  | None => Some BadURL
  | Some u =>
      if negb (String.eqb (UScheme u) "https") then Some NotHTTPS
      else if negb (bool_decide (fold_name (UHost u) = fold_name "hooks.slack.com")) then Some WrongHost
      else if negb (has_prefix (UPath u) "/services/") then Some WrongPath
      else None
  end.

Inductive posted := PNoRequest | PNoAnswer | PAnswer (status : Z) (body : string).

(** The error, and the request if one was made. *)
Definition PostWebhook (send : string → string → posted) (webhookURL : string) (p : Payload) : option slack_error * option (string * string) :=
  match ValidateWebhookURL webhookURL with
  | Some e => (Some e, None)
  | None =>
      let body := from_option (λ s, s) "" (marshal (payload_json p)) in
      if MaxBody <? Z.of_nat (String.length body) then (Some (TooBig (Z.of_nat (String.length body))), None)
      else match send webhookURL body with
      | PNoRequest => (Some NewRequestFailed, None)
      | PNoAnswer => (Some DoFailed, Some (webhookURL, body))
      | PAnswer status answer =>
          ((if negb (Z.quot status 100 =? 2) then Some (Refused status (trim_space (str_take 512 answer))) else None), Some (webhookURL, body))
      end
  end.
End Post.

(** ** Where a message goes and what arrives *)

Lemma payload_whole p : whole (payload_json p) = true ∧ (height (payload_json p) <= 4)%nat.
Proof.
  assert (∀ b, whole (block_json b) = true ∧ (height (block_json b) <= 2)%nat) as Hb by (intros [t [[]|]]; cbn; split; [done|lia|done|lia]).
  assert (∀ l, forallb whole (map block_json l) = true ∧ (list_max (map height (map block_json l)) <= 2)%nat) as Hl.
  { induction l as [|b l [IH1 IH2]]; [cbn; split; [done|lia]|]. destruct (Hb b) as [H1 H2]. cbn [map forallb]. rewrite H1, IH1. split; [done|].
    change (Nat.max (height (block_json b)) (list_max (map height (map block_json l))) <= 2)%nat. lia. }
  unfold payload_json. destruct (Blocks p) as [|b l]; [cbn; split; [done|lia]|]. destruct (Hl (b :: l)) as [H1 H2].
  generalize dependent (map block_json (b :: l)). intros js H1 H2. cbn [app whole height forallb map snd andb]. rewrite H1. split; [done|].
  unfold list_max in *. cbn [fold_right]. lia.
Qed.

(** A message is only ever posted to a Slack webhook over TLS, within the size cap, and what
    Slack reads is the message. *)
Lemma post_webhook_spec (parse : string → option url) send raw p : let run := PostWebhook parse send raw p in
  (∀ to_ body, run.2 = Some (to_, body) → to_ = raw ∧ Z.of_nat (String.length body) <= MaxBody ∧
     parse_document body = Some (tree (payload_json p)) ∧
     ∃ u, parse raw = Some u ∧ UScheme u = "https" ∧ fold_name (UHost u) = fold_name "hooks.slack.com" ∧
       ∃ rest, UPath u = "/services/" +:+ rest) ∧
  (run.1 = None → is_Some run.2).
Proof.
  destruct (payload_whole p) as [Hw Hh]. destruct (marshal_roundtrip _ Hw) as (doc & Hm & Hp & _); [unfold maxNestingDepth; lia|].
  cbv zeta. unfold PostWebhook, ValidateWebhookURL. rewrite Hm. cbn [from_option].
  destruct (String.eqb raw ""); [by split|]. destruct (parse raw) as [u|] eqn:Eu; [|by split].
  destruct (String.eqb_spec (UScheme u) "https") as [Hs|]; [|by split]. cbn [negb].
  destruct (bool_decide _) eqn:Eh; [|by split]. apply bool_decide_eq_true in Eh. cbn [negb].
  destruct (has_prefix (UPath u) "/services/") eqn:Epre; [|by split]. cbn [negb].
  destruct (Z.ltb_spec MaxBody (Z.of_nat (String.length doc))); [by split|].
  assert (∃ rest, UPath u = "/services/" +:+ rest) as Hrest.
  { unfold has_prefix in Epre. destruct (strip_prefix _ _) as [rest|] eqn:Es; [|done]. exists rest. by apply strip_prefix_Some in Es. }
  destruct (send raw doc) as [| |st an]; split; try done; try (by eexists); cbn [snd]; intros to_ body [= <- <-];
    (split; [done|]; split; [lia|]; split; [done|]; by exists u).
Qed.

(** The snippet is bounded whatever the diff: at most 82 bytes for a line, and a trailer. *)
Lemma preview_line_length l : (String.length (preview_line l) <= 82)%nat.
Proof.
  unfold preview_line, maxWidth. destruct (Nat.ltb_spec 80 (String.length l)); [|lia].
  rewrite slength_app, str_take_length. change (String.length "…") with 3%nat. lia.
Qed.

Lemma join_length ls n : Forall (λ l, (String.length l <= n)%nat) ls → (String.length (join nl ls) <= (n + 1) * length ls)%nat.
Proof.
  induction 1 as [|l ls Hl Hls IH]; [cbn; lia|]. destruct ls as [|l' ls]; [cbn [join length]; lia|].
  rewrite Lines.join_cons, !slength_app by done. change (String.length nl) with 1%nat. cbn [length] in *. lia.
Qed.

Lemma preview_bounded diff maxLines : 0 < maxLines →
  ∃ snippet trailer, truncateDiff diff maxLines = snippet +:+ trailer ∧
    Z.of_nat (String.length snippet) <= 83 * maxLines ∧
    (trailer = "" ∨ trailer = nl +:+ "(+" +:+ itoa (Z.of_nat (length (split_byte Lines.newline diff)) - maxLines) +:+
                       " more lines — open PR for the full diff)").
Proof.
  intros Hm. unfold truncateDiff. destruct (String.eqb diff "").
  { exists "(empty diff)", "". split; [done|]. split; [cbn; lia|by left]. }
  set (lines := split_byte _ diff). set (limit := Z.min maxLines (Z.of_nat (length lines))).
  eexists _, _. split; [reflexivity|]. split.
  - pose proof (join_length (map preview_line (take (Z.to_nat limit) lines)) 82
      ltac:(apply Forall_map, Forall_forall; intros; apply preview_line_length)) as H.
    rewrite length_map, length_take in H. unfold limit in *. lia.
  - destruct (Z.ltb_spec 0 (Z.of_nat (length lines) - limit)); [right|by left].
    by replace limit with maxLines in * by (unfold limit; lia).
Qed.

(** A short diff is shown line by line as it is. *)
Lemma short_diff_whole diff maxLines : diff ≠ "" → Z.of_nat (length (split_byte Lines.newline diff)) <= maxLines →
  Forall (λ l, (String.length l <= 80)%nat) (split_byte Lines.newline diff) → truncateDiff diff maxLines = diff.
Proof.
  intros Hd Hn Hl. unfold truncateDiff. rewrite (proj2 (String.eqb_neq _ _) Hd), Z.min_r, Z.sub_diag by done.
  rewrite Nat2Z.id, firstn_all. change (0 <? 0) with false. cbv iota. rewrite sapp_nil_r.
  rewrite (map_ext_in _ (λ l, l)), map_id; [apply join_split|].
  intros l Hin%list_elem_of_In. pose proof (proj1 (Forall_forall _ _) Hl l Hin) as H. cbv beta in H. unfold preview_line, maxWidth.
  by rewrite (proj2 (Nat.ltb_ge _ _)).
Qed.

(** Where the messages part from their comments: a fence in a diff ends the code block; a
    wide line is cut between the bytes of a character, which Slack then reads as U+FFFD; and
    a workload's name can mention the whole channel. *)
Definition fenced_diff : string := "@@ -1 +1 @@" +:+ nl +:+ fence +:+ nl +:+ "+a: 1".
Definition wide_line : string := str_repeat "é" 45.
Definition plain_diff (workload diff : string) : ApplyFixDiff := mkApplyFixDiff workload "acme/charts" 1 "u" "values.yaml" diff 0 0 "" 0 0 "".
Lemma slack_divergences :
  (∃ before after, option_map TText (BText (nth 2 (Blocks (RenderApplyFixDiff (plain_diff "web" fenced_diff))) (header_block ""))) =
     Some (fence +:+ before +:+ fence +:+ after +:+ fence) ∧ str_contains after "+a: 1" = true) ∧
  to_valid_utf8 wide_line = wide_line ∧ bool_decide (to_valid_utf8 (truncateDiff wide_line 20) = truncateDiff wide_line 20) = false ∧
  str_contains (digest_line (mkSFinding "<!channel>" "t" 100)) "<!channel>" = true.
Proof.
  split; [exists (nl +:+ "@@ -1 +1 @@" +:+ nl), (nl +:+ "+a: 1" +:+ nl); split; [vm_compute|]; reflexivity|]. split_and!; by vm_compute.
Qed.
