(* ===== verification/Worker.v ===== *)
(** The worker process (backend/cmd/worker/register.go, bindings.go and main.go), the tenant
    settings it reads (backend/internal/worker/workflows/tenant_settings_pg.go) and the
    adapter that hands workflows to Temporal (backend/internal/worker/temporal_adapter.go). *)

From Stdlib Require Import Ascii QArith.
From S2P Require Import Prelude GoNum GoStr Lines GoTime Helm Rules Tenancy Dispatcher Operators Gate Validator PrComment Composer Telemetry Receipts Rollback Onboarding JsonOut Anthropic Config ApplyFix Preview.
Local Open Scope Z_scope.

(** ** What the worker talks to *)

Definition nl : string := String Lines.newline "".

Definition noopLLM : LLMClient := λ _,
  (mkLLMResponse ("EXPLANATION:" +:+ nl +:+ "LLM not configured in this environment." +:+ nl +:+ "DIFF:" +:+ nl) 0 0 0 0 0 "noop", None).

(** [anthropic] builds the client of a configuration out of its transport. *)
Definition pickLLM (anthropic : Anthropic.Config → LLMClient) (cfg : Config) : LLMClient :=
  if String.eqb (AnthropicAPIKey cfg) "" then noopLLM
  else match New (Anthropic.mkConfig (AnthropicAPIKey cfg) "" "") with
       | Err _ => noopLLM
       | Ok c => anthropic c
       end.

(** The settings of a tenant: the database fails at one of its steps, or has a table with
    a flag per tenant. *)
Inductive settings_failure := SBegin | SBind | SScan.
Definition NoRows : string := "no rows in result set".
Definition SkepticModeDefault (pool : option (option settings_failure * gmap string bool)) (t : TenantContext) : result string bool :=
  match pool with
  | None => Err "worker/tenant_settings: nil pool"
  | Some (fails, tenants) =>
      match TenantContext_Validate t with
      | Some _ => Err "tenancy: missing tenant id"
      | None =>
          match TenantBindArgs t with
          | Err _ => Err "tenancy: missing tenant id"
          | Ok (BindTenant id | BindTenantWorkspace id _) =>
              match fails with
              | Some SBegin => Err "worker/tenant_settings: begin"
              | Some SBind => Err "worker/tenant_settings: bind"
              | Some SScan => Err "worker/tenant_settings: scan"
              | None => match tenants !! id with Some v => Ok v | None => Err NoRows end
              end
          end
      end
  end.

(** What the stand-ins for GitHub, Slack and the tables log. *)
Inductive said :=
| SaidEcho (fields : list (string * jvalue))
| SaidPR (tenant repo head apply_fix_id : string)
| SaidRollback (tenant apply_fix_id reason : string)
| SaidSpike (tenant : string) (ev : SpikeEvent)
| SaidNudge (ev : NudgeEvent)
| SaidReceipt (tenant receipt_id workload : string) (realised : Z).

Definition loggingPRPublisher (t : TenantContext) (pr : PullRequest) : option string * said :=
  (None, SaidPR (TenantID t) (RepoOwner pr +:+ "/" +:+ RepoName pr) (HeadBranch pr) (PRApplyFixID pr)).
Definition loggingRollbackInitiator (t : TenantContext) (id reason : string) : option string * said :=
  (None, SaidRollback (TenantID t) id reason).
Definition loggingSpikeNotifier (t : TenantContext) (ev : SpikeEvent) : option string * said := (None, SaidSpike (TenantID t) ev).
Definition loggingNudgeNotifier (ev : NudgeEvent) : option string * said := (None, SaidNudge ev).

(** The store of receipts: no check, whatever the id and the tenant. *)
Definition inMemoryReceiptStore_Save (m : gmap string (string * Receipt)) (t : TenantContext) (id signed : string) (r : Receipt) :
    gmap string (string * Receipt) * said :=
  (<[id := (signed, r)]> m, SaidReceipt (TenantID t) id (Workload r) (RealisedSavingsUSDCents r)).

(** ** The workflows *)

Inductive workflow := WEcho | WApplyFix (w : ApplyFix) | WReceiptIssue (issuer : Issuer) | WRollbackWatchdog | WCostSpike | WOnboardingNudge.

Definition workflow_Name (w : workflow) : string :=
  match w with
  | WEcho => "echo" | WApplyFix _ => "apply_fix" | WReceiptIssue _ => "receipt_issue"
  | WRollbackWatchdog => "rollback_watchdog" | WCostSpike => "cost_spike" | WOnboardingNudge => "onboarding_nudge"
  end.

Abbreviation pool := (option (option settings_failure * gmap string bool)).

Section Wiring.
Context `{!GoMapOrder} (yaml_any : string → option any) (yaml_map : string → option (list (string * any)))
  (anthropic : Anthropic.Config → LLMClient).

Definition gatePipeline : Policy * list Gate.Validator :=
  (SkeletonPolicy, [RenderValidator yaml_any; ConformValidator yaml_map []; DryrunValidator None; PostValidator yaml_map (f_const (1 # 2))]).

Definition validatorPipeline : option Pipeline :=
  (λ p, WithMetrics (WithLogger p (Some [])) (Some NewMetrics)) <$> NewPipeline Validator.Default.

Definition worker_composer (cfg : Config) (db : pool) : Composer :=
  mkComposer (Some (pickLLM anthropic cfg)) 40 (match db with Some _ => true | None => false end).

Definition worker_apply_fix (cfg : Config) (db : pool) (vp : Pipeline) : ApplyFix :=
  mkApplyFix (Some (worker_composer cfg db)) (Some gatePipeline) (Some vp) (Some (λ t pr, (loggingPRPublisher t pr).1)) true
    (match db with Some _ => Some (SkepticModeDefault db) | None => None end) None.

Definition bound (cfg : Config) (db : pool) (vp : Pipeline) (issuer : Issuer) : list workflow :=
  [WEcho; WApplyFix (worker_apply_fix cfg db vp); WReceiptIssue issuer; WRollbackWatchdog; WCostSpike; WOnboardingNudge].

Fixpoint register_all (d : InMemory) (ws : list workflow) : result worker_error (@InMemory workflow) :=
  match ws with
  | [] => Ok d
  | w :: ws => let* d' := Dispatcher.Register workflow_Name d (Some w) in register_all d' ws
  end.

Inductive register_error := KeyGen | NoValidators | LatencyPanic | BadBinding (e : worker_error).

(** [issuer] is the freshly made signer of receipts. *)
Definition registerWorkflows (d : InMemory) (cfg : Config) (db : pool) (reg : Telemetry.Registry) (issuer : result string Issuer) :
    result register_error (@InMemory workflow) :=
  match issuer with
  | Err _ => Err KeyGen
  | Ok issuer =>
      match validatorPipeline with
      | None => Err NoValidators
      | Some vp =>
          match NewRecorder reg with
          | None => Err LatencyPanic
          | Some _ => match register_all d (bound cfg db vp issuer) with Err e => Err (BadBinding e) | Ok d => Ok d end
          end
      end
  end.
End Wiring.

(** ** main *)

Inductive sentry := SentryOff | SentryFailed | SentryOn.
Definition initSentry (init : string → string → string → float64 → bool) (cfg : Config) : sentry :=
  if String.eqb (SentryDSN cfg) "" then SentryOff
  else
    let env := if String.eqb (SentryEnvironment cfg) "" then Env cfg else SentryEnvironment cfg in
    let rate := if f_le (SentrySampleRate cfg) (f_zero false) then f_of_Z 1 else SentrySampleRate cfg in
    if init (SentryDSN cfg) env (SentryRelease cfg) rate then SentryOn else SentryFailed.

Inductive pool_error := PoolNew | PoolPing.
Definition openPool {P} (connect : string → result pool_error P) (cfg : Config) : result pool_error (option P) :=
  if String.eqb (PostgresDSN cfg) "" then Ok None else let* p := connect (PostgresDSN cfg) in Ok (Some p).

(** The exit status; [register] and [drain] are the calls on the dispatcher. *)
Definition worker_run {P W} (showVersion : bool) (getenv : environment) (connect : string → result pool_error P)
    (register : Config → option P → result register_error W) (drain : W → Z → option worker_error) : Z :=
  if showVersion then 0
  else match Load getenv with
  | Err _ => 2
  | Ok cfg =>
      match openPool connect cfg with
      | Err _ => 1
      | Ok p =>
          match register cfg p with
          | Err _ => 1
          | Ok d => match drain d (ShutdownGrace cfg) with Some _ => 1 | None => 0 end
          end
      end
  end.

(** ** Jobs

    The process keeps the receipts, the onboarding states and the validator's metrics; a job
    is the execution of a registered workflow at a time. *)

Record process := mkProcess {
  receipts : gmap string (string * Receipt); onboarding : Onboarding.store; output : list said }.

Definition NewProcess : process := mkProcess ∅ ∅ [].

Section Jobs.
Context `{!GoPlatform, !GoSort, !Signatures} (yaml_parse : string → option Node) (sha256 : string → string) (ms : Z)
  (read_apply_fix : string → result string ApplyFixPayload) (read_rollback : string → result string RollbackWatchdogPayload)
  (read_nudge : string → result string OnboardingNudgePayload).

(** [inMemoryOnboardingSource.Get]: asking for an unknown tenant creates its state. *)
Definition source_Get (now : Z) (p : process) (tenantID : string) : process * result string Onboarding.State :=
  let '(st, r) := Service_Get now (onboarding p) tenantID in
  (mkProcess (receipts p) st (output p), match r with Ok s => Ok s | Err _ => Err "onboarding: load" end).

Definition say (p : process) (l : list said) : process := mkProcess (receipts p) (onboarding p) (output p ++ l).

Definition run_apply_fix (now : Z) (w : ApplyFix) (t : TenantContext) (raw : string) (p : process) : process * bool :=
  let r := ApplyFix.Execute yaml_parse sha256 ms now w t (read_apply_fix raw) in
  (say p (map (λ tp, (loggingPRPublisher tp.1 tp.2).2) (publications r.1)), is_ok r.2).

Definition run_receipt (now : Z) (issuer : Issuer) (t : TenantContext) (raw : string) (p : process) : process * bool :=
  match read_payload raw with
  | None => (p, false)
  | Some r =>
      let r := issued_at r now in
      match Receipts.Sign issuer r with
      | Err _ => (p, false)
      | Ok signed =>
          let '(m, line) := inMemoryReceiptStore_Save (receipts p) t (ID r) signed r in
          (say (mkProcess m (onboarding p) (output p)) [line], true)
      end
  end.

Definition run_rollback (now : Z) (t : TenantContext) (raw : string) (p : process) : process * bool :=
  let '(opened, e) := Rollback.Execute (Some (λ t id reason, (loggingRollbackInitiator t id reason).1)) now t (read_rollback raw) in
  (say p (map (λ o, (loggingRollbackInitiator t o.1 o.2).2) opened), match e with None => true | Some _ => false end).

Definition run_spike (t : TenantContext) (raw : string) (p : process) : process * bool :=
  let '(r, ev) := CostSpike_Execute (Some (λ t ev, (loggingSpikeNotifier t ev).1)) t raw in
  (say p (match ev with Some ev => [(loggingSpikeNotifier t ev).2] | None => [] end), is_ok r).

(** The source is asked only when the payload decodes. *)
Definition run_nudge (now : Z) (t : TenantContext) (raw : string) (p : process) : process * bool :=
  let '(p', st) := source_Get now p (TenantID t) in
  let p := match read_nudge raw with Ok _ => p' | Err _ => p end in
  let '(sent, e) := Nudge_Execute (Some (λ _, st)) (Some (λ ev, (loggingNudgeNotifier ev).1)) now t (read_nudge raw) in
  (say p (map (λ ev, (loggingNudgeNotifier ev).2) sent), match e with None => true | Some _ => false end).

Definition run_workflow (now : Z) (w : workflow) (t : TenantContext) (raw : string) (p : process) : process * bool :=
  match w with
  | WEcho => (say p [SaidEcho (Echo_Execute t raw)], true)
  | WApplyFix w => run_apply_fix now w t raw p
  | WReceiptIssue issuer => run_receipt now issuer t raw p
  | WRollbackWatchdog => run_rollback now t raw p
  | WCostSpike => run_spike t raw p
  | WOnboardingNudge => run_nudge now t raw p
  end.

Record job := mkJob { JAt : Z; JName : string; JTenant : TenantContext; JPayload : string }.

(** A job of an unknown name never starts. *)
Definition serve (d : @InMemory workflow) (p : process) (j : job) : process :=
  match workflows d !! JName j with
  | Some w => (run_workflow (JAt j) w (JTenant j) (JPayload j) p).1
  | None => p
  end.
Definition serve_all (d : @InMemory workflow) (jobs : list job) : process := foldl (serve d) NewProcess jobs.
End Jobs.

(** ** Registration *)

Lemma register_steps_total `{!GoMapOrder} steps : ∀ r rec, ∃ x, register_steps steps r rec = Some x.
Proof.
  induction steps as [|s steps IH]; intros r rec; [by eexists|]. cbn [register_steps]. unfold NewHistogram.
  replace (ascending Buckets) with true by (by vm_compute). cbn [negb].
  by destruct (Telemetry.histograms r !! _); apply IH.
Qed.

Lemma workflow_Name_nonempty w : workflow_Name w ≠ "".
Proof. by destruct w. Qed.

(** The entry of a name among workflows of different names. *)
Definition named (ws : list workflow) (n : string) : option workflow := List.find (λ w, String.eqb (workflow_Name w) n) ws.

Lemma named_None ws n : named ws n = None ↔ n ∉ map workflow_Name ws.
Proof.
  unfold named. rewrite find_none_forall, Forall_forall. split.
  - intros H (w & -> & Hw)%list_elem_of_fmap. specialize (H w Hw). cbn in H. by rewrite String.eqb_refl in H.
  - intros H w Hw. apply String.eqb_neq. intros <-. apply H. by apply list_elem_of_fmap_2.
Qed.

Lemma register_all_fresh ws : ∀ d, NoDup (map workflow_Name ws) →
  (∀ n, n ∈ map workflow_Name ws → workflows d !! n = None) →
  ∃ d', register_all d ws = Ok d' ∧ draining d' = draining d ∧ wg d' = wg d ∧
    ∀ n, workflows d' !! n = match named ws n with Some w => Some w | None => workflows d !! n end.
Proof.
  induction ws as [|w ws IH]; intros d Hnd Hfresh; [by exists d|].
  cbn [map] in Hnd, Hfresh. apply NoDup_cons in Hnd as [Hw Hnd]. cbn [register_all]. unfold Dispatcher.Register, string_eqb.
  destruct (String.eqb_spec (workflow_Name w) ""); [by destruct (workflow_Name_nonempty w)|].
  rewrite Hfresh by left. cbn [rbind].
  destruct (IH (mkInMemory (<[workflow_Name w := w]> (workflows d)) (draining d) (wg d)) Hnd) as (d' & He & Hd & Hg & Hl).
  { intros n' Hn'. cbn [workflows]. rewrite lookup_insert_ne by (intros <-; done). apply Hfresh. by right. }
  exists d'. split_and!; [done..|]. intros n'. rewrite Hl. cbn [workflows]. unfold named. cbn [List.find].
  destruct (String.eqb_spec (workflow_Name w) n') as [<-|Hne].
  - apply named_None in Hw. unfold named in Hw. by rewrite Hw, lookup_insert_eq.
  - by rewrite lookup_insert_ne.
Qed.

(** ** What the jobs of a registered worker do *)

(** The tenant's row says that it does not want skeptic runs. *)
Definition opted_out (db : pool) (tenant : string) : Prop := ∃ tenants, db = Some (None, tenants) ∧ tenants !! tenant = Some false.

Section Contract.
Context `{!GoPlatform, !GoSort, !GoMapOrder, !Signatures} (yaml_any : string → option any) (yaml_map : string → option (list (string * any)))
  (anthropic : Anthropic.Config → LLMClient) (yaml_parse : string → option Node) (sha256 : string → string) (ms : Z)
  (read_apply_fix : string → result string ApplyFixPayload) (read_rollback : string → result string RollbackWatchdogPayload)
  (read_nudge : string → result string OnboardingNudgePayload) (cfg : Config) (db : pool) (issuer : Issuer).

Abbreviation run := (run_workflow yaml_parse sha256 ms read_apply_fix read_rollback read_nudge).
Abbreviation process_of d := (serve_all yaml_parse sha256 ms read_apply_fix read_rollback read_nudge d).
Abbreviation registered d := (registerWorkflows yaml_any yaml_map anthropic NewInMemory cfg db NewRegistry (Ok issuer) = Ok d).

Lemma skeptic_setting vp t : effective_skeptic (worker_apply_fix yaml_any yaml_map anthropic cfg db vp) t = false → opted_out db (TenantID t).
Proof.
  unfold effective_skeptic, worker_apply_fix. cbn [TenantSettings SkepticMode]. destruct db as [[fails tenants]|]; [|done].
  unfold SkepticModeDefault, TenantBindArgs. destruct (TenantContext_Validate t); [done|]. intros Hf. exists tenants.
  destruct fails as [[]|]; try (by destruct (String.eqb (WorkspaceID t) "")).
  destruct (String.eqb (WorkspaceID t) ""), (tenants !! TenantID t) as [[]|]; done.
Qed.

(** With no client for the dry run its stage does not pass, so a skeptic run publishes
    nothing, and fails. *)
Lemma skeptic_publishes_nothing wall vp t raw :
  let w := worker_apply_fix yaml_any yaml_map anthropic cfg db vp in
  let r := ApplyFix.Execute yaml_parse sha256 ms wall w t raw in
  (publications r.1 = [] ∧ is_ok r.2 = false) ∨ ∃ pr, publications r.1 = [(t, pr)] ∧ opted_out db (TenantID t).
Proof.
  intros w r. subst r. unfold ApplyFix.Execute. cbn [fst snd]. unfold publications. rewrite omap_app. fold (publications (body yaml_parse sha256 ms wall w t raw).1).
  pose proof (body_outcome yaml_parse sha256 ms wall w t raw) as Ho. cbv zeta in Ho. unfold outcome in Ho. cbn [omap list_omap publication].
  destruct Ho as [[e [= Hp Hr]]|(pr & publisher & Hpub & Has & Ho)].
  { left. rewrite Hp, Hr. done. }
  right. exists pr. injection Ho as Hp Hr. rewrite Hp. split; [done|].
  destruct (effective_skeptic w t) eqn:Hs; [|by eapply skeptic_setting].
  destruct Has as (p & composer & gate & publisher' & ws & resp & text & _ & _ & Hg & _ & _ & _ & _ & _ & _ & Hgate & _).
  cbn [w worker_apply_fix AGate] in Hg. injection Hg as <-. rewrite Hs in Hgate. unfold gate_cleared in Hgate. cbn [gatePipeline snd] in Hgate.
  rewrite Forall_forall in Hgate. destruct (Hgate (DryrunValidator None)) as [_ Hp']; [by right; right; left|].
  specialize (Hp' eq_refl). discriminate Hp'.
Qed.

(** The jobs so far that asked about the onboarding of a tenant. *)
Definition asked_at (jobs : list job) (tenant : string) (t : Z) : Prop :=
  ∃ j, j ∈ jobs ∧ JName j = "onboarding_nudge" ∧ TenantID (JTenant j) = tenant ∧ JAt j = t.

Definition accounted (jobs : list job) (x : said) : Prop :=
  match x with
  | SaidPR tenant _ _ _ => opted_out db tenant
  | SaidNudge ev => NReason ev = NudgeReason24hNoVCS ∧ NStage ev = StageSignedUp ∧ 24 * Hour <= time_sub (NNow ev) (StuckSince ev) ∧
      asked_at jobs (TenantID (NTenant ev)) (StuckSince ev)
  | _ => True
  end.

Record worker_inv (jobs : list job) (p : process) : Prop := {
  inv_output : Forall (accounted jobs) (output p);
  inv_states : ∀ tenant s, onboarding p !! tenant = Some s → ∃ t, asked_at jobs tenant t ∧ s = Onboarding.New t;
  inv_receipts : ∀ id signed r, receipts p !! id = Some (signed, r) →
    Receipts.Sign issuer r = Ok signed ∧ ID r = id ∧
    ∃ tenant, SaidReceipt tenant id (Workload r) (RealisedSavingsUSDCents r) ∈ output p }.

Lemma asked_grows jobs j tenant t : asked_at jobs tenant t → asked_at (jobs ++ [j]) tenant t.
Proof. intros (j' & Hj' & H'). exists j'. split; [|done]. apply elem_of_app. by left. Qed.

Lemma accounted_grows jobs j x : accounted jobs x → accounted (jobs ++ [j]) x.
Proof. destruct x; cbn; [done..| |done]. intros (? & ? & ? & ?). split_and!; [done..|]. by apply asked_grows. Qed.

Lemma inv_grows jobs j p : worker_inv jobs p → worker_inv (jobs ++ [j]) p.
Proof.
  intros [Ho Hs Hr]. split; [|intros tenant s Hl|done].
  - eapply Forall_impl; [exact Ho|]. intros x. apply accounted_grows.
  - destruct (Hs tenant s Hl) as (t & Ha & ->). exists t. split; [by apply asked_grows|done].
Qed.

Lemma inv_say jobs p l : worker_inv jobs p → Forall (accounted jobs) l → worker_inv jobs (say p l).
Proof.
  intros [Ho Hs Hr] Hl. split; cbn [say output onboarding receipts]; [by apply Forall_app|done|].
  intros id signed r Hg. destruct (Hr id signed r Hg) as (? & ? & tenant & ?). split_and!; [done..|]. exists tenant. apply elem_of_app. by left.
Qed.

(** A state that is still where it started can only have gone a day without a repository. *)
Lemma fresh_nudge reason t now stage since channel : shouldFire reason (Onboarding.New t) now = Some (stage, since, channel) →
  reason = NudgeReason24hNoVCS ∧ stage = StageSignedUp ∧ since = t ∧ 24 * Hour <= time_sub now t.
Proof.
  unfold shouldFire. destruct (String.eqb_spec reason NudgeReason24hNoVCS) as [->|Hne].
  - cbn [Current Onboarding.New Reached]. rewrite String.eqb_refl, lookup_singleton_eq. cbn [negb].
    destruct (Z.ltb_spec (time_sub now t) (24 * Hour)); [done|]. by intros [= <- <- _].
  - destruct (String.eqb reason NudgeReason72hNoAgent); [done|]. by destruct (String.eqb reason NudgeReason7dNoApplyFix).
Qed.

Lemma nudge_inv jobs now t raw p : worker_inv jobs p → asked_at jobs (TenantID t) now →
  worker_inv jobs (run_nudge read_nudge now t raw p).1.
Proof.
  intros [Ho Hs Hr] Ha. unfold run_nudge, source_Get, Service_Get, Nudge_Execute.
  destruct (String.eqb_spec (TenantID t) "") as [_|Hne].
  { destruct (read_nudge raw) as [n|e]; cbn [fst]; apply inv_say; [by destruct p|done|done|done]. }
  unfold store_Get, store_Put. destruct (onboarding p !! TenantID t) as [s|] eqn:E.
  - destruct (Hs _ _ E) as (t0 & Ha0 & ->). destruct (read_nudge raw) as [n|e]; cbn [fst]; [|by apply inv_say].
    destruct (shouldFire _ _ _) as [[[stage since] channel]|] eqn:F; cbn [fst map]; apply inv_say; [by destruct p| |by destruct p|done].
    apply fresh_nudge in F as (F1 & F2 & F3 & F4). subst. constructor; [|constructor]. by split_and!.
  - rewrite (proj2 (String.eqb_neq _ _) Hne). destruct (read_nudge raw) as [n|e]; cbn [fst]; [|by apply inv_say].
    assert (worker_inv jobs (mkProcess (receipts p) (<[TenantID t := Onboarding.New now]> (onboarding p)) (output p))) as Hi.
    { split; cbn [output onboarding receipts]; [done| |done]. intros tenant s [[<- <-]|[_ Hl]]%lookup_insert_Some; [by exists now|by apply Hs]. }
    destruct (shouldFire _ _ _) as [[[stage since] channel]|] eqn:F; cbn [fst map]; apply inv_say; [done| |done|done].
    apply fresh_nudge in F as (F1 & F2 & F3 & F4). subst. constructor; [|constructor]. by split_and!.
Qed.

Abbreviation the_bound vp := (bound yaml_any yaml_map anthropic cfg db vp issuer).

Lemma bound_inv jobs now w t raw p vp : w ∈ the_bound vp → worker_inv jobs p →
  (workflow_Name w = "onboarding_nudge" → asked_at jobs (TenantID t) now) → worker_inv jobs (run now w t raw p).1.
Proof.
  intros Hw Hp Ha. unfold bound in Hw. rewrite !elem_of_cons, elem_of_nil in Hw.
  destruct Hw as [->|[->|[->|[->|[->|[->|[]]]]]]]; cbn [run_workflow].
  - apply inv_say; [done|]. by constructor.
  - unfold run_apply_fix. destruct (skeptic_publishes_nothing now vp t (read_apply_fix raw)) as [[-> _]|(pr & -> & Hpr)];
      cbn [fst map]; apply inv_say; [done|done|done|]. by constructor.
  - unfold run_receipt. destruct (read_payload raw) as [r|]; [|done]. destruct (Receipts.Sign issuer (issued_at r now)) as [signed|e] eqn:Es; [|done].
    destruct Hp as [Ho Hs Hr]. split; cbn [fst say output onboarding receipts inMemoryReceiptStore_Save].
    + apply Forall_app. split; [done|by constructor].
    + done.
    + intros id signed' r' [[<- [= <- <-]]|[_ Hl]]%lookup_insert_Some.
      * split_and!; [done..|]. exists (TenantID t). apply elem_of_app. right. by left.
      * destruct (Hr id signed' r' Hl) as (? & ? & tenant & ?). split_and!; [done..|]. exists tenant. apply elem_of_app. by left.
  - unfold run_rollback. destruct (Rollback.Execute _ _ _ _) as [opened e]. cbn [fst]. apply inv_say; [done|].
    apply Forall_fmap, Forall_true. by intros [].
  - unfold run_spike. destruct (CostSpike_Execute _ _ _) as [r [ev|]]; cbn [fst]; apply inv_say; try done. by constructor.
  - apply nudge_inv; [done|]. by apply Ha.
Qed.

Lemma registration : ∃ d vp, registered d ∧ ∀ n, workflows d !! n = named (the_bound vp) n.
Proof.
  unfold registerWorkflows. assert (∃ vp, validatorPipeline = Some vp) as [vp ->] by (eexists; reflexivity).
  destruct (register_steps_total AllSteps NewRegistry ∅) as [x Hx]. unfold NewRecorder. rewrite Hx.
  destruct (register_all_fresh (the_bound vp) NewInMemory) as (d & Hd & _ & _ & Hl); [|done|].
  { cbn [map bound workflow_Name]. apply (bool_decide_unpack _). by vm_compute. }
  rewrite Hd. exists d, vp. split; [done|]. intros n. rewrite Hl. by destruct (named _ n).
Qed.

(** C20 The worker as it is wired. Its six workflows always register, and whatever jobs then
    run, in whatever order: a pull request is opened only for a tenant whose row in the
    database says it does not want skeptic runs, since the dry run has no client and a skeptic
    run rejects a stage that did not pass; the only nudge is the one about a missing
    repository, counted from the first job that asked about the tenant, since nothing ever
    advances the worker's own onboarding store; and a stored receipt is signed by the worker's
    key, kept under its own id and was announced. *)
Theorem worker_contract : ∃ d, registered d ∧
  (∀ n, is_Some (workflows d !! n) ↔ n ∈ ["echo"; "apply_fix"; "receipt_issue"; "rollback_watchdog"; "cost_spike"; "onboarding_nudge"]) ∧
  ∀ jobs, let p := process_of d jobs in
    (∀ tenant repo head id, SaidPR tenant repo head id ∈ output p → opted_out db tenant) ∧
    (∀ ev, SaidNudge ev ∈ output p →
       NReason ev = NudgeReason24hNoVCS ∧ NStage ev = StageSignedUp ∧ 24 * Hour <= time_sub (NNow ev) (StuckSince ev) ∧
       ∃ j, j ∈ jobs ∧ JName j = "onboarding_nudge" ∧ TenantID (JTenant j) = TenantID (NTenant ev) ∧ JAt j = StuckSince ev) ∧
    (∀ id signed r, receipts p !! id = Some (signed, r) →
       Receipts.Sign issuer r = Ok signed ∧ ID r = id ∧
       ∃ tenant, SaidReceipt tenant id (Workload r) (RealisedSavingsUSDCents r) ∈ output p).
Proof.
  destruct registration as (d & vp & Hd & Hl). exists d. split; [done|]. split.
  { intros n. rewrite Hl. change ["echo"; _; _; _; _; _] with (map workflow_Name (the_bound vp)).
    split.
    - intros [w Hw]. apply dec_stable. intros Hn. apply named_None in Hn. rewrite Hn in Hw. discriminate Hw.
    - intros Hn. destruct (named (the_bound vp) n) as [w|] eqn:E; [by exists w|]. apply named_None in E. contradiction. }
  intros jobs. assert (worker_inv jobs (process_of d jobs)) as [Ho _ Hr].
  { unfold serve_all. induction jobs as [|j jobs IH] using rev_ind; [by split|].
    rewrite foldl_app. cbn [foldl]. apply (inv_grows _ j) in IH. unfold serve at 1. rewrite Hl.
    destruct (named (the_bound vp) (JName j)) as [w|] eqn:E; [|done].
    apply find_some in E as [Hw Hn%String.eqb_eq]. apply list_elem_of_In in Hw. apply (bound_inv _ _ _ _ _ _ vp); [done..|].
    rewrite Hn. intros Hj. exists j. split_and!; [|done..]. apply elem_of_app. right. by left. }
  rewrite Forall_forall in Ho. split_and!; [intros tenant repo head id H'; exact (Ho _ H')|intros ev H'; exact (Ho _ H')|exact Hr].
Qed.
End Contract.

(** ** A worker at work *)

Definition demo_cfg (getenv : environment) : Config := read_config getenv.
Definition keyed (key : string) : string := if String.eqb key "OPTIQOR_ANTHROPIC_API_KEY" then "k" else "".

Section Demo.
Context (db : pool).
#[local] Existing Instance canonical_order.
#[local] Existing Instance stable_GoSort.
#[local] Existing Instance amd64.
#[local] Existing Instance tag_signatures.

Definition demo_worker : result register_error (@InMemory workflow) :=
  registerWorkflows (λ _, Some AOther) (λ _, Some []) (λ _, sample_answer) NewInMemory (demo_cfg keyed) db NewRegistry
    (Ok (Receipts.mkIssuer "worker-dev" demo_priv)).
Definition demo_said (jobs : list job) : list said :=
  match demo_worker with
  | Ok d => output (serve_all doc_yaml (λ s, s) 7 (λ _, Ok sample_payload) (λ _, Err "") (λ _, Ok (mkNudgePayload NudgeReason24hNoVCS "u" 0)) d jobs)
  | Err _ => []
  end.
End Demo.

(** The same fix, proposed for a tenant that opted out of skeptic runs, for one that did not,
    and without a database; and the nudge that a tenant gets a day after it was first asked
    about, whatever it did in the meantime. *)
Definition demo_tenant (id : string) : TenantContext := mkTenant id "" "" "".
Definition fix_job (id : string) : job := mkJob 0 "apply_fix" (demo_tenant id) "{}".
Definition nudge_job (at_ : Z) : job := mkJob at_ "onboarding_nudge" (demo_tenant "t") "{}".
Definition day : Z := 24 * Hour.
Example demo_jobs :
  demo_said (Some (None, {["a" := false; "b" := true]})) [fix_job "a"; fix_job "b"; fix_job "c"] =
    [SaidPR "a" "acme/shop" "optiqor/apply-fix/fix-1" "fix-1"] ∧
  demo_said None [fix_job "a"] = [] ∧
  demo_said None [nudge_job day; nudge_job (2 * day)] =
    [SaidNudge (mkNudge (demo_tenant "t") NudgeReason24hNoVCS NudgeChannelEmail StageSignedUp day (2 * day) "u")].
Proof. by vm_compute. Qed.

(** A receipt of one tenant replaces the receipt another has under the same id. *)
Lemma receipts_shared m t1 t2 id s1 s2 r1 r2 :
  (inMemoryReceiptStore_Save (inMemoryReceiptStore_Save m t1 id s1 r1).1 t2 id s2 r2).1 !! id = Some (s2, r2).
Proof. apply lookup_insert_eq. Qed.

(** ** The exit status *)

Lemma worker_run_status {P W} showVersion getenv connect (register : Config → option P → result register_error W) drain :
  let code := worker_run showVersion getenv connect register drain in
  (code = 0 ↔ showVersion = true ∨ ∃ cfg p d, Load getenv = Ok cfg ∧ openPool connect cfg = Ok p ∧ register cfg p = Ok d ∧ drain d (ShutdownGrace cfg) = None) ∧
  (code = 2 ↔ showVersion = false ∧ is_ok (Load getenv) = false) ∧
  (code = 0 ∨ code = 1 ∨ code = 2).
Proof.
  unfold worker_run. destruct showVersion; [split_and!; [split; [by left|done]|by split; [|intros [? _]]|by left]|].
  assert (∀ (Q : Prop) (n : Z), (n = 0 ↔ Q) → (n = 0 ↔ false = true ∨ Q)) as Hor by naive_solver.
  destruct (Load getenv) as [cfg|e]; cbn [is_ok]; [|split_and!; [apply Hor|done|by right; right]; split; [done|by intros (? & ? & ? & ? & _)]].
  destruct (openPool connect cfg) as [p|e] eqn:Ep; [|split_and!; [apply Hor|by split; [|intros [_ ?]]|by right; left]; split; [done|intros (? & ? & ? & H1 & H2 & _); congruence]].
  destruct (register cfg p) as [d|e] eqn:Er; [|split_and!; [apply Hor|by split; [|intros [_ ?]]|by right; left]; split; [done|intros (? & ? & ? & H1 & H2 & H3 & _); congruence]].
  destruct (drain d (ShutdownGrace cfg)) as [e|] eqn:Ed; split_and!; try (by split; [|intros [_ ?]]); try (by right; left); try (by left); apply Hor.
  - split; [done|intros (? & ? & ? & H1 & H2 & H3 & H4); congruence].
  - split; [|done]. intros _. by exists cfg, p, d.
Qed.

(** ** Temporal *)

Record StartWorkflowOptions := mkOptions { OptID : string; OptTaskQueue : string; OptTimeout : Z }.
Record TemporalEnvelope := mkEnvelope { EnvTenant : TenantContext; EnvPayload : string }.
Inductive temporal_error := TTenant | TClass (class : string) | TDraining | TUnknown (name : string) | TStart (e : string) | TDeadline.

Section Temporal.
Context {W : Type} (W_Name : W → string).

Record Temporal := mkTemporal { t_workflows : gmap string W; t_draining : bool }.

(** [None] is the panic on a nil client. *)
Definition NewTemporal (client : bool) : option Temporal := if client then Some (mkTemporal ∅ false) else None.

Definition Temporal_Register (a : Temporal) (w : option W) : result worker_error Temporal :=
  match w with
  | None => Err ErrBadWorkflow
  | Some w =>
      if String.eqb (W_Name w) "" then Err ErrBadWorkflow
      else match t_workflows a !! W_Name w with
           | Some _ => Err (ErrDuplicateWorkflow (W_Name w))
           | None => Ok (mkTemporal (<[W_Name w := w]> (t_workflows a)) (t_draining a))
           end
  end.

Definition workflowID (name : string) (t : TenantContext) : string := name +:+ "::" +:+ TenantID t +:+ "::" +:+ WorkspaceID t.

(** The request made of the cluster, if it gets that far, and the error. *)
Definition Temporal_Submit (client : StartWorkflowOptions → string → TemporalEnvelope → option string)
    (a : Temporal) (t : TenantContext) (class name payload : string) :
    option (StartWorkflowOptions * string * TemporalEnvelope) * option temporal_error :=
  match TenantContext_Validate t with
  | Some _ => (None, Some TTenant)
  | None =>
      if negb (validClass class) then (None, Some (TClass class))
      else if t_draining a then (None, Some TDraining)
      else match t_workflows a !! name with
      | None => (None, Some (TUnknown name))
      | Some _ =>
          let opts := mkOptions (workflowID name t) (QueueName (TenantID t) class) (24 * Hour) in
          let env := mkEnvelope t payload in
          (Some (opts, name, env), TStart <$> client opts name env)
      end
  end.

(** How the caller's context ended, which is all that [Drain] waits for. *)
Inductive context_end := Canceled | DeadlineExceeded.
Definition Temporal_Drain (a : Temporal) (ended : context_end) : Temporal * option temporal_error :=
  (mkTemporal (t_workflows a) true, match ended with Canceled => None | DeadlineExceeded => Some TDeadline end).

Definition Temporal_Workflows `{!GoMapOrder} (a : Temporal) : list string := sortStrings (fst <$> map_iter (t_workflows a)).

(** The workflow runs with a context that carries no tenant, next to the envelope's. *)
Definition MakeTemporalWorkflowFn {A} (execute : W → go_context → TenantContext → string → A) (w : W) (env : TemporalEnvelope) : A :=
  execute w None (EnvTenant env) (EnvPayload env).

(** The two dispatchers accept and refuse the same submissions. *)
Definition in_memory (a : Temporal) : @InMemory W := mkInMemory (t_workflows a) (t_draining a) 0.

Lemma temporal_agrees client a ctx t class name payload :
  let '(req, e) := Temporal_Submit client a t class name payload in
  match Submit_check (in_memory a) (mkSubmission ctx t class name payload) with
  | Ok _ => ∃ opts, req = Some (opts, name, mkEnvelope t payload) ∧ OptTaskQueue opts = QueueName (TenantID t) class ∧
      OptID opts = workflowID name t ∧ e = TStart <$> client opts name (mkEnvelope t payload)
  | Err (Dispatcher.ErrTenant _) => req = None ∧ e = Some TTenant
  | Err (ErrUnknownClass c) => req = None ∧ e = Some (TClass c)
  | Err ErrDraining => req = None ∧ e = Some TDraining
  | Err (ErrUnknownWorkflow n) => req = None ∧ e = Some (TUnknown n)
  | Err _ => False
  end.
Proof.
  unfold Temporal_Submit, Submit_check, in_memory. cbn [s_tenant s_class s_name draining workflows].
  destruct (TenantContext_Validate t); [done|]. destruct (validClass class); [|done]. cbn [negb].
  destruct (t_draining a); [done|]. destruct (t_workflows a !! name); [|done]. by eexists.
Qed.

(** The id of a run does not depend on the payload or the queue, so while one runs a second
    submission is refused by the cluster whatever it asks for; and the separator can occur in
    the parts, so that two tenants can share an id. A drained adapter never reports success to
    a caller that gave it a deadline, though nothing of its own was left to wait for. *)
Lemma temporal_divergences client a t class class' name p p' :
  (∀ r r' e e', Temporal_Submit client a t class name p = (Some r, e) → Temporal_Submit client a t class' name p' = (Some r', e') →
     OptID r.1.1 = OptID r'.1.1) ∧
  workflowID "echo" (mkTenant "a" "b::c" "" "") = workflowID "echo" (mkTenant "a::b" "c" "" "") ∧
  (Temporal_Drain a DeadlineExceeded).2 = Some TDeadline.
Proof.
  split_and!; [|done|done]. intros r r' e e'. unfold Temporal_Submit. destruct (TenantContext_Validate t); [done|].
  destruct (validClass class), (validClass class'); cbn [negb]; try done. destruct (t_draining a); [done|].
  destruct (t_workflows a !! name); [|done]. by intros [= <- _] [= <- _].
Qed.
End Temporal.
