(* ===== verification/AgentMain.v ===== *)
(** The agent's process (backend/cmd/agent/main.go): its flags and their defaults, the order
    in which they are checked, what it starts and the exit status; with what it starts:
    backend/internal/agent/cluster/agent.go, the constructors of the Prometheus client
    (backend/internal/agent/prom/prom.go, auth.go, cache.go and scraper.go), its metrics
    (observer.go) and the TLS material of both clients. *)

From Stdlib Require Import Ascii QArith.
From S2P Require Import Prelude GoNum GoStr Lines Utf8 GoTime Duration Config Telemetry Token Cluster Dynamic PromCache PromClient AgentLoop.
Local Open Scope Z_scope.

(** ** The informers *)

Inductive start_error := NilClient | EmptyClusterID | SyncAborted.

(** The resync period the caches are started with; [synced] tells which of them primed. *)
Definition Start (client : bool) (clusterID : string) (resync : Z) (synced : list bool) : result start_error Z :=
  if negb client then Err NilClient
  else if String.eqb clusterID "" then Err EmptyClusterID
  else
    let resync := if resync <=? 0 then 10 * Minute else resync in
    if forallb id synced then Ok resync else Err SyncAborted.

(** ** The clients *)

(** What the files named by a TLS configuration hold. *)
Record files := mkFiles { key_pair : string → string → bool; bundle : string → option bool }.

Inductive tls_error := LoadCert | ReadCA | NoPEM.
(** The bundle of authorities: the system's where there is none. *)
Inductive roots := SystemRoots | Bundle (path : string).

Definition BuildTLSConfig (fs : files) (cfg : AuthConfig) : result tls_error roots :=
  if negb (key_pair fs (ClientCertFile cfg) (ClientKeyFile cfg)) then Err LoadCert
  else if String.eqb (CABundleFile cfg) "" then Ok SystemRoots
  else match bundle fs (CABundleFile cfg) with
       | None => Err ReadCA
       | Some false => Err NoPEM
       | Some true => Ok (Bundle (CABundleFile cfg))
       end.

Definition DefaultMTLSDir : string := "/var/run/optiqor/mtls".
Definition default_path (path name : string) : string := if String.eqb path "" then DefaultMTLSDir +:+ "/" +:+ name else path.

(** [buildTLS] on the paths [New] fills in. *)
Definition buildTLS (fs : files) (cert key ca : string) : result tls_error string :=
  let cert := default_path cert "tls.crt" in let key := default_path key "tls.key" in let ca := default_path ca "ca.crt" in
  if negb (key_pair fs cert key) then Err LoadCert
  else match bundle fs ca with
       | None => Err ReadCA
       | Some false => Err NoPEM
       | Some true => Ok ca
       end.
Definition tls_text (r : result tls_error string) : option string :=
  match r with
  | Ok _ => None
  | Err LoadCert => Some "egress: load client cert" | Err ReadCA => Some "egress: read CA bundle"
  | Err NoPEM => Some "egress: CA bundle PEM did not contain any certs"
  end.

Inductive client_error := EmptyBaseURL | ParseURL | Scheme (s : string) | BadOption | WrongMode (mode : string) | ClientTLS (e : tls_error).

(** A client: where it asks, how long it waits, how much it reads, how it authenticates and
    whom it trusts. *)
Record prom_client := mkProm { PBaseURL : string; PTimeout : Z; PMaxBody : Z; PAuth : Authenticator; PRoots : roots }.
Inductive option_ := WithAuth (a : Authenticator) | WithTimeout (d : Z) | WithMaxBodyBytes (n : Z).
Definition apply_option (o : option_) (c : prom_client) : option prom_client :=
  match o with
  | WithAuth a => Some (mkProm (PBaseURL c) (PTimeout c) (PMaxBody c) a (PRoots c))
  | WithTimeout d => if d <=? 0 then None else Some (mkProm (PBaseURL c) d (PMaxBody c) (PAuth c) (PRoots c))
  | WithMaxBodyBytes n => if n <=? 0 then None else Some (mkProm (PBaseURL c) (PTimeout c) n (PAuth c) (PRoots c))
  end.
Fixpoint apply_options (os : list option_) (c : prom_client) : option prom_client :=
  match os with [] => Some c | o :: os => match apply_option o c with None => None | Some c => apply_options os c end end.

(** [scheme] is the scheme [url.Parse] finds, if it parses. *)
Definition NewHTTPClient (scheme : string → option string) (baseURL : string) (os : list option_) : result client_error prom_client :=
  if String.eqb (trim_space baseURL) "" then Err EmptyBaseURL
  else match scheme baseURL with
  | None => Err ParseURL
  | Some s =>
      if negb (String.eqb s "http") && negb (String.eqb s "https") then Err (Scheme s)
      else match apply_options os (mkProm (trim_right (Ascii.eqb "/") baseURL) (30 * Second) (Z.shiftl 64 20) NoopAuth SystemRoots) with
           | None => Err BadOption
           | Some c => Ok c
           end
  end.

Definition NewHTTPClientWithMTLS (scheme : string → option string) (fs : files) (baseURL : string) (cfg : AuthConfig) (os : list option_) :
    result client_error prom_client :=
  if negb (String.eqb (AMode cfg) "mtls") then Err (WrongMode (AMode cfg))
  else match BuildTLSConfig fs cfg with
  | Err e => Err (ClientTLS e)
  | Ok r => let* c := NewHTTPClient scheme baseURL os in Ok (mkProm (PBaseURL c) (PTimeout c) (PMaxBody c) MTLSAuth r)
  end.

(** The times to live of the cache, with their defaults. *)
Definition NewCachingClient (instantTTL rangeTTL : Z) : Z * Z :=
  (if instantTTL <=? 0 then Minute else instantTTL, if rangeTTL <=? 0 then 24 * Hour else rangeTTL).
Definition cache_entries : Z := 1024.

(** ** The metrics of the queries *)

Definition query_buckets : list float64 :=
  map f_const [5 # 1000; 1 # 100; 25 # 1000; 5 # 100; 1 # 10; 25 # 100; 5 # 10; 1; 25 # 10; 5; 10; 30]%Q.
Definition query_seconds : string := "optiqor_agent_prom_query_seconds".
Definition prom_errors : string := "optiqor_agent_prom_errors_total".
Definition kind_label (kind : string) : labels := {["kind" := kind]}.

(** The registry with the two histograms; [None] is the panic of the registry. *)
Definition NewTelemetryObserver `{GoMapOrder} (reg : Registry) : option Registry :=
  match NewHistogram reg query_seconds "Per-PromQL latency" (kind_label "query") query_buckets with
  | None => None
  | Some (reg, _) =>
      match NewHistogram reg query_seconds "Per-PromQL latency" (kind_label "query_range") query_buckets with
      | None => None
      | Some (reg, _) => Some reg
      end
  end.

Definition observe_histogram (reg : Registry) (key : string) (v : float64) : Registry :=
  mkRegistry (counters reg) (alter (λ h, Observe h v) key (histograms reg)).

(** [seconds] is the latency. *)
Definition ObserveQuery `{GoMapOrder} (observer : bool) (reg : Registry) (kind status : string) (seconds : float64) : Registry :=
  if negb observer then reg
  else
    let reg :=
      if String.eqb kind "query" then observe_histogram reg (metricKey query_seconds (kind_label "query")) seconds
      else if String.eqb kind "query_range" then observe_histogram reg (metricKey query_seconds (kind_label "query_range")) seconds
      else reg in
    if negb (String.eqb status "ok") then
      let l := <["status" := status]> (kind_label kind) in
      let '(reg, c) := NewCounter reg prom_errors "PromQL queries that did not return 200" l in
      mkRegistry (alter Inc (metricKey prom_errors l) (counters reg)) (histograms reg)
    else reg.

(** ** Flags *)

Record flags := mkFlags {
  ShowVersion : bool; Kubeconfig : string; FTenantID : string; FClusterID : string; HealthAddr : string; FMetricsAddr : string;
  Resync : string; SnapshotInterval : string; IngestURL : string; PromURL : string; PromAuth : string; PromBearerFile : string;
  PromUser : string; PromCertFile : string; PromKeyFile : string; PromCAFile : string; PromInstantTTL : string; PromRangeTTL : string;
  EventsCutoff : string }.

(** What the flags are where the command line says nothing. *)
Definition default_flags (getenv : environment) : flags :=
  mkFlags false "" (getenv "OPTIQOR_TENANT_ID") (getenv "OPTIQOR_CLUSTER_ID") (envOr getenv "OPTIQOR_HEALTH_ADDR" ":8088")
    (envOr getenv "OPTIQOR_METRICS_ADDR" ":9090") (envOr getenv "OPTIQOR_INFORMER_RESYNC" "10m")
    (envOr getenv "OPTIQOR_SNAPSHOT_INTERVAL" "60s") (envOr getenv "OPTIQOR_INGEST_URL" "") (envOr getenv "OPTIQOR_PROMETHEUS_URL" "")
    (envOr getenv "OPTIQOR_PROMETHEUS_AUTH" "none") (envOr getenv "OPTIQOR_PROMETHEUS_BEARER_FILE" "")
    (envOr getenv "OPTIQOR_PROMETHEUS_USER" "") (envOr getenv "OPTIQOR_PROMETHEUS_CERT_FILE" "")
    (envOr getenv "OPTIQOR_PROMETHEUS_KEY_FILE" "") (envOr getenv "OPTIQOR_PROMETHEUS_CA_FILE" "")
    (envOr getenv "OPTIQOR_PROMETHEUS_INSTANT_TTL" "60s") (envOr getenv "OPTIQOR_PROMETHEUS_RANGE_TTL" "24h")
    (envOr getenv "OPTIQOR_EVENTS_CUTOFF" "10m").

(** ** The cluster's configuration *)

Inductive kube := InCluster | FromFile (path : string).
Definition loadK8sConfig (in_cluster : bool) (builds : string → bool) (getenv : environment) (kubeconfig : string) : option kube :=
  if in_cluster then Some InCluster
  else
    let path := if String.eqb kubeconfig "" then getenv "KUBECONFIG" else kubeconfig in
    if String.eqb path "" then None else if builds path then Some (FromFile path) else None.

(** ** What the agent finds when it starts *)

Record surroundings := mkSurroundings {
  in_cluster : bool; builds : string → bool; clientset : bool; dynamic_client : bool; caches : list bool;
  scheme_of : string → option string; disk : files }.

(** The scraper: its client and the times to live of its cache. *)
Record scraper := mkScraper { SClient : prom_client; SInstantTTL : Z; SRangeTTL : Z }.

Definition auth_config (f : flags) (getenv : environment) : AuthConfig :=
  mkAuth (PromAuth f) (getenv "OPTIQOR_PROMETHEUS_BEARER_TOKEN") (PromBearerFile f) (PromUser f) (getenv "OPTIQOR_PROMETHEUS_PASSWORD") ""
    (PromCertFile f) (PromKeyFile f) (PromCAFile f) 0.

(** The scraper of the flags, or an exit status. *)
Definition start_scraper (f : flags) (getenv : environment) (s : surroundings) : result Z scraper :=
  let cfg := auth_config f getenv in
  let client :=
    if String.eqb (AMode cfg) "mtls" then
      match NewHTTPClientWithMTLS (scheme_of s) (disk s) (PromURL f) cfg [] with Err _ => Err 1 | Ok c => Ok c end
    else match NewAuthenticator cfg with
      | Err _ => Err 2
      | Ok a => match NewHTTPClient (scheme_of s) (PromURL f) [WithAuth a] with Err _ => Err 1 | Ok c => Ok c end
      end in
  let* c := client in
  match ParseDuration (PromInstantTTL f) with
  | None => Err 2
  | Some instantTTL =>
      match ParseDuration (PromRangeTTL f) with
      | None => Err 2
      | Some rangeTTL => let '(i, r) := NewCachingClient instantTTL rangeTTL in Ok (mkScraper c i r)
      end
  end.

(** The agent at work: only observing, sending snapshots, or gone down with the goroutine
    whose ticker has no positive interval. *)
Inductive running := ObserveOnly | Sending (client : Egress.Client) (cutoff interval : Z) (s : option scraper) | TickerPanic.

Definition version : string := "dev".

Definition start_egress (f : flags) (getenv : environment) (s : surroundings) (interval : Z) : result Z running :=
  let secret := getenv "OPTIQOR_INGEST_SECRET" in
  if (String.length secret <? 32)%nat then Err 2
  else if String.eqb (FTenantID f) "" then Err 2
  else match Egress.New (Egress.mkConfig (IngestURL f) (FTenantID f) (FClusterID f) version secret) (tls_text (buildTLS (disk s) "" "" "")) with
  | Err _ => Err 1
  | Ok client =>
      match ParseDuration (EventsCutoff f) with
      | None => Err 2
      | Some cutoff =>
          let* sc := (if String.eqb (PromURL f) "" then Ok None else let* sc := start_scraper f getenv s in Ok (Some sc)) in
          if interval <=? 0 then Ok TickerPanic else Ok (Sending client cutoff interval sc)
      end
  end.

(** [run], up to where it waits for a signal: an exit status, or the agent at work. *)
Definition agent_run (f : flags) (getenv : environment) (s : surroundings) : result Z running :=
  if ShowVersion f then Err 0
  else if String.eqb (FClusterID f) "" then Err 2
  else match ParseDuration (Resync f) with
  | None => Err 2
  | Some resync =>
      match loadK8sConfig (in_cluster s) (builds s) getenv (Kubeconfig f) with
      | None => Err 1
      | Some _ =>
          if negb (clientset s) then Err 1
          else if negb (dynamic_client s) then Err 1
          else match Start true (FClusterID f) resync (caches s) with
          | Err _ => Err 1
          | Ok _ =>
              match ParseDuration (SnapshotInterval f) with
              | None => Err 2
              | Some interval => if String.eqb (IngestURL f) "" then Ok ObserveOnly else start_egress f getenv s interval
              end
          end
      end
  end.

(** GET /healthz of the agent: whether the informers are up. *)
Definition agent_healthz (readers events : bool) : Z * string :=
  if negb readers || negb events then (503, "informers not ready" +:+ String Lines.newline "") else (200, "ok" +:+ String Lines.newline "").

(** The populator the loop starts from. *)
Definition start_populator (f : flags) (cutoff : Z) : populator := mkPopulator (FClusterID f) version cutoff false None.

(** ** Facts *)

Lemma client_ok scheme baseURL a c : NewHTTPClient scheme baseURL [WithAuth a] = Ok c →
  ∃ s, scheme baseURL = Some s ∧ (s = "http" ∨ s = "https") ∧
    c = mkProm (trim_right (Ascii.eqb "/") baseURL) (30 * Second) (Z.shiftl 64 20) a SystemRoots.
Proof.
  unfold NewHTTPClient. destruct (String.eqb (trim_space baseURL) ""); [done|]. destruct (scheme baseURL) as [s|]; [|done].
  destruct (String.eqb_spec s "http"), (String.eqb_spec s "https"); cbn [negb andb]; try done; intros [= <-]; exists s; naive_solver.
Qed.

Lemma authenticator_not_mtls cfg a : NewAuthenticator cfg = Ok a → a = MTLSAuth → AMode cfg = "mtls".
Proof.
  unfold NewAuthenticator. intros Ha ->. revert Ha. destruct (String.eqb_spec (AMode cfg) "") as [_|_]; [done|].
  repeat match goal with |- context [String.eqb ?x ?y] => destruct (String.eqb_spec x y); cbn [andb orb negb]; try done end.
Qed.

(** A scraper asks over HTTP, for a positive time to live, and authenticates by certificate
    just when it was told to. *)
Definition sound_scraper (f : flags) (s : surroundings) (x : scraper) : Prop :=
  (scheme_of s (PromURL f) = Some "http" ∨ scheme_of s (PromURL f) = Some "https") ∧
  PBaseURL (SClient x) = trim_right (Ascii.eqb "/") (PromURL f) ∧ 0 < PTimeout (SClient x) ∧ 0 < PMaxBody (SClient x) ∧
  0 < SInstantTTL x ∧ 0 < SRangeTTL x ∧ (PAuth (SClient x) = MTLSAuth ↔ PromAuth f = "mtls").

Lemma ttl_positive i r i' r' : NewCachingClient i r = (i', r') → 0 < i' ∧ 0 < r'.
Proof.
  unfold NewCachingClient. intros [= <- <-].
  split; [destruct (Z.leb_spec i 0)|destruct (Z.leb_spec r 0)]; first [lia|by vm_compute].
Qed.

Lemma prom_client_ok f getenv s c :
  (if String.eqb (AMode (auth_config f getenv)) "mtls" then
     match NewHTTPClientWithMTLS (scheme_of s) (disk s) (PromURL f) (auth_config f getenv) [] with Err _ => Err 1 | Ok c => Ok c end
   else match NewAuthenticator (auth_config f getenv) with
     | Err _ => Err 2
     | Ok a => match NewHTTPClient (scheme_of s) (PromURL f) [WithAuth a] with Err _ => Err 1 | Ok c => Ok c end
     end) = Ok c →
  (scheme_of s (PromURL f) = Some "http" ∨ scheme_of s (PromURL f) = Some "https") ∧
  PBaseURL c = trim_right (Ascii.eqb "/") (PromURL f) ∧ PTimeout c = 30 * Second ∧ PMaxBody c = Z.shiftl 64 20 ∧
  (PAuth c = MTLSAuth ↔ PromAuth f = "mtls").
Proof.
  change (AMode (auth_config f getenv)) with (PromAuth f). destruct (String.eqb_spec (PromAuth f) "mtls") as [Hm|Hm].
  - unfold NewHTTPClientWithMTLS. change (AMode (auth_config f getenv)) with (PromAuth f). rewrite Hm. cbn [String.eqb negb Ascii.eqb Bool.eqb].
    destruct (BuildTLSConfig _ _) as [r|]; [|done]. destruct (NewHTTPClient _ _ []) as [c0|] eqn:E; [|done]. cbn [rbind].
    intros [= <-]. unfold NewHTTPClient in E. destruct (String.eqb (trim_space (PromURL f)) ""); [done|].
    destruct (scheme_of s (PromURL f)) as [sc|]; [|done].
    destruct (String.eqb_spec sc "http"), (String.eqb_spec sc "https"); cbn [negb andb] in E; try done; subst; injection E as <-;
      (split_and!; [by (left + right)|done..]).
  - destruct (NewAuthenticator _) as [a|] eqn:Ea; [|done]. destruct (NewHTTPClient _ _ _) as [c0|] eqn:E; [|done]. intros [= <-].
    apply client_ok in E as (sc & -> & Hsc & ->). split_and!; [by destruct Hsc as [->| ->]; [left|right]|done..|].
    split; [|done]. intros Hm'. exfalso. by apply Hm, (authenticator_not_mtls _ _ Ea).
Qed.

Lemma start_scraper_ok f getenv s x : start_scraper f getenv s = Ok x → sound_scraper f s x.
Proof.
  unfold start_scraper. destruct (if String.eqb _ _ then _ else _) as [c|] eqn:E; [|done]. cbn [rbind].
  apply prom_client_ok in E as (H1 & H2 & H3 & H4 & H5).
  destruct (ParseDuration (PromInstantTTL f)) as [i|]; [|done]. destruct (ParseDuration (PromRangeTTL f)) as [r|]; [|done].
  destruct (NewCachingClient i r) as [i' r'] eqn:Et. intros [= <-]. apply ttl_positive in Et as [Hi Hr].
  unfold sound_scraper. cbn [SClient SInstantTTL SRangeTTL]. rewrite H3, H4. by split_and!.
Qed.

(** The steps before the address of the service matters. *)
Definition boots (f : flags) (getenv : environment) (s : surroundings) (interval : Z) : Prop :=
  ShowVersion f = false ∧ FClusterID f ≠ "" ∧ (∃ d, ParseDuration (Resync f) = Some d) ∧
  loadK8sConfig (in_cluster s) (builds s) getenv (Kubeconfig f) ≠ None ∧ clientset s = true ∧ dynamic_client s = true ∧
  forallb id (caches s) = true ∧ ParseDuration (SnapshotInterval f) = Some interval.

Lemma agent_run_cases f getenv s :
  (∃ c, agent_run f getenv s = Err c ∧ ((c = 0 ∧ ShowVersion f = true) ∨ ShowVersion f = false ∧ (c = 1 ∨ c = 2)) ∧ ¬ ∃ i, boots f getenv s i) ∨
  ∃ interval, boots f getenv s interval ∧
    agent_run f getenv s = if String.eqb (IngestURL f) "" then Ok ObserveOnly else start_egress f getenv s interval.
Proof.
  unfold agent_run, Start, boots. destruct (ShowVersion f); [left; eexists; split_and!; [done|by left|by intros (? & ? & _)]|]. cbn [negb].
  destruct (String.eqb_spec (FClusterID f) "") as [Hc|Hc]; [left; eexists; split_and!; [done|by right; split; [|right]|by intros (? & _ & ? & _)]|].
  destruct (ParseDuration (Resync f)) as [r|]; [|left; eexists; split_and!; [done|by right; split; [|right]|by intros (? & _ & _ & (? & ?) & _)]].
  destruct (loadK8sConfig _ _ _ _); [|left; eexists; split_and!; [done|by right; split; [|left]|by intros (? & _ & _ & _ & ? & _)]].
  destruct (clientset s); [|left; eexists; split_and!; [done|by right; split; [|left]|by intros (? & _ & _ & _ & _ & ? & _)]].
  destruct (dynamic_client s); [|left; eexists; split_and!; [done|by right; split; [|left]|by intros (? & _ & _ & _ & _ & _ & ? & _)]]. cbn [negb].
  destruct (forallb id (caches s)); [|left; eexists; split_and!; [done|by right; split; [|left]|by intros (? & _ & _ & _ & _ & _ & _ & ? & _)]].
  destruct (ParseDuration (SnapshotInterval f)) as [i|]; [|left; eexists; split_and!; [done|by right; split; [|right]|by intros (? & _ & _ & _ & _ & _ & _ & _ & ?)]].
  right. exists i. split_and!; try done. by eexists.
Qed.

Lemma start_egress_cases f getenv s interval :
  (∃ c, start_egress f getenv s interval = Err c ∧ (c = 1 ∨ c = 2)) ∨
  ((32 <= String.length (getenv "OPTIQOR_INGEST_SECRET"))%nat ∧ FTenantID f ≠ "" ∧
   ∃ client cutoff sc, Egress.New (Egress.mkConfig (IngestURL f) (FTenantID f) (FClusterID f) version (getenv "OPTIQOR_INGEST_SECRET")) None = Ok client ∧
     ParseDuration (EventsCutoff f) = Some cutoff ∧
     match sc with None => PromURL f = "" | Some x => PromURL f ≠ "" ∧ sound_scraper f s x end ∧
     start_egress f getenv s interval = if interval <=? 0 then Ok TickerPanic else Ok (Sending client cutoff interval sc)).
Proof.
  unfold start_egress. destruct (Nat.ltb_spec (String.length (getenv "OPTIQOR_INGEST_SECRET")) 32) as [Hl|Hl]; [left; eauto|].
  destruct (String.eqb_spec (FTenantID f) "") as [Ht|Ht]; [left; eauto|].
  destruct (Egress.New _ _) as [client|e] eqn:Ec; [|left; eauto].
  destruct (ParseDuration (EventsCutoff f)) as [cutoff|]; [|left; eauto].
  assert (Egress.New (Egress.mkConfig (IngestURL f) (FTenantID f) (FClusterID f) version (getenv "OPTIQOR_INGEST_SECRET")) None = Ok client) as Hnew.
  { unfold Egress.New in *. repeat destruct (String.eqb _ _); [done..|]. by destruct (tls_text _). }
  destruct (String.eqb_spec (PromURL f) "") as [Hp|Hp]; cbn [rbind].
  - right. split_and!; [done..|]. by exists client, cutoff, None.
  - destruct (start_scraper f getenv s) as [x|c] eqn:Es; cbn [rbind].
    + right. split_and!; [done..|]. exists client, cutoff, (Some x). split_and!; [done..|by apply start_scraper_ok in Es|done].
    + left. exists c. split; [done|]. unfold start_scraper in Es. revert Es.
      destruct (if String.eqb _ _ then _ else _) as [c0|e] eqn:E; cbn [rbind].
      * destruct (ParseDuration (PromInstantTTL f)); [|intros [= <-]; by right]. destruct (ParseDuration (PromRangeTTL f)); [|intros [= <-]; by right].
        by destruct (NewCachingClient _ _).
      * intros [= <-]. revert E. destruct (String.eqb _ _); [destruct (NewHTTPClientWithMTLS _ _ _ _ _)|destruct (NewAuthenticator _); [destruct (NewHTTPClient _ _ _)|]];
          intros [= <-]; auto.
Qed.


(** ** Starting it *)

Definition demo_disk : files := mkFiles (λ _ _, true) (λ _, Some true).
Definition demo_surroundings : surroundings :=
  mkSurroundings true (λ _, true) true true [true] (λ u, if has_prefix u "http://" then Some "http" else if has_prefix u "https://" then Some "https" else Some "") demo_disk.
Definition demo_secret : string := str_repeat "s" 32.
Definition demo_getenv (ingest interval ttl : string) (key : string) : string :=
  if String.eqb key "OPTIQOR_CLUSTER_ID" then "c-1" else if String.eqb key "OPTIQOR_TENANT_ID" then "t-1"
  else if String.eqb key "OPTIQOR_INGEST_SECRET" then demo_secret else if String.eqb key "OPTIQOR_INGEST_URL" then ingest
  else if String.eqb key "OPTIQOR_SNAPSHOT_INTERVAL" then interval else if String.eqb key "OPTIQOR_PROMETHEUS_URL" then "http://prom:9090/"
  else if String.eqb key "OPTIQOR_PROMETHEUS_INSTANT_TTL" then ttl else "".
Definition demo_start (ingest interval ttl : string) : result Z running :=
  let getenv := demo_getenv ingest interval ttl in agent_run (default_flags getenv) getenv demo_surroundings.

(** Flags that parse and still take the agent down: an interval of zero panics in the loop
    that is said never to, and a time to live under a second divides by zero at the first
    query. The address to send to need not be the https one the flag asks for, and without it
    no other flag is looked at, a broken time to live included. *)
Lemma agent_divergences :
  demo_start "https://api" "0s" "60s" = Ok TickerPanic ∧
  (∃ client cutoff interval sc, demo_start "https://api" "60s" "500ms" = Ok (Sending client cutoff interval (Some sc)) ∧
     SInstantTTL sc = 500 * Millisecond ∧ ∀ promql at_, query_key promql at_ (SInstantTTL sc) = None) ∧
  (∃ client cutoff interval sc, demo_start "http://api" "60s" "60s" = Ok (Sending client cutoff interval sc) ∧
     Egress.BackendURL (Egress.cfg client) = "http://api") ∧
  demo_start "" "60s" "soon" = Ok ObserveOnly ∧ demo_start "https://api" "60s" "soon" = Err 2.
Proof.
  split_and!; [by vm_compute| | |by vm_compute|by vm_compute].
  - eexists _, _, _, _. split; [vm_compute; reflexivity|]. by split.
  - eexists _, _, _, _. by split; [vm_compute; reflexivity|].
Qed.

(** A query is counted in the histogram of its kind, and a failed one in the counter of its
    kind and status. *)
Lemma observed_query : let O := canonical_order in ∃ reg, NewTelemetryObserver NewRegistry = Some reg ∧
  ∀ status, (status = "ok" ∨ status = "5xx") →
    let reg' := ObserveQuery true reg "query" status (f_of_Z 1) in
    (h_sum <$> histograms reg' !! metricKey query_seconds (kind_label "query")) = Some (f_of_Z 1) ∧
    (Telemetry.total <$> histograms reg' !! metricKey query_seconds (kind_label "query_range")) = Some 0 ∧
    (c_value <$> counters reg' !! metricKey prom_errors {["kind" := "query"; "status" := "5xx"]}) = if String.eqb status "ok" then None else Some (f_of_Z 1).
Proof. eexists. split; [vm_compute; reflexivity|]. by intros status [-> | ->]; vm_compute. Qed.
