(* ===== verification/Command.v ===== *)
(** The command line as a whole (cmd/optiqor/main.go, color.go; [RunPath] and [DiffPaths] of
    internal/analyze; [Load] of internal/config): what an invocation reads, prints, writes and
    sends, in order, and its exit status. Parsing the arguments is cobra's and files, the
    terminal and the network are those of the machine. *)

From Stdlib Require Import Ascii.
From S2P Require Import Prelude GoNum GoStr Lines Utf8 Helm Rules AllRules Analyze Cli Diff Render JsonOut Preflight Share Html.
Local Open Scope Z_scope.

(** ** The machine *)

Record machine := mkMachine {
  getenv : string → string;
  cwd : option string;                              (** [os.Getwd] *)
  abs : string → result string string;              (** [filepath.Abs] *)
  stat : string → result string bool;               (** whether it is a directory *)
  open : string → result string (option string);    (** the text, none if reading fails *)
  create : string → option string;                  (** the error of creating a file *)
  stdout_tty : bool; stderr_tty : bool;
  send : upload_request → upload_answer;
  clock : Z }.

Inductive effect := EStdout (s : string) | EStderr (s : string) | EFile (path s : string) | EPost (req : upload_request).

Inductive error := EText (s : string) | EFindings.

(** What a command did and how it ended. *)
Definition ended : Type := list effect * result error unit.

Definition join_values (dir : string) : string := if String.eqb dir "/" then "/values.yaml" else dir +:+ "/values.yaml".

(** ** Invocations, as cobra hands them on *)

Record analyze_flags := mkAnalyze {
  AJson : bool; AHtml : string; AOffline : bool; AShare : bool; ARoast : bool; AMinSev : string; ADetectors : list string; AFailOn : string;
  AOutput : string }.

Inductive command :=
| CAnalyze (fl : analyze_flags) (args : list string)
| CDemo (jsonOut roast : bool)
| CDiff (jsonOut : bool) (a b : string)
| CScore (jsonOut : bool) (args : list string)
| CAudit (jsonOut : bool) (failOn outputPath : string) (args : list string)
| CWatch
| CCompare (jsonOut : bool) (a b : string).

Record invocation := mkInvocation { noColor : bool; configPath : string; Cmd : command }.

(** A refused command line with cobra's message; a text that is only printed (the version or
    the help); or an invocation. *)
Inductive parsed := Usage (e : string) | Printed (s : string) | Invoked (inv : invocation).

Definition versionTemplate : string := "optiqor dev — Helm chart cost analysis (security bonus)" +:+ nl.

(** ** JSON of the diff and of the score *)

Definition entry_json (e : DiffEntry) : jvalue :=
  OObj [("Name", OText (EName e)); ("NewWorkload", OBool (NewWorkload e)); ("RemovedWorkload", OBool (RemovedWorkload e));
        ("CPURequestDelta", OInt (CPURequestDelta e)); ("CPULimitDelta", OInt (CPULimitDelta e));
        ("MemoryRequestDelta", OInt (MemoryRequestDelta e)); ("MemoryLimitDelta", OInt (MemoryLimitDelta e));
        ("MonthlyUSDCentsDelta", OInt (MonthlyUSDCentsDelta e))].
Definition diff_json (r : DiffReport) : jvalue :=
  OObj [("accuracy_disclosure", OText AccuracyDisclosure); ("a", OText (DA r)); ("b", OText (DB r));
        ("entries", OArr (map entry_json (Entries r)));
        ("monthly_usd_delta", ONum (f_div (f_of_Z (DiffReport_MonthlyUSDCentsDelta r)) (f_of_Z 100)))].
Definition DiffReport_WriteJSON (r : DiffReport) : option string := encode_pretty (diff_json r).

Definition grade_json (g : Grade) : jvalue :=
  OObj [("letter", OText (Letter g)); ("percentile_rank", OInt (PercentileRank g)); ("sample_size", OInt (Sample g))].
Definition score_json (s : Score) : jvalue :=
  OObj [("workloads_analyzed", OInt (SWorkloads s)); ("source", OText (SSource s)); ("score", OInt (SValue s));
        ("confidence_band", OText (Band s)); ("grade", grade_json (SGrade s));
        ("penalties", OObj (map (λ id, (id, OInt (default 0 (Penalties s !! id)))) (sorted_ids (Penalties s))));
        ("findings", findings_json (SFindings s))].
Definition Score_WriteJSON (s : Score) : option string :=
  encode_pretty (OObj [("accuracy_disclosure", OText AccuracyDisclosure); ("score_report", score_json s)]).

Definition json_failed : string := "json: unsupported value".

Section Program.
Context `{!GoPlatform, !GoSort, !GoMapOrder} (yaml_parse : string → option Node) (unmarshal : string → option Cli.Config)
  (newTheme : bool → Theme) (parse_text : parse_error → string) (config_text : config_error → string)
  (upload_text : upload_error → string) (Quote : string → string) (demoChart : string) (m : machine).

(** *** Reading *)

Definition readFile (path : string) : result string Cli.Config :=
  match open m path with
  | Err e => Err ("config: open " +:+ path +:+ ": " +:+ e)
  | Ok None => Err "config: read"
  | Ok (Some raw) => match Cli.Decode unmarshal raw with Err e => Err (config_text e) | Ok c => Ok c end
  end.

Definition config_Load (explicit : string) : result string Cli.Config :=
  if negb (String.eqb explicit "") then readFile explicit
  else if negb (String.eqb (getenv m "OPTIQOR_CONFIG") "") then readFile (getenv m "OPTIQOR_CONFIG")
  else match cwd m with
  | None => Ok zero_config
  | Some dir =>
      let candidate := (if String.eqb dir "/" then "" else dir) +:+ "/.optiqor.yaml" in
      match stat m candidate with Ok _ => readFile candidate | Err _ => Ok zero_config end
  end.

Definition analyze_text (source : string) (input : option string) : result string Report :=
  match analyze_Run yaml_parse source input None with Err e => Err (parse_text e) | Ok r => Ok r end.

Definition RunPath (path : string) : result string Report :=
  match stat m path with
  | Err e => Err ("analyze: stat " +:+ path +:+ ": " +:+ e)
  | Ok dir =>
      let target := if (dir : bool) then join_values path else path in
      match open m target with
      | Err e => Err ("analyze: open " +:+ target +:+ ": " +:+ e)
      | Ok text => analyze_text target text
      end
  end.

Definition openValues (path : string) : result string (option string) :=
  match abs m path with
  | Err e => Err ("diff: abs " +:+ path +:+ ": " +:+ e)
  | Ok a =>
      match stat m a with
      | Err e => Err ("diff: stat " +:+ a +:+ ": " +:+ e)
      | Ok dir => match open m (if (dir : bool) then join_values a else a) with Err e => Err e | Ok t => Ok t end
      end
  end.

Definition DiffPaths (a b : string) : result string DiffReport :=
  let* fa := openValues a in
  let* fb := openValues b in
  match Diff yaml_parse fa fb a b with
  | Err (label, e) => Err ("diff: parse " +:+ Quote label +:+ ": " +:+ parse_text e)
  | Ok r => Ok r
  end.

(** The chart named by the arguments, the current directory without one. *)
Definition chart_of (args : list string) : result string Report :=
  let path := match args with p :: _ => p | [] => "." end in
  match abs m path with Err e => Err e | Ok a => RunPath a end.

(** *** Options of the output *)

Definition resolveColor (noColor : bool) : bool :=
  if noColor then false
  else if negb (String.eqb (getenv m "NO_COLOR") "") then false
  else if String.eqb (getenv m "CLICOLOR_FORCE") "1" then true
  else stdout_tty m.

Definition main_atoi (s : string) : option Z := atoi_runes 0 (runes s).
Definition terminalWidth : Z :=
  if negb (String.eqb (getenv m "COLUMNS") "") then
    match main_atoi (getenv m "COLUMNS") with Some n => if 20 <? n then n else 80 | None => 80 end
  else 80.

Definition renderOpts (color : bool) : Options :=
  {| OColor := color; OWidth := terminalWidth; ORoast := false; RoastTagline := ""; RoastFooter := "" |}.
Definition Tagline : string := "Helm chart cost roast — your YAML deserves it".
Definition FooterQuip : string := "Receipts > vibes. Install the agent for the actual bill: optiqor.dev/get".
Definition renderOptsRoast (color : bool) : Options :=
  {| OColor := color; OWidth := terminalWidth; ORoast := true; RoastTagline := Tagline; RoastFooter := FooterQuip |}.

(** *** Writing *)

(** JSON, or nothing and the encoder's error; text. *)
Definition write_json (w : string → effect) (text : option string) : ended :=
  match text with Some s => ([w s], Ok tt) | None => ([], Err (EText json_failed)) end.

(** A file that is opened exists from then on, with what was written to it by the end. *)
Definition write_file (path : string) (r : (string → effect) → ended) : ended :=
  match r (EFile path) with ([], e) => ([EFile path ""], e) | r => r end.

Definition emitReport (color : bool) (rep : Report) (jsonOut : bool) (outputPath : string) (roast : bool) : ended :=
  let body (w : string → effect) : ended :=
    if jsonOut then write_json w (JSON rep)
    else ([w (Render.Text newTheme rep (if roast then renderOptsRoast color else renderOpts color))], Ok tt) in
  if String.eqb outputPath "" then body EStdout
  else match create m outputPath with
  | Some e => ([], Err (EText ("open --output: " +:+ e)))
  | None => write_file outputPath body
  end.

Definition emit_html (path : string) (rep : Report) : ended :=
  match create m path with
  | Some e => ([], Err (EText ("open --html: " +:+ e)))
  | None =>
      match writeHTMLReport (clock m) rep with
      | Some s => ([EFile path s], Ok tt)
      | None => ([EFile path ""], Err (EText "htmlrender"))
      end
  end.

Definition emit_share (rep : Report) : list effect :=
  let '(line, req) := emitShareURL rep (getenv m "OPTIQOR_SHARE_URL") (send m) upload_text in
  match req with Some r => [EPost r] | None => [] end ++ match line with Some s => [EStderr (s +:+ nl)] | None => [] end.

Definition fail_on (rep : Report) (threshold : string) : result error unit :=
  match checkFailOn rep threshold with
  | Err ErrFindings => Err EFindings
  | Err _ => Err (EText ("invalid --fail-on severity " +:+ Quote threshold +:+ " (want low|med|high)"))
  | Ok _ => Ok tt
  end.

(** Go on with [k] unless [r] failed. *)
Definition andThen (r : ended) (k : ended) : ended :=
  match r.2 with Ok _ => (r.1 ++ k.1, k.2) | Err e => (r.1, Err e) end.

(** *** Commands *)

Definition analyze_report (cfg : Cli.Config) (fl : analyze_flags) (rep : Report) : Report :=
  let rep := Filter rep {| MinSeverity := toUpper (effective (AMinSev fl) (CfgMinSeverity cfg));
                           DetectorIDs := if (length (ADetectors fl) =? 0)%nat then CfgDetectors cfg else ADetectors fl;
                           SecurityOnly := false |} in
  if ARoast fl then Apply rep else rep.

(** Once the HTML report, if there is one, is written. *)
Definition analyze_tail (color : bool) (fl : analyze_flags) (rep : Report) (threshold : string) : ended :=
  andThen (emitReport color rep (AJson fl) (AOutput fl) (ARoast fl))
 (andThen (if AShare fl then emit_share rep else [], Ok tt) ([], fail_on rep threshold)).

Definition analyze_cmd (color : bool) (cfg : Cli.Config) (fl : analyze_flags) (args : list string) : ended :=
  match chart_of args with
  | Err e => ([], Err (EText e))
  | Ok rep =>
      let rep := analyze_report cfg fl rep in
      andThen (if String.eqb (AHtml fl) "" then ([], Ok tt) else emit_html (AHtml fl) rep)
        (analyze_tail color fl rep (effective (AFailOn fl) (CfgFailOn cfg)))
  end.

Definition audit_cmd (color : bool) (jsonOut : bool) (failOn outputPath : string) (args : list string) : ended :=
  match chart_of args with
  | Err e => ([], Err (EText e))
  | Ok rep =>
      let rep := Filter rep {| MinSeverity := ""; DetectorIDs := []; SecurityOnly := true |} in
      andThen (emitReport color rep jsonOut outputPath false) ([], fail_on rep failOn)
  end.

Definition score_cmd (color : bool) (jsonOut : bool) (args : list string) : ended :=
  match chart_of args with
  | Err e => ([], Err (EText e))
  | Ok rep =>
      let s := Score_Compute (Source rep) (Workloads rep) (Findings rep) in
      if jsonOut then write_json EStdout (Score_WriteJSON s) else ([EStdout (Score_WriteText newTheme s (renderOpts color))], Ok tt)
  end.

Definition demo_cmd (color : bool) (jsonOut roast : bool) : ended :=
  match analyze_text "demo" (Some demoChart) with
  | Err e => ([], Err (EText e))
  | Ok rep =>
      let rep := if roast then Apply rep else rep in
      if jsonOut then write_json EStdout (JSON rep)
      else ([EStdout (Render.Text newTheme rep (if roast then renderOptsRoast color else renderOpts color))], Ok tt)
  end.

Definition diff_cmd (color : bool) (jsonOut : bool) (a b : string) : ended :=
  match DiffPaths a b with
  | Err e => ([], Err (EText e))
  | Ok r =>
      if jsonOut then write_json EStdout (DiffReport_WriteJSON r)
      else ([EStdout (DiffReport_WriteText newTheme r (renderOpts color))], Ok tt)
  end.

(** For now the same as a diff. *)
Definition compare_cmd (color : bool) (jsonOut : bool) (a b : string) : ended :=
  match DiffPaths a b with
  | Err e => ([], Err (EText e))
  | Ok r =>
      if jsonOut then write_json EStdout (DiffReport_WriteJSON r)
      else ([EStdout (DiffReport_WriteText newTheme r (renderOpts color))], Ok tt)
  end.

Definition backtick_char : ascii := ascii_of_N 96.
Definition notYetImplemented (name : string) : string :=
  String backtick_char ("optiqor " +:+ name +:+ String backtick_char " is not yet implemented (see https://optiqor.dev/roadmap)").

Definition watch_cmd : ended := ([], Err (EText (notYetImplemented "watch"))).

Definition run_command (color : bool) (cfg : Cli.Config) (c : command) : ended :=
  match c with
  | CAnalyze fl args => analyze_cmd color cfg fl args
  | CDemo jsonOut roast => demo_cmd color jsonOut roast
  | CDiff jsonOut a b => diff_cmd color jsonOut a b
  | CScore jsonOut args => score_cmd color jsonOut args
  | CAudit jsonOut failOn out args => audit_cmd color jsonOut failOn out args
  | CWatch => watch_cmd
  | CCompare jsonOut a b => compare_cmd color jsonOut a b
  end.

(** The persistent pre-run loads the configuration and settles the colours. *)
Definition execute (p : parsed) : ended :=
  match p with
  | Usage e => ([], Err (EText e))
  | Printed s => ([EStdout s], Ok tt)
  | Invoked inv =>
      match config_Load (configPath inv) with
      | Err e => ([], Err (EText e))
      | Ok cfg => run_command (resolveColor (noColor inv || CfgNoColor cfg)) cfg (Cmd inv)
      end
  end.

Definition printError (text : string) : effect :=
  let color := stderr_tty m && String.eqb (getenv m "NO_COLOR") "" in
  EStderr (Render.Render (newTheme color) sSevHigh " ERROR " +:+ " " +:+ text +:+ nl).

Definition exitSuccess : Z := 0.
Definition exitFindings : Z := 1.
Definition exitInvocation : Z := 2.

(** Everything that happens, and the exit status. *)
Definition main (p : parsed) : list effect * Z :=
  match execute p with
  | (es, Ok _) => (es, exitSuccess)
  | (es, Err EFindings) => (es, exitFindings)
  | (es, Err (EText e)) => (es ++ [printError e], exitInvocation)
  end.

(** ** What a run does *)

Definition stdout_of (e : effect) : option string := match e with EStdout s => Some s | _ => None end.
Definition post_of (e : effect) : option upload_request := match e with EPost r => Some r | _ => None end.

(** The report a run is judged by, its threshold, and where it is printed as what. *)
Record judgement := mkJudgement { JReport : Report; JThreshold : string; JJson : bool; JOutput : string; JHtml : string }.
Definition judged (p : parsed) : option judgement :=
  match p with
  | Invoked inv =>
      match config_Load (configPath inv), Cmd inv with
      | Ok cfg, CAnalyze fl args =>
          match chart_of args with
          | Ok rep => Some (mkJudgement (analyze_report cfg fl rep) (effective (AFailOn fl) (CfgFailOn cfg)) (AJson fl) (AOutput fl) (AHtml fl))
          | Err _ => None
          end
      | Ok _, CAudit jsonOut failOn out args =>
          match chart_of args with
          | Ok rep => Some (mkJudgement (Filter rep {| MinSeverity := ""; DetectorIDs := []; SecurityOnly := true |}) failOn jsonOut out "")
          | Err _ => None
          end
      | _, _ => None
      end
  | _ => None
  end.

(** A finding at the threshold, which is one of the three severities. *)
Definition hits (rep : Report) (t : string) : Prop :=
  validSeverity (toUpper t) = true ∧ ∃ f, f ∈ Findings rep ∧ main_severityRank (toUpper t) <= main_severityRank (FSeverity f).

Definition shares (p : parsed) : Prop := ∃ inv fl args, p = Invoked inv ∧ Cmd inv = CAnalyze fl args ∧ AShare fl = true.

(** The forms a report is printed in. *)
Definition form_of (rep : Report) (jsonOut : bool) (s : string) : Prop :=
  if jsonOut then JSON rep = Some s else ∃ opts, s = Render.Text newTheme rep opts.

Lemma emit_report color rep jsonOut out roast : let r := emitReport color rep jsonOut out roast in
  (∃ s, form_of rep jsonOut s ∧ r = ([if String.eqb out "" then EStdout s else EFile out s], Ok tt)) ∨
  ((∃ e, r.2 = Err (EText e)) ∧ (r.1 = [] ∨ r.1 = [EFile out ""]) ∧ (create m out ≠ None ∧ out ≠ "" ∨ jsonOut = true ∧ JSON rep = None)).
Proof.
  unfold emitReport, form_of. cbv zeta. destruct (String.eqb_spec out "") as [Ho|Ho].
  - destruct jsonOut; [|left; eexists; split; [by eexists|done]]. unfold write_json. destruct (JSON rep) as [s|]; [by left; exists s|].
    right. split_and!; [by eexists|by left|by right].
  - destruct (create m out) as [e|] eqn:E; [right; split_and!; [by eexists|by left|by left]|].
    unfold write_file. destruct jsonOut; [|left; eexists; split; [by eexists|done]]. unfold write_json.
    destruct (JSON rep) as [s|]; [by left; exists s|]. right. split_and!; [by eexists|by right|by right].
Qed.

Lemma html_files path rep : let r := emit_html path rep in
  (∃ s, r = ([EFile path s], Ok tt)) ∨ (r.1 = [] ∧ create m path ≠ None ∧ ∃ e, r.2 = Err (EText e)).
Proof.
  unfold emit_html. destruct (create m path) as [e|]; [right; split_and!; [done..|by eexists]|].
  destruct (proj1 (pages_exist (clock m)) rep) as [s ->]. left. by exists s.
Qed.

Lemma share_effects rep : omap stdout_of (emit_share rep) = [] ∧ (length (omap post_of (emit_share rep)) <= 1)%nat.
Proof.
  unfold emit_share. destruct (emitShareURL _ _ _ _) as [[line|] [req|]]; cbn; (split; [done|lia]).
Qed.

Lemma fail_on_hits rep t : fail_on rep t = Err EFindings ↔ hits rep t.
Proof.
  unfold fail_on, hits. rewrite <-checkFailOn_findings. destruct (checkFailOn rep t) as [|[]]; naive_solver.
Qed.
Lemma fail_on_cases rep t : fail_on rep t = Ok tt ∨ fail_on rep t = Err EFindings ∨ ∃ e, fail_on rep t = Err (EText e).
Proof. unfold fail_on. destruct (checkFailOn rep t) as [[]|[]]; eauto. Qed.

(** Every file can be created and the report has a JSON form if it is to have one. *)
Definition writable (j : judgement) : Prop := (∀ path, create m path = None) ∧ (JJson j = true → JSON (JReport j) ≠ None).
Definition printed_as (j : judgement) (s : string) : effect := if String.eqb (JOutput j) "" then EStdout s else EFile (JOutput j) s.

Definition html_effects (h : list effect) : Prop := h = [] ∨ ∃ path s, h = [EFile path s].

(** How printing and what follows it can end for a judgement. *)
Definition printed (sharing : Prop) (j : judgement) (r : ended) : Prop :=
  (∃ e w, r = (w, Err (EText e)) ∧ (w = [] ∨ w = [EFile (JOutput j) ""]) ∧ ¬ writable j) ∨
  (∃ s sh, form_of (JReport j) (JJson j) s ∧ (sh = [] ∨ sharing ∧ sh = emit_share (JReport j)) ∧
     r = (printed_as j s :: sh, fail_on (JReport j) (JThreshold j))).

Lemma printed_tail (sharing : Prop) color (share : bool) roast j : (share = true → sharing) →
  printed sharing j (andThen (emitReport color (JReport j) (JJson j) (JOutput j) roast)
    (andThen (if share then emit_share (JReport j) else [], Ok tt) ([], fail_on (JReport j) (JThreshold j)))).
Proof.
  intros Hs. destruct (emit_report color (JReport j) (JJson j) (JOutput j) roast) as [(s & Hf & ->)|((e & He) & Hw & Hbad)].
  - right. exists s, (if share then emit_share (JReport j) else []). split_and!; [done| |].
    + destruct share; [right; split; [by apply Hs|done]|by left].
    + unfold andThen. cbn [fst snd app]. by rewrite app_nil_r.
  - left. exists e, (emitReport color (JReport j) (JJson j) (JOutput j) roast).1. unfold andThen at 1. rewrite He. split_and!; [done..|].
    intros [Hc Hj]. destruct Hbad as [[Hb _]|[Hb1 Hb2]]; [by apply Hb|by apply Hj].
Qed.

Lemma judged_run p j : judged p = Some j → ∃ h r, html_effects h ∧ execute p = (h ++ r.1, r.2) ∧
  (printed (shares p) j r ∨ h = [] ∧ r.1 = [] ∧ (∃ e, r.2 = Err (EText e)) ∧ ¬ writable j).
Proof.
  unfold judged. destruct p as [e|s|inv]; [done..|]. cbn [execute]. destruct (config_Load _) as [cfg|e]; [|done].
  destruct (Cmd inv) as [fl args|? ?|? ? ?|? ?|jsonOut failOn out args| |? ? ?] eqn:Ec; try done; cbn [run_command].
  - unfold analyze_cmd. destruct (chart_of args) as [rep|e]; [|done]. intros [= <-].
    set (j := mkJudgement _ _ _ _ _). set (color := resolveColor _). clearbody color.
    pose proof (printed_tail (shares (Invoked inv)) color (AShare fl) (ARoast fl) j (λ Hs, ex_intro _ inv (ex_intro _ fl (ex_intro _ args (conj eq_refl (conj Ec Hs)))))) as Ht.
    destruct (String.eqb_spec (AHtml fl) "") as [Hh|Hh]; [eexists [], _; split_and!; [by left|done|left; exact Ht]|].
    destruct (html_files (AHtml fl) (analyze_report cfg fl rep)) as [(s & ->)|(Hn & Hc & e & He)].
    + eexists [_], _. split_and!; [right; by eexists _, _|done|left; exact Ht].
    + unfold andThen at 1. rewrite He. exists [], ((emit_html (AHtml fl) (analyze_report cfg fl rep)).1, Err (EText e)).
      split_and!; [by left|done|right]. split_and!; [done..|by eexists|]. intros [Hcr _]. by apply Hc.
  - unfold audit_cmd. destruct (chart_of args) as [rep|e]; [|done]. intros [= <-].
    assert (false = true → shares (Invoked inv)) as Hf by done.
    pose proof (printed_tail (shares (Invoked inv)) (resolveColor (noColor inv || CfgNoColor cfg)) false false
      (mkJudgement (Filter rep {| MinSeverity := ""; DetectorIDs := []; SecurityOnly := true |}) failOn jsonOut out "") Hf) as Ht.
    eexists [], _. split_and!; [by left|apply surjective_pairing|left; exact Ht].
Qed.

Lemma json_run text : (∃ s, write_json EStdout text = ([EStdout s], Ok tt)) ∨ (∃ e, write_json EStdout text = ([], Err (EText e))).
Proof. destruct text; [left|right]; by eexists. Qed.

Lemma unjudged_run p : judged p = None → (∃ s, execute p = ([EStdout s], Ok tt)) ∨ (∃ e, execute p = ([], Err (EText e))).
Proof.
  unfold judged. destruct p as [e|s|inv]; cbn [execute]; [right; by eexists|left; by eexists|].
  destruct (config_Load _) as [cfg|e]; [|right; by eexists]. destruct (Cmd inv) as [fl args|j r|j a b|j args|j t o args| |j a b]; cbn [run_command].
  - unfold analyze_cmd. destruct (chart_of args); [done|right; by eexists].
  - unfold demo_cmd. intros _. destruct (analyze_text _ _); [|right; by eexists]. destruct j; [apply json_run|left; by eexists].
  - unfold diff_cmd. intros _. destruct (DiffPaths _ _); [|right; by eexists]. destruct j; [apply json_run|left; by eexists].
  - unfold score_cmd. intros _. destruct (chart_of args); [|right; by eexists]. destruct j; [apply json_run|left; by eexists].
  - unfold audit_cmd. destruct (chart_of args); [done|right; by eexists].
  - right. by eexists.
  - unfold compare_cmd. intros _. destruct (DiffPaths _ _); [|right; by eexists]. destruct j; [apply json_run|left; by eexists].
Qed.

(** What a run leaves on the standard output and sends. *)
Definition outputs (es : list effect) : list string := omap stdout_of es.
Definition posts (es : list effect) : list upload_request := omap post_of es.

Lemma html_quiet h es : html_effects h → outputs (h ++ es) = outputs es ∧ posts (h ++ es) = posts es.
Proof. by intros [->|(path & s & ->)]. Qed.

Lemma last_line es e : outputs (es ++ [printError e]) = outputs es ∧ posts (es ++ [printError e]) = posts es.
Proof. unfold outputs, posts. rewrite !omap_app. cbn [omap list_omap printError stdout_of post_of]. by rewrite !app_nil_r. Qed.

(** What is said of a run of [main] by how [execute] ended. *)
Lemma main_of p es r : execute p = (es, r) → outputs (main p).1 = outputs es ∧ posts (main p).1 = posts es ∧
  (∀ x, x ∈ es → x ∈ (main p).1) ∧
  (main p).2 = match r with Ok _ => 0 | Err EFindings => 1 | Err (EText _) => 2 end.
Proof.
  unfold main. intros ->. destruct r as [|[e|]]; [done| |done]. cbn [fst snd]. destruct (last_line es e) as [-> ->].
  split_and!; [done..| |done]. intros x Hx. apply elem_of_app. by left.
Qed.

(** C19 The command line. Whatever the arguments, the files and the terminal are: the exit
    status is 0, 1 or 2; at most one text goes to the standard output and at most one request
    leaves the machine, and that only for an analysis run with --share. The status is 1 only
    for an analysis or an audit with a finding at its threshold, and it is then 1 if the
    output can be written at all. What these two print is the report they are judged by, as
    JSON or as text, on the standard output or, with --output, in that file and nowhere
    else. *)
Theorem main_contract (p : parsed) : let '(es, code) := main p in
  (code = 0 ∨ code = 1 ∨ code = 2) ∧
  (length (outputs es) <= 1)%nat ∧ (length (posts es) <= 1)%nat ∧ (posts es ≠ [] → shares p) ∧
  (code = 1 → ∃ j, judged p = Some j ∧ hits (JReport j) (JThreshold j)) ∧
  (∀ j, judged p = Some j →
     (∀ s, s ∈ outputs es → JOutput j = "" ∧ form_of (JReport j) (JJson j) s) ∧
     (writable j → (code = 1 ↔ hits (JReport j) (JThreshold j)) ∧
        ∃ s, form_of (JReport j) (JJson j) s ∧ printed_as j s ∈ es)).
Proof.
  destruct (main p) as [es code] eqn:Em. destruct (judged p) as [j|] eqn:Ej.
  - destruct (judged_run p j Ej) as (h & [es' r] & Hh & He & Hr). cbn [fst snd] in *.
    destruct (main_of _ _ _ He) as (Ho & Hp & Hin & Hcode). rewrite Em in Ho, Hp, Hin, Hcode. cbn [fst snd] in *.
    destruct (html_quiet h es' Hh) as [Ho' Hp']. rewrite Ho, Hp, Ho', Hp'.
    destruct Hr as [[(e & w & [= -> ->] & Hw & Hnw)|(s & sh & Hf & Hsh & [= -> ->])]|(-> & -> & (e & ->) & Hnw)].
    + assert (outputs w = [] ∧ posts w = []) as [-> ->] by (by destruct Hw as [->| ->]). rewrite Hcode.
      split_and!; [by right; right|cbn; lia|cbn; lia|done|done|]. intros j' [= <-]. split; [by intros s ?%elem_of_nil|done].
    + assert (outputs (printed_as j s :: sh) = (if String.eqb (JOutput j) "" then [s] else []) ∧ posts (printed_as j s :: sh) = posts sh) as [-> ->].
      { assert (outputs sh = []) as Hs by (destruct Hsh as [->|[_ ->]]; [done|apply share_effects]).
        unfold printed_as. destruct (String.eqb (JOutput j) ""); unfold outputs, posts in *; cbn; by rewrite ?Hs. }
      split_and!.
      * rewrite Hcode. destruct (fail_on_cases (JReport j) (JThreshold j)) as [->|[->|(e & ->)]]; auto.
      * destruct (String.eqb _ _); cbn; lia.
      * destruct Hsh as [->|[_ ->]]; [cbn; lia|apply share_effects].
      * by destruct Hsh as [->|[? _]].
      * intros ->. exists j. split; [done|]. apply fail_on_hits. destruct (fail_on_cases (JReport j) (JThreshold j)) as [E|[E|(e & E)]]; rewrite E in Hcode; done.
      * intros j' [= <-]. split.
        -- intros s'. destruct (String.eqb_spec (JOutput j) "") as [Hout|Hout]; [by intros ->%list_elem_of_singleton|by intros ?%elem_of_nil].
        -- intros _. rewrite <-fail_on_hits, Hcode. split.
           { destruct (fail_on_cases (JReport j) (JThreshold j)) as [->|[->|(e & ->)]]; done. }
           exists s. split; [done|]. apply Hin, elem_of_app. right. by left.
    + rewrite Hcode. split_and!; [by right; right|cbn; lia|cbn; lia|done|done|]. intros j' [= <-]. split; [by intros s ?%elem_of_nil|done].
  - destruct (unjudged_run p Ej) as [(s & He)|(e & He)]; destruct (main_of _ _ _ He) as (Ho & Hp & _ & Hcode);
      rewrite Em in Ho, Hp, Hcode; cbn [fst snd] in *; rewrite Ho, Hp, Hcode; (split_and!; [auto|cbn; lia|cbn; lia|done..]).
Qed.
(** The flag [--offline] has no effect. *)
Lemma offline_ignored color cfg j h o o' sh r sev ds f out args :
  run_command color cfg (CAnalyze (mkAnalyze j h o sh r sev ds f out) args) =
  run_command color cfg (CAnalyze (mkAnalyze j h o' sh r sev ds f out) args).
Proof. reflexivity. Qed.
End Program.

(** ** Runs on a small machine *)

Definition demo_machine (config : option string) (columns : string) : machine :=
  mkMachine (λ key, if String.eqb key "COLUMNS" then columns else "") (Some "/w") (λ p, Ok ("/w/" +:+ p))
    (λ p, if String.eqb p "/w/.optiqor.yaml" then match config with Some _ => Ok false | None => Err "no such file" end else Ok false)
    (λ p, if String.eqb p "/w/.optiqor.yaml" then Ok config else Ok (Some "chart"))
    (λ _, None) false false (λ _, Status 200) 0.
Definition demo_unmarshal (raw : string) : option Cli.Config :=
  if String.eqb raw "bad" then None else Some {| CfgMinSeverity := ""; CfgDetectors := []; CfgFailOn := raw; CfgNoColor := false |}.
Definition demo_main (config : option string) (columns : string) (c : command) : list effect * Z :=
  @main amd64 stable_GoSort canonical_order doc_yaml demo_unmarshal plain_theme (λ _, "parse") (λ _, "config: yaml") (λ _, "e") id ""
    (demo_machine config columns) (Invoked (mkInvocation false "" c)).
Definition demo_flags (offline share : bool) (failOn : string) : analyze_flags := mkAnalyze true "" offline share false "" [] failOn "".

(** What each effect was: text on a stream, a file, a request. *)
Definition trace (es : list effect) : list string :=
  map (λ e, match e with EStdout _ => "out" | EStderr s => "err " +:+ str_take 10 s | EFile p _ => "file " +:+ p | EPost r => "post " +:+ Endpoint r end) es.

(** With [--offline], the default, [--share] still uploads the report. A threshold that is no
    severity is refused only after the report was printed and uploaded. A configuration in the
    working directory that does not parse stops every command, the bundled demo included,
    though only an explicit path is said to. An audit takes nothing from the configuration. A
    width that does not fit wraps around. *)
Lemma command_divergences :
  (let r := demo_main None "" (CAnalyze (demo_flags true true "critical") ["c"]) in
   trace r.1 = ["out"; "post " +:+ UploadEndpoint; "err share URL:"; "err  ERROR  in"] ∧ r.2 = 2) ∧
  (let r := demo_main (Some "bad") "" (CDemo true false) in trace r.1 = ["err  ERROR  co"] ∧ r.2 = 2) ∧
  (demo_main (Some "low") "" (CAnalyze (demo_flags true false "") ["c"])).2 = 1 ∧
  (demo_main (Some "low") "" (CAudit true "" "" ["c"])).2 = 0 ∧
  terminalWidth (demo_machine None "18446744073709551716") = 100.
Proof. split_and!; by vm_compute. Qed.
