(* ===== verification/AttributionPg.v ===== *)
(** The tables behind the attribution of merged fixes: the store
    (backend/internal/applyfix/attribution/store_pg.go), the resolver of installations
    (resolver_pg.go) and the row policies of backend/migrations they run under. *)

From S2P Require Import Prelude GoNum GoStr GoTime Tenancy Json Config Attribution.
Local Open Scope Z_scope.

(** ** Tables *)

Record fix_row := mkFix {
  FixID : string; FixTenant : string; FixVCS : string; FixRepo : string; FixPR : Z; FixURL : string; FixState : string;
  FixMergedAt : option Z; FixRecommendation : string }.
Record recommendation := mkRec { RecTenant : string; RecWorkload : option string; RecTitle : string; RecCents : Z }.
Record installation := mkInst { InsTenant : string; InsProvider : string; InsID : Z; InsStatus : string }.
Record audit := mkAudit { AudAction : string; AudReason : string }.

Record database := mkDB {
  fixes : list fix_row; recommendations : gmap string recommendation; installations : list installation; audit_log : list audit }.

(** ** Sessions and policies

    Row security does not bind the owner of the tables; it binds the role of the service. The
    settings live as long as the transaction. *)
Inductive role := Owner | App.
Record session := mkSession { app_tenant : string; superuser : bool }.
Definition fresh_session : session := mkSession "" false.

Section Policies.
(** The cast of a text to a UUID, in the form it is printed. *)
Context (uuid : string → option string) (who : role).

(** [None] is a failed cast; [Some None] is NULL. *)
Definition current_tenant_id (s : session) : option (option string) :=
  if String.eqb (app_tenant s) "" then Some None else option_map Some (uuid (app_tenant s)).

(** The policy of apply_fixes and recommendations, for the tenant of a row. *)
Definition tenant_isolation (s : session) (tenant : string) : option bool :=
  match who with
  | Owner => Some true
  | App => option_map (λ cur, match cur with Some c => String.eqb tenant c | None => false end || superuser s) (current_tenant_id s)
  end.
(** The one of vcs_installations (migration 0005). *)
Definition installations_policy (s : session) (tenant : string) : bool :=
  match who with Owner => true | App => String.eqb tenant (app_tenant s) end.
(** The one of audit_log, for the rows of [set_superuser_context], which have no tenant. *)
Definition audit_policy (s : session) : bool := match who with Owner => true | App => superuser s end.

(** ** Statements *)

Definition bind_session (b : bind) (s : session) : session :=
  match b with BindTenant t | BindTenantWorkspace t _ => mkSession t (superuser s) end.

(** [set_superuser_context]: the flag first, then the row of the audit; [None] is an error. *)
Definition set_superuser_context (on : bool) (reason : string) (s : session) (log : list audit) : option (session * list audit) :=
  if String.eqb (trim_space reason) "" then None
  else
    let s := mkSession (app_tenant s) on in
    if audit_policy s then
      Some (s, log ++ [mkAudit (if on then "superuser_context.enable" else "superuser_context.disable") reason])
    else None.

Definition installation_lookup (s : session) (provider : string) (id : Z) (l : list installation) : list string :=
  map InsTenant (List.filter (λ i, String.eqb (InsProvider i) provider && (InsID i =? id) && String.eqb (InsStatus i) "active" &&
    installations_policy s (InsTenant i)) l).

Definition visible (s : session) (tenant : string) : bool := default false (tenant_isolation s tenant).

(** The columns of a row: those of a recommendation the session does not see are empty. *)
Definition row_of (s : session) (recs : gmap string recommendation) (f : fix_row) : Row :=
  match recs !! FixRecommendation f with
  | Some r => if visible s (RecTenant r) then mkRow (FixID f) (FixTenant f) (FixURL f) (default "" (RecWorkload r)) (RecTitle r) (RecCents r)
              else mkRow (FixID f) (FixTenant f) (FixURL f) "" "" 0
  | None => mkRow (FixID f) (FixTenant f) (FixURL f) "" "" 0
  end.

Definition open_fix (s : session) (repo : string) (pr : Z) (f : fix_row) : bool :=
  String.eqb (FixVCS f) "github" && String.eqb (FixRepo f) repo && (FixPR f =? pr) && negb (String.eqb (FixState f) "merged") &&
  visible s (FixTenant f).

(** A failed cast of the bound tenant fails every statement on the tables of a tenant. *)
Definition usable (s : session) : bool := match who with Owner => true | App => match current_tenant_id s with Some _ => true | None => false end end.

(** ** The store *)

Inductive pg_error := PgTenant (e : tenancy_error) | PgBegin | PgBind | PgStatement | PgCommit | ErrNoMatchingApplyFix
                    | ErrUnknownInstallation | PgArguments | PgSuperuserOn | PgSuperuserOff.

(** Which of the steps of a transaction the server fails at, if any. *)
Inductive failing := FailBegin | FailBind | FailStatement | FailCommit.

Definition LookupByRepoPR (fails : option failing) (d : database) (t : TenantContext) (repo : string) (pr : Z) : result pg_error Row :=
  match TenantContext_Validate t with
  | Some e => Err (PgTenant e)
  | None =>
      match TenantBindArgs t with
      | Err e => Err (PgTenant e)
      | Ok b =>
          match fails with
          | Some FailBegin => Err PgBegin
          | Some FailBind => Err PgBind
          | Some FailStatement => Err PgStatement
          | _ =>
              let s := bind_session b fresh_session in
              if negb (usable s) then Err PgStatement
              else match List.filter (open_fix s repo pr) (fixes d) with
                   | [] => Err ErrNoMatchingApplyFix
                   | f :: _ => Ok (row_of s (recommendations d) f)
                   end
          end
      end
  end.

Definition merge_row (at_ : Z) (f : fix_row) : fix_row :=
  mkFix (FixID f) (FixTenant f) (FixVCS f) (FixRepo f) (FixPR f) (FixURL f) "merged" (Some at_) (FixRecommendation f).
Definition mergeable (s : session) (id : string) (f : fix_row) : bool :=
  String.eqb (FixID f) id && negb (String.eqb (FixState f) "merged") && visible s (FixTenant f).

(** The tables are as they were unless the transaction commits. *)
Definition MarkMerged (fails : option failing) (d : database) (t : TenantContext) (id : string) (mergedAt : Z) : result pg_error database :=
  match TenantContext_Validate t with
  | Some e => Err (PgTenant e)
  | None =>
      match TenantBindArgs t with
      | Err e => Err (PgTenant e)
      | Ok b =>
          match fails with
          | Some FailBegin => Err PgBegin
          | Some FailBind => Err PgBind
          | _ =>
              let s := bind_session b fresh_session in
              match fails, uuid id with
              | Some FailStatement, _ | _, None => Err PgStatement
              | _, Some id =>
                  if negb (usable s) then Err PgStatement
                  else if negb (existsb (mergeable s id) (fixes d)) then Err ErrNoMatchingApplyFix
                  else match fails with
                       | Some FailCommit => Err PgCommit
                       | _ => Ok (mkDB (map (λ f, if mergeable s id f then merge_row mergedAt f else f) (fixes d))
                                    (recommendations d) (installations d) (audit_log d))
                       end
              end
          end
      end
  end.

(** ** The resolver *)

Definition resolve_reason (provider : string) (id : Z) : string := "vcs webhook resolve installation " +:+ provider +:+ "/" +:+ itoa id.

(** The tenant, and the tables after the call: without a commit the rows of the audit are
    gone with everything else. *)
Definition ResolveInstallation (fails : option failing) (d : database) (provider : string) (id : Z) : result pg_error string * database :=
  if String.eqb provider "" || (id =? 0) then (Err PgArguments, d)
  else match fails with
  | Some FailBegin => (Err PgBegin, d)
  | Some FailBind => (Err PgSuperuserOn, d)
  | _ =>
      let reason := resolve_reason provider id in
      match set_superuser_context true reason fresh_session (audit_log d) with
      | None => (Err PgSuperuserOn, d)
      | Some (s, log) =>
          match fails with
          | Some FailStatement => (Err PgStatement, d)
          | _ =>
              match installation_lookup s provider id (installations d) with
              | [] => (Err ErrUnknownInstallation, d)
              | tenant :: _ =>
                  match set_superuser_context false reason s log with
                  | None => (Err PgSuperuserOff, d)
                  | Some (_, log) =>
                      match fails with
                      | Some FailCommit => (Err PgCommit, d)
                      | _ => (Ok tenant, mkDB (fixes d) (recommendations d) (installations d) log)
                      end
                  end
              end
          end
      end
  end.

(** ** The handler on the tables *)

Section Webhook.
(** Posting the comment, and the servers' failures. *)
Context (post : TenantContext → string → string → Z → string → bool) (f_resolve f_lookup f_mark : option failing).

Definition to_option {A E} (r : result E A) : option A := match r with Ok a => Some a | Err _ => None end.

Definition pg_handler (d : database) : Handler :=
  mkHandler (λ p i, to_option (ResolveInstallation f_resolve d p i).1) (λ t repo n, to_option (LookupByRepoPR f_lookup d t repo n)) post
    (λ t id at_, is_ok (MarkMerged f_mark d t id at_)).

(** The marks of a run, on the tables; the resolver leaves its own trace. *)
Definition apply_marks (d : database) (es : list effect) : database :=
  foldl (λ d e, match e with
                | Marked t id at_ => default d (to_option (MarkMerged f_mark d t id at_))
                | Posted _ _ _ _ _ => d
                end) d es.

Definition serve_webhook (d : database) (now : Z) (body : string) : list effect * database :=
  let es := on_webhook (pg_handler d) now body in
  let d' := match ParseGitHub body with
            | Ok ev => if (PRNumber ev <=? 0) || String.eqb (RepoOwner ev) "" || String.eqb (RepoName ev) "" then d
                       else (ResolveInstallation f_resolve d (Provider ev) (InstallationID ev)).2
            | Err _ => d
            end in
  (es, apply_marks d' es).
End Webhook.
End Policies.

(** ** Facts *)

Section Facts.
Context (uuid : string → option string).

(** As the service's own role the resolver finds nothing: the policy of the installations
    knows no superuser context, and no tenant is bound yet. *)
Lemma app_resolves_nothing fails d provider id : Forall (λ i, InsTenant i ≠ "") (installations d) →
  ∃ e, ResolveInstallation App fails d provider id = (Err e, d).
Proof.
  intros Hd. unfold ResolveInstallation. destruct (_ || _); [by eexists|].
  assert (set_superuser_context App true (resolve_reason provider id) fresh_session (audit_log d) =
    Some (mkSession "" true, audit_log d ++ [mkAudit "superuser_context.enable" (resolve_reason provider id)]) ∨
    set_superuser_context App true (resolve_reason provider id) fresh_session (audit_log d) = None) as Hs.
  { unfold set_superuser_context. destruct (String.eqb _ _); [by right|by left]. }
  assert (installation_lookup App (mkSession "" true) provider id (installations d) = []) as Hl.
  { unfold installation_lookup. induction Hd as [|i l Hi _ IH]; [done|]. cbn [List.filter installations_policy app_tenant].
    rewrite (proj2 (String.eqb_neq _ _) Hi), andb_false_r. done. }
  destruct fails as [[]|]; try (by eexists); destruct Hs as [->| ->]; try (by eexists); rewrite Hl; by eexists.
Qed.

(** As the owner, it finds an active installation, or none; and only then, if the
    transaction commits, does the audit keep anything. *)
Lemma owner_resolves fails d provider id : let r := ResolveInstallation Owner fails d provider id in
  (∀ tenant, r.1 = Ok tenant → ∃ i, i ∈ installations d ∧ InsTenant i = tenant ∧ InsProvider i = provider ∧ InsID i = id ∧ InsStatus i = "active") ∧
  fixes r.2 = fixes d ∧ recommendations r.2 = recommendations d ∧ installations r.2 = installations d ∧
  (is_ok r.1 = true → audit_log r.2 = audit_log d ++ [mkAudit "superuser_context.enable" (resolve_reason provider id);
                                                     mkAudit "superuser_context.disable" (resolve_reason provider id)]) ∧
  (is_ok r.1 = false → r.2 = d).
Proof.
  unfold ResolveInstallation, set_superuser_context. cbv zeta. destruct (String.eqb provider "" || (id =? 0)); [by split_and!|].
  destruct (String.eqb (trim_space (resolve_reason provider id)) ""); [by destruct fails as [[]|]; split_and!|]. cbn [audit_policy].
  assert (∀ tenant l, installation_lookup Owner (mkSession "" true) provider id (installations d) = tenant :: l →
    ∃ i, i ∈ installations d ∧ InsTenant i = tenant ∧ InsProvider i = provider ∧ InsID i = id ∧ InsStatus i = "active") as Hl.
  { unfold installation_lookup. intros tenant l E. destruct (List.filter _ _) as [|i l'] eqn:Ef; [done|]. injection E as <- _.
    assert (In i (List.filter (λ i, String.eqb (InsProvider i) provider && (InsID i =? id) && String.eqb (InsStatus i) "active" &&
      installations_policy Owner (mkSession "" true) (InsTenant i)) (installations d))) as Hi by (rewrite Ef; by left).
    apply filter_In in Hi as [Hi Hc]. apply andb_true_iff in Hc as [Hc _]. apply andb_true_iff in Hc as [Hc Hs].
    apply andb_true_iff in Hc as [Hp Hn]. exists i. split_and!; [by apply list_elem_of_In|done|by apply String.eqb_eq|by apply Z.eqb_eq|by apply String.eqb_eq]. }
  cbn [app_tenant fresh_session]. destruct fails as [[]|]; try (by split_and!);
    (destruct (installation_lookup _ _ _ _ _) as [|tenant l] eqn:E; [by split_and!|]); cbn [fst snd is_ok fixes recommendations installations audit_log];
    split_and!; try done; try (by intros ? [= <-]; eapply Hl); intros _; by rewrite <-app_assoc.
Qed.

(** What a mark does: the fix becomes merged at that instant, and nothing else changes. *)
Definition merged_from (s : session) (id : string) (at_ : Z) (before after : list fix_row) : Prop :=
  Forall2 (λ f g, if mergeable uuid Owner s id f then g = merge_row at_ f else g = f) before after.

Lemma visible_owner s tenant : visible uuid Owner s tenant = true.
Proof. done. Qed.

Lemma mark_merged_ok fails d t id at_ d' : MarkMerged uuid Owner fails d t id at_ = Ok d' → ∃ s id',
  uuid id = Some id' ∧ existsb (mergeable uuid Owner s id') (fixes d) = true ∧ merged_from s id' at_ (fixes d) (fixes d') ∧
  recommendations d' = recommendations d ∧ installations d' = installations d ∧ audit_log d' = audit_log d.
Proof.
  unfold MarkMerged. destruct (TenantContext_Validate t); [done|]. destruct (TenantBindArgs t) as [b|]; [|done].
  set (s := bind_session b fresh_session). intros Hm. exists s.
  assert (∃ id', uuid id = Some id' ∧ existsb (mergeable uuid Owner s id') (fixes d) = true ∧
    d' = mkDB (map (λ f, if mergeable uuid Owner s id' f then merge_row at_ f else f) (fixes d)) (recommendations d) (installations d) (audit_log d)) as (id' & Hu & He & ->).
  { destruct fails as [[]|]; try done; (destruct (uuid id) as [id'|]; [|done]); cbn [usable negb] in Hm;
      (destruct (existsb _ _) eqn:E; cbn [negb] in Hm; [|done]); (try done); injection Hm as <-; by exists id'. }
  exists id'. split_and!; try done. cbn [fixes]. unfold merged_from. induction (fixes d) as [|f l IH]; [constructor|].
  cbn [map]. constructor; [by destruct (mergeable _ _ _ _ _)|]. clear -l. induction l; constructor; [by destruct (mergeable _ _ _ _ _)|done].
Qed.

(** An unmerged fix of a pull request on GitHub. *)
Definition awaits (repo : string) (pr : Z) (f : fix_row) : Prop :=
  FixVCS f = "github" ∧ FixRepo f = repo ∧ FixPR f = pr ∧ FixState f ≠ "merged".

Lemma open_fix_awaits s repo pr f : open_fix uuid Owner s repo pr f = true ↔ awaits repo pr f.
Proof.
  unfold open_fix, awaits. rewrite visible_owner, andb_true_r, !andb_true_iff, !String.eqb_eq, Z.eqb_eq, negb_true_iff, String.eqb_neq. tauto.
Qed.

Lemma row_of_id s recs f : RowID (row_of uuid Owner s recs f) = FixID f.
Proof. unfold row_of. destruct (recs !! _); [|done]. by rewrite visible_owner. Qed.

Lemma lookup_row fails d t repo pr row : LookupByRepoPR uuid Owner fails d t repo pr = Ok row →
  ∃ f, f ∈ fixes d ∧ awaits repo pr f ∧ RowID row = FixID f.
Proof.
  unfold LookupByRepoPR. destruct (TenantContext_Validate t); [done|]. destruct (TenantBindArgs t) as [b|]; [|done]. intros H.
  assert (match List.filter (open_fix uuid Owner (bind_session b fresh_session) repo pr) (fixes d) with
          | [] => Err ErrNoMatchingApplyFix | f :: _ => Ok (row_of uuid Owner (bind_session b fresh_session) (recommendations d) f) end = Ok row) as Hf
    by (by destruct fails as [[]|]).
  destruct (List.filter _ _) as [|f l] eqn:E; [done|]. injection Hf as <-. exists f.
  assert (In f (List.filter (open_fix uuid Owner (bind_session b fresh_session) repo pr) (fixes d))) as Hi by (rewrite E; by left).
  apply filter_In in Hi as [Hi Ho]. split_and!; [by apply list_elem_of_In|by eapply open_fix_awaits|apply row_of_id].
Qed.

Lemma mergeable_spec s id f : mergeable uuid Owner s id f = true ↔ FixID f = id ∧ FixState f ≠ "merged".
Proof. unfold mergeable. rewrite visible_owner, andb_true_r, andb_true_iff, String.eqb_eq, negb_true_iff, String.eqb_neq. done. Qed.

(** The effects of a webhook, and the fix they are about. *)
Lemma webhook_cases post fr fl fm d now body : let es := on_webhook (pg_handler uuid Owner post fr fl fm d) now body in
  (∀ t id at_, Marked t id at_ ∉ es) ∨
  ∃ ev t at_ text f, ParseGitHub body = Ok ev ∧ f ∈ fixes d ∧ awaits (RepoOwner ev +:+ "/" +:+ RepoName ev) (PRNumber ev) f ∧
    es = [Posted t (RepoOwner ev) (RepoName ev) (PRNumber ev) text; Marked t (FixID f) at_].
Proof.
  unfold on_webhook. destruct (ParseGitHub body) as [ev|] eqn:Ep; [|left; by intros ? ? ? ?%not_elem_of_nil].
  unfold OnMerged. destruct (_ || _); [left; by intros ? ? ? ?%not_elem_of_nil|].
  destruct (Attribution.ResolveInstallation _ _ _) as [tenant|]; [|left; by intros ? ? ? ?%not_elem_of_nil].
  destruct (TenantContext_Validate _); [left; by intros ? ? ? ?%not_elem_of_nil|].
  destruct (Attribution.LookupByRepoPR _ _ _ _) as [row|] eqn:El; [|left; by intros ? ? ? ?%not_elem_of_nil].
  cbn [pg_handler Attribution.LookupByRepoPR] in El. unfold to_option in El.
  destruct (LookupByRepoPR _ _ _ _ _ _ _) as [row'|] eqn:Er; [|done]. injection El as ->.
  apply lookup_row in Er as (f & Hf & Ha & Hid). rewrite Hid.
  destruct (Post _ _ _ _ _ _); cbn [negb snd]; [|left; by intros ? ? ? [?|[]%not_elem_of_nil]%elem_of_cons].
  right. exists ev. destruct (Attribution.MarkMerged _ _ _ _); cbn [negb snd]; by eexists _, _, _, f.
Qed.

Lemma webhook_silent post fr fl fm d now body ev : ParseGitHub body = Ok ev →
  (∀ f, f ∈ fixes d → ¬ awaits (RepoOwner ev +:+ "/" +:+ RepoName ev) (PRNumber ev) f) →
  on_webhook (pg_handler uuid Owner post fr fl fm d) now body = [].
Proof.
  unfold on_webhook. intros -> Hno. unfold OnMerged. destruct (_ || _); [done|].
  destruct (Attribution.ResolveInstallation _ _ _) as [tenant|]; [|done]. destruct (TenantContext_Validate _); [done|].
  destruct (Attribution.LookupByRepoPR _ _ _ _) as [row|] eqn:El; [|done].
  cbn [pg_handler Attribution.LookupByRepoPR] in El. unfold to_option in El.
  destruct (LookupByRepoPR _ _ _ _ _ _ _) as [row'|] eqn:Er; [|done]. apply lookup_row in Er as (f & Hf & Ha & _). by destruct (Hno f Hf).
Qed.

Lemma unmarked fm d es : (∀ t id at_, Marked t id at_ ∉ es) → apply_marks uuid Owner fm d es = d.
Proof.
  unfold apply_marks. revert d. induction es as [|[|t id at_] es IH]; intros d Hn; [done| |].
  - apply IH. intros t' id' at' Hi. apply (Hn t' id' at'). by right.
  - destruct (Hn t id at_). by left.
Qed.

(** Serving the webhook, up to the tables the resolver leaves. *)
Lemma serve_webhook_eq post fr fl fm d now body : ∃ d1, fixes d1 = fixes d ∧
  serve_webhook uuid Owner post fr fl fm d now body =
    (on_webhook (pg_handler uuid Owner post fr fl fm d) now body, apply_marks uuid Owner fm d1 (on_webhook (pg_handler uuid Owner post fr fl fm d) now body)).
Proof.
  unfold serve_webhook. destruct (ParseGitHub body) as [ev|]; [|by exists d]. destruct (_ || _); [by exists d|].
  eexists. split; [|done]. apply (owner_resolves fr d).
Qed.

End Facts.

(** ** A database *)

Definition demo_fix (id state : string) (pr : Z) : fix_row :=
  mkFix id "t-1" "github" "acme/shop" pr "https://github.test/acme/shop/pull/42" state None "rec-1".
Definition demo_db : database :=
  mkDB [demo_fix "fix-8" "merged" 42; demo_fix "fix-9" "open" 42; demo_fix "fix-10" "open" 43]
    {[ "rec-1" := mkRec "t-1" (Some "web") "Over-provisioned CPU" 123456 ]}
    [mkInst "t-0" "github" 7 "suspended"; mkInst "t-1" "github" 7 "active"] [].
Definition demo_post (t : TenantContext) (owner repo : string) (pr : Z) (text : string) : bool := true.

Lemma demo_once : ∀ f g repo pr, f ∈ fixes demo_db → g ∈ fixes demo_db → awaits repo pr f → awaits repo pr g → FixID f = FixID g.
Proof.
  intros f g repo pr Hf Hg (_ & _ & Hf1 & Hf2) (_ & _ & Hg1 & Hg2).
  repeat (apply elem_of_cons in Hf as [->|Hf]); try (by apply not_elem_of_nil in Hf);
    repeat (apply elem_of_cons in Hg as [->|Hg]); try (by apply not_elem_of_nil in Hg);
    cbn [FixID FixPR FixState demo_fix] in *; (reflexivity || congruence).
Qed.

