(* ===== verification/ApiMain.v ===== *)
(** The api's process (backend/cmd/api/main.go and routes.go): what it builds from its
    configuration, the manifest of its routes, the reporter of its errors
    (backend/internal/platform/telemetry/sentry.go and sentry_sdk.go), and how the goroutine
    that serves and the one that waits for it end. *)

From Stdlib Require Import Ascii QArith.
From stdpp Require Import relations.
From S2P Require Import Prelude GoNum GoStr Lines GoTime Sha256 Tenancy Composer Config Ingest Registry JsonOut Http Api Telemetry Anthropic.
Local Open Scope Z_scope.

(** ** The reporter of errors *)

Record SentryConfig := mkSentry { DSN : string; SEnvironment : string; Release : string; SampleRate : float64 }.
Inductive reporter := NoopReporter | Sentry (cfg : SentryConfig).
Inductive sentry_error := RateOutOfRange | ErrSentryNotConfigured | InitFailed.

Definition SentryConfig_Validate (c : SentryConfig) : bool := negb (f_lt (SampleRate c) (f_zero false) || f_lt (f_of_Z 1) (SampleRate c)).

(** [sdk] tells whether the SDK starts. *)
Definition InitSentry (sdk : SentryConfig → bool) (c : SentryConfig) : result sentry_error reporter :=
  if negb (SentryConfig_Validate c) then Err RateOutOfRange
  else if String.eqb (DSN c) "" then Err ErrSentryNotConfigured
  else if sdk c then Ok (Sentry c) else Err InitFailed.

(** [Ok None] leaves the reporter in place. *)
Definition initSentry (sdk : SentryConfig → bool) (cfg : Config.Config) : result sentry_error (option reporter) :=
  if String.eqb (SentryDSN cfg) "" then Ok None
  else
    let env := if String.eqb (SentryEnvironment cfg) "" then Env cfg else SentryEnvironment cfg in
    let rate := if f_le (SentrySampleRate cfg) (f_zero false) then f_of_Z 1 else SentrySampleRate cfg in
    match InitSentry sdk (mkSentry (SentryDSN cfg) env (SentryRelease cfg) rate) with
    | Ok r => Ok (Some r)
    | Err ErrSentryNotConfigured => Ok None
    | Err e => Err e
    end.

(** The new reporter, and the one before. *)
Definition SetReporter (r : option reporter) (current : reporter) : reporter * reporter := (default NoopReporter r, current).

(** What is captured: an error and its tags, in the order they are set. *)
Definition captured_tags (c : Http.context) (tags : list (string * string)) : list (string * string) :=
  match FromContext (CtxTenant c) with
  | Ok t => [("tenant_id", TenantID t)] ++ (if String.eqb (WorkspaceID t) "" then [] else [("workspace_id", WorkspaceID t)]) ++
            (if String.eqb (ClusterID t) "" then [] else [("cluster_id", ClusterID t)])
  | Err _ => []
  end ++ (if String.eqb (CtxRequestID c) "" then [] else [("request_id", CtxRequestID c)]) ++ tags.
Definition Capture (r : reporter) (c : Http.context) (err : option string) (tags : list (string * string)) : list (string * list (string * string)) :=
  match err, r with
  | Some e, Sentry _ => [(e, captured_tags c tags)]
  | _, _ => []
  end.

(** ** What the boot builds *)

Section Boot.
(** The client of the model's provider, the pool of the database: whether it is made and
    answers, and the SDK of the reporter. *)
Context (generate : Anthropic.Config → LLMClient) (pool_new pool_ping : string → bool) (sdk : SentryConfig → bool).

Definition noop_text : string :=
  "EXPLANATION:" +:+ newline +:+ "LLM not configured in this environment." +:+ newline +:+ "DIFF:" +:+ newline.
Definition noopLLM : LLMClient := λ _, (mkLLMResponse noop_text 0 0 0 0 0 "noop", None).

Definition pickLLM (cfg : Config.Config) : LLMClient :=
  if String.eqb (AnthropicAPIKey cfg) "" then noopLLM
  else match Anthropic.New (Anthropic.mkConfig (AnthropicAPIKey cfg) "" "") with
       | Err _ => noopLLM
       | Ok client => generate client
       end.

(** Whether there is a recorder, which needs the pool. *)
Definition pickRecorder (pool : bool) : bool := pool.

Inductive pool_error := PoolNew | PoolPing.
Definition openPool (cfg : Config.Config) : result pool_error bool :=
  if String.eqb (PostgresDSN cfg) "" then Ok false
  else if negb (pool_new (PostgresDSN cfg)) then Err PoolNew
  else if negb (pool_ping (PostgresDSN cfg)) then Err PoolPing
  else Ok true.

(** The handlers' dependencies, as far as they vary: the composer behind the previews, the
    endpoint of the agents' snapshots and whether it stores them, the store of their health,
    the attribution of merges, the key of the sessions and the secret of the webhook. *)
Record domainDeps := mkDeps {
  PreviewComposer : Composer; AgentSnapshot : option bool; HealthStore : bool; AttributionOn : bool; SessionKey : string;
  PublicBaseURL : string }.

Definition buildDomainDeps (getenv : environment) (cfg : Config.Config) (pool : bool) : domainDeps :=
  mkDeps (mkComposer (Some (pickLLM cfg)) 40 (pickRecorder pool))
    (match buildAgentSnapshotHandler getenv (if pool then Some (λ _ _, true) else None) with
     | None => None
     | Some h => Some pool
     end)
    pool pool (buildSessionSigner getenv) (getenv "OPTIQOR_PUBLIC_URL").

Definition latency_bounds : list float64 :=
  map f_const [5 # 1000; 1 # 100; 25 # 1000; 5 # 100; 1 # 10; 25 # 100; 5 # 10; 1; 2; 5]%Q.
Definition http_metrics `{GoMapOrder} : option Telemetry.Registry :=
  let '(reg, _) := NewCounter NewRegistry "optiqor_http_requests_total" "Total HTTP requests served by the api binary, by route and status" ∅ in
  option_map fst (NewHistogram reg "optiqor_http_request_duration_seconds" "HTTP request latency in seconds" ∅ latency_bounds).

(** The process either ends with a status or comes to serve. *)
Inductive boot := Stops (code : Z) | Listens (addr : string) (grace : Z) (secret : string) (errors : reporter) (d : domainDeps).

Definition api_boot (showVersion : bool) (getenv : environment) : boot :=
  if showVersion then Stops 0
  else match Config.Load getenv with
  | Err _ => Stops 2
  | Ok cfg =>
      let errors := match initSentry sdk cfg with Ok (Some r) => (SetReporter (Some r) NoopReporter).1 | _ => NoopReporter end in
      match openPool cfg with
      | Err _ => Stops 2
      | Ok pool => Listens (HTTPAddr cfg) (ShutdownGrace cfg) (GitHubAppWebhookSecret cfg) errors (buildDomainDeps getenv cfg pool)
      end
  end.
End Boot.

(** ** The manifest *)

Definition advertised : list (string * string * string) :=
  [("POST", "/v1/analyze", "sandbox: returns findings + savings"); ("GET", "/r/{hash}", "sandbox: fetch shared analysis");
   ("GET", "/v1/receipts/{id}", "verify a signed Receipt"); ("POST", "/v1/apply-fixes", "preview the Apply Fix PR body + diff");
   ("POST", "/v1/ingest", "agent → SaaS metrics ingestion"); ("POST", "/v1/cost-spikes", "bill anomaly webhook");
   ("GET", "/v1/session/whoami", "dashboard: identity + tenant context"); ("POST", "/v1/session/issue", "Auth.js bridge: mint a backend JWT");
   ("GET", "/v1/onboarding/state", "dashboard: tenant onboarding progress");
   ("POST", "/v1/onboarding/transition", "dashboard: advance onboarding stage");
   ("GET", "/v1/onboarding/health", "dashboard: funnel position + blockers");
   ("POST", "/v1/onboarding/preflight", "install wizard: cluster pre-flight checks");
   ("GET", "/v1/savings/summary", "dashboard: lifetime / MTD / YTD savings");
   ("GET", "/v1/apply-fixes", "dashboard: list apply fixes filtered by state");
   ("GET", "/v1/agent/health", "dashboard: agent status + last check-in"); ("GET", "/healthz", "liveness"); ("GET", "/readyz", "readiness");
   ("GET", "/metrics", "prometheus metrics")].

Definition endpoint_json (e : string * string * string) : jvalue :=
  OObj ([("method", OText e.1.1); ("path", OText e.1.2)] ++ (if String.eqb e.2 "" then [] else [("notes", OText e.2)])).
Definition metaHandler {D} (version : string) : Http.handler D := λ c req w,
  ([SetHeader "Content-Type" "application/json";
    Write (default "" (marshal (OObj [("version", OText version); ("endpoints", OArr (map endpoint_json advertised))])) +:+ newline)], w, None).

(** ** The process *)

Inductive phase := Starting | Waiting | Draining | Exited (code : Z).
(** The goroutine that serves; when its server fails it first sends the error, then cancels. *)
Inductive server := Serving | Sent | Cancelled.
Record process := mkProcess { at_phase : phase; serving : server; channel : bool; ctx_done : bool; lines : list string }.
Definition started : process := mkProcess Starting Serving false false [].

Inductive process_step : process → process → Prop :=
  (* the operator's signal wakes the process if it waits *)
  | signal_starting s c l : process_step (mkProcess Starting s c false l) (mkProcess Starting s c true l)
  | signal_waiting s c l : process_step (mkProcess Waiting s c false l) (mkProcess Draining s c true (l ++ ["api shutting down"]))
  (* the server fails: a process that waits is handed the error, for another it stays in the channel *)
  | fail_waiting d l : process_step (mkProcess Waiting Serving false d l) (mkProcess (Exited 1) Sent false d (l ++ ["listen failed"]))
  | fail_early p d l : p = Starting ∨ p = Draining →
      process_step (mkProcess p Serving false d l) (mkProcess p Sent true d l)
  | cancel_starting c d l : process_step (mkProcess Starting Sent c d l) (mkProcess Starting Cancelled c true l)
  | cancel_draining c d l : process_step (mkProcess Draining Sent c d l) (mkProcess Draining Cancelled c true l)
  (* the process comes to its select: any case that is ready may be taken *)
  | select_none s l : process_step (mkProcess Starting s false false l) (mkProcess Waiting s false false l)
  | select_done s c l : process_step (mkProcess Starting s c true l) (mkProcess Draining s c true (l ++ ["api shutting down"]))
  | select_error s d l : process_step (mkProcess Starting s true d l) (mkProcess (Exited 1) s false d (l ++ ["listen failed"]))
  (* the shutdown ends in time or not *)
  | shutdown_done s c d l : process_step (mkProcess Draining s c d l) (mkProcess (Exited 0) s c d (l ++ ["api stopped"]))
  | shutdown_late s c d l : process_step (mkProcess Draining s c d l) (mkProcess (Exited 1) s c d (l ++ ["shutdown failed"])).

Definition reachable : process → Prop := rtc process_step started.

(** ** Facts *)

Lemma init_sentry_never_unset sdk cfg : SentryDSN cfg = "" → initSentry sdk cfg = Ok None.
Proof. unfold initSentry. by intros ->. Qed.

(** The rate zero, and any below, is the rate one. *)
Lemma rate_zero_is_one sdk cfg : SentryDSN cfg ≠ "" → f_le (SentrySampleRate cfg) (f_zero false) = true →
  (∀ c, sdk c = true) → ∃ c, initSentry sdk cfg = Ok (Some (Sentry c)) ∧ SampleRate c = f_of_Z 1.
Proof.
  unfold initSentry. intros Hd Hr Hs. rewrite (proj2 (String.eqb_neq _ _) Hd), Hr. cbv zeta. unfold InitSentry.
  replace (SentryConfig_Validate _) with true by by vm_compute. cbn [DSN negb].
  rewrite (proj2 (String.eqb_neq _ _) Hd), Hs. by eexists.
Qed.

Definition path_text (p : pattern) : string :=
  foldr (λ s acc, "/" +:+ match s with Lit l => l | Wild n => "{" +:+ n +:+ "}" end +:+ acc) "" (Segs p).

(** The manifest is the table of the routes, but for the paths of the browser, of GitHub, of
    the agents' snapshots and for itself. *)
Lemma manifest_routes `{GoMapOrder, GoPlatform} {E} env at_ (e : endpoints (RateLimit.Memory * E)) b :
  let routes := map (λ r, (PMethod r.1, path_text r.1)) (base_routes b ++ domain_routes env at_ e) in
  routes ≡ₚ map fst advertised ++ [("GET", "/oauth/github/callback"); ("POST", "/webhooks/github"); ("GET", "/v1/meta"); ("GET", "/v/{id}")] ++
    (if EAgentSnapshot e is Some _ then [("POST", "/v1/agent/snapshot")] else []).
Proof.
  intros routes. unfold routes, domain_routes, domain_table.
  destruct (EAgentSnapshot e); cbn -[String.append];
    apply (bool_decide_unpack _); vm_compute; exact I.
Qed.

(** Without a key the answer is the stub's, for every request a key would let through: an
    explanation that says so, no diff, at no cost. *)
Lemma noop_fix sha256 ms cap rec t req : TenantID t ≠ "" → 0 < cap →
  match GenerateFix sha256 ms (mkComposer (Some noopLLM) cap rec) t req with
  | (Ok fix_, log) => Explanation fix_ = "LLM not configured in this environment." ∧ UnifiedDiff fix_ = "" ∧
      FixCostUSDCents fix_ = 0 ∧ FixModel fix_ = "noop"
  | (Err e, log) => log = [] ∧ ((∃ n, e = ErrBudgetExceeded n cap) ∨ ∃ e', e = ErrSanitize e')
  end.
Proof.
  intros Ht Hc. unfold GenerateFix. cbn [LLM]. rewrite (proj2 (validate_iff t) Ht).
  destruct (Sanitizer.Sanitize _ _) as [san|e]; [|by split; [|right; eexists]].
  unfold over_budget. cbn [PerCallCents]. destruct (0 <? cap); [destruct (_ <? _); [by split; [|left; eexists]|]|];
    cbn [noopLLM]; split_and!; by vm_compute.
Qed.

(** What the api boots into. It ends with the status 0 just when asked for its version, and
    with 2 just when its configuration or its database is refused. When it comes to serve in
    production, the webhook has a secret, the shutdown a positive grace, previews come from the
    provider under the cap of 40 cents with every call recorded, merges are attributed, the
    agents' health is read from the database, and snapshots, where they are accepted at all,
    are stored. *)
Theorem api_boots (generate : Anthropic.Config → LLMClient) (pool_new pool_ping : string → bool) (sdk : SentryConfig → bool)
    (showVersion : bool) (getenv : environment) :
  let cfg := read_config getenv in
  match api_boot generate pool_new pool_ping sdk showVersion getenv with
  | Stops c => c = 0 ∧ showVersion = true ∨
      c = 2 ∧ showVersion = false ∧ (Config.Validate cfg ≠ [] ∨ PostgresDSN cfg ≠ "" ∧ (pool_new (PostgresDSN cfg) && pool_ping (PostgresDSN cfg)) = false)
  | Listens addr grace secret errors d =>
      showVersion = false ∧ Config.Validate cfg = [] ∧ addr = HTTPAddr cfg ∧ 0 < grace ∧ secret = GitHubAppWebhookSecret cfg ∧
      PerCallCents (PreviewComposer d) = 40 ∧
      (Env cfg = EnvProd → secret ≠ "" ∧ HasRecorder (PreviewComposer d) = true ∧ AttributionOn d = true ∧ HealthStore d = true ∧
         (∃ client, APIKey client = AnthropicAPIKey cfg ∧ BaseURL client = defaultBaseURL ∧ LLM (PreviewComposer d) = Some (generate client)) ∧
         (∀ sink, AgentSnapshot d = Some sink → sink = true))
  end.
Proof.
  intros cfg. unfold api_boot. destruct showVersion; [by left|]. destruct (Config.Load getenv) as [c|e] eqn:El.
  2: { right. split_and!; [done..|left]. unfold Config.Load in El. fold cfg in El. by destruct (Config.Validate cfg). }
  assert (Config.Validate cfg = []) as Hv by (unfold Config.Load in El; fold cfg in El; by destruct (Config.Validate cfg)).
  apply load_iff in El as (-> & _ & _ & Hg & Hp). fold cfg in Hg, Hp |- *.
  unfold openPool. destruct (String.eqb_spec (PostgresDSN cfg) "") as [He|He].
  - split_and!; [done..|]. intros Henv. by destruct (Hp Henv).
  - destruct (pool_new (PostgresDSN cfg)) eqn:En; cbn [negb]; [|right; split_and!; [done..|right]; by rewrite ?En].
    destruct (pool_ping (PostgresDSN cfg)) eqn:Ei; cbn [negb]; [|right; split_and!; [done..|right]; by rewrite ?En, ?Ei].
    split_and!; [done..|]. intros Henv. destruct (Hp Henv) as (_ & Ha & _ & Hs). split_and!; try done.
    + unfold buildDomainDeps, pickLLM, Anthropic.New. cbn [PreviewComposer LLM APIKey]. rewrite (proj2 (String.eqb_neq _ _) Ha).
      eexists. split_and!; [| |reflexivity]; done.
    + intros sink. unfold buildDomainDeps. cbn [AgentSnapshot]. destruct (buildAgentSnapshotHandler _ _); [|done]. by intros [= <-].
Qed.

(** ** The end of the process *)

(** What holds of every state: the error is in the channel just when the server has failed,
    and a process that waits has nothing to wake it. *)
Definition sound_process (p : process) : Prop :=
  match at_phase p with
  | Exited c => (c = 0 ∧ last (lines p) = Some "api stopped") ∨
      (c = 1 ∧ (last (lines p) = Some "listen failed" ∧ serving p ≠ Serving ∨ last (lines p) = Some "shutdown failed"))
  | Waiting => serving p = Serving ∧ channel p = false ∧ ctx_done p = false
  | _ => serving p = Serving ↔ channel p = false
  end.

Lemma process_sound p : reachable p → sound_process p.
Proof.
  intros Hr. unfold reachable in Hr. revert Hr. apply (rtc_ind_r (λ p, sound_process p) started); [by split|].
  intros x y _ Hs Hx. unfold sound_process in *.
  destruct Hs; cbn [at_phase serving channel ctx_done lines] in *; rewrite ?last_snoc; try naive_solver.
Qed.

Definition energy (p : process) : nat :=
  match at_phase p with Starting => 3 | Waiting => 2 | Draining => 1 | Exited _ => 0 end +
  match serving p with Serving => 2 | Sent => 1 | Cancelled => 0 end + (if ctx_done p then 0 else 1).

Lemma step_energy p q : process_step p q → (energy q < energy p)%nat.
Proof. destruct 1 as [| | |? ? ? [-> | ->]| | | | | | |]; unfold energy; cbn [at_phase serving ctx_done]; repeat case_match; lia. Qed.

Lemma steps_energy n p q : nsteps process_step n p q → (n + energy q <= energy p)%nat.
Proof. induction 1 as [|n p r q Hs _ IH]; [lia|]. apply step_energy in Hs. lia. Qed.


(** A server that fails before the process waits, and whose goroutine comes to cancel, may be
    taken for a signal: the failure is never written and the status is 0. *)
Lemma failure_lost : ∃ p, reachable p ∧ at_phase p = Exited 0 ∧ serving p = Cancelled ∧ "listen failed" ∉ lines p.
Proof.
  exists (mkProcess (Exited 0) Cancelled true true ["api shutting down"; "api stopped"]). split; [|split_and!; [done..|]].
  - eapply rtc_l; [eapply fail_early; by left|]. eapply rtc_l; [apply cancel_starting|].
    eapply rtc_l; [apply select_done|]. eapply rtc_l; [apply shutdown_done|]. apply rtc_refl.
  - cbn [lines]. by intros [?|[?|?%not_elem_of_nil]%elem_of_cons]%elem_of_cons.
Qed.
