(* ===== verification/Gitops.v ===== *)
(** The backend's parsers (backend/internal/parser): the wrapper of the CLI's values parser, the
    normalised sources of GitOps applications (gitops/gitops.go and gitops/argocd/argocd.go),
    and the map from detectors to the controls of the CIS benchmark
    (backend/internal/cost/cis/cis.go). *)

From S2P Require Import Prelude GoNum GoStr Lines Helm Rules AllRules.
Local Open Scope Z_scope.

(** ** The wrapper of the values parser *)

(** Every error of the CLI's parser, wrapped; they all answer to the one sentinel. *)
Record wrapped_error := mkError { Cause : Helm.parse_error }.
Definition is_ErrParse (e : wrapped_error) : bool := true.
Definition backend_ParseValues `{GoPlatform, GoSort} (yaml_parse : string → option Node) (r : option string) : result wrapped_error (list Workload) :=
  match Helm.ParseValues yaml_parse r with Ok ws => Ok ws | Err e => Err (mkError e) end.

(** ** Sources *)

Inductive Tool := ToolArgoCD | ToolFlux.
Record Source := mkSource {
  STool : Tool; ApplicationName : string; SNamespace : string; RepoURL : string; TargetRevision : string;
  SPath : string; Chart : string; DestServer : string; DestNamespace : string; Values : string }.

(** ** ArgoCD *)

Record metadata := mkMetadata { MName : string; MNamespace : string }.
Record helmSpec := mkHelm { HValues : string; ValueFiles : list string }.
Record sourceSpec := mkSpec { RRepoURL : string; RTargetRevision : string; RPath : string; RChart : string; RHelm : option helmSpec }.
Record destinationSpec := mkDestination { DServer : string; DNamespace : string }.
Record applicationDoc := mkDoc {
  APIVersion : string; Kind : string; Metadata : metadata;
  SpecSource : option sourceSpec; SpecSources : list sourceSpec; Destination : destinationSpec }.

Definition SupportedAPIVersions : list string := ["argoproj.io/v1alpha1"].
Definition recognised (d : applicationDoc) : bool :=
  if negb (String.eqb (Kind d) "Application") then false else existsb (String.eqb (APIVersion d)) SupportedAPIVersions.

Definition source_of (d : applicationDoc) (s : sourceSpec) : Source :=
  mkSource ToolArgoCD (MName (Metadata d)) (MNamespace (Metadata d)) (RRepoURL s) (RTargetRevision s) (RPath s) (RChart s)
    (DServer (Destination d)) (DNamespace (Destination d)) (match RHelm s with Some h => HValues h | None => "" end).
Definition sources (d : applicationDoc) : list Source :=
  let specs := match SpecSource d with Some s => s :: SpecSources d | None => SpecSources d end in
  map (source_of d) specs.

(** The reader behind the decoder: the bytes and how many of them were handed out. *)
Record readerImpl := mkReader { rb : string; ri : nat }.
Definition bytesReader (b : string) : readerImpl := mkReader b 0.
(** A read into a buffer of [cap] bytes; [None] is the end of the file. *)
Definition readerImpl_Read (cap : nat) (r : readerImpl) : option string * readerImpl :=
  if (String.length (rb r) <=? ri r)%nat then (None, r)
  else
    let n := Nat.min cap (String.length (rb r) - ri r) in
    (Some (str_take n (str_drop (ri r) (rb r))), mkReader (rb r) (ri r + n)).
(** What a decoder gets that reads into buffers of the sizes [caps]. *)
Fixpoint read_with (caps : list nat) (r : readerImpl) : string :=
  match caps with
  | [] => ""
  | cap :: caps => match readerImpl_Read cap r with (None, _) => "" | (Some s, r) => s +:+ read_with caps r end
  end.

(** What the YAML decoder makes of the bytes, document by document, until they end or one is
    not of the shape asked for. *)
Inductive decoded := Document (d : applicationDoc) | Broken.
Inductive argo_error := ReadFailed | YamlFailed.

Fixpoint parse_documents (l : list decoded) (out : list Source) : result argo_error (list Source) :=
  match l with
  | [] => Ok out
  | Broken :: _ => Err YamlFailed
  | Document d :: l => parse_documents l (if recognised d then out ++ sources d else out)
  end.

Definition Parse (decode : string → list decoded) (r : option string) : result argo_error (list Source) :=
  match r with
  | None => Err ReadFailed
  | Some raw => parse_documents (decode raw) []
  end.

(** ** Controls of the benchmark *)

Definition cis_mapping : list (string * list string) :=
  [("run-as-root", ["5.7.4"]); ("privileged-container", ["5.2.1"]); ("host-network", ["5.2.4"]);
   ("allow-privilege-escalation", ["5.2.5"]); ("capabilities-not-dropped-all", ["5.2.8"]);
   ("read-only-root-fs-missing", ["5.7.3"]); ("image-pinned-latest", ["5.1.4"]); ("missing-cpu-limit", ["5.7.2"]);
   ("missing-memory-limit", ["5.7.2"])].
Definition cis_find (id : string) : option (list string) := option_map snd (List.find (λ p, String.eqb p.1 id) cis_mapping).
Definition Controls (id : string) : list string := default [] (cis_find id).
Definition Has (id : string) : bool := match cis_find id with Some _ => true | None => false end.

(** ** Facts *)

Lemma str_drop_all n s : (String.length s <= n)%nat → str_drop n s = "".
Proof. revert s. induction n as [|n IH]; intros [|c s] Hn; cbn in *; try done; [lia|apply IH; lia]. Qed.
Lemma str_drop_drop n m s : str_drop m (str_drop n s) = str_drop (n + m) s.
Proof. revert s. induction n as [|n IH]; intros [|c s]; cbn; try done; by destruct m. Qed.

Lemma read_with_spec caps : ∀ r, Forall (λ c, (0 < c)%nat) caps → (String.length (rb r) <= ri r + length caps)%nat →
  read_with caps r = str_drop (ri r) (rb r).
Proof.
  induction caps as [|cap caps IH]; intros [b i] Hc Hl; cbn [read_with rb ri length] in *.
  - symmetry. apply str_drop_all. lia.
  - inversion Hc as [|? ? Hcap Hc']; subst. unfold readerImpl_Read. cbn [rb ri].
    destruct (Nat.leb_spec (String.length b) i) as [Hi|Hi]; [symmetry; by apply str_drop_all|].
    rewrite IH; [|done|cbn [rb ri]; lia]. cbn [rb ri].
    set (n := Nat.min _ _). rewrite <-(str_take_drop n (str_drop i b)) at 2. by rewrite str_drop_drop.
Qed.

(** The decoder gets the whole file, whatever the sizes of its buffers. *)
Lemma bytes_reader_whole caps b : Forall (λ c, (0 < c)%nat) caps → (String.length b <= length caps)%nat →
  read_with caps (bytesReader b) = b.
Proof. intros Hc Hl. rewrite read_with_spec; [done|done|cbn; lia]. Qed.

Definition documents (l : list decoded) : list applicationDoc := omap (λ x, match x with Document d => Some d | Broken => None end) l.

Lemma parse_documents_spec l : ∀ out, parse_documents l out =
  if existsb (λ x, match x with Broken => true | _ => false end) l then Err YamlFailed
  else Ok (out ++ concat (map sources (List.filter recognised (documents l)))).
Proof.
  induction l as [|[d|] l IH]; intros out; cbn [parse_documents existsb orb documents]; [by rewrite app_nil_r| |done].
  rewrite IH. destruct (existsb _ _); [done|]. f_equal. change (documents (Document d :: l)) with (d :: documents l).
  cbn [List.filter]. destruct (recognised d); cbn [map concat]; [by rewrite <-app_assoc|done].
Qed.

(** The sources of a file. One broken document, of whatever kind, is the error of the file;
    otherwise they are those of its applications, in the order of the file, an application's
    single source before the entries of its list, and each entry gives one source. The
    documents that are no applications leave no trace. *)
Lemma argo_sources decode raw : Parse decode (Some raw) =
    (if existsb (λ x, match x with Broken => true | _ => false end) (decode raw) then Err YamlFailed
     else Ok (concat (map sources (List.filter recognised (documents (decode raw)))))) ∧
  (∀ d, recognised d = true ↔ Kind d = "Application" ∧ APIVersion d = "argoproj.io/v1alpha1") ∧
  (∀ d, length (sources d) = (length (SpecSources d) + if SpecSource d is Some _ then 1 else 0)%nat ∧
     Forall (λ s, ApplicationName s = MName (Metadata d) ∧ DestServer s = DServer (Destination d) ∧ STool s = ToolArgoCD) (sources d)).
Proof.
  split; [|split].
  - unfold Parse. by rewrite parse_documents_spec.
  - intros d. unfold recognised, SupportedAPIVersions. cbn [existsb]. rewrite orb_false_r.
    destruct (String.eqb_spec (Kind d) "Application"), (String.eqb_spec (APIVersion d) "argoproj.io/v1alpha1"); cbn [negb]; split; try done; naive_solver.
  - intros d. unfold sources. split.
    + rewrite length_map. destruct (SpecSource d); cbn [length]; lia.
    + apply Forall_map, Forall_true. by intros s.
Qed.

Definition demo_app (kind version : string) (h : helmSpec) : applicationDoc :=
  mkDoc version kind (mkMetadata "shop" "argocd") (Some (mkSpec "https://charts.test" "1.2.0" "" "shop" (Some h))) [] (mkDestination "" "prod").

(** "Populated when helm.values or helm.valueFiles is set": value files are decoded and not
    looked at. "Unrecognised documents are skipped silently": not one whose fields have another
    shape, which fails the applications beside it. *)
Lemma gitops_divergences :
  (∀ kind version v files files', map Values (sources (demo_app kind version (mkHelm v files))) = map Values (sources (demo_app kind version (mkHelm v files')))) ∧
  Parse (λ _, [Document (demo_app "Application" "argoproj.io/v1alpha1" (mkHelm "" [])); Broken]) (Some "") = Err YamlFailed ∧
  Parse (λ _, [Document (demo_app "Application" "argoproj.io/v1beta1" (mkHelm "" [])); Document (demo_app "List" "v1" (mkHelm "" []))]) (Some "") = Ok [].
Proof. by split_and!. Qed.

(** Wrapping loses no workload and every error is the sentinel's. *)
Lemma backend_parser `{GoPlatform, GoSort} yaml_parse r :
  (∀ ws, backend_ParseValues yaml_parse r = Ok ws ↔ Helm.ParseValues yaml_parse r = Ok ws) ∧
  (∀ e, backend_ParseValues yaml_parse r = Err e → is_ErrParse e = true ∧ Helm.ParseValues yaml_parse r = Err (Cause e)).
Proof.
  unfold backend_ParseValues. destruct (Helm.ParseValues yaml_parse r) as [ws|e].
  - split; [intros ws'; split; by intros [= ->]|done].
  - split; [by split|]. by intros e' [= <-].
Qed.

(** Only security detectors have controls; but not each of them, as the package says. *)
Lemma cis_controls `{GoPlatform} : Forall (λ d, Has (ID d) = false) cost_detectors ∧
  (∀ id, Has id = true → Controls id ≠ [] ∧ id ∈ map ID security_detectors) ∧
  List.filter (λ id, negb (Has id)) (map ID security_detectors) =
    ["runs-as-uid-zero"; "host-pid"; "host-ipc"; "host-path-volume"; "dangerous-capability-added"; "service-account-token-automount"].
Proof.
  split; [|split].
  - repeat constructor.
  - intros id. unfold Has, Controls, cis_find. destruct (List.find _ cis_mapping) as [[k c]|] eqn:E; [|done]. intros _.
    apply find_some in E as [Hin Hk%String.eqb_eq]. cbn in Hk. subst k.
    assert (Forall (λ p, p.2 ≠ [] ∧ str_mem p.1 (map ID security_detectors) = true) cis_mapping) as Hall by (repeat constructor; done).
    rewrite Forall_forall in Hall. apply list_elem_of_In in Hin. destruct (Hall _ Hin) as [Hc Hm]. by apply str_mem_spec in Hm.
  - reflexivity.
Qed.
