(* ===== verification/DryRun.v ===== *)
(** The client of the agent's dry run (HTTPAgentClient of
    backend/internal/applyfix/gate/dryrun.go), down to the request it posts and the answer it
    reads, and the stage of the gate on top of it. *)

From Stdlib Require Import Ascii.
From S2P Require Import Prelude GoNum GoStr Lines Utf8 GoTime Json JsonOut JsonTree Tenancy Attribution Gate.
Local Open Scope Z_scope.

Record HTTPAgentClient := mkClient { AgentURL : string; AgentToken : string; Timeout : Z; HTTPTimeout : Z }.
Definition NewHTTPAgentClient (baseURL token : string) : HTTPAgentClient := mkClient baseURL token (10 * Second) (10 * Second).

Definition request_json (c : Candidate) : jvalue :=
  OObj [("apply_fix_id", OText (ApplyFixID c)); ("chart_yaml", OText (ChartYAML c)); ("unified_diff", OText (UnifiedDiff c));
        ("workload", OText (CWorkload c))].

Definition request_headers (cl : HTTPAgentClient) (t : TenantContext) : list (string * string) :=
  [("Content-Type", "application/json"); ("X-Optiqor-Tenant", TenantID t)] ++
  (if String.eqb (AgentToken cl) "" then [] else [("Authorization", "Bearer " +:+ AgentToken cl)]).

(** What comes of a request: none could be made, the agent was not reached, or its answer. *)
Inductive exchange := NoRequest | Unreachable | Answer (status : Z) (body : string).

Inductive dryrun_error := NoBaseURL | MarshalFailed | RequestFailed | AgentUnreachable | AgentReturned (status : Z) (body : string) | DecodeFailed.

Definition assign_response (name : string) (v : json) (r : DryRunResponse) : option DryRunResponse :=
  if String.eqb name "accepted" then option_map (λ b, {| Accepted := b; DRDetail := DRDetail r |}) (assign_bool v (Accepted r))
  else option_map (λ s, {| Accepted := Accepted r; DRDetail := s |}) (assign_string v (DRDetail r)).
Definition read_response (body : string) : option DryRunResponse :=
  match decode_first body with
  | Some v => into_struct ["accepted"; "detail"] assign_response false v {| Accepted := false; DRDetail := "" |}
  | None => None
  end.

Section Client.
(** [post] posts a body to an address under headers. *)
Context (post : string → list (string * string) → string → exchange).

Definition DryRun (cl : HTTPAgentClient) (t : TenantContext) (c : Candidate) : result dryrun_error DryRunResponse :=
  if String.eqb (AgentURL cl) "" then Err NoBaseURL
  else match marshal (request_json c) with
  | None => Err MarshalFailed
  | Some body =>
      match post (AgentURL cl +:+ "/v1/dry-run") (request_headers cl t) body with
      | NoRequest => Err RequestFailed
      | Unreachable => Err AgentUnreachable
      | Answer status body =>
          if negb (Z.quot status 100 =? 2) then Err (AgentReturned status body)
          else match read_response body with Some out => Ok out | None => Err DecodeFailed end
      end
  end.

(** The client as the gate's stage takes it. *)
Definition as_agent (cl : HTTPAgentClient) (t : TenantContext) : Candidate → option DryRunResponse :=
  λ c, match DryRun cl t c with Ok out => Some out | Err _ => None end.
End Client.

(** ** Facts *)

(** The request is one document, and what the agent reads from it is the candidate. *)
Lemma request_reads c : ∃ buf, marshal (request_json c) = Some buf ∧ parse_document buf = Some (tree (request_json c)).
Proof.
  destruct (marshal_roundtrip (request_json c)) as (buf & Hm & Hp & _); [done|cbn; unfold maxNestingDepth; lia|by exists buf].
Qed.

Lemma quot_two status : (Z.quot status 100 =? 2) = true ↔ 200 <= status < 300.
Proof.
  rewrite Z.eqb_eq. split; intros H.
  - pose proof (Z.quot_rem' status 100). destruct (Z.le_gt_cases 0 status); [pose proof (Z.rem_bound_pos status 100); lia|].
    pose proof (Z.rem_bound_pos_neg status 100 ltac:(lia) ltac:(lia)). lia.
  - rewrite Z.quot_div_nonneg by lia. symmetry. apply (Z.div_unique status 100 2 (status - 200)); lia.
Qed.

(** The stage on top of the client. It is never skipped. It passes just when the one request,
    made under the tenant, carries the candidate as JSON and the agent answers it in the 200s
    with a document that accepts; whatever else happens, at whatever step, fails it. *)
Theorem dry_run_stage (post : string → list (string * string) → string → exchange) (cl : HTTPAgentClient) (t : TenantContext) (c : Candidate) :
  let r := VValidate (DryrunValidator (Some (as_agent post cl t))) c in
  SRStage r = StageDryrun ∧ SRStatus r ≠ StatusNotImplemented ∧
  (SRStatus r = StatusPassed ↔ AgentURL cl ≠ "" ∧ ∃ buf status body out,
     parse_document buf = Some (tree (request_json c)) ∧ marshal (request_json c) = Some buf ∧
     post (AgentURL cl +:+ "/v1/dry-run") (request_headers cl t) buf = Answer status body ∧ 200 <= status < 300 ∧
     read_response body = Some out ∧ Accepted out = true).
Proof.
  destruct (request_reads c) as (buf & Hm & Hp). unfold DryrunValidator, as_agent, DryRun. cbn [VValidate]. rewrite Hm.
  destruct (String.eqb_spec (AgentURL cl) "") as [Hu|Hu]; [split_and!; [done..|split; [done|tauto]]|].
  destruct (post _ _ buf) as [| |status body] eqn:Ep; [split_and!; [done..|split; [done|]]; intros (_ & b & s & b' & o & _ & Hb & He & _); congruence..|].
  destruct (Z.quot status 100 =? 2) eqn:Es; cbn [negb].
  2: { split_and!; [done..|split; [done|]]. intros (_ & b & s & b' & o & _ & Hb & He & Hs & _).
       assert (s = status) as -> by congruence. apply quot_two in Hs. congruence. }
  apply quot_two in Es. destruct (read_response body) as [out|] eqn:Er.
  2: { split_and!; [done..|split; [done|]]. intros (_ & b & s & b' & o & _ & Hb & He & _ & Hr & _). congruence. }
  destruct (Accepted out) eqn:Ea; cbn [negb]; split_and!; try done; split; try done.
  - intros _. split; [done|]. by exists buf, status, body, out.
  - intros (_ & b & s & b' & o & _ & Hb & He & _ & Hr & Ha). congruence.
Qed.

(** Silence is a refusal, and what follows the document is not read. *)
Lemma answers_read :
  option_map Accepted (read_response "{}") = Some false ∧ option_map Accepted (read_response "null") = Some false ∧
  option_map Accepted (read_response ("{" +:+ quoted "ACCEPTED" +:+ ":true} no")) = Some true ∧ read_response "" = None.
Proof. by vm_compute. Qed.
