(* ===== verification/Platform.v ===== *)
(** The remaining plumbing of the backend: the context of a log line
    (backend/internal/platform/logging), the key of the rate limiter
    (backend/internal/platform/ratelimit), the retention of data (backend/internal/gdpr), the
    registry of source-control providers (backend/internal/vcs) and the poster of the
    attribution on top of it (backend/internal/applyfix/attribution/poster_vcs.go). *)

From Stdlib Require Import Ascii.
From S2P Require Import Prelude GoNum GoStr Lines GoTime Tenancy Dispatcher RateLimit Registry Attribution AttributionPg.
Local Open Scope Z_scope.

(** ** Logging *)

Module Logging.
(** What a context carries for the log. *)
Record log_context := mkLogContext { Scope : go_context; RequestID : option string; WorkflowID : option string }.
Definition WithRequestID (ctx : log_context) (id : string) : log_context :=
  if String.eqb id "" then ctx else mkLogContext (Scope ctx) (Some id) (WorkflowID ctx).
Definition WithWorkflowID (ctx : log_context) (id : string) : log_context :=
  if String.eqb id "" then ctx else mkLogContext (Scope ctx) (RequestID ctx) (Some id).
Definition RequestIDFromContext (ctx : log_context) : string := default "" (RequestID ctx).

Definition LevelDebug : Z := -4.
Definition LevelInfo : Z := 0.
Definition LevelWarn : Z := 4.
Definition LevelError : Z := 8.
Definition parseLevel (s : string) : Z :=
  let s := to_lower s in
  if String.eqb s "debug" then LevelDebug else if String.eqb s "warn" then LevelWarn
  else if String.eqb s "error" then LevelError else LevelInfo.

(** The JSON handler: its level, the groups that are open and the attributes given so far,
    each under the groups that were open then; a line is such attributes. *)
Record json_handler := mkJson { Level : Z; Groups : list string; Preset : list (list string * string) }.
Definition attr : Type := string * string.
Definition under (h : json_handler) (a : attr) : list string * string := (Groups h ++ [a.1], a.2).
Definition json_Handle (h : json_handler) (attrs : list attr) : list (list string * string) := Preset h ++ map (under h) attrs.
Definition WithAttrs (h : json_handler) (attrs : list attr) : json_handler := mkJson (Level h) (Groups h) (Preset h ++ map (under h) attrs).
Definition WithGroup (h : json_handler) (name : string) : json_handler :=
  if String.eqb name "" then h else mkJson (Level h) (Groups h ++ [name]) (Preset h).

Definition given (k v : string) : list attr := if String.eqb v "" then [] else [(k, v)].
(** The attributes [Handle] adds, in its order. *)
Definition injected (ctx : log_context) : list attr :=
  match FromContext (Scope ctx) with
  | Ok t => [("tenant_id", TenantID t)] ++ given "workspace_id" (WorkspaceID t) ++ given "cluster_id" (ClusterID t) ++ given "namespace" (Namespace t)
  | Err _ => []
  end ++ given "request_id" (default "" (RequestID ctx)) ++ given "workflow_id" (default "" (WorkflowID ctx)).
Definition Handle (h : json_handler) (ctx : log_context) (attrs : list attr) : list (list string * string) := json_Handle h (attrs ++ injected ctx).

Definition New (lvl : string) : json_handler := mkJson (parseLevel lvl) [] [].
(** A call on the logger: nothing below its level. *)
Definition Log (h : json_handler) (ctx : log_context) (level : Z) (attrs : list attr) : list (list (list string * string)) :=
  if level <? Level h then [] else [Handle h ctx attrs].

(** Whatever attributes a logger was given, a line carries the tenant of its context and no
    other at the top; with a group open the tenant is inside the group. *)
Lemma line_scope h ctx attrs : Groups h = [] → Forall (λ a, a.1 ≠ "tenant_id") attrs → Forall (λ p, p.1 ≠ ["tenant_id"]) (Preset h) →
  (∀ v, (["tenant_id"], v) ∈ Handle h ctx attrs ↔ ∃ t, Scope ctx = Some t ∧ TenantID t ≠ "" ∧ v = TenantID t).
Proof.
  intros Hg Ha Hp v. unfold Handle, json_Handle. rewrite map_app, !elem_of_app.
  assert ((["tenant_id"], v) ∉ Preset h) as Hp' by (intros H; rewrite Forall_forall in Hp; by apply (Hp _ H)).
  assert ((["tenant_id"], v) ∉ map (under h) attrs) as Ha'.
  { intros H. apply list_elem_of_fmap in H as ([k w] & E & Hk). rewrite Forall_forall in Ha. apply (Ha _ Hk).
    unfold under in E. rewrite Hg in E. cbn in E |- *. congruence. }
  assert ((["tenant_id"], v) ∈ map (under h) (injected ctx) ↔ ("tenant_id", v) ∈ injected ctx) as ->.
  { rewrite list_elem_of_fmap. unfold under. rewrite Hg. split.
    - intros ([k w] & E & Hk). cbn in E. by injection E as -> ->.
    - intros H. by exists ("tenant_id", v). }
  unfold injected. rewrite !elem_of_app.
  assert (∀ k w, k ≠ "tenant_id" → ("tenant_id", v) ∉ given k w) as Hno.
  { intros k w Hk H. unfold given in H. destruct (String.eqb w ""); [by apply not_elem_of_nil in H|].
    apply list_elem_of_singleton in H. congruence. }
  unfold FromContext. destruct (Scope ctx) as [t|].
  2: { split; [|by intros (? & ? & _)]. intros [?|[?|[H|[H|H]]]]; try done; [by apply not_elem_of_nil in H|..]; by apply Hno in H. }
  destruct (TenantContext_Validate t) as [e|] eqn:Ev.
  - split; [intros [?|[?|[H|[H|H]]]]; try done; [by apply not_elem_of_nil in H|..]; by apply Hno in H|].
    intros (t' & [= <-] & Hn & _). apply validate_iff in Hn. congruence.
  - apply validate_iff in Ev. rewrite !elem_of_app, list_elem_of_singleton. split.
    + intros [?|[?|[[E|[H|[H|H]]]|[H|H]]]]; try done; try (by apply Hno in H). exists t. split_and!; congruence.
    + intros (t' & [= <-] & _ & ->). right. right. left. by left.
Qed.

(** The names are said to be stable: under a group the tenant has another one. A level that
    is not known is info. *)
Lemma logging_divergences :
  (∀ lvl t, TenantID t ≠ "" → WorkspaceID t = "" → ClusterID t = "" → Namespace t = "" →
     Handle (WithGroup (New lvl) "job") (mkLogContext (Some t) None None) [] = [(["job"; "tenant_id"], TenantID t)]) ∧
  parseLevel "warning" = LevelInfo ∧ parseLevel "DEBUG" = LevelDebug.
Proof.
  split; [|by vm_compute]. intros lvl t Ht Hw Hc Hn. unfold Handle, injected. cbn [Scope RequestID WorkflowID FromContext].
  unfold FromContext. rewrite (proj2 (validate_iff t) Ht). unfold given. rewrite Hw, Hc, Hn. done.
Qed.
End Logging.

(** ** Retention *)

Module Gdpr.
Definition RetentionPrometheus : Z := 90 * 24 * Hour.
Definition RetentionLLMCalls : Z := 30 * 24 * Hour.
Definition RetentionReceipts : Z := 7 * 365 * 24 * Hour.
Definition RetentionAuditLog : Z := 7 * 365 * 24 * Hour.
Definition ErasurePurgeWindow : Z := 30 * 24 * Hour.

Inductive gdpr_error := UnknownBucketError (bucket : string) | ErrTenant (e : tenancy_error) | ErrNotImplemented.
Definition RetentionPolicy (bucket : string) (now : Z) : result gdpr_error Z :=
  if String.eqb bucket "prometheus" then Ok (time_add now (- RetentionPrometheus))
  else if String.eqb bucket "llm_calls" then Ok (time_add now (- RetentionLLMCalls))
  else if String.eqb bucket "receipts" then Ok (time_add now (- RetentionReceipts))
  else if String.eqb bucket "audit_log" then Ok (time_add now (- RetentionAuditLog))
  else Err (UnknownBucketError bucket).
Definition Buckets : list string := ["prometheus"; "llm_calls"; "receipts"; "audit_log"].

(** Both requests of the service that is there validate the tenant and do nothing. *)
Definition noopService (t : TenantContext) : gdpr_error :=
  match TenantContext_Validate t with Some e => ErrTenant e | None => ErrNotImplemented end.

(** Every bucket the jobs iterate has a cutoff, strictly before now, and no other has one;
    all the windows are durations. *)
Lemma retention_total bucket now :
  (bucket ∈ Buckets ↔ ∃ c, RetentionPolicy bucket now = Ok c) ∧
  (∀ c, RetentionPolicy bucket now = Ok c → c < now ∧ now - c <= maxDuration) ∧
  (bucket ∉ Buckets ↔ RetentionPolicy bucket now = Err (UnknownBucketError bucket)).
Proof.
  assert (∀ b, b ∈ Buckets ↔ b = "prometheus" ∨ b = "llm_calls" ∨ b = "receipts" ∨ b = "audit_log") as Hb.
  { intros b. unfold Buckets. rewrite !elem_of_cons. pose proof (not_elem_of_nil b). tauto. }
  rewrite Hb. unfold RetentionPolicy, time_add, maxDuration, RetentionPrometheus, RetentionLLMCalls, RetentionReceipts, RetentionAuditLog, Hour, Minute, Second.
  destruct (String.eqb_spec bucket "prometheus"); [split_and!; [split; eauto|intros ? [= <-]; lia|split; [tauto|done]]|].
  destruct (String.eqb_spec bucket "llm_calls"); [split_and!; [split; eauto|intros ? [= <-]; lia|split; [tauto|done]]|].
  destruct (String.eqb_spec bucket "receipts"); [split_and!; [split; eauto|intros ? [= <-]; lia|split; [tauto|done]]|].
  destruct (String.eqb_spec bucket "audit_log"); [split_and!; [split; eauto|intros ? [= <-]; lia|split; [tauto|done]]|].
  split_and!; [split; [tauto|by intros [? ?]]|done|split; [done|tauto]].
Qed.

(** "7y": a receipt of the first of January 2020 may be deleted two days before seven years
    have passed. *)
Lemma seven_years_short : let now := 739979 * Day in
  format_rfc3339 now = "2026-12-30T00:00:00Z" ∧
  option_map format_rfc3339 (match RetentionPolicy "receipts" now with Ok c => Some c | Err _ => None end) = Some "2020-01-01T00:00:00Z".
Proof. by vm_compute. Qed.
End Gdpr.

(** ** The key of a client *)

Module ClientKey.
(** [net.SplitHostPort], the host only; [None] is an error. *)
Fixpoint index_byte (c : ascii) (s : string) : option nat :=
  match s with "" => None | String a s => if Ascii.eqb a c then Some 0%nat else option_map S (index_byte c s) end.
Fixpoint last_index (c : ascii) (s : string) : option nat :=
  match s with
  | "" => None
  | String a s => match last_index c s with Some n => Some (S n) | None => if Ascii.eqb a c then Some 0%nat else None end
  end.
Definition has_byte (c : ascii) (s : string) : bool := match index_byte c s with Some _ => true | None => false end.

Definition split_host (s : string) : option string :=
  match last_index ":" s with
  | None => None
  | Some i =>
      let ends host j k := if has_byte "[" (str_drop j s) || has_byte "]" (str_drop k s) then None else Some host in
      if has_prefix s "[" then
        match index_byte "]" s with
        | None => None
        | Some e => if (S e =? i)%nat then ends (str_take (e - 1) (str_drop 1 s)) 1%nat (S e) else None
        end
      else
        let host := str_take i s in
        if has_byte ":" host then None else ends host 0%nat 0%nat
  end.

Definition ClientIPKey (xff remote : string) : string :=
  match (if String.eqb xff "" then None
         else List.find (λ ip, negb (String.eqb ip "")) (map trim_space (split_byte "," xff))) with
  | Some ip => ip
  | None => match split_host remote with Some host => host | None => remote end
  end.

(** The key is the caller's to choose: any text without a comma and without white space
    around it is the key of a request that forwards it. *)
Lemma key_chosen k remote : k ≠ "" → has_byte "," k = false → trim_space k = k → ClientIPKey k remote = k.
Proof.
  intros Hk Hc Ht. unfold ClientIPKey. rewrite (proj2 (String.eqb_neq _ _) Hk).
  assert (split_byte "," k = [k]) as ->.
  { clear Hk Ht. revert Hc. induction k as [|a k IH]; [done|]. unfold has_byte in *. cbn [index_byte split_byte].
    destruct (Ascii.eqb a ","); [done|]. intros Hc. rewrite IH; [done|]. by destruct (index_byte "," k). }
  cbn [map List.find]. rewrite Ht, (proj2 (String.eqb_neq _ _) Hk). done.
Qed.

Lemma split_host_examples : split_host "10.0.0.1:443" = Some "10.0.0.1" ∧ split_host "[::1]:80" = Some "::1" ∧ split_host "::1" = None ∧
  split_host "host" = None ∧ split_host "[::1]" = None ∧ split_host "a]:1" = None ∧ ClientIPKey " , 1.2.3.4 ,5.6.7.8" "" = "1.2.3.4".
Proof. by vm_compute. Qed.

(** The calls of one address at one instant, each forwarding a text of its own. *)
Definition forwarded (n : nat) : list string := map (λ i, itoa (Z.of_nat i)) (seq 0 n).
Definition admitted (keys : list string) : nat :=
  match NewMemory 60 Minute with
  | None => 0
  | Some m => length (List.filter (λ r, r.2.1) (@run_calls canonical_order m (map (λ k, (1000, k)) keys)).2)
  end.

(** The limit of 60 requests a minute holds for a caller that forwards nothing, and for none
    that makes up who it is. *)
Lemma limit_evaded : admitted (map (λ _, ClientIPKey "" "10.0.0.1:9") (forwarded 100)) = 60%nat ∧
  admitted (map (λ x, ClientIPKey x "10.0.0.1:9") (forwarded 100)) = 100%nat.
Proof. by vm_compute. Qed.
End ClientKey.

(** ** Source control *)

Module Source.
Record Comment := mkComment { CommentID : string; Body : string }.
Record PullRequest := mkPull { PRepo : Registry.Vcs.Repo; Number : Z }.
Inductive vcs_error := NotRegistered (provider : string) | ErrNotImplemented.

(** What a provider does with a comment. *)
Record Source := mkSource { Provider : string; PostComment : PullRequest → Comment → result vcs_error Comment }.
Definition GitHub : Source := mkSource Registry.Vcs.ProviderGitHub (λ _ _, Err ErrNotImplemented).

(** [None] is the panic: no source, no name, or a name that is taken. *)
Definition Register (r : gmap string Source) (s : option Source) : option (gmap string Source) :=
  match s with None => None | Some s => Registry.register r (Provider s) s end.
Definition Lookup (r : gmap string Source) (p : string) : result vcs_error Source :=
  match r !! p with Some s => Ok s | None => Err (NotRegistered p) end.
Definition Providers `{GoMapOrder} (r : gmap string Source) : list string := Registry.sorted_names r.

(** What is registered is found under its own name, and only that; the listing names exactly
    the registered ones, in order, whatever the order of the map. *)
Lemma registry_contract `{O : GoMapOrder, O' : GoMapOrder} r s r' : Register r (Some s) = Some r' →
  Lookup r (Provider s) = Err (NotRegistered (Provider s)) ∧ Lookup r' (Provider s) = Ok s ∧
  (∀ p, p ≠ Provider s → Lookup r' p = Lookup r p) ∧ Register r' (Some s) = None ∧
  (∀ p, p ∈ Providers (H := O) r' ↔ p = Provider s ∨ p ∈ Providers (H := O) r) ∧ Providers (H := O) r' = Providers (H := O') r'.
Proof.
  unfold Register, Registry.register, Lookup, Providers. destruct (String.eqb_spec (Provider s) "") as [|Hne]; [done|].
  destruct (r !! Provider s) eqn:E; [done|]. intros [= <-]. split_and!.
  - done.
  - by rewrite lookup_insert_eq.
  - intros p Hp. by rewrite lookup_insert_ne.
  - by rewrite lookup_insert_eq.
  - intros p. rewrite !Registry.elem_sorted_names. destruct (decide (p = Provider s)) as [->|Hp].
    + rewrite lookup_insert_eq. split; [by left|by eexists].
    + rewrite lookup_insert_ne by done. split; [by right|by intros [?|?]].
  - apply Registry.sorted_names_canonical.
Qed.

(** *** The poster of the attribution *)

Definition VCSPoster_Post (s : Source) (t : TenantContext) (owner name : string) (pr : Z) (body : string) : bool :=
  match PostComment s (mkPull (Registry.Vcs.mkRepo (Provider s) owner name) pr) (mkComment "" body) with Ok _ => true | Err _ => false end.

(** With the provider the api wires, whose comments are not implemented, no merge is ever
    marked: the webhook of a merge leaves every fix as it was. *)
Lemma wired_never_marks uuid who fr fl fm d now body :
  let '(es, d') := serve_webhook uuid who (VCSPoster_Post GitHub) fr fl fm d now body in
  (∀ t id at_, Marked t id at_ ∉ es) ∧ (length es <= 1)%nat ∧ fixes d' = fixes d.
Proof.
  destruct (serve_webhook _ _ _ _ _ _ _ _ _) as [es d'] eqn:E. unfold serve_webhook in E. injection E as <- <-.
  set (es := on_webhook _ _ _).
  assert ((∀ t id at_, Marked t id at_ ∉ es) ∧ (length es <= 1)%nat) as [Hm Hl].
  { unfold es, on_webhook. destruct (ParseGitHub body) as [ev|]; [|split; [by intros ? ? ? ?%not_elem_of_nil|cbn; lia]].
    unfold OnMerged. destruct (_ || _); [split; [by intros ? ? ? ?%not_elem_of_nil|cbn; lia]|].
    destruct (Attribution.ResolveInstallation _ _ _); [|split; [by intros ? ? ? ?%not_elem_of_nil|cbn; lia]].
    destruct (TenantContext_Validate _); [split; [by intros ? ? ? ?%not_elem_of_nil|cbn; lia]|].
    destruct (Attribution.LookupByRepoPR _ _ _ _); [|split; [by intros ? ? ? ?%not_elem_of_nil|cbn; lia]].
    cbn. split; [|lia]. by intros ? ? ? ?%list_elem_of_singleton. }
  split_and!; [done..|]. clearbody es.
  assert (∀ d0, apply_marks uuid who fm d0 es = d0) as ->.
  { intros d0. unfold apply_marks. clear Hl. induction es as [|[|t id at_] es IH] in d0, Hm |- *; [done| |].
    - apply IH. intros t' id' at' Hi. apply (Hm t' id' at'). by right.
    - destruct (Hm t id at_). by left. }
  destruct (ParseGitHub body) as [ev|]; [|done]. destruct (_ || _); [done|].
  unfold ResolveInstallation. destruct (_ || _); [done|].
  destruct fr as [[]|]; try done; (destruct (set_superuser_context _ _ _ _ _) as [[s log]|]; [|done]); try done;
    (destruct (installation_lookup _ _ _ _ _); [done|]); by destruct (set_superuser_context _ _ _ _ _) as [[? ?]|].
Qed.
End Source.
