(* ===== verification/Canary.v ===== *)
(** The canary of the model (backend/internal/agent/llm/canary/canary.go) over time: the
    goroutines it starts, the event it remembers and the reports it makes. One answer is
    [Canary_Generate] of Composer; here any number of calls run, and their comparisons end in
    any order. *)

From S2P Require Import Prelude GoStr GoTime Tenancy Composer.
Local Open Scope Z_scope.

Definition SecondaryTimeout : Z := 30 * Second.
Definition AlwaysSample : LLMRequest → bool := λ _, true.
Definition NeverSample : LLMRequest → bool := λ _, false.

Record Client := mkClient {
  Primary : LLMClient; Secondary : option LLMClient; Sampler : LLMRequest → bool; Reports : bool;
  WorkloadOf : option (LLMRequest → string) }.

(** [None] is the panic; without a reporter the events go nowhere. *)
Definition New (primary secondary : option LLMClient) (sampler : option (LLMRequest → bool)) (reporter : bool) : option Client :=
  match primary with
  | None => None
  | Some p => Some (mkClient p secondary (default NeverSample sampler) reporter None)
  end.

(** The tenant a report is made under: the zero one if the context has none. *)
Definition tenant_of (ctx : go_context) : TenantContext :=
  match FromContext ctx with Ok t => t | Err _ => mkTenant "" "" "" "" end.

Definition call : Type := go_context * LLMRequest.
Definition Generate (c : Client) (r : call) : (LLMResponse * option string) * option (TenantContext * CanaryEvent) :=
  let '(answer, ev) := Canary_Generate (Primary c) (Secondary c) (Sampler c) (WorkloadOf c) r.2 in
  (answer, option_map (pair (tenant_of r.1)) ev).

(** Goroutines that still compare, those that have stored their event, what is remembered and
    what was reported. *)
Record state := mkState {
  comparing : list (TenantContext * CanaryEvent); storing : list (TenantContext * CanaryEvent);
  lastEv : option CanaryEvent; reported : list (TenantContext * CanaryEvent) }.
Definition idle : state := mkState [] [] None [].
Definition LastEvent (s : state) : option CanaryEvent := lastEv s.

(** The states a client may be in after calls, which answer at once. *)
Inductive run (c : Client) : list call → state → Prop :=
  | run_idle : run c [] idle
  | run_call calls r s : run c calls s →
      run c (calls ++ [r]) (mkState (comparing s ++ option_list (Generate c r).2) (storing s) (lastEv s) (reported s))
  | run_store calls l1 x l2 st le re : run c calls (mkState (l1 ++ x :: l2) st le re) →
      run c calls (mkState (l1 ++ l2) (st ++ [x]) (Some x.2) re)
  | run_report calls co l1 x l2 le re : run c calls (mkState co (l1 ++ x :: l2) le re) →
      run c calls (mkState co (l1 ++ l2) le (re ++ [x])).

(** What should be reported, in the order of the calls. *)
Definition events (c : Client) (calls : list call) : list (TenantContext * CanaryEvent) := omap (λ r, (Generate c r).2) calls.

(** ** Facts *)

Definition held (s : state) : list (TenantContext * CanaryEvent) := comparing s ++ storing s ++ reported s.

Lemma run_held c calls s : run c calls s → held s ≡ₚ events c calls ∧
  match lastEv s with
  | None => storing s = [] ∧ reported s = []
  | Some ev => ∃ t, (t, ev) ∈ storing s ++ reported s
  end.
Proof.
  unfold held, events. induction 1 as [|calls r s _ [IH Hl]|calls l1 x l2 st le re _ [IH Hl]|calls co l1 x l2 le re _ [IH Hl]];
    cbn [comparing storing lastEv reported] in *.
  - by split.
  - split; [|done]. rewrite omap_app, <-IH. cbn [omap list_omap]. destruct (Generate c r).2 as [p|]; [|by rewrite !app_nil_r]. change (option_list (Some p)) with [p].
    rewrite <-!app_assoc. apply Permutation_app_head. rewrite (app_assoc _ _ [p]). apply Permutation_cons_append.
  - split; [rewrite <-IH|].
    + rewrite <-!app_assoc. apply Permutation_app_head. cbn [app]. rewrite <-Permutation_middle.
      symmetry. apply Permutation_middle.
    + exists x.1. destruct x as [t ev]. cbn [fst snd]. rewrite !elem_of_app, list_elem_of_singleton. tauto.
  - split; [rewrite <-IH|].
    + apply Permutation_app_head. rewrite <-!app_assoc. apply Permutation_app_head. cbn [app].
      rewrite (app_assoc l2), (Permutation_app_comm (l2 ++ re)). done.
    + destruct le as [ev|]; [|destruct Hl as [Hl _]; by destruct l1]. destruct Hl as [t Ht]. exists t. revert Ht.
      rewrite !elem_of_app, !elem_of_cons. tauto.
Qed.

Lemma store_all c calls co : ∀ st le re, run c calls (mkState co st le re) → ∃ le', run c calls (mkState [] (st ++ co) le' re).
Proof.
  induction co as [|x co IH]; intros st le re Hr; [exists le; by rewrite app_nil_r|].
  apply (run_store c calls [] x co) in Hr. destruct (IH _ _ _ Hr) as [le' Hr']. exists le'. by rewrite <-app_assoc in Hr'.
Qed.
Lemma report_all c calls st : ∀ co le re, run c calls (mkState co st le re) → run c calls (mkState co [] le (re ++ st)).
Proof.
  induction st as [|x st IH]; intros co le re Hr; [by rewrite app_nil_r|].
  apply (run_report c calls co [] x st) in Hr. apply IH in Hr. by rewrite <-app_assoc in Hr.
Qed.


Definition demo_answer (diff : string) : LLMClient := λ req, (mkLLMResponse ("DIFF:" +:+ diff) 0 0 0 0 0 (User req), None).
Definition demo_request (user : string) : LLMRequest := mkLLMRequest "" "" user "" 0.

(** "The most recent divergence event": an agreement is remembered as well, and of two the one
    stored last, which need not be of the call made last or of the report made last. *)
Lemma canary_divergences : let c := mkClient (demo_answer "x") (Some (demo_answer "x")) AlwaysSample true None in
  ∃ s a b, run c [(None, demo_request "a"); (None, demo_request "b")] s ∧ LastEvent s = Some a ∧ Diverged a = false ∧
    PrimaryModel a = "a" ∧ map snd (reported s) = [a; b] ∧ PrimaryModel b = "b".
Proof.
  intros c. set (ev := λ m, (mkTenant "" "" "" "", mkCanaryEvent m m false "" "")).
  assert (run c [(None, demo_request "a"); (None, demo_request "b")] (mkState [ev "a"; ev "b"] [] None [])) as Hr.
  { exact (run_call c [(None, demo_request "a")] (None, demo_request "b") _ (run_call c [] (None, demo_request "a") _ (run_idle c))). }
  apply (run_store c _ [ev "a"] (ev "b") []), (run_store c _ [] (ev "a") []) in Hr. cbn [app] in Hr.
  apply (run_report c _ [] [ev "b"] (ev "a") []), (run_report c _ [] [] (ev "b") []) in Hr.
  exists (mkState [] [] (Some (ev "a").2) [ev "a"; ev "b"]), (ev "a").2, (ev "b").2. by split_and!.
Qed.
